(* ===== verification/_CoqProject ===== *)
-Q . S2P
Prelude.v
Alloc.v
Sys.v
Cstring.v
Lock.v
Log.v
Thread.v
Event.v
Host.v
Buffer.v
Scan.v
Stream.v
Queue.v
Hmap.v
Eventpoll.v
Eventloop.v
Sockaddr.v
Net.v
Socket.v
Listener.v
Connector.v
Util.v
Usage.v
Signals.v
Typing.v
Echo.v
Server.v
Api.v
