(* ===== verification/Prelude.v ===== *)
(** * lib_: buffers, streams, an event loop and sockets

    A model of the C library [lib_] and the theorems that make it correct.
    Each file models the [.c] and [.h] of one component, every function as one
    definition with the function's name; where a function contains a loop, the
    loop is a [Fixpoint] of its own (its name ends in [_loop]).  This file
    holds what all share: outcomes, machine integers, blocks of memory, and the
    tactics.

    ** The parts and how they interact

    - [_.c]: the allocation hook [alloc]; every component allocates with it.
      File [Alloc].
    - [buffer.c]: byte buffers with a read and a write position.  File [Buffer].
    - [stream.c]: a buffer in front of [readv] and [writev], called through a
      table of functions; [lock.c]: the spin locks it uses, and a
      readers-writer lock.  Files [Stream], [Lock].
    - [event.c], [epoll.c], [eventloop.c]: an event is what an owner waits for
      on a descriptor; the poll registers events with epoll and dispatches
      those reported; the loop polls, and applies the events that other threads
      put in its queue.  [thread.c] tells the loop whether it is called from
      its own thread.  Files [Event], [Eventpoll], [Eventloop], [Thread].
    - [socket.c], [listener.c], [connector.c]: an event with two streams; with
      an address to accept on; with an address to connect to.  A listener and a
      connector make a socket and hand it to a callback.  Files [Socket],
      [Listener], [Connector].
    - [sockaddr.c], [net.c]: addresses, and helpers for blocking sockets.  Files
      [Sockaddr], [Net].
    - [hmap.c]: a hash table of strings; [log.c], [timer.c], [debug.h],
      [util.c]: messages, the clock, assertions, pid files, limits, temporary
      files, resource usage, handlers of signals.  Files [Hmap], [Log], [Util],
      [Usage], [Signals].
    - [test.c], [asciilogo.h]: a server that sends every line back, on top of
      all of these.  Files [Echo], [Server].
    - The headers: a program reaches each component through a table of
      functions.  File [Api].
    - [Queue] and [Typing] model no code of their own: a stream and the store of
      sockets under sequences of operations.

    ** How the code is modelled

    - State.  The environment has a type [E]; what a component needs of it is a
      class on [E] (allocator, [errno], kernel calls in file [Sys]; the store of
      events in [Event]; the loop in [Eventloop]; ...).  A function is a
      definition in the monad [M E]; its result is [Ret], [UB] (the C standard
      gives the execution no meaning) or [Hang] (it did not return within the
      iterations allowed).  Buffers and streams are values passed along, for
      each has one owner; events, sockets, listeners and connectors are shared,
      so they live in stores, maps from addresses.  An event is the first
      member of its owner and has the owner's address.  The queue of the loop is
      linked through the field [next] of the events, as in the code.
    - The kernel and the C library are parameters.  What a theorem needs of them
      is a class of laws that states their documented behaviour ([FdLaws],
      [EpollLaws], [FilesLaws], ...).  File [Host] is a small kernel to evaluate
      the definitions in; it satisfies the laws, and the witness of every
      theorem is an execution on it or on a smaller one.  Files [Cstring]
      and [Scan] define what the code uses of the C library on strings:
      [strlen], [strtol], what [snprintf] stores, and the conversions of [scanf].
    - Memory is a list of bytes that may be indeterminate; access out of bounds,
      and use of an indeterminate byte, is [UB].  Integers are [Z] with the
      wrap-around written out ([u32], [u64], [i32]).
    - Threads.  [Lock] and the module [Thread.Boot] model code that runs
      concurrently with itself: a step per atomic operation or access to shared
      memory, and all interleavings.  Elsewhere the model is one thread that
      runs alone; a lock it finds taken hangs.
    - Fuel.  Loops on data are structural.  The others get fuel, and the
      theorems about them say how much is enough: one more than the bytes to
      send for writes and flushes (each [writev] accepts a byte or fails), one
      more than the length of the queue for [panding], two more than the reports
      served for [eventloop_loop], the bytes wanted plus the interruptions for
      [readn] and [writen], a round per 128 descriptors for [fd_limit].  [probe]
      runs with the size of the table, which is enough by itself.
    - [buffer_vprintf] formats again, with an argument list that was consumed
      and ended, when the text is longer than the space.  That is undefined, so
      the definition has one round.  The [va_copy] and [va_end] around it that do
      not match do nothing on this system, and are left out.
    - What a theorem knows of a failure.  When an operation fails because the
      kernel or the allocator refused something, its theorem names the call that
      refused ([Stream.refused], [Server.unregistered], [Server.turned_away]),
      so that giving up early does not satisfy it.

    ** The theorems

    - [Buffer]: an invariant, kept by every operation, under which nothing is
      undefined; a read returns what was written; extension keeps the contents;
      [yield] finds the first record; [printf] appends a text shorter than the
      space, cuts one that fills it, and is undefined for a longer one.
      [buffer_write_overlays] says what a write does to unread bytes.
    - [Stream]: a flush, and a write that does not fit in the buffer, send
      everything in order or stop when the descriptor refuses the rest, which
      stays in the buffer as far as it was there, proved against the promise
      [WritevSpec] that the functions of a descriptor keep; a write that fits is
      stored over the unread bytes; a fill that fits appends, one that does not
      counts bytes twice; the cases of a read.
    - [Lock]: mutual exclusion of both locks in all interleavings, a refinement
      of a specification of readers-writer locks, and progress.
    - [Hmap]: the table represents a map from strings, which [khlist_get]
      consults and [khlist_set] extends; what deletion keeps and what it loses;
      a full table.
    - [Eventpoll], [Eventloop]: the registrations with epoll after
      [eventpoll_apply], what a poll dispatches, and the round trip of masks;
      a queue is applied once, in order; when the loop ends; of the events queued
      between two rounds only the last is applied, and an event that was turned
      off stays off.
    - [Thread]: a thread has one block of its own; in all interleavings
      [thread_new] returns the block of the new thread, or races, or spins when
      there is no new thread.
    - [Sockaddr], [Net]: addresses round trip; paths fit; reads and writes of [n]
      bytes end and keep the order; a server's descriptors are closed or
      returned; which helpers always fail.
    - [Socket], [Listener], [Connector]: a new socket has an address of its own
      and leaves nothing behind without memory; what a socket sends and receives
      when the poll reports its descriptor, and what its callback is told; an
      accepted connection gets a socket or is closed; what [listener_bind] does
      on every branch; which failures are not reported.
    - [Log], [Util]: which messages are printed; limits, names of temporary
      files, pid files.
    - [Usage], [Signals]: [cpu_used] and [mem_used] read back the numbers that the
      kernel prints; after [handle_term] and [handle_crash] a signal runs the
      handler it should, and no other does.
    - [Queue]: the output of a stream refines a queue of bytes over any sequence
      of prints, writes and flushes, as long as no print reaches the space and no
      write fits in it behind unread bytes.  [Api]: byte buffers refine a queue of
      bytes over any sequence of operations made through their table, prints
      shorter than the space among them, proved for every table that keeps the
      promise [ByteQueue].
    - [Typing]: every socket in use has an event and two well-formed streams on
      the descriptor of that event, after any sequence of operations.
    - [Echo]: the components composed.  A report of epoll travels through the
      loop, the poll, the dispatch and the socket to the callback, which takes a
      line from one stream and sends it from the other: for one socket, a round
      refines one step of a specification on lists of bytes, any number of rounds
      conserves the bytes, and the loop ends when the client leaves.
    - [Server]: the same with any number of clients, from the connection on.  The
      specification is a relation on a map of clients; a round with any number of
      reports refines it, clients do not see each other, what was answered was
      sent unless the descriptor refused it, a connection gets a new socket that
      serves it, and over all rounds each client gets back what it sent.  All of
      it for input that fits in the buffers.

    ** What is not modelled

    Formatting: the text it produces is a parameter, or written out where the
    code formats decimal numbers and strings.  [getopt], and what [sscanf] leaves
    in a buffer that it reads and writes at the same time, are parameters.  Of
    [thread_new] and the readers-writer lock there are steps, so their tables
    have no record; the macros that only give names to types, and the build
    files, have no counterpart.  Of conditional code, the branches taken on Linux
    on x86-64, with [accept4], [epoll_create1] and [__thread].

    ** Still to do

    The backlog of a listener; the input of a stream as a queue; a server whose
    clients leave while others stay (the program ends then, see
    [Echo.echo_serves_to_the_end]); a connector from [connector_connect] to its
    callback as one theorem. *)

From Stdlib Require Export ZArith Lia.
From Stdlib Require Export Strings.Byte.
From Stdlib Require Import Strings.String.
From stdpp Require Export base list list_numbers numbers option gmap.

#[global] Open Scope Z_scope.

(** * Outcomes of C code

    [Ret a]: the code returns [a]; [UB]: it executed an operation the C
    standard gives no meaning (out-of-bounds access, use of an indeterminate
    value, use of a freed block); [Hang]: it did not return within the
    iterations the model allowed it. *)
Inductive outcome (A : Type) : Type :=
  | Ret (a : A)
  | UB
  | Hang.
Arguments Ret {A} a.
Arguments UB {A}.
Arguments Hang {A}.

#[export] Instance outcome_ret : MRet outcome := fun A a => Ret a.
#[export] Instance outcome_bind : MBind outcome := fun A B f m =>
  match m with Ret a => f a | UB => UB | Hang => Hang end.

(** Code that reads and changes the state [E] of its environment (the C
    runtime, the kernel, the global [errno]). *)
Definition M (E A : Type) : Type := E → outcome (A * E).

#[export] Instance M_ret {E} : MRet (M E) := fun A a s => Ret (a, s).
#[export] Instance M_bind {E} : MBind (M E) := fun A B f m s =>
  match m s with Ret (a, s') => f a s' | UB => UB | Hang => Hang end.

(** Code without effects on the environment. *)
Definition lift {E A} (o : outcome A) : M E A := fun s =>
  match o with Ret a => Ret (a, s) | UB => UB | Hang => Hang end.

(** A call into the environment. *)
Definition sys {E A} (f : E → A * E) : M E A := fun s => Ret (f s).

Definition ub {E A} : M E A := fun _ => UB.
Definition hang {E A} : M E A := fun _ => Hang.

(** * Machine integers *)

Definition u32 (z : Z) : Z := z mod 2 ^ 32.
Definition u64 (z : Z) : Z := z mod 2 ^ 64.
Definition i32 (z : Z) : Z := (z + 2 ^ 31) mod 2 ^ 32 - 2 ^ 31.

Definition is_u32 (z : Z) : Prop := 0 ≤ z < 2 ^ 32.
Definition is_i32 (z : Z) : Prop := - 2 ^ 31 ≤ z < 2 ^ 31.

Lemma u32_id z : is_u32 z → u32 z = z.
Proof. intros H. apply Z.mod_small, H. Qed.

Lemma u32_range z : is_u32 (u32 z).
Proof. apply Z.mod_pos_bound. lia. Qed.

Lemma u32_idemp z : u32 (u32 z) = u32 z.
Proof. apply u32_id, u32_range. Qed.

Lemma u32_add_wrap z : 2 ^ 32 ≤ z < 2 * 2 ^ 32 → u32 z = z - 2 ^ 32.
Proof. intros H. unfold u32. rewrite <- (Z.mod_add _ (-1)) by lia. apply Z.mod_small. lia. Qed.

Lemma u32_sub_wrap z : - 2 ^ 32 ≤ z < 0 → u32 z = z + 2 ^ 32.
Proof. intros H. unfold u32. rewrite <- (Z.mod_add _ 1) by lia. apply Z.mod_small. lia. Qed.

Lemma i32_id z : is_i32 z → i32 z = z.
Proof. intros H. unfold i32, is_i32 in *. rewrite Z.mod_small; lia. Qed.

Lemma i32_range z : is_i32 (i32 z).
Proof. unfold is_i32, i32. pose proof (Z.mod_pos_bound (z + 2 ^ 31) (2 ^ 32)). lia. Qed.

Create HintDb word.
Create Rewrite HintDb words.
Create Rewrite HintDb events.
#[export] Hint Resolve u32_range i32_range : word.
#[export] Hint Rewrite u32_idemp : words.

(** Remove the wrap-around of 32-bit expressions whose value is in range. *)
Ltac unwrap :=
  repeat match goal with
  | |- context [u32 ?z] => rewrite (u32_id z) by (unfold is_u32 in *; lia)
  | H : context [u32 ?z] |- _ => rewrite (u32_id z) in H by (unfold is_u32 in *; lia)
  end.

(** * Memory

    A byte of memory is a value or indeterminate; a block is what one call of
    the allocator returned. *)
Abbreviation cell := (option byte).
Abbreviation block := (list (option byte)).

#[export] Instance byte_eq_decision : EqDecision byte := byte_eq_dec.

Definition byte_val (b : byte) : Z := Z.of_N (to_N b).

(** The bytes of a string literal. *)
Definition str_of (s : string) : list byte := String.list_byte_of_string s.

(** A pointer to the start of an allocated block. *)
Inductive bptr : Type :=
  | Null
  | Dangling
  | Live (m : block).

(** Length as an integer. *)
Abbreviation zlen l := (Z.of_nat (length l)).

(** [n] bytes from offset [off]. *)
Definition slice {A} (off n : Z) (m : list A) : list A :=
  take (Z.to_nat n) (drop (Z.to_nat off) m).

(** [m] with the bytes from offset [off] on replaced by [d]. *)
Definition splice {A} (off : Z) (d m : list A) : list A :=
  take (Z.to_nat off) m ++ d ++ drop (Z.to_nat off + length d) m.

Definition mem_read (p : bptr) (off n : Z) : outcome block :=
  match p with
  | Live m => if bool_decide (0 ≤ off ∧ 0 ≤ n ∧ off + n ≤ zlen m)
              then Ret (slice off n m) else UB
  | _ => UB
  end.

Definition mem_write (p : bptr) (off : Z) (d : block) : outcome bptr :=
  match p with
  | Live m => if bool_decide (0 ≤ off ∧ off + zlen d ≤ zlen m)
              then Ret (Live (splice off d m)) else UB
  | _ => UB
  end.

(** [memmove] between two places of one block. *)
Definition mem_move (p : bptr) (dst src n : Z) : outcome bptr :=
  d ← mem_read p src n; mem_write p dst d.

(** Values of initialised bytes. *)
Definition defined (d : block) : outcome (list byte) :=
  match mapM id d with Some l => Ret l | None => UB end.

Section slices.
Context {A : Type}.
Implicit Types m d : list A.

Lemma slice_length off n m :
  0 ≤ off → 0 ≤ n → off + n ≤ zlen m → length (slice off n m) = Z.to_nat n.
Proof. intros. unfold slice. rewrite length_take, length_drop. lia. Qed.

Lemma splice_length off d m :
  0 ≤ off → off + zlen d ≤ zlen m → length (splice off d m) = length m.
Proof. intros. unfold splice. rewrite !length_app, length_take, length_drop. lia. Qed.

Lemma slice_nil off m : slice off 0 m = [].
Proof. done. Qed.

Lemma slice_full m : slice 0 (zlen m) m = m.
Proof. unfold slice. rewrite drop_0, Nat2Z.id. apply firstn_all. Qed.

Lemma slice_split off n k m :
  0 ≤ off → 0 ≤ k ≤ n →
  slice off n m = slice off k m ++ slice (off + k) (n - k) m.
Proof.
  intros Ho Hk. unfold slice.
  replace (Z.to_nat n) with (Z.to_nat k + Z.to_nat (n - k))%nat by lia.
  rewrite <- take_take_drop, drop_drop. do 3 f_equal. lia.
Qed.

Lemma slice_take off n k m :
  0 ≤ k ≤ n → take (Z.to_nat k) (slice off n m) = slice off k m.
Proof. intros. unfold slice. rewrite take_take. f_equal. lia. Qed.

Lemma slice_drop off n k m :
  0 ≤ off → 0 ≤ k ≤ n → 
  drop (Z.to_nat k) (slice off n m) = slice (off + k) (n - k) m.
Proof.
  intros. unfold slice.
  replace (Z.to_nat n) with (Z.to_nat k + Z.to_nat (n - k))%nat by lia.
  rewrite <- take_drop_commute, drop_drop. do 2 f_equal. lia.
Qed.

(** What a write leaves before, in and after the place written. *)
Lemma slice_splice_same off d m :
  0 ≤ off → off + zlen d ≤ zlen m → slice off (zlen d) (splice off d m) = d.
Proof.
  intros. unfold slice, splice. rewrite drop_app_length', take_app_length'; [done|lia|].
  rewrite length_take. lia.
Qed.

Lemma slice_splice_before off n d m k :
  0 ≤ k → 0 ≤ n → k + n ≤ off → off ≤ zlen m →
  slice k n (splice off d m) = slice k n m.
Proof.
  intros. unfold slice, splice.
  rewrite !take_drop_commute, take_app_le, take_take; [|rewrite length_take; lia].
  do 2 f_equal. lia.
Qed.

Lemma slice_splice_after off n d m k :
  0 ≤ off → off + zlen d ≤ k → off ≤ zlen m →
  slice k n (splice off d m) = slice k n m.
Proof.
  intros. unfold slice, splice. f_equal.
  rewrite drop_app_ge, drop_app_ge, drop_drop; rewrite ?length_take; [|lia..].
  f_equal. lia.
Qed.

(** A write at the start of a region overlays the region. *)
Lemma slice_splice_start off n d m :
  0 ≤ off → zlen d ≤ n → off + n ≤ zlen m →
  slice off n (splice off d m) = splice 0 d (slice off n m).
Proof.
  intros. rewrite (slice_split off n (zlen d)) by lia.
  rewrite slice_splice_same, slice_splice_after by lia.
  change (splice 0 d (slice off n m)) with (d ++ drop (length d) (slice off n m)).
  f_equal. rewrite <- (Nat2Z.id (length d)) at 3. by rewrite slice_drop by lia.
Qed.

Lemma splice_nil_app d m : length d = length m → splice 0 d m = d.
Proof.
  intros H. change (splice 0 d m) with (d ++ drop (length d) m).
  rewrite H, drop_all. apply app_nil_r.
Qed.

Lemma slice_app_l off n m m' :
  0 ≤ off → 0 ≤ n → off + n ≤ zlen m → slice off n (m ++ m') = slice off n m.
Proof.
  intros. unfold slice. rewrite drop_app_le, take_app_le; [done|rewrite length_drop|]; lia.
Qed.

Lemma slice_of_take off n k m :
  0 ≤ off → 0 ≤ n → off + n ≤ k → slice off n (take (Z.to_nat k) m) = slice off n m.
Proof.
  intros. unfold slice. rewrite !take_drop_commute, take_take. do 2 f_equal. lia.
Qed.
End slices.

Lemma mem_read_ok m off n :
  0 ≤ off → 0 ≤ n → off + n ≤ zlen m → mem_read (Live m) off n = Ret (slice off n m).
Proof. intros. cbn. by rewrite bool_decide_eq_true_2. Qed.

Lemma mem_write_ok m off d :
  0 ≤ off → off + zlen d ≤ zlen m → mem_write (Live m) off d = Ret (Live (splice off d m)).
Proof. intros. cbn. by rewrite bool_decide_eq_true_2. Qed.

Lemma mem_move_ok m dst src n :
  0 ≤ src → 0 ≤ n → 0 ≤ dst → src + n ≤ zlen m → dst + n ≤ zlen m →
  mem_move (Live m) dst src n = Ret (Live (splice dst (slice src n m) m)).
Proof.
  intros. unfold mem_move. rewrite mem_read_ok by done. cbn.
  rewrite bool_decide_eq_true_2; [done|]. rewrite slice_length; lia.
Qed.

(** Written out bytes. *)
Abbreviation cells l := (Some <$> (l : list byte)).

Lemma defined_cells (l : list byte) : defined (cells l) = Ret l.
Proof.
  unfold defined. replace (mapM id (cells l)) with (Some l); [done|].
  induction l as [|x l IH]; [done|]. cbn. by rewrite <- IH.
Qed.

(** * Running monadic code *)

Create Rewrite HintDb run.

Section run.
Context {E : Type}.

Lemma bind_run {A B} (m : M E A) (f : A → M E B) s :
  (m ≫= f) s = match m s with Ret (a, s') => f a s' | UB => UB | Hang => Hang end.
Proof. done. Qed.

Lemma ret_run {A} (a : A) (s : E) : (mret a : M E A) s = Ret (a, s).
Proof. done. Qed.

Lemma lift_run {A} (a : A) (s : E) : lift (Ret a) s = Ret (a, s).
Proof. done. Qed.

Lemma sys_run {A} (f : E → A * E) s : sys f s = Ret (f s).
Proof. done. Qed.
End run.

#[export] Hint Rewrite @bind_run @ret_run @lift_run @sys_run : run.

(** [mrun] executes the monadic code of the goal as far as it is known. *)
Ltac mrun :=
  repeat (progress (autorewrite with run;
    cbn beta iota zeta delta [Z.eqb Pos.eqb negb andb orb fst snd])).
Tactic Notation "mrun" "in" hyp(H) :=
  repeat (progress (autorewrite with run in H;
    cbn beta iota zeta delta [Z.eqb Pos.eqb negb andb orb fst snd] in H)).

(** Decide a closed fact of arithmetic. *)
Ltac by_computing := vm_compute; repeat split; solve [reflexivity | discriminate].

(** * Words and bit operations *)

Lemma lxor_u32 a b : is_u32 a → is_u32 b → is_u32 (Z.lxor a b).
Proof.
  unfold is_u32. intros Ha Hb.
  replace (Z.lxor a b) with (Z.lxor a b mod 2 ^ 32); [apply Z.mod_pos_bound; lia|].
  rewrite <- Z.land_ones by lia. apply Z.bits_inj'. intros n Hn.
  rewrite Z.land_spec, Z.testbit_ones_nonneg, !Z.lxor_spec by lia.
  destruct (Z.ltb_spec n 32); [by rewrite andb_true_r|].
  rewrite <- (Z.mod_small a (2 ^ 32)), <- (Z.mod_small b (2 ^ 32)) by lia.
  rewrite !Z.mod_pow2_bits_high by lia. done.
Qed.

Lemma byte_val_range b : 0 ≤ byte_val b < 256.
Proof. unfold byte_val. pose proof (to_N_bounded b). lia. Qed.
#[export] Hint Resolve lxor_u32 byte_val_range : word.
