(* ===== verification/Alloc.v ===== *)
(** * The allocation hook ([_.c], [_.h])

    Every component allocates, resizes and frees through the function pointer
    [alloc], which [_.c] sets to [default_alloc].  [default_alloc] calls
    [calloc] and [realloc]; whether the C runtime can satisfy a request is
    decided by the environment, through the class [Malloc].  A call
    [alloc(p, 0)] on a live block is the library's idiom for [free]: as
    [realloc(p, 0)] of the GNU C library does, it frees the block and returns
    [NULL]. *)
From S2P Require Import Prelude.

(** The C runtime's answer to a request for some bytes: satisfied or not. *)
Class Malloc (E : Type) := malloc_ok : Z → E → bool * E.

(** The contents of a block resized to [n] bytes: what fits is kept and what
    is new is indeterminate. *)
Definition resize (n : Z) (m : block) : block :=
  take (Z.to_nat n) m ++ replicate (Z.to_nat n - length m) None.

Definition zero_cell : cell := Some x00.

Section alloc.
Context {E : Type} `{!Malloc E}.

(** The block returned, and what became of [old]. *)
Definition default_alloc (old : bptr) (size : Z) : M E (bptr * bptr) :=
  match old with
  | Null =>
      ok ← sys (malloc_ok size);
      mret (if (ok : bool) then Live (replicate (Z.to_nat size) zero_cell) else Null, Null)
  | Dangling => ub
  | Live m =>
      if size =? 0 then mret (Null, Dangling)
      else ok ← sys (malloc_ok size);
           mret (if (ok : bool) then (Live (resize size m), Dangling) else (Null, Live m))
  end.

Definition alloc := default_alloc.
End alloc.

Section resize.
Implicit Types m : block.

Lemma resize_length n m : 0 ≤ n → length (resize n m) = Z.to_nat n.
Proof.
  intros. unfold resize. rewrite length_app, length_take, length_replicate. lia.
Qed.

(** A resized block keeps the bytes below both sizes. *)
Lemma slice_resize n m off k :
  0 ≤ off → 0 ≤ k → off + k ≤ n → off + k ≤ zlen m →
  slice off k (resize n m) = slice off k m.
Proof.
  intros. unfold resize. rewrite slice_app_l; [|lia..|rewrite length_take; lia].
  apply slice_of_take; lia.
Qed.
End resize.
#[export] Hint Rewrite resize_length using lia : words.

(** An environment to evaluate the definitions in: memory for every request. *)
#[export] Instance plenty : Malloc unit := fun _ s => (true, s).
