(* ===== verification/Sys.v ===== *)
(** * The C runtime and the kernel, as the library sees them

    The state of the environment is a type [E].  What a component needs of it
    is a class on [E], with the documented behaviour it relies on as a second
    class of laws. *)
From S2P Require Import Prelude Alloc.

(** ** [errno] *)

Definition ENOENT : Z := 2.
Definition EINTR : Z := 4.
Definition EBADF : Z := 9.
Definition EAGAIN : Z := 11.
Definition ENOMEM : Z := 12.
Definition EEXIST : Z := 17.
Definition EINVAL : Z := 22.
Definition EADDRINUSE : Z := 98.
Definition ETIMEDOUT : Z := 110.
Definition EINPROGRESS : Z := 115.

Class Errno (E : Type) := { get_errno : E → Z; put_errno : Z → E → E }.

Section errno.
Context {E : Type} `{!Errno E}.

Definition errno : M E Z := sys (λ e, (get_errno e, e)).
Definition set_errno (x : Z) : M E unit := sys (λ e, (tt, put_errno x e)).
End errno.

(** ** Files and sockets

    A failing call returns -1 and leaves the reason in [errno]. *)
Class FdOps (E : Type) := {
  sys_open : list byte → Z → Z → E → Z * E;
  sys_close : Z → E → Z * E;
  (** The lengths of the destinations; the bytes received fill them in order. *)
  sys_readv : Z → list Z → E → Z * list byte * E;
  sys_writev : Z → list block → E → Z * E;
  sys_lseek : Z → Z → Z → E → Z * E;
}.

(** [read] and [write] of one run of bytes. *)
Class IoOps (E : Type) := {
  sys_read : Z → Z → E → Z * list byte * E;
  sys_write : Z → block → E → Z * E;
}.

Definition total (l : list Z) : Z := foldr Z.add 0 l.

(** [readv] and [writev] transfer at most what they are given, and [writev]
    of a descriptor adds what it accepted to the bytes sent so far. *)
Class FdLaws (E : Type) `{!FdOps E} (fd : Z) (sent : E → block) := {
  readv_law lens e r d e' : 0 ≤ total lens → sys_readv fd lens e = (r, d, e') →
    sent e' = sent e ∧ ((r = -1 ∧ d = []) ∨ (r = zlen d ∧ r ≤ total lens));
  writev_law iov e r e' : sys_writev fd iov e = (r, e') →
    (r = -1 ∧ sent e' = sent e) ∨
    (0 ≤ r ≤ zlen (concat iov) ∧ sent e' = sent e ++ take (Z.to_nat r) (concat iov));
}.

(** The bytes sent do not depend on the allocator or on [errno]. *)
Class SentFrame (E : Type) `{!Malloc E, !Errno E} (sent : E → block) := {
  sent_malloc n e : sent (snd (malloc_ok n e)) = sent e;
  sent_errno x e : sent (put_errno x e) = sent e;
}.

(** ** epoll and eventfd

    The pointer that a registration carries is the address of an event. *)
Definition EPOLLIN : Z := 0x001.
Definition EPOLLOUT : Z := 0x004.
Definition EPOLLERR : Z := 0x008.
Definition EPOLLHUP : Z := 0x010.
Definition EPOLLET : Z := 2 ^ 31.
Definition EPOLL_CTL_ADD : Z := 1.
Definition EPOLL_CTL_DEL : Z := 2.
Definition EPOLL_CTL_MOD : Z := 3.
Definition EPOLL_CLOEXEC : Z := 0x80000.
Definition EFD_CLOEXEC : Z := 0x80000.
Definition EFD_NONBLOCK : Z := 0x800.

Class EpollOps (E : Type) := {
  sys_epoll_create1 : Z → E → Z * E;
  sys_eventfd : Z → Z → E → Z * E;
  (** The poll, the operation, the descriptor, and events and pointer. *)
  sys_epoll_ctl : Z → Z → Z → option (Z * positive) → E → Z * E;
  (** The poll, the most events wanted, and the time to wait. *)
  sys_epoll_wait : Z → Z → Z → E → Z * list (Z * positive) * E;
}.

(** What an operation does to the registrations of a poll, if it may succeed. *)
Definition ctl_effect (op fd : Z) (evt : option (Z * positive))
    (m : gmap Z (Z * positive)) : option (gmap Z (Z * positive)) :=
  match evt with
  | Some x =>
      if op =? EPOLL_CTL_ADD then
        match m !! fd with None => Some (<[fd := x]> m) | Some _ => None end
      else if op =? EPOLL_CTL_MOD then
        match m !! fd with Some _ => Some (<[fd := x]> m) | None => None end
      else None
  | None =>
      if op =? EPOLL_CTL_DEL then
        match m !! fd with Some _ => Some (delete fd m) | None => None end
      else None
  end.

(** epoll(7), epoll_ctl(2), epoll_wait(2): [EEXIST] says that a descriptor to
    add is registered, [ENOENT] that one to change or remove is not. *)
Class EpollLaws (E : Type) `{!Errno E, !EpollOps E} (epfd : Z)
    (interest : E → gmap Z (Z * positive)) := {
  ctl_law op fd evt e r e' : sys_epoll_ctl epfd op fd evt e = (r, e') →
    (r = 0 ∧ ctl_effect op fd evt (interest e) = Some (interest e')) ∨
    (r = -1 ∧ interest e' = interest e ∧
     (get_errno e' = EEXIST ↔ op = EPOLL_CTL_ADD ∧ is_Some (interest e !! fd)) ∧
     (get_errno e' = ENOENT ↔ op ≠ EPOLL_CTL_ADD ∧ interest e !! fd = None));
  wait_law max t e n l e' : sys_epoll_wait epfd max t e = (n, l, e') →
    interest e' = interest e ∧
    ((n = -1 ∧ l = []) ∨ (n = zlen l ∧ n ≤ max ∧ Forall (λ x, ∃ fd y, interest e !! fd = Some (y, snd x)) l));
}.

(** ** Sockets

    An address is a run of bytes. *)
Class SockOps (E : Type) := {
  sys_socket : Z → Z → Z → E → Z * E;
  sys_bind : Z → block → E → Z * E;
  sys_listen : Z → Z → E → Z * E;
  sys_connect : Z → block → E → Z * E;
  (** The descriptor, the room for the peer's address, and the flags. *)
  sys_accept4 : Z → Z → Z → E → Z * list byte * E;
  sys_getsockname : Z → Z → E → Z * list byte * E;
  sys_getpeername : Z → Z → E → Z * list byte * E;
  sys_setsockopt : Z → Z → Z → Z → E → Z * E;
  sys_getsockopt : Z → Z → Z → E → Z * Z * E;
  sys_getfl : Z → E → Z * E;
  sys_setfl : Z → Z → E → Z * E;
  sys_setfd : Z → Z → E → Z * E;
  sys_shutdown : Z → Z → E → Z * E;
  sys_unlink : list byte → E → Z * E;
  sys_chmod : list byte → Z → E → Z * E;
}.

(** ** What the kernel does not touch

    A part of the state that no call into the C runtime changes. *)
Class KernelFrame (E : Type) `{!Malloc E, !Errno E, !IoOps E, !FdOps E, !SockOps E}
    {X : Type} (view : E → X) := {
  kf_malloc n e : view (snd (malloc_ok n e)) = view e;
  kf_errno x e : view (put_errno x e) = view e;
  kf_read fd n e : view (snd (sys_read fd n e)) = view e;
  kf_open f x y e : view (snd (sys_open f x y e)) = view e;
  kf_close fd e : view (snd (sys_close fd e)) = view e;
  kf_readv fd l e : view (snd (sys_readv fd l e)) = view e;
  kf_writev fd l e : view (snd (sys_writev fd l e)) = view e;
  kf_socket d t p e : view (snd (sys_socket d t p e)) = view e;
  kf_bind fd d e : view (snd (sys_bind fd d e)) = view e;
  kf_listen fd n e : view (snd (sys_listen fd n e)) = view e;
  kf_connect fd d e : view (snd (sys_connect fd d e)) = view e;
  kf_accept4 fd n x e : view (snd (sys_accept4 fd n x e)) = view e;
  kf_getsockname fd n e : view (snd (sys_getsockname fd n e)) = view e;
  kf_getsockopt fd l o e : view (snd (sys_getsockopt fd l o e)) = view e;
  kf_setsockopt fd l o v e : view (snd (sys_setsockopt fd l o v e)) = view e;
  kf_getfl fd e : view (snd (sys_getfl fd e)) = view e;
  kf_setfl fd x e : view (snd (sys_setfl fd x e)) = view e;
  kf_setfd fd x e : view (snd (sys_setfd fd x e)) = view e;
  kf_unlink f e : view (snd (sys_unlink f e)) = view e;
}.

(** ** A concrete environment

    Memory for every request, an input of bytes to receive, and an output that
    accepts at most [p_chunk] bytes at a time. *)
Record pipe := mk_pipe {
  p_errno : Z; p_sent : block; p_input : list byte; p_chunk : Z }.

Definition pipe_fail (x : Z) (e : pipe) : pipe :=
  mk_pipe x (p_sent e) (p_input e) (p_chunk e).

#[export] Instance pipe_malloc : Malloc pipe := fun _ e => (true, e).
#[export] Instance pipe_errno : Errno pipe := {
  get_errno := p_errno;
  put_errno := pipe_fail;
}.
#[export] Instance pipe_ops : FdOps pipe := {
  sys_open _ _ _ e := (3, e);
  sys_close _ e := (0, e);
  sys_readv _ lens e :=
    let d := take (Z.to_nat (total lens)) (p_input e) in
    match p_input e with
    | [] => (-1, [], pipe_fail EAGAIN e)
    | _ => (zlen d, d, mk_pipe (p_errno e) (p_sent e)
                         (drop (Z.to_nat (total lens)) (p_input e)) (p_chunk e))
    end;
  sys_writev _ iov e :=
    let n := Z.min (p_chunk e) (zlen (concat iov)) in
    if n <=? 0 then (-1, pipe_fail EAGAIN e)
    else (n, mk_pipe (p_errno e) (p_sent e ++ take (Z.to_nat n) (concat iov)) (p_input e) (p_chunk e));
  sys_lseek _ delta _ e := (delta, e);
}.

Lemma pipe_laws_frame : SentFrame pipe p_sent.
Proof. by split. Qed.
#[export] Existing Instance pipe_laws_frame.

Lemma pipe_laws fd : FdLaws pipe fd p_sent.
Proof.
  split.
  - intros lens e r d e' Hn. cbn. destruct (p_input e) as [|x l] eqn:Hin; intros [= <- <- <-].
    + split; [done|]. by left.
    + split; [done|]. right. split; [done|]. rewrite length_take. lia.
  - intros iov e r e'. cbn. destruct (Z.leb_spec (p_chunk e `min` zlen (concat iov)) 0);
      intros [= <- <-]; [by left|right]. split; [lia|done].
Qed.
#[export] Existing Instance pipe_laws.
