(* ===== verification/Cstring.v ===== *)
(** * Strings of the C library: [strlen], [snprintf], [strtol], decimal numbers *)
From stdpp Require Import strings.
From S2P Require Import Prelude.

(** [strlen]: the bytes up to the first null must be there and initialised. *)
Fixpoint strlen (m : block) : outcome Z :=
  match m with
  | [] => UB
  | None :: _ => UB
  | Some b :: m => if decide (b = x00) then Ret 0 else n ← strlen m; Ret (n + 1)
  end.

(** [snprintf] into the block [m] at [off] with room [n]: a terminated prefix. *)
Definition snprintf_at (m : block) (off n : Z) (text : list byte) : outcome block :=
  if n <=? 0 then Ret m
  else
    p ← mem_write (Live m) off (cells (take (Z.to_nat (n - 1)) text ++ [x00]));
    match p with Live m => Ret m | _ => UB end.

(** [strtol(buf, 0, 10)]: white space, a sign, and digits up to the first byte
    that is none; all these bytes must be there. *)
Definition is_digit (b : byte) : bool := (48 <=? byte_val b) && (byte_val b <=? 57).

Fixpoint digits (m : block) (acc : Z) : outcome Z :=
  match m with
  | Some b :: m => if is_digit b then digits m (10 * acc + (byte_val b - 48)) else Ret acc
  | _ => UB
  end.

Fixpoint strtol (m : block) : outcome Z :=
  match m with
  | Some b :: m' =>
      if (byte_val b =? 32) || ((9 <=? byte_val b) && (byte_val b <=? 13)) then strtol m'
      else if byte_val b =? 45 then v ← digits m' 0; Ret (- v)
      else if byte_val b =? 43 then digits m' 0
      else digits m 0
  | _ => UB
  end.

(** [%d] *)
Definition digit_of (d : Z) : byte :=
  match of_N (Z.to_N (48 + d)) with Some b => b | None => x00 end.

Fixpoint dec_go (fuel : nat) (n : Z) (acc : list byte) : list byte :=
  match fuel with
  | O => acc
  | S fuel =>
      let acc := digit_of (n mod 10) :: acc in
      if n <? 10 then acc else dec_go fuel (n / 10) acc
  end.

Definition dec (z : Z) : list byte :=
  if z <? 0 then str_of "-" ++ dec_go (S (Z.to_nat (Z.log2 (- z)))) (- z) []
  else dec_go (S (Z.to_nat (Z.log2 z))) z [].

Example dec_some : (dec 0, dec 7, dec 8800, dec (-12)) = (str_of "0", str_of "7", str_of "8800", str_of "-12").
Proof. by vm_compute. Qed.

(** * Lemmas *)

(** [strlen] of a terminated text. *)
Lemma strlen_text (l : list byte) m : x00 ∉ l → strlen (cells l ++ Some x00 :: m) = Ret (zlen l).
Proof.
  induction l as [|b l IH]; intros Hn; [done|]. apply not_elem_of_cons in Hn as [Hb Hn].
  cbn [app fmap list_fmap strlen]. rewrite decide_False by done. rewrite IH by done.
  cbn [mbind outcome_bind]. f_equal. cbn [length]. lia.
Qed.

(** A text that fits is written with its terminator. *)
Lemma snprintf_fits m off n text :
  0 ≤ off → off + n ≤ zlen m → zlen text < n →
  snprintf_at m off n text = Ret (splice off (cells (text ++ [x00])) m).
Proof.
  intros. unfold snprintf_at. destruct (Z.leb_spec n 0); [lia|].
  rewrite take_ge by lia. rewrite mem_write_ok by (rewrite ?length_fmap, ?length_app; cbn; lia). done.
Qed.

Lemma digit_val d : 0 ≤ d < 10 → byte_val (digit_of d) = 48 + d ∧ is_digit (digit_of d) = true.
Proof.
  intros Hd. assert (byte_val (digit_of d) = 48 + d) as Hv.
  { unfold digit_of, byte_val. destruct (of_N (Z.to_N (48 + d))) as [b|] eqn:Hb.
    - apply to_of_N in Hb. rewrite Hb. lia.
    - apply of_N_None_iff in Hb. lia. }
  split; [done|]. unfold is_digit. rewrite Hv. lia.
Qed.

Lemma dec_go_digits fuel n acc :
  0 ≤ n < 2 ^ Z.of_nat fuel →
  ∃ p, ∀ m a, digits (cells (dec_go fuel n acc) ++ m) a = digits (cells acc ++ m) (a * p + n).
Proof.
  revert n acc. induction fuel as [|fuel IH]; intros n acc Hn.
  { exists 1. cbn in Hn. intros m a. replace (a * 1 + n) with a by lia. done. }
  cbn [dec_go]. pose proof (Z.mod_pos_bound n 10 eq_refl) as Hm.
  destruct (digit_val (n mod 10) Hm) as [Hv Hd].
  pose proof (Z.div_mod n 10) as Hdm. destruct (Z.ltb_spec n 10) as [Hlt|Hge].
  - exists 10. intros m a. cbn [fmap list_fmap app digits]. rewrite Hd, Hv. f_equal.
    rewrite (Z.mod_small n 10) by lia. lia.
  - destruct (IH (n / 10) (digit_of (n mod 10) :: acc)) as [p Hp].
    { split; [apply Z.div_pos; lia|]. apply Z.div_lt_upper_bound; [lia|].
      replace (Z.of_nat (S fuel)) with (Z.succ (Z.of_nat fuel)) in Hn by lia.
      rewrite Z.pow_succ_r in Hn by lia. lia. }
    exists (10 * p). intros m a. rewrite Hp. cbn [fmap list_fmap app digits]. rewrite Hd, Hv. f_equal. lia.
Qed.

(** The first byte of a number is a digit. *)
Lemma dec_go_head fuel n acc :
  0 ≤ n → (0 < fuel)%nat → ∃ b l, dec_go fuel n acc = b :: l ∧ is_digit b = true.
Proof.
  revert n acc. induction fuel as [|fuel IH]; intros n acc Hn Hf; [lia|]. cbn [dec_go].
  pose proof (Z.mod_pos_bound n 10 eq_refl) as Hm. destruct (digit_val (n mod 10) Hm) as [_ Hd].
  destruct (n <? 10); [eauto|]. destruct fuel as [|fuel]; [cbn; eauto|].
  apply IH; [apply Z.div_pos; lia|lia].
Qed.

(** Reading back a number that was printed. *)
Lemma strtol_dec z b m :
  0 ≤ z → is_digit b = false → strtol (cells (dec z) ++ Some b :: m) = Ret z.
Proof.
  intros Hz Hb. unfold dec. destruct (Z.ltb_spec z 0); [lia|].
  assert (0 ≤ z < 2 ^ Z.of_nat (S (Z.to_nat (Z.log2 z)))) as Hr.
  { split; [done|]. rewrite Nat2Z.inj_succ, Z2Nat.id by apply Z.log2_nonneg.
    destruct (Z.eq_dec z 0) as [->|]; [done|]. apply Z.log2_spec. lia. }
  destruct (dec_go_digits _ z [] Hr) as [p Hp]. specialize (Hp (Some b :: m) 0).
  destruct (dec_go_head (S (Z.to_nat (Z.log2 z))) z [] Hz) as (c & l & Hl & Hc); [lia|].
  rewrite Hl in *. cbn [fmap list_fmap app] in *. cbn [strtol].
  assert (48 ≤ byte_val c ≤ 57) as Hcv by (unfold is_digit in Hc; lia).
  destruct (Z.eqb_spec (byte_val c) 32); [lia|]. destruct (Z.leb_spec (byte_val c) 13); [lia|].
  rewrite andb_false_r. cbn [orb].
  destruct (Z.eqb_spec (byte_val c) 45); [lia|]. destruct (Z.eqb_spec (byte_val c) 43); [lia|].
  rewrite Hp. cbn [digits]. by rewrite Hb.
Qed.

Lemma dec_go_length fuel n acc : (length (dec_go fuel n acc) ≤ fuel + length acc)%nat.
Proof.
  revert n acc. induction fuel as [|fuel IH]; intros n acc; cbn [dec_go]; [done|].
  destruct (n <? 10); [cbn; lia|]. specialize (IH (n / 10) (digit_of (n mod 10) :: acc)). cbn in IH. lia.
Qed.

(** A 31-bit number has at most 31 digits. *)
Lemma dec_length z : 0 ≤ z < 2 ^ 31 → (length (dec z) ≤ 31)%nat.
Proof.
  intros Hz. unfold dec. destruct (Z.ltb_spec z 0); [lia|].
  pose proof (dec_go_length (S (Z.to_nat (Z.log2 z))) z []) as Hl. cbn [length] in Hl.
  assert (Z.log2 z ≤ 30) by (replace 30 with (Z.log2 (2 ^ 31 - 1)) by done; apply Z.log2_le_mono; lia).
  pose proof (Z.log2_nonneg z). lia.
Qed.
