(* ===== verification/Lock.v ===== *)
(** * Spin locks ([lock.c], [lock.h])

    The code of each lock function is a step function of one thread on the
    shared lock: one step is one atomic operation, one load of a shared
    field, or the call or return itself.  Threads interleave their steps
    arbitrarily, and memory is taken to be sequentially consistent.  The builtins
    promise less: adding, subtracting and [__sync_synchronize] are full barriers,
    but [__sync_lock_test_and_set] only acquires and [__sync_lock_release] only
    releases.  On x86-64, where an exchange is a full barrier, it makes no
    difference; what a weaker memory may reorder is not modelled. *)
From S2P Require Import Prelude.

(** ** Counting threads *)

Section count.
Context {A : Type} (P : A → bool).

Definition b2z (b : bool) : Z := if b then 1 else 0.

(** The number of elements that satisfy [P]. *)
Fixpoint count (l : list A) : Z :=
  match l with [] => 0 | x :: l => b2z (P x) + count l end.

Lemma count_bounds l : 0 ≤ count l ≤ zlen l.
Proof. induction l as [|x l IH]; cbn; [lia|]. unfold b2z. destruct (P x); lia. Qed.

Lemma count_insert l i x y :
  l !! i = Some x → count (<[i:=y]> l) = count l - b2z (P x) + b2z (P y).
Proof.
  revert i. induction l as [|z l IH]; intros [|i] H; cbn in *; try done.
  - injection H as ->. lia.
  - change (b2z (P z) + count (<[i:=y]> l) = b2z (P z) + count l - b2z (P x) + b2z (P y)).
    rewrite (IH i H). lia.
Qed.

Lemma count_pos l i x : l !! i = Some x → P x = true → 1 ≤ count l.
Proof.
  revert i. induction l as [|z l IH]; intros [|i] H HP; cbn in *; try done.
  - injection H as ->. rewrite HP. pose proof (count_bounds l). cbn. lia.
  - specialize (IH i H HP). unfold b2z. destruct (P z); lia.
Qed.

Lemma count_two l i j x y :
  l !! i = Some x → l !! j = Some y → P x = true → P y = true → i ≠ j → 2 ≤ count l.
Proof.
  revert i j. induction l as [|z l IH]; intros [|i] [|j] Hi Hj Hx Hy Hij; cbn in *; try done.
  - injection Hi as ->. rewrite Hx. pose proof (count_pos l j y Hj Hy). cbn. lia.
  - injection Hj as ->. rewrite Hy. pose proof (count_pos l i x Hi Hx). cbn. lia.
  - specialize (IH i j Hi Hj Hx Hy ltac:(lia)). unfold b2z. destruct (P z); lia.
Qed.

Lemma count_zero l i x : count l = 0 → l !! i = Some x → P x = false.
Proof.
  intros H Hi. destruct (P x) eqn:HP; [|done]. pose proof (count_pos l i x Hi HP). lia.
Qed.

Lemma count_find l : 0 < count l → ∃ i x, l !! i = Some x ∧ P x = true.
Proof.
  induction l as [|z l IH]; cbn; [lia|]. destruct (P z) eqn:HP.
  - intros _. by exists 0%nat, z.
  - intros H. destruct IH as (i & x & ? & ?); [unfold b2z in H; lia|]. by exists (S i), x.
Qed.

Lemma count_replicate n x : P x = false → count (replicate n x) = 0.
Proof. intros H. induction n as [|n IH]; cbn; [done|]. by rewrite H, IH. Qed.
End count.

(** ** The mutual exclusion lock *)

(** [__sync_lock_test_and_set(v, 1)]: the old value, and the new one. *)
Definition test_and_set (v : Z) : Z * Z := (v, 1).

(** One thread that locks, with [fuel] rounds of the loop. *)
Fixpoint mtx_lock (fuel : nat) (v : Z) : outcome Z :=
  match fuel with
  | O => Hang
  | S fuel => let '(old, v') := test_and_set v in
              if old =? 0 then Ret v' else mtx_lock fuel v'
  end.

Definition mtx_unlock (v : Z) : Z := 0.

(** On its own a thread takes a free lock at once, and a lock that is held
    never. *)
Lemma mtx_lock_spec fuel v :
  mtx_lock (S fuel) v = if v =? 0 then Ret 1 else Hang.
Proof.
  cbn. destruct (Z.eqb_spec v 0); [done|]. by induction fuel.
Qed.

Module Mtx.
(** Where a thread is: outside, in the loop of [mtx_lock], or between
    [mtx_lock] and [mtx_unlock]. *)
Inductive pc := Idle | Spin | Crit.

Definition lock_step (v : Z) : pc * Z :=
  let '(old, v') := test_and_set v in (if old =? 0 then Crit else Spin, v').

(** The next step of a thread; [Idle] enters [mtx_lock], [Crit] runs
    [mtx_unlock]. *)
Definition thread_step (p : pc) (v : Z) : pc * Z :=
  match p with
  | Idle => (Spin, v)
  | Spin => lock_step v
  | Crit => (Idle, mtx_unlock v)
  end.

Definition state : Type := Z * list pc.

Inductive step : state → state → Prop :=
  | step_thread v l i p p' v' :
      l !! i = Some p → thread_step p v = (p', v') →
      step (v, l) (v', <[i:=p']> l).

Definition init (n : nat) : state := (0, replicate n Idle).

Definition in_crit (p : pc) : bool := match p with Crit => true | _ => false end.

(** The lock holds the number of threads in the critical section. *)
Definition inv (s : state) : Prop :=
  s.1 = count in_crit s.2 ∧ (s.1 = 0 ∨ s.1 = 1).

Lemma mtx_inv_init n : inv (init n).
Proof. split; cbn; [by rewrite count_replicate|by left]. Qed.

Lemma mtx_inv_step s s' : inv s → step s s' → inv s'.
Proof.
  intros Hinv Hs. revert Hinv. destruct Hs as [v l i p p' v' Hi Ht].
  intros [Hc Hv]. unfold inv. cbn in *.
  rewrite (count_insert _ l i p p' Hi).
  destruct p; cbn in Ht; unfold lock_step, test_and_set, mtx_unlock in Ht; simplify_eq; cbn.
  - lia.
  - destruct (Z.eqb_spec (count in_crit l) 0); cbn; lia.
  - pose proof (count_pos in_crit l i Crit Hi eq_refl). lia.
Qed.

Lemma mtx_inv_reachable n s : rtc step (init n) s → inv s.
Proof.
  intros H. pose proof (mtx_inv_init n) as Hi. induction H; eauto using mtx_inv_step.
Qed.
End Mtx.

(** C32: in every interleaving of any number of threads at most one of them is
    between [mtx_lock] and [mtx_unlock]. *)
Theorem mtx_exclusion n v l i j :
  rtc Mtx.step (Mtx.init n) (v, l) →
  l !! i = Some Mtx.Crit → l !! j = Some Mtx.Crit → i = j.
Proof.
  intros Hr Hi Hj. destruct (Mtx.mtx_inv_reachable n _ Hr) as [Hc Hv]. cbn in *.
  destruct (decide (i = j)) as [|Hne]; [done|].
  pose proof (count_two Mtx.in_crit l i j _ _ Hi Hj eq_refl eq_refl Hne). lia.
Qed.

(** ** The readers-writer lock *)

(** [struct _rwlock] *)
Record rwlock_t := mk_rwlock { read : Z; write : Z }.

Definition rwlock_init : rwlock_t := mk_rwlock 0 0.

Module Rw.
(** Where a thread is.  [R*]: in [rlock], [RCrit]: between [rlock] and
    [runlock]; [W*]: in [wlock], [WCrit]: between [wlock] and [wunlock]. *)
Inductive pc :=
  | Idle
  | R_wait      (** [while (v->write)] *)
  | R_add       (** [__sync_add_and_fetch(&v->read, 1)] *)
  | R_test      (** [if (v->write)] *)
  | R_sub       (** [__sync_sub_and_fetch(&v->read, 1)] *)
  | RCrit
  | W_set       (** [while (__sync_lock_test_and_set(&v->write, 1))] *)
  | W_wait      (** [while (v->read)] *)
  | WCrit.

Definition rlock_step (p : pc) (v : rwlock_t) : pc * rwlock_t :=
  match p with
  | R_wait => (if write v =? 0 then R_add else R_wait, v)
  | R_add => (R_test, mk_rwlock (i32 (read v + 1)) (write v))
  | R_test => (if write v =? 0 then RCrit else R_sub, v)
  | R_sub => (R_wait, mk_rwlock (i32 (read v - 1)) (write v))
  | _ => (p, v)
  end.

Definition runlock (v : rwlock_t) : rwlock_t := mk_rwlock (i32 (read v - 1)) (write v).

Definition wlock_step (p : pc) (v : rwlock_t) : pc * rwlock_t :=
  match p with
  | W_set => let '(old, w) := test_and_set (write v) in
             (if old =? 0 then W_wait else W_set, mk_rwlock (read v) w)
  | W_wait => (if read v =? 0 then WCrit else W_wait, v)
  | _ => (p, v)
  end.

Definition wunlock (v : rwlock_t) : rwlock_t := mk_rwlock (read v) 0.

(** The next steps of a thread; [Idle] calls [rlock] or [wlock]. *)
Definition thread_step (p : pc) (v : rwlock_t) : list (pc * rwlock_t) :=
  match p with
  | Idle => [(R_wait, v); (W_set, v)]
  | R_wait | R_add | R_test | R_sub => [rlock_step p v]
  | W_set | W_wait => [wlock_step p v]
  | RCrit => [(Idle, runlock v)]
  | WCrit => [(Idle, wunlock v)]
  end.

Definition state : Type := rwlock_t * list pc.

Inductive step : state → state → Prop :=
  | step_thread v l i p p' v' :
      l !! i = Some p → (p', v') ∈ thread_step p v →
      step (v, l) (v', <[i:=p']> l).

Definition init (n : nat) : state := (rwlock_init, replicate n Idle).

(** The threads counted in [read], the owner of [write], and the threads
    that may use what the lock protects. *)
Definition counted (p : pc) : bool :=
  match p with R_test | R_sub | RCrit => true | _ => false end.
Definition owns_write (p : pc) : bool :=
  match p with W_wait | WCrit => true | _ => false end.
Definition reading (p : pc) : bool := match p with RCrit => true | _ => false end.
Definition writing (p : pc) : bool := match p with WCrit => true | _ => false end.

Definition inv (n : nat) (s : state) : Prop :=
  length s.2 = n ∧
  read s.1 = count counted s.2 ∧
  write s.1 = count owns_write s.2 ∧ (write s.1 = 0 ∨ write s.1 = 1) ∧
  (1 ≤ count writing s.2 → count reading s.2 = 0).

Lemma rw_inv_init n : inv n (init n).
Proof.
  unfold inv, init. cbn. rewrite length_replicate, !count_replicate by done.
  repeat split; auto; lia.
Qed.

Lemma count_impl (P Q : pc → bool) l :
  (∀ p, P p = true → Q p = true) → count P l ≤ count Q l.
Proof.
  intros H. induction l as [|p l IH]; cbn; [lia|].
  specialize (H p). unfold b2z. destruct (P p), (Q p); try lia; by discriminate (H eq_refl).
Qed.

Lemma rw_inv_step n s s' : Z.of_nat n < 2 ^ 31 → inv n s → step s s' → inv n s'.
Proof.
  intros Hn Hinv Hs. revert Hinv. destruct Hs as [v l i p p' v' Hi Ht].
  intros (Hlen & Hr & Hw & Hw01 & Hex). unfold inv. cbn [fst snd] in *. rewrite length_insert.
  rewrite !(count_insert _ l i p p' Hi).
  pose proof (count_bounds counted l) as Hcb.
  pose proof (count_bounds owns_write l). pose proof (count_bounds reading l).
  pose proof (count_bounds writing l).
  pose proof (count_impl reading counted l ltac:(by intros [])) as Hrc.
  pose proof (count_impl writing owns_write l ltac:(by intros [])).
  assert (∀ P : pc → bool, P p = true → 1 ≤ count P l) as Hpos
    by (intros P; by apply count_pos with i).
  assert (read v < zlen l ∨ counted p = true) as Hroom.
  { destruct (counted p) eqn:Hp; [by right|left]. rewrite Hr.
    pose proof (count_bounds counted (<[i:=RCrit]> l)) as Hb.
    rewrite (count_insert _ l i p _ Hi), Hp, length_insert in Hb. cbn in Hb. lia. }
  specialize (Hpos counted) as Hp1. specialize (Hpos owns_write) as Hp2.
  specialize (Hpos reading) as Hp3. specialize (Hpos writing) as Hp4.
  destruct p; cbn in Ht; rewrite ?list_elem_of_In in Ht; cbn in Ht;
    unfold rlock_step, wlock_step, runlock, wunlock, test_and_set in Ht;
    repeat match type of Ht with _ ∨ _ => destruct Ht as [Ht|Ht] | False => done end;
    simplify_eq; cbn in *;
    rewrite ?i32_id by (unfold is_i32; lia);
    repeat match goal with |- context [?a =? ?b] => destruct (Z.eqb_spec a b) end;
    cbn; repeat split; lia.
Qed.

Lemma rw_inv_reachable n s : Z.of_nat n < 2 ^ 31 → rtc step (init n) s → inv n s.
Proof.
  intros Hn H. pose proof (rw_inv_init n) as Hi. induction H; eauto using rw_inv_step.
Qed.
End Rw.

(** What users of the lock see: how many threads read and whether one
    writes. *)
Module RwSpec.
Inductive step : Z * bool → Z * bool → Prop :=
  | acquire_read n : step (n, false) (n + 1, false)
  | release_read n : 0 < n → step (n, false) (n - 1, false)
  | acquire_write : step (0, false) (0, true)
  | release_write : step (0, true) (0, false).
End RwSpec.

Definition rw_abs (s : Rw.state) : Z * bool :=
  (count Rw.reading s.2, 0 <? count Rw.writing s.2).

(** C4: in every interleaving of fewer than 2^31 threads, a thread between
    [wlock] and [wunlock] is alone there, and no other is between [rlock] and
    [runlock]. *)
Theorem rwlock_exclusion n v l i j pj :
  Z.of_nat n < 2 ^ 31 → rtc Rw.step (Rw.init n) (v, l) →
  l !! i = Some Rw.WCrit → l !! j = Some pj → pj = Rw.WCrit ∨ pj = Rw.RCrit → i = j.
Proof.
  intros Hn Hr Hi Hj Hp. destruct (Rw.rw_inv_reachable n _ Hn Hr) as (_ & _ & Hw & Hw01 & Hex).
  cbn in *. destruct (decide (i = j)) as [|Hne]; [done|].
  pose proof (count_pos Rw.writing l i _ Hi eq_refl) as Hwr.
  destruct Hp as [-> | ->].
  - pose proof (count_two Rw.owns_write l i j _ _ Hi Hj eq_refl eq_refl Hne). lia.
  - pose proof (count_zero Rw.reading l j _ (Hex Hwr) Hj). done.
Qed.

(** C10: each step of a thread is a step of the readers-writer specification,
    or changes nothing that users of the lock see. *)
Theorem rwlock_refines n s s' :
  Z.of_nat n < 2 ^ 31 → rtc Rw.step (Rw.init n) s → Rw.step s s' →
  rw_abs s' = rw_abs s ∨ RwSpec.step (rw_abs s) (rw_abs s').
Proof.
  intros Hn Hr Hs. pose proof (Rw.rw_inv_reachable n _ Hn Hr) as Hinv. clear Hr. revert Hinv.
  destruct Hs as [v l i p p' v' Hi Ht]. intros (_ & Hr & Hw & Hw01 & Hex).
  unfold rw_abs. cbn [fst snd] in *. rewrite !(count_insert _ l i p p' Hi).
  pose proof (count_bounds Rw.reading l). pose proof (count_bounds Rw.writing l).
  pose proof (Rw.count_impl Rw.writing Rw.owns_write l ltac:(by intros [])).
  pose proof (Rw.count_impl Rw.reading Rw.counted l ltac:(by intros [])).
  pose proof (Rw.count_impl Rw.writing Rw.owns_write (<[i:=Rw.WCrit]> l) ltac:(by intros [])) as Hone.
  rewrite !(count_insert _ l i p _ Hi) in Hone.
  assert (∀ P : Rw.pc → bool, P p = true → 1 ≤ count P l) as Hpos
    by (intros P; by apply count_pos with i).
  specialize (Hpos Rw.reading) as Hp3. specialize (Hpos Rw.writing) as Hp4.
  destruct p; cbn in Ht; rewrite ?list_elem_of_In in Ht; cbn in Ht;
    unfold test_and_set in Ht;
    repeat match type of Ht with _ ∨ _ => destruct Ht as [Ht|Ht] | False => done end;
    simplify_eq; cbn in *;
    repeat match goal with |- context [?a =? 0] => destruct (Z.eqb_spec a 0) end;
    cbn; rewrite ?Z.sub_0_r, ?Z.add_0_r; try by left.
  - (* a reader enters *)
    right. replace (0 <? count Rw.writing l) with false by lia. apply RwSpec.acquire_read.
  - (* a reader leaves *)
    right. replace (0 <? count Rw.writing l) with false by lia.
    apply RwSpec.release_read. lia.
  - (* a writer enters *)
    right. replace (count Rw.writing l) with 0 by lia. replace (count Rw.reading l) with 0 by lia.
    apply RwSpec.acquire_write.
  - (* the writer leaves *)
    right. replace (count Rw.reading l) with 0 by lia. replace (count Rw.writing l) with 1 by lia.
    apply RwSpec.release_write.
Qed.

(** C33: the lock does not deadlock: as long as a thread is inside one of the
    lock's functions or holds the lock, some such thread can take a step that
    is not a round of a waiting loop. *)
Theorem rwlock_progress n v l i p :
  Z.of_nat n < 2 ^ 31 → rtc Rw.step (Rw.init n) (v, l) → l !! i = Some p → p ≠ Rw.Idle →
  ∃ j q q' v', l !! j = Some q ∧ q ≠ Rw.Idle ∧ (q', v') ∈ Rw.thread_step q v ∧ q' ≠ q.
Proof.
  intros Hn Hr Hi Hp. destruct (Rw.rw_inv_reachable n _ Hn Hr) as (_ & Hrd & Hw & Hw01 & _).
  cbn in *.
  assert (∀ j q q' v', l !! j = Some q → q ≠ Rw.Idle → q' ≠ q →
    Rw.thread_step q v = [(q', v')] → ∃ j q q' v', l !! j = Some q ∧ q ≠ Rw.Idle ∧
      (q', v') ∈ Rw.thread_step q v ∧ q' ≠ q) as Hgo.
  { intros j q q' v' Hj Hq Hne Hs. exists j, q, q', v'. rewrite Hs. split_and!; auto.
    by apply list_elem_of_singleton. }
  destruct (Z.eq_dec (read v) 0) as [Hr0|Hr0].
  - destruct (Z.eq_dec (write v) 0) as [Hw0|Hw0].
    + destruct p; try done; (eapply Hgo; [eassumption|done| |cbn; rewrite ?Hr0, ?Hw0; reflexivity]);
        done.
    + destruct (count_find Rw.owns_write l) as (j & q & Hj & Hq); [lia|].
      destruct q; try done; (eapply Hgo; [eassumption|done| |cbn; rewrite ?Hr0; reflexivity]);
        done.
  - pose proof (count_bounds Rw.counted l).
    destruct (count_find Rw.counted l) as (j & q & Hj & Hq); [lia|].
    destruct q; try done; (eapply Hgo; [eassumption|done| |cbn; reflexivity]);
      try done; by destruct (write v =? 0).
Qed.

(** ** Witnesses *)

(** One step of thread [i]. *)
Ltac mtx_go i :=
  eapply rtc_l; [eapply (Mtx.step_thread _ _ i); reflexivity|cbn].

(** The same for the readers-writer lock, with the [k]-th possible step. *)
Ltac rw_go i k :=
  eapply rtc_l;
    [eapply (Rw.step_thread _ _ i);
      [reflexivity|apply (list_elem_of_lookup_2 _ k); reflexivity]|cbn].

Lemma mtx_reach : rtc Mtx.step (Mtx.init 2) (1, [Mtx.Crit; Mtx.Spin]).
Proof. mtx_go 0%nat. mtx_go 1%nat. mtx_go 0%nat. mtx_go 1%nat. apply rtc_refl. Qed.

Lemma mtx_exclusion_witness :
  rtc Mtx.step (Mtx.init 2) (1, [Mtx.Crit; Mtx.Spin]) ∧ 0%nat = 0%nat.
Proof.
  split; [exact mtx_reach|].
  apply (mtx_exclusion 2 1 [Mtx.Crit; Mtx.Spin] 0 0); [exact mtx_reach|done|done].
Defined.

(** A writer inside while a reader that had come too early withdraws. *)
Lemma rw_reach : rtc Rw.step (Rw.init 2) (mk_rwlock 0 1, [Rw.WCrit; Rw.R_wait]).
Proof.
  rw_go 0%nat 1%nat. rw_go 1%nat 0%nat. rw_go 1%nat 0%nat. rw_go 0%nat 0%nat.
  rw_go 1%nat 0%nat. rw_go 1%nat 0%nat. rw_go 1%nat 0%nat. rw_go 0%nat 0%nat.
  apply rtc_refl.
Qed.

Lemma rwlock_exclusion_witness :
  rtc Rw.step (Rw.init 2) (mk_rwlock 0 1, [Rw.WCrit; Rw.R_wait]) ∧ 0%nat = 0%nat.
Proof.
  split; [exact rw_reach|].
  apply (rwlock_exclusion 2 (mk_rwlock 0 1) [Rw.WCrit; Rw.R_wait] 0 0 Rw.WCrit);
    [lia|exact rw_reach|done|done|by left].
Defined.

Lemma rwlock_refines_witness :
  let s := (mk_rwlock 0 1, [Rw.WCrit; Rw.R_wait]) in
  let s' := (mk_rwlock 0 0, [Rw.Idle; Rw.R_wait]) in
  rw_abs s' = rw_abs s ∨ RwSpec.step (rw_abs s) (rw_abs s').
Proof.
  apply (rwlock_refines 2); [lia|exact rw_reach|].
  apply (Rw.step_thread (mk_rwlock 0 1) [Rw.WCrit; Rw.R_wait] 0 Rw.WCrit Rw.Idle (mk_rwlock 0 0));
    [reflexivity|apply (list_elem_of_lookup_2 _ 0); reflexivity].
Defined.

Lemma rwlock_progress_witness :
  ∃ j q q' v', [Rw.WCrit; Rw.R_wait] !! j = Some q ∧ q ≠ Rw.Idle ∧
    (q', v') ∈ Rw.thread_step q (mk_rwlock 0 1) ∧ q' ≠ q.
Proof.
  apply (rwlock_progress 2 (mk_rwlock 0 1) [Rw.WCrit; Rw.R_wait] 1 Rw.R_wait);
    [lia|exact rw_reach|done|done].
Defined.
