(* ===== verification/Log.v ===== *)
(** * Logging ([log.c], [log.h]) and the clock ([timer.c])

    [logv] prints a message whose level is not below the current one; a
    message is the text that its format string and arguments produce. *)
From stdpp Require Import strings.
From S2P Require Import Prelude Sys.

Definition LOG_DEBUG : Z := 0.
Definition LOG_WARN : Z := 1.
Definition LOG_ERROR : Z := 2.

Definition log_labels : list (list byte) :=
  [str_of "Debug"; str_of "Warn"; str_of "Error"].

Definition log_level_init : Z := LOG_ERROR.

(** The static [log_level], the standard error output, and what the C library
    says of an error number. *)
Class Logger (E : Type) := {
  get_log_level : E → Z;
  put_log_level : Z → E → E;
  get_stderr : E → list byte;
  put_stderr : list byte → E → E;
  strerror : Z → list byte;
}.

Class LoggerLaws (E : Type) `{!Logger E} := {
  level_put x e : get_log_level (put_log_level x e) = x;
  level_stderr t e : get_log_level (put_stderr t e) = get_log_level e;
  stderr_put t e : get_stderr (put_stderr t e) = t;
  stderr_level x e : get_stderr (put_log_level x e) = get_stderr e;
}.

Section log.
Context {E : Type} `{!Logger E}.

Definition log_setlevel (level : Z) : M E Z := sys (λ e, (get_log_level e, put_log_level level e)).

Definition log_getlevel : M E Z := sys (λ e, (get_log_level e, e)).

Definition fprintf_stderr (text : list byte) : M E unit :=
  sys (λ e, (tt, put_stderr (get_stderr e ++ text) e)).

Definition logv (level : Z) (text : list byte) : M E unit :=
  log_level ← log_getlevel;
  if level <? log_level then mret tt
  else
    match log_labels !! Z.to_nat level with
    | None => ub
    | Some label =>
        fprintf_stderr (str_of "[" ++ label ++ str_of "] ");;
        fprintf_stderr text
    end.

Definition loglvl (level : Z) (text : list byte) : M E unit := logv level text.
Definition log_debug (text : list byte) : M E unit := logv LOG_DEBUG text.
Definition log_warn (text : list byte) : M E unit := logv LOG_WARN text.
Definition log_err (text : list byte) : M E unit := logv LOG_ERROR text.

(** [strings]: what [backtrace_symbols] returned. *)
Fixpoint stacktrace_loop (level : Z) (strings : list (list byte)) : M E unit :=
  match strings with
  | [] => mret tt
  | s :: strings => loglvl level (s ++ str_of "
");; stacktrace_loop level strings
  end.

Definition log_stacktrace (level : Z) (strings : list (list byte)) : M E unit :=
  stacktrace_loop level strings.

(** The macro [assert]: [what] is the text of the condition with that of the
    message, [strings] what the stack trace holds.  Before it exits it stores
    through a null pointer. *)
Definition assertion (cond : bool) (what file fn : list byte) (line : list byte) (strings : list (list byte)) : M E unit :=
  if cond then mret tt
  else
    log_err (str_of "----------ASSERT----------" ++ [x0a]);;
    log_err what;;
    log_err (file ++ str_of " " ++ fn ++ str_of ":" ++ line ++ [x0a]);;
    log_stacktrace LOG_ERROR strings;;
    ub.
End log.

(** [gettimeofday] *)
Class Clock (E : Type) := clock_now : E → (Z * Z) * E.

Definition timer_now {E} `{!Clock E} : M E Z :=
  '(tv_sec, tv_usec) ← sys clock_now;
  mret (tv_sec * 1000 + tv_usec `quot` 1000).

(** * Lemmas *)

Section log_lemmas.
Context {E : Type} `{!Logger E, !LoggerLaws E}.

(** What a message adds to the standard error output. *)
Definition line (level : Z) (text : list byte) : list byte :=
  str_of "[" ++ default [] (log_labels !! Z.to_nat level) ++ str_of "] " ++ text.

Lemma logv_silent level text (e : E) :
  level < get_log_level e → logv level text e = Ret (tt, e).
Proof. intros. unfold logv, log_getlevel. mrun. destruct (Z.ltb_spec level (get_log_level e)); [done|lia]. Qed.

Lemma logv_run level text (e : E) :
  get_log_level e ≤ level → 0 ≤ level ≤ 2 →
  ∃ e', logv level text e = Ret (tt, e') ∧ get_stderr e' = get_stderr e ++ line level text ∧
        get_log_level e' = get_log_level e.
Proof.
  intros Hlvl Hr. unfold logv, log_getlevel. mrun.
  destruct (Z.ltb_spec level (get_log_level e)); [lia|].
  destruct (log_labels !! Z.to_nat level) as [label|] eqn:Hl;
    [|apply lookup_ge_None in Hl; cbn in Hl; lia].
  unfold fprintf_stderr. mrun. eexists. split; [done|].
  rewrite !stderr_put, !level_stderr. split; [|done].
  unfold line. rewrite Hl. cbn [default]. by rewrite !app_assoc.
Qed.
End log_lemmas.

(** ** A console to evaluate the definitions on *)
Record console := mk_console { c_level : Z; c_stderr : list byte }.

#[export] Instance console_logger : Logger console := {
  get_log_level := c_level;
  put_log_level x c := mk_console x (c_stderr c);
  get_stderr := c_stderr;
  put_stderr t c := mk_console (c_level c) t;
  strerror _ := str_of "error";
}.

#[export] Instance console_laws : LoggerLaws console.
Proof. by split. Qed.

(** * Theorems *)

(** After [set_level], a message below the level leaves no trace, one of a
    known level not below it is appended to the standard error output after
    its label, and one of an unknown level reads past the labels. *)
Theorem loglvl_filters {E} `{!Logger E, !LoggerLaws E} (cur level : Z) text (e : E) :
  0 ≤ level < 256 →
  ∃ e1, log_setlevel cur e = Ret (get_log_level e, e1) ∧ get_stderr e1 = get_stderr e ∧
  if level <? cur then loglvl level text e1 = Ret (tt, e1)
  else if level <=? 2 then
    ∃ e2, loglvl level text e1 = Ret (tt, e2) ∧ get_stderr e2 = get_stderr e ++ line level text ∧
          log_getlevel e2 = Ret (cur, e2)
  else loglvl level text e1 = UB.
Proof.
  intros Hr. unfold log_setlevel. mrun. eexists. split; [done|]. split; [apply stderr_level|].
  set (e1 := put_log_level cur e). unfold loglvl.
  assert (get_log_level e1 = cur) as Hcur by apply level_put.
  destruct (Z.ltb_spec level cur); [by apply logv_silent; rewrite Hcur|].
  destruct (Z.leb_spec level 2).
  - destruct (logv_run level text e1) as (e2 & Hrun & Hout & Hlvl); [lia..|].
    exists e2. split; [done|]. split; [by rewrite Hout; unfold e1; rewrite stderr_level|].
    unfold log_getlevel. mrun. by rewrite Hlvl, Hcur.
  - unfold logv, log_getlevel. mrun. rewrite Hcur.
    destruct (Z.ltb_spec level cur); [lia|].
    destruct (log_labels !! Z.to_nat level) eqn:Hl; [|done].
    apply lookup_lt_Some in Hl. cbn in Hl. lia.
Qed.

Lemma loglvl_filters_witness :
  ∃ e1, log_setlevel LOG_WARN (mk_console LOG_ERROR []) = Ret (LOG_ERROR, e1) ∧ get_stderr e1 = [] ∧
  ∃ e2, loglvl LOG_ERROR (str_of "no") e1 = Ret (tt, e2) ∧ get_stderr e2 = str_of "[Error] no" ∧
        log_getlevel e2 = Ret (LOG_WARN, e2).
Proof.
  destruct (loglvl_filters LOG_WARN LOG_ERROR (str_of "no") (mk_console LOG_ERROR []))
    as (e1 & H1 & H2 & e2 & H3 & H4 & H5); [by_computing|].
  exists e1. split; [exact H1|]. split; [exact H2|]. exists e2. done.
Defined.
