(* ===== verification/Thread.v ===== *)
(** * Threads ([thread.c], [thread.h])

    Every thread has one [thread_t], made on the first call of [thread_self]
    and kept both in the thread-local [__thread_self] and under the key
    [__thread_key].  [thread_new] and the [thread_boot] of the new thread share
    the argument block in the frame of [thread_new]; their interleavings are a
    step relation. *)
From stdpp Require Import relations.
From S2P Require Import Prelude Alloc.

(** [struct _thread] *)
Record thread_t := mk_thread { tid : Z; name : list byte }.

(** The blocks in use, the two places of thread-local storage by thread, and
    whether [thread_init_once] ran. *)
Record threads := mk_threads {
  t_heap : gmap positive thread_t;
  t_self : gmap Z positive;
  t_key : gmap Z positive;
  t_once : bool;
}.

(** [pthread_self] is the thread that runs. *)
Class Threads (E : Type) := {
  get_threads : E → threads;
  put_threads : threads → E → E;
  pthread_self : E → Z;
}.

Class ThreadsLaws (E : Type) `{!Malloc E, !Threads E} := {
  threads_put t e : get_threads (put_threads t e) = t;
  threads_self t e : pthread_self (put_threads t e) = pthread_self e;
  threads_malloc n e : get_threads (snd (malloc_ok n e)) = get_threads e;
  threads_malloc_self n e : pthread_self (snd (malloc_ok n e)) = pthread_self e;
}.

Section thread.
Context {E : Type} `{!Malloc E, !Threads E}.

Definition the_threads : M E threads := sys (λ e, (get_threads e, e)).
Definition set_threads (t : threads) : M E unit := sys (λ e, (tt, put_threads t e)).
Definition me : M E Z := sys (λ e, (pthread_self e, e)).

(** [thread_init_once] under [pthread_once] *)
Definition thread_init : M E unit :=
  t ← the_threads;
  set_threads (mk_threads (t_heap t) (t_self t) (t_key t) true).

(** The destructor of the key. *)
Definition thread_free (ud : option positive) : M E unit :=
  t ← the_threads; self ← me;
  let t := mk_threads (t_heap t) (delete self (t_self t)) (t_key t) (t_once t) in
  match ud with
  | None => set_threads t
  | Some thrd =>
      if decide (is_Some (t_heap t !! thrd))
      then set_threads (mk_threads (delete thrd (t_heap t)) (t_self t) (t_key t) (t_once t))
      else ub
  end.

(** [pthread_exit] clears the thread's value of the key and calls the
    destructor with it. *)
Definition thread_uninit : M E unit :=
  t ← the_threads; self ← me;
  match t_key t !! self with
  | None => mret tt
  | Some thrd =>
      set_threads (mk_threads (t_heap t) (t_self t) (delete self (t_key t)) (t_once t));;
      thread_free (Some thrd)
  end.

Definition thread_self : M E (option positive) :=
  t ← the_threads; self ← me;
  match t_self t !! self with
  | Some thrd => mret (Some thrd)
  | None =>
      if negb (t_once t) then ub
      else match t_key t !! self with
      | Some thrd => mret (Some thrd)
      | None =>
          ok ← sys (malloc_ok 72);
          if negb ok then mret None
          else
            let thrd := fresh (dom (t_heap t)) in
            set_threads (mk_threads (<[thrd := mk_thread self []]> (t_heap t))
                           (<[self := thrd]> (t_self t)) (<[self := thrd]> (t_key t)) (t_once t));;
            mret (Some thrd)
      end
  end.

(** [pthread_join] of the C library, with the threads and blocks in use. *)
Variable pthread_join : Z → E → Z * E.

Definition thread_join (thrd : positive) : M E Z :=
  t ← the_threads;
  match t_heap t !! thrd with
  | Some b => sys (pthread_join (tid b))
  | None => ub
  end.
End thread.

(** ** Starting a thread *)

Module Boot.

(** Where the creator is in [thread_new], and the new thread in [thread_boot]. *)
Inductive ppc := PCreate | PSpin | PName (thrd : positive) | PReturned (thrd : positive).
Inductive cpc := CNone | CSelf | CCall | CRunning | CGone.

(** [frame]: is the frame of [thread_new], which holds [arg], still there?
    [block]: is the [thread_t] of the new thread still there? *)
Record state := mk_state {
  pp : ppc; cp : cpc; frame : bool; block : bool; thrd : option positive; ran : option (Z * Z) }.

Section boot.
Variables (runable ud : Z) (self : option positive).

Definition init : state := mk_state PCreate CNone true false None None.

(** [pthread_create], whose answer is not looked at ([created]: is there a new
    thread?), the spinning on [arg.thrd], the [snprintf] into its name, and the
    return. *)
Definition thread_new_step (created : bool) (s : state) : outcome state :=
  match pp s with
  | PCreate => Ret (mk_state PSpin (if created then CSelf else CNone) true (block s) None None)
  | PSpin =>
      match thrd s with
      | None => Ret s
      | Some p => Ret (mk_state (PName p) (cp s) true (block s) (thrd s) (ran s))
      end
  | PName p =>
      if block s then Ret (mk_state (PReturned p) (cp s) false (block s) (thrd s) (ran s)) else UB
  | PReturned _ => Ret s
  end.

(** [arg->thrd = thread_self()], [arg->runable(arg->ud)], the end of the
    function called, and [pthread_exit]. *)
Definition thread_boot_step (s : state) : outcome state :=
  match cp s with
  | CNone => Ret s
  | CSelf =>
      if frame s
      then Ret (mk_state (pp s) CCall (frame s) (match self with Some _ => true | None => false end) self (ran s))
      else UB
  | CCall =>
      if frame s
      then Ret (mk_state (pp s) CRunning (frame s) (block s) (thrd s) (Some (runable, ud)))
      else UB
  | CRunning => Ret (mk_state (pp s) CGone (frame s) false (thrd s) (ran s))
  | CGone => Ret s
  end.

Inductive step : outcome state → outcome state → Prop :=
  | step_new created s : step (Ret s) (thread_new_step created s)
  | step_boot s : step (Ret s) (thread_boot_step s).

Definition reachable : outcome state → Prop := rtc step (Ret init).

(** What the two threads agree on. *)
Definition inv (o : outcome state) : Prop :=
  match o with
  | Ret s =>
      (ran s = None ∨ ran s = Some (runable, ud)) ∧
      (thrd s = None ∨ thrd s = self) ∧
      (match pp s with PName p | PReturned p => self = Some p ∧ cp s ≠ CNone ∧ cp s ≠ CSelf
                     | PSpin => True | PCreate => cp s = CNone ∧ thrd s = None end) ∧
      (match cp s with CNone | CSelf => thrd s = None | _ => thrd s = self end) ∧
      (match cp s with CNone | CSelf | CCall => True | _ => ran s = Some (runable, ud) end) ∧
      (frame s = match pp s with PReturned _ => false | _ => true end)
  | _ => True
  end.

Lemma inv_step o o' : inv o → step o o' → inv o'.
Proof.
  intros Hinv Hstep. destruct Hstep as [[] s|s]; destruct s as [p c f b t r];
    unfold inv, thread_new_step, thread_boot_step in *; cbn in *;
    destruct Hinv as (H1 & H2 & H3 & H4 & H5 & H6);
    destruct p, c, t, f, b; cbn in *; try done; intuition congruence.
Qed.

Lemma inv_reachable o : reachable o → inv o.
Proof.
  intros H. assert (inv (Ret init)) as Hi by (cbn; naive_solver). revert Hi.
  unfold reachable in H. induction H; eauto using inv_step.
Qed.

(** Without a new thread the creator spins for ever. *)
Lemma spins s o : pp s = PSpin → cp s = CNone → thrd s = None → rtc step (Ret s) o → o = Ret s.
Proof.
  intros Hp Hc Ht. assert (∀ o1 o2, rtc step o1 o2 → o1 = Ret s → o2 = Ret s) as Hall by
    (induction 1 as [o1|o1 o2 o3 Hstep Hr IH]; intros ->; [done|]; apply IH; inversion Hstep; subst;
     [unfold thread_new_step; by rewrite Hp, Ht|unfold thread_boot_step; by rewrite Hc]).
  intros Hr. by eapply Hall.
Qed.
End boot.
End Boot.

(** ** A concrete environment: thread [7] runs *)
#[export] Instance thread_env_malloc : Malloc (Z * threads) := fun _ e => (true, e).
#[export] Instance thread_env : Threads (Z * threads) := {
  get_threads := snd;
  put_threads t e := (fst e, t);
  pthread_self := fst;
}.
#[export] Instance thread_env_laws : ThreadsLaws (Z * threads).
Proof. by split. Qed.

(** * Theorems *)

(** The two places of thread-local storage agree and hold blocks in use, which
    are different for different threads. *)
Definition wf_threads (t : threads) : Prop :=
  t_self t = t_key t ∧
  ∀ i p, t_self t !! i = Some p → ∃ b, t_heap t !! p = Some b ∧ tid b = i.

(** C29: once [thread_init] was called, [thread_self] gives every thread a block of
    its own that carries its id; later calls of the same thread give the same
    block, and no other thread's block changes. *)
Theorem thread_self_stable {E} `{!Malloc E, !Threads E, !ThreadsLaws E} (e : E) :
  wf_threads (get_threads e) → t_once (get_threads e) = true →
  ∃ r e', thread_self e = Ret (r, e') ∧ pthread_self e' = pthread_self e ∧
    wf_threads (get_threads e') ∧
    match r with
    | None => get_threads e' = get_threads e
    | Some p =>
        thread_self e' = Ret (Some p, e') ∧
        (∃ b, t_heap (get_threads e') !! p = Some b ∧ tid b = pthread_self e) ∧
        ∀ i q, i ≠ pthread_self e → t_self (get_threads e') !! i = Some q →
          q ≠ p ∧ t_heap (get_threads e') !! q = t_heap (get_threads e) !! q
    end.
Proof.
  intros [Hkey Hwf] Honce. unfold thread_self, the_threads, me, set_threads.
  autorewrite with run. rewrite <- Hkey.
  destruct (t_self (get_threads e) !! pthread_self e) as [p|] eqn:Hself.
  - exists (Some p), e. destruct (Hwf _ _ Hself) as (b & Hb & Htid).
    split_and!; [done..|by split| |by eauto|].
    + autorewrite with run. by rewrite Hself.
    + intros i q Hi Hq. split; [|done]. intros ->.
      destruct (Hwf _ _ Hq) as (b' & Hb' & Htid'). simplify_eq.
  - autorewrite with run. rewrite Honce. cbn [negb]. autorewrite with run.
    pose proof (threads_malloc 72 e) as Hm. pose proof (threads_malloc_self 72 e) as Hms.
    destruct (malloc_ok 72 e) as [[] e1]; cbn [fst snd negb] in *; autorewrite with run.
    2:{ exists None, e1. rewrite Hm, Hms. split_and!; try done. }
    eexists (Some _), _. split; [done|]. rewrite !threads_put, !threads_self, Hms. cbn.
    set (p := fresh _).
    assert (t_heap (get_threads e) !! p = None) as Hfresh
      by (apply not_elem_of_dom, is_fresh).
    assert (∀ i q, i ≠ pthread_self e → <[pthread_self e:=p]> (t_self (get_threads e)) !! i = Some q →
      q ≠ p ∧ ∃ b, t_heap (get_threads e) !! q = Some b ∧ tid b = i) as Hother.
    { intros i q Hi Hq. rewrite lookup_insert_ne in Hq by done.
      destruct (Hwf _ _ Hq) as (b & Hb & Htid). split; [|eauto]. intros ->. congruence. }
    split; [done|]. split; [|split; [|split]].
    + split; [done|]. cbn. intros i q Hq. destruct (decide (i = pthread_self e)) as [->|Hi].
      * rewrite lookup_insert_eq in Hq. simplify_eq. rewrite lookup_insert_eq. eauto.
      * destruct (Hother i q Hi Hq) as (Hne & b & Hb & Htid). exists b.
        by rewrite lookup_insert_ne.
    + autorewrite with run. rewrite threads_put, threads_self, Hms. cbn. by rewrite lookup_insert_eq.
    + rewrite lookup_insert_eq. eauto.
    + intros i q Hi Hq. destruct (Hother i q Hi Hq) as (Hne & _). split; [done|].
      by rewrite lookup_insert_ne.
Qed.

(** C31: When a thread exits, its block is freed, those of the others stay, and the
    state stays well formed; joining the thread by its block is then undefined,
    whatever [pthread_join] does. *)
Theorem thread_exit_frees {E} `{!Malloc E, !Threads E, !ThreadsLaws E} join p (e : E) :
  wf_threads (get_threads e) → t_self (get_threads e) !! pthread_self e = Some p →
  ∃ e', thread_uninit e = Ret (tt, e') ∧ wf_threads (get_threads e') ∧
    t_heap (get_threads e') = delete p (t_heap (get_threads e)) ∧
    t_self (get_threads e') = delete (pthread_self e) (t_self (get_threads e)) ∧
    thread_join join p e' = UB.
Proof.
  intros [Hkey Hwf] Hself. unfold thread_uninit, thread_free, thread_join, the_threads, me, set_threads.
  autorewrite with run. rewrite <- Hkey, Hself. autorewrite with run. rewrite threads_put. cbn [t_heap t_self].
  destruct (Hwf _ _ Hself) as (b & Hb & Htid). rewrite decide_True by eauto. autorewrite with run.
  eexists. split; [done|]. rewrite !threads_put, threads_self. cbn. rewrite Hkey. split_and!; [|done..|].
  - split; [done|]. cbn. intros i q. rewrite lookup_delete_Some. intros [Hi Hq]. rewrite <- Hkey in Hq.
    destruct (Hwf _ _ Hq) as (b' & Hb' & Htid'). exists b'. rewrite lookup_delete_ne; [done|].
    intros <-. congruence.
  - autorewrite with run. rewrite !threads_put. cbn. by rewrite lookup_delete_eq.
Qed.

(** C30: in every interleaving of [thread_new] with the thread it starts in which
    nothing undefined has happened yet (see [thread_new_races]), the function
    that runs is the one asked for, with its argument, and the block returned is
    the one of the new thread.  When no thread could be started, [thread_new]
    spins and never returns. *)
Theorem thread_boot_runs runable ud self s :
  Boot.reachable runable ud self (Ret s) →
  (∀ f u, Boot.ran s = Some (f, u) → f = runable ∧ u = ud) ∧
  (∀ p, Boot.pp s = Boot.PReturned p → self = Some p) ∧
  (Boot.cp s = Boot.CGone → Boot.ran s = Some (runable, ud)) ∧
  (Boot.pp s = Boot.PSpin → Boot.cp s = Boot.CNone →
    ∀ o, rtc (Boot.step runable ud self) (Ret s) o → o = Ret s).
Proof.
  intros H. apply Boot.inv_reachable in H. destruct H as (H1 & H2 & H3 & H4 & H5 & H6).
  split_and!.
  - intros f u Hr. destruct H1 as [H1|H1]; rewrite Hr in H1; [done|]. by injection H1.
  - intros p Hp. rewrite Hp in H3. apply H3.
  - intros Hc. by rewrite Hc in H5.
  - intros Hp Hc o. apply Boot.spins; [done..|]. by rewrite Hc in H4.
Qed.

(** [thread_new] may return before [thread_boot] has read [arg->runable],
    and the new thread then reads a frame that is gone; and the new thread may
    exit, which frees its block, before [thread_new] writes the name into it. *)
Theorem thread_new_races runable ud self :
  (∃ s, Boot.reachable runable ud (Some self) (Ret s) ∧ Boot.pp s = Boot.PReturned self ∧
        Boot.thread_boot_step runable ud (Some self) s = UB) ∧
  (∃ s, Boot.reachable runable ud (Some self) (Ret s) ∧ Boot.cp s = Boot.CGone ∧
        Boot.thread_new_step true s = UB).
Proof.
  set (new := Boot.step_new runable ud (Some self) true).
  set (boot := Boot.step_boot runable ud (Some self)).
  split; eexists; (split; [|split]).
  - eapply rtc_l; [apply new|]. eapply rtc_l; [apply boot|]. cbn.
    eapply rtc_l; [apply new|]. cbn. eapply rtc_l; [apply new|]. cbn. apply rtc_refl.
  - done.
  - done.
  - eapply rtc_l; [apply new|]. eapply rtc_l; [apply boot|]. cbn.
    eapply rtc_l; [apply boot|]. cbn. eapply rtc_l; [apply boot|]. cbn.
    eapply rtc_l; [apply new|]. cbn. apply rtc_refl.
  - done.
  - done.
Qed.

(** * Witnesses *)

Definition env7 : Z * threads := (7, mk_threads ∅ ∅ ∅ true).

Lemma thread_self_stable_witness :
  ∃ r e', thread_self env7 = Ret (r, e') ∧ pthread_self e' = pthread_self env7 ∧
    wf_threads (get_threads e') ∧
    match r with
    | None => get_threads e' = get_threads env7
    | Some p =>
        thread_self e' = Ret (Some p, e') ∧
        (∃ b, t_heap (get_threads e') !! p = Some b ∧ tid b = pthread_self env7) ∧
        ∀ i q, i ≠ pthread_self env7 → t_self (get_threads e') !! i = Some q →
          q ≠ p ∧ t_heap (get_threads e') !! q = t_heap (get_threads env7) !! q
    end.
Proof.
  apply (thread_self_stable env7); [|done].
  split; [done|]. cbn. intros i p H. by rewrite lookup_empty in H.
Defined.

Lemma thread_boot_runs_witness :
  let s := Boot.mk_state (Boot.PName 1) Boot.CGone true false (Some 1%positive) (Some (5, 6)) in
  (∀ f u, Boot.ran s = Some (f, u) → f = 5 ∧ u = 6) ∧
  (∀ p, Boot.pp s = Boot.PReturned p → Some 1%positive = Some p) ∧
  (Boot.cp s = Boot.CGone → Boot.ran s = Some (5, 6)) ∧
  (Boot.pp s = Boot.PSpin → Boot.cp s = Boot.CNone →
    ∀ o, rtc (Boot.step 5 6 (Some 1%positive)) (Ret s) o → o = Ret s).
Proof.
  apply (thread_boot_runs 5 6 (Some 1%positive)).
  eapply rtc_l; [apply (Boot.step_new _ _ _ true)|]. eapply rtc_l; [apply Boot.step_boot|]. cbn.
  eapply rtc_l; [apply Boot.step_boot|]. cbn. eapply rtc_l; [apply Boot.step_boot|]. cbn.
  eapply rtc_l; [apply (Boot.step_new _ _ _ true)|]. cbn. apply rtc_refl.
Defined.

Lemma thread_exit_frees_witness :
  let e : Z * threads := (7, mk_threads {[1%positive := mk_thread 7 []]} {[7 := 1%positive]} {[7 := 1%positive]} true) in
  ∃ e', thread_uninit e = Ret (tt, e') ∧ wf_threads (get_threads e') ∧
    t_heap (get_threads e') = delete 1%positive (t_heap (get_threads e)) ∧
    t_self (get_threads e') = delete (pthread_self e) (t_self (get_threads e)) ∧
    thread_join (λ _ e, (0, e)) 1 e' = UB.
Proof.
  intros e. apply (thread_exit_frees (λ _ e, (0, e)) 1%positive e); [|by vm_compute].
  split; [done|]. intros i q. cbn. rewrite lookup_singleton_Some. intros [<- <-].
  exists (mk_thread 7 []). by rewrite lookup_singleton_eq.
Defined.
