(* ===== verification/Event.v ===== *)
(** * Events ([event.c], [event.h])

    An event is an object that its owner, the poll, and the queue of the loop
    know by its address; the events in use are a map from addresses. *)
From S2P Require Import Prelude Alloc.

Definition EVMASK_NONE : Z := 0x00.
Definition EVMASK_READ : Z := 0x01.
Definition EVMASK_WRITE : Z := 0x02.
Definition EVMASK_ERROR : Z := 0x04.
Definition EVMASK_TIME : Z := 0x08.

(** [event_pt]: the functions of the library that are used as callbacks, and
    those of its users. *)
Inductive event_pt :=
  | wake_cb | _sock_dispatch | _accept_dispatch | _connector_dispatch | user_cb (f : Z).

(** [struct _event]; [ev_cb] and [ev_next] may be null. *)
Record event_t := mk_event {
  ev_fd : Z;
  ev_mask : Z;
  ev_cb : option event_pt;
  ev_ud : Z;
  ev_last_mask : Z;
  ev_next : option positive;
}.

Definition ev_set_mask (x : Z) (ev : event_t) : event_t :=
  mk_event (ev_fd ev) x (ev_cb ev) (ev_ud ev) (ev_last_mask ev) (ev_next ev).
Definition ev_set_last_mask (x : Z) (ev : event_t) : event_t :=
  mk_event (ev_fd ev) (ev_mask ev) (ev_cb ev) (ev_ud ev) x (ev_next ev).
Definition ev_set_next (x : option positive) (ev : event_t) : event_t :=
  mk_event (ev_fd ev) (ev_mask ev) (ev_cb ev) (ev_ud ev) (ev_last_mask ev) x.
Definition ev_set_fd (x : Z) (ev : event_t) : event_t :=
  mk_event x (ev_mask ev) (ev_cb ev) (ev_ud ev) (ev_last_mask ev) (ev_next ev).

(** The events in use. *)
Class Events (E : Type) := {
  events : E → gmap positive event_t;
  put_events : gmap positive event_t → E → E;
}.

Class EventsLaws (E : Type) `{!Events E} := {
  events_put m e : events (put_events m e) = m;
  put_events_put m m' e : put_events m (put_events m' e) = put_events m e;
  put_events_id e : put_events (events e) e = e;
}.

Section event.
Context {E : Type} `{!Malloc E, !Events E}.

(** Reading and writing through an event pointer. *)
Definition get_event (a : positive) : M E event_t := λ e,
  match events e !! a with Some ev => Ret (ev, e) | None => UB end.
Definition upd_event (a : positive) (f : event_t → event_t) : M E unit := λ e,
  match events e !! a with
  | Some ev => Ret (tt, put_events (<[a := f ev]> (events e)) e)
  | None => UB
  end.

(** A block from [calloc]. *)
Definition zero_event : event_t := mk_event 0 0 None 0 0 None.

Definition new_event : M E positive := λ e,
  let a := fresh (dom (events e)) in
  Ret (a, put_events (<[a := zero_event]> (events e)) e).

Definition event_new : M E (option positive) :=
  ok ← sys (malloc_ok 40);
  if negb ok then mret None
  else ev ← new_event; mret (Some ev).

Definition event_free (ev : positive) : M E unit := λ e,
  match events e !! ev with
  | Some _ => Ret (tt, put_events (delete ev (events e)) e)
  | None => UB
  end.

Definition event_init (ev : positive) (fd mask : Z) (cb : option event_pt) (ud : Z) : M E unit :=
  upd_event ev (λ _, mk_event fd mask cb ud 0 None).
End event.

(** * Lemmas *)

Section event_lemmas.
Context {E : Type} `{!Events E, !EventsLaws E}.

Lemma get_event_run a ev (e : E) : events e !! a = Some ev → get_event a e = Ret (ev, e).
Proof. intros H. unfold get_event. by rewrite H. Qed.

Lemma upd_event_run a f ev (e : E) :
  events e !! a = Some ev →
  upd_event a f e = Ret (tt, put_events (<[a := f ev]> (events e)) e).
Proof. intros H. unfold upd_event. by rewrite H. Qed.

Lemma upd_get a f ev (e : E) :
  events e !! a = Some ev →
  events (put_events (<[a := f ev]> (events e)) e) !! a = Some (f ev).
Proof. intros H. by rewrite events_put, lookup_insert_eq. Qed.
End event_lemmas.
#[export] Hint Rewrite @events_put @put_events_put @put_events_id using done : events.
