(* ===== verification/Host.v ===== *)
(** * A concrete environment

    A small kernel to evaluate the definitions in: it has memory for every
    request, keeps the registrations of one poll and the open descriptors,
    and what was refused, delivers the events it was given, and fails the calls that [h_script] says
    fail ([0] is success, any other number is the [errno] of the failure; past
    its end every call succeeds). *)
From S2P Require Import Prelude Alloc Sys Log Event.

Record host := mk_host {
  h_errno : Z;
  h_script : list Z;
  h_events : gmap positive event_t;
  h_open : gset Z;
  h_interest : gmap Z (Z * positive);
  h_ready : list (list (Z * positive));
  h_input : gmap Z (list byte);
  h_output : gmap Z block;
  h_calls : list (positive * Z);
  h_level : Z;
  h_stderr : list byte;
  h_refused : gmap Z block;
}.

Definition host0 : host := mk_host 0 [] ∅ ∅ ∅ [] ∅ ∅ [] LOG_ERROR [] ∅.

Section setters.
Variable h : host.
Definition with_errno x := mk_host x (h_script h) (h_events h) (h_open h) (h_interest h)
  (h_ready h) (h_input h) (h_output h) (h_calls h) (h_level h) (h_stderr h) (h_refused h).
Definition with_script x := mk_host (h_errno h) x (h_events h) (h_open h) (h_interest h)
  (h_ready h) (h_input h) (h_output h) (h_calls h) (h_level h) (h_stderr h) (h_refused h).
Definition with_events x := mk_host (h_errno h) (h_script h) x (h_open h) (h_interest h)
  (h_ready h) (h_input h) (h_output h) (h_calls h) (h_level h) (h_stderr h) (h_refused h).
Definition with_open x := mk_host (h_errno h) (h_script h) (h_events h) x (h_interest h)
  (h_ready h) (h_input h) (h_output h) (h_calls h) (h_level h) (h_stderr h) (h_refused h).
Definition with_interest x := mk_host (h_errno h) (h_script h) (h_events h) (h_open h) x
  (h_ready h) (h_input h) (h_output h) (h_calls h) (h_level h) (h_stderr h) (h_refused h).
Definition with_ready x := mk_host (h_errno h) (h_script h) (h_events h) (h_open h) (h_interest h)
  x (h_input h) (h_output h) (h_calls h) (h_level h) (h_stderr h) (h_refused h).
Definition with_input x := mk_host (h_errno h) (h_script h) (h_events h) (h_open h) (h_interest h)
  (h_ready h) x (h_output h) (h_calls h) (h_level h) (h_stderr h) (h_refused h).
Definition with_output x := mk_host (h_errno h) (h_script h) (h_events h) (h_open h) (h_interest h)
  (h_ready h) (h_input h) x (h_calls h) (h_level h) (h_stderr h) (h_refused h).
Definition with_calls x := mk_host (h_errno h) (h_script h) (h_events h) (h_open h) (h_interest h)
  (h_ready h) (h_input h) (h_output h) x (h_level h) (h_stderr h) (h_refused h).
Definition with_level x := mk_host (h_errno h) (h_script h) (h_events h) (h_open h) (h_interest h)
  (h_ready h) (h_input h) (h_output h) (h_calls h) x (h_stderr h) (h_refused h).
Definition with_stderr x := mk_host (h_errno h) (h_script h) (h_events h) (h_open h) (h_interest h)
  (h_ready h) (h_input h) (h_output h) (h_calls h) (h_level h) x (h_refused h).
Definition with_refused x := mk_host (h_errno h) (h_script h) (h_events h) (h_open h) (h_interest h)
  (h_ready h) (h_input h) (h_output h) (h_calls h) (h_level h) (h_stderr h) x.
End setters.

(** What waits on a descriptor, and what was sent on it. *)
Definition input (fd : Z) (h : host) : list byte := default [] (h_input h !! fd).
Definition output (fd : Z) (h : host) : block := default [] (h_output h !! fd).

(** The next [n] bytes. *)
Definition receive (fd n : Z) (h : host) : Z * list byte * host :=
  let d := take (Z.to_nat n) (input fd h) in
  (zlen d, d, with_input h (<[fd := drop (Z.to_nat n) (input fd h)]> (h_input h))).

Definition send (fd : Z) (d : block) (h : host) : Z * host :=
  (zlen d, with_output h (<[fd := output fd h ++ d]> (h_output h))).

(** What a descriptor refused last, if it did not take anything since. *)
Definition note_refused (fd : Z) (d : block) (f : host → Z * host) (h : host) : Z * host :=
  let '(n, h) := f h in
  (n, with_refused h (if n <=? 0 then <[fd := d]> (h_refused h) else delete fd (h_refused h))).

(** A call that fails when the script says so. *)
Definition attempt {A} (fail : A) (f : host → A * host) (h : host) : A * host :=
  match h_script h with
  | [] => f h
  | x :: l =>
      if x =? 0 then f (with_script h l) else (fail, with_errno (with_script h l) x)
  end.

(** The least number above all descriptors in use, and above 2. *)
Definition new_fd (o : gset Z) : Z := 1 + foldr Z.max 2 (elements o).

Definition open_fd (h : host) : Z * host :=
  let fd := new_fd (h_open h) in (fd, with_open h ({[fd]} ∪ h_open h)).

#[export] Instance host_malloc : Malloc host := λ _ h, (true, h).
#[export] Instance host_errno : Errno host := { get_errno := h_errno; put_errno x h := with_errno h x }.
#[export] Instance host_events : Events host := { events := h_events; put_events m h := with_events h m }.
#[export] Instance host_events_laws : EventsLaws host.
Proof. split; [done..|]. by intros []. Qed.
#[export] Instance host_logger : Logger host := {
  get_log_level := h_level;
  put_log_level x h := with_level h x;
  get_stderr := h_stderr;
  put_stderr x h := with_stderr h x;
  strerror _ := [];
}.
#[export] Instance host_logger_laws : LoggerLaws host.
Proof. by split. Qed.

#[export] Instance host_io : IoOps host := {
  sys_read fd n := attempt (-1, []) (receive fd n);
  sys_write fd d := attempt (-1) (send fd d);
}.

#[export] Instance host_fd : FdOps host := {
  sys_open _ _ _ := attempt (-1) open_fd;
  sys_close fd h :=
    if decide (0 ≤ fd ∧ fd ∈ h_open h) then (0, with_open h (h_open h ∖ {[fd]})) else (-1, with_errno h EBADF);
  sys_readv fd lens := attempt (-1, []) (receive fd (total lens));
  sys_writev fd iov := note_refused fd (concat iov) (attempt (-1) (send fd (concat iov)));
  sys_lseek _ delta _ h := (delta, h);
}.

(** Calls on a descriptor. *)
Definition on_fd {A} (fd : Z) (fail : A) (f : host → A * host) (h : host) : A * host :=
  if decide (0 ≤ fd ∧ fd ∈ h_open h) then attempt fail f h else (fail, with_errno h EBADF).

(** The name of every socket: port 8800 of 127.0.0.1. *)
Definition host_name : list byte :=
  [x02; x00; x22; x60; x7f; x00; x00; x01; x00; x00; x00; x00; x00; x00; x00; x00].

#[export] Instance host_sock : SockOps host := {
  sys_socket _ _ _ := attempt (-1) open_fd;
  sys_bind fd _ := on_fd fd (-1) (λ h, (0, h));
  sys_listen fd _ := on_fd fd (-1) (λ h, (0, h));
  sys_connect fd _ := on_fd fd (-1) (λ h, (0, h));
  sys_accept4 fd n _ := on_fd fd (-1, []) (λ h,
    let '(r, h) := open_fd h in (r, take (Z.to_nat n) host_name, h));
  sys_getsockname fd n := on_fd fd (-1, []) (λ h, (0, take (Z.to_nat n) host_name, h));
  sys_getpeername fd n := on_fd fd (-1, []) (λ h, (0, take (Z.to_nat n) host_name, h));
  sys_setsockopt fd _ _ _ := on_fd fd (-1) (λ h, (0, h));
  sys_getsockopt fd _ _ := on_fd fd (-1, 0) (λ h, (0, 0, h));
  sys_getfl fd := on_fd fd (-1) (λ h, (2, h));
  sys_setfl fd _ := on_fd fd (-1) (λ h, (0, h));
  sys_setfd fd _ := on_fd fd (-1) (λ h, (0, h));
  sys_shutdown fd _ := on_fd fd (-1) (λ h, (0, h));
  sys_unlink _ := attempt (-1) (λ h, (0, h));
  sys_chmod _ _ := attempt (-1) (λ h, (0, h));
}.

#[export] Instance host_epoll : EpollOps host := {
  sys_epoll_create1 _ := attempt (-1) open_fd;
  sys_eventfd _ _ := attempt (-1) open_fd;
  sys_epoll_ctl _ op fd evt h :=
    match ctl_effect op fd evt (h_interest h) with
    | Some m => (0, with_interest h m)
    | None => (-1, with_errno h (
        match h_interest h !! fd with
        | Some _ => if op =? EPOLL_CTL_ADD then EEXIST else EINVAL
        | None => if op =? EPOLL_CTL_ADD then EINVAL else ENOENT
        end))
    end;
  sys_epoll_wait _ max _ h :=
    match h_ready h with
    | [] => (-1, [], with_errno h EINTR)
    | l :: r =>
        if forallb (λ x, bool_decide (snd x ∈ (map_to_list (h_interest h)).*2.*2)) l && (zlen l <=? max)
        then (zlen l, l, with_ready h r)
        else (-1, [], with_errno h EINVAL)
    end;
}.

#[export] Instance host_epoll_laws epfd : EpollLaws host epfd h_interest.
Proof.
  split.
  - intros op fd evt h r h'. cbn. destruct (ctl_effect op fd evt (h_interest h)) as [m|] eqn:He;
      intros [= <- <-]; [by left|right]. split; [done|]. split; [done|]. cbn.
    destruct (Z.eqb_spec op EPOLL_CTL_ADD) as [->|], (h_interest h !! fd) as [y|] eqn:Hl; split;
      split; try done; intros [? Hs]; try done; by destruct Hs.
  - intros max t h n l h'. cbn. destruct (h_ready h) as [|l0 r]; [intros [= <- <- <-]; by auto|].
    destruct (forallb _ l0 && _) eqn:Hc; intros [= <- <- <-]; (split; [done|]); [right|by left].
    apply andb_true_iff in Hc as [Hc Hmax]. split; [done|]. split; [lia|].
    apply Forall_forall. intros x Hx. rewrite forallb_forall in Hc.
    specialize (Hc x (proj1 (list_elem_of_In _ _) Hx)). apply bool_decide_eq_true in Hc.
    apply list_elem_of_fmap in Hc as ([y a] & Ha & Hc).
    apply list_elem_of_fmap in Hc as ([fd z] & Hz & Hc). cbn in *.
    rewrite <- Hz in Hc. apply elem_of_map_to_list in Hc. rewrite Ha. eauto.
Qed.

(** The events are no concern of the kernel. *)
Lemma attempt_events {A} (fail : A) f h :
  (∀ h, h_events (snd (f h)) = h_events h) → h_events (snd (attempt fail f h)) = h_events h.
Proof.
  intros Hf. unfold attempt. destruct (h_script h) as [|x l]; [apply Hf|].
  destruct (x =? 0); [by rewrite Hf|done].
Qed.

Lemma on_fd_events {A} fd (fail : A) f h :
  (∀ h, h_events (snd (f h)) = h_events h) → h_events (snd (on_fd fd fail f h)) = h_events h.
Proof. intros Hf. unfold on_fd. destruct (decide _); [by apply attempt_events|done]. Qed.

#[export] Instance host_events_frame : KernelFrame host h_events.
Proof.
  split; intros; try done; try (by apply attempt_events); try (by apply on_fd_events).
  - cbn. by destruct (decide _).
  - cbn. unfold note_refused, attempt. destruct (h_script e) as [|x q]; [done|]. by destruct (x =? 0).
Qed.

(** What is sent is added to the output. *)
#[export] Instance host_fd_laws fd : FdLaws host fd (output fd).
Proof.
  split.
  - intros lens h r d h' Hn. cbn. unfold attempt. destruct (h_script h) as [|x l]; [|destruct (x =? 0)];
      intros [= <- <- <-]; (split; [done|]); [right|right|by left].
    all: cbn; split; [done|]; rewrite length_take; lia.
  - intros iov h r h'. cbn. unfold note_refused, attempt. destruct (h_script h) as [|x l]; [|destruct (x =? 0)];
      intros [= <- <-]; [right|right|by left].
    all: cbn; rewrite Nat2Z.id, take_ge by lia; split; [lia|].
    all: unfold output at 1; cbn; by rewrite lookup_insert_eq.
Qed.
