(* ===== verification/Buffer.v ===== *)
(** * Byte buffers ([buffer.c], [buffer.h]) *)
From S2P Require Import Prelude Alloc.

Definition BUF_SIZE_P : Z := 13.

(** [struct _buffer] *)
Record buffer_t := mk_buffer { buf : bptr; size : Z; rpos : Z; wpos : Z }.

(** [memmem]: where [needle] first occurs in [hay]. *)
Fixpoint memmem (hay needle : list byte) : option nat :=
  if bool_decide (take (length needle) hay = needle) then Some 0%nat
  else match hay with
       | [] => None
       | _ :: hay' => S <$> memmem hay' needle
       end.

(** What [vsnprintf(p, avail, ...)] leaves at [p] when the formatted text is
    [txt]: as much of it as fits before the terminating null. *)
Definition vsnprintf_bytes (avail : Z) (txt : list byte) : block :=
  if avail =? 0 then []
  else cells (take (Z.to_nat (avail - 1)) txt ++ [x00]).

Section buffer.
Context {E : Type} `{!Malloc E}.

(** The structure comes zeroed from [calloc], and only a [size] of 0 sets
    the field. *)
Definition buffer_new (sz : Z) : M E (option buffer_t) :=
  ok ← sys (malloc_ok 24);
  if negb ok then mret None
  else
    let bsize := if sz =? 0 then Z.shiftl 1 BUF_SIZE_P else 0 in
    '(m, _) ← alloc Null bsize;
    match m with
    | Live _ => mret (Some (mk_buffer m bsize 0 0))
    | _ => mret None
    end.

(** The block and the structure are freed; what is left for who kept the
    pointer is a structure whose block is gone. *)
Definition buffer_free (b : buffer_t) : M E buffer_t :=
  '(_, old) ← alloc (buf b) 0;
  mret (mk_buffer old (size b) (rpos b) (wpos b)).

(** The unread bytes are moved to the start of the block. *)
Definition buffer_compact (b : buffer_t) : outcome buffer_t :=
  m ← mem_move (buf b) 0 (rpos b) (u32 (wpos b - rpos b));
  Ret (mk_buffer m (size b) 0 (u32 (wpos b - rpos b))).

(** [0] on success, [-1] when the allocator fails. *)
Definition buffer_extend (b : buffer_t) (len : Z) : M E (Z * buffer_t) :=
  b1 ← (if 0 <? rpos b then lift (buffer_compact b) else mret b);
  if (0 <? rpos b) && (u32 (wpos b1 + len) <=? size b1) then mret (0, b1)
  else
    let newlen := u32 (wpos b1 + len) in
    '(mem, old) ← alloc (buf b1) newlen;
    match mem with
    | Live _ => mret (0, mk_buffer mem newlen (rpos b1) (wpos b1))
    | _ => mret (-1, mk_buffer old (size b1) (rpos b1) (wpos b1))
    end.

(** [mem]: is the destination given?  The bytes copied to it are returned
    with the count. *)
Definition buffer_read (b : buffer_t) (mem : bool) (len : Z) : outcome (Z * block * buffer_t) :=
  let nread := Z.min len (u32 (wpos b - rpos b)) in
  if nread =? 0 then Ret (nread, [], b)
  else
    out ← (if mem then mem_read (buf b) (rpos b) nread else Ret []);
    let r := u32 (rpos b + nread) in
    Ret (nread, out,
         if wpos b <=? r then mk_buffer (buf b) (size b) 0 0
         else mk_buffer (buf b) (size b) r (wpos b)).

(** [mem]: the source, when given; it must hold [len] bytes. *)
Definition buffer_write (b : buffer_t) (mem : option block) (len : Z) : M E (Z * buffer_t) :=
  '(r, b1) ← (if size b <? u32 (wpos b + len) then buffer_extend b len else mret (0, b));
  if r =? -1 then mret (0, b1)
  else
    m ← match mem with
        | Some d => lift (d' ← mem_read (Live d) 0 len; mem_write (buf b1) (rpos b1) d')
        | None => mret (buf b1)
        end;
    mret (len, mk_buffer m (size b1) (rpos b1) (u32 (wpos b1 + len))).

Definition buffer_avail (b : buffer_t) : Z := u32 (wpos b - rpos b).
Definition buffer_rpos (b : buffer_t) : Z := rpos b.
Definition buffer_space (b : buffer_t) : Z := u32 (size b - wpos b).
Definition buffer_wpos (b : buffer_t) : Z := wpos b.
Definition buffer_len (b : buffer_t) : Z := size b.

(** The record found: its position and its length with the delimiter. *)
Definition buffer_yield (b : buffer_t) (delim : list byte) : outcome (option (Z * Z) * buffer_t) :=
  region ← mem_read (buf b) (rpos b) (u32 (wpos b - rpos b));
  hay ← defined region;
  match memmem hay delim with
  | Some found =>
      let off := u32 (Z.of_nat found + zlen delim) in
      let ret := rpos b in
      let r := u32 (rpos b + off) in
      Ret (Some (ret, off),
           if wpos b <=? r then mk_buffer (buf b) (size b) 0 0
           else mk_buffer (buf b) (size b) r (wpos b))
  | None => Ret (None, b)
  end.

(** [out]: the text that [vsnprintf] formats, [None] when it fails.  The loop
    runs once: a second round would use [ap] again, which [vsnprintf] has
    consumed and [va_end] has ended, and that is undefined. *)
Definition buffer_vprintf (b : buffer_t) (out : option (list byte)) : M E (Z * buffer_t) :=
  let avail := u32 (size b - wpos b) in
  let ret := match out with Some txt => u32 (zlen txt) | None => u32 (-1) end in
  m ← lift (mem_write (buf b) (wpos b)
              (match out with
               | Some txt => vsnprintf_bytes avail txt
               | None => replicate (Z.to_nat avail) None
               end));
  let b1 := mk_buffer m (size b) (rpos b) (wpos b) in
  if ret <=? 0 then mret (0, b1)
  else if ret <=? avail then
    mret (ret, mk_buffer m (size b) (rpos b) (u32 (wpos b + ret)))
  else
    _ ← buffer_extend b1 ret;
    ub.

Definition buffer_printf (b : buffer_t) (out : option (list byte)) : M E (Z * buffer_t) := buffer_vprintf b out.
End buffer.

(** * Specification *)

(** The unread bytes. *)
Definition contents (b : buffer_t) : block :=
  match buf b with Live m => slice (rpos b) (wpos b - rpos b) m | _ => [] end.

(** The invariant of a buffer: a live block of the recorded size, positions
    in order, and an empty buffer starts at its first byte. *)
Definition wf_buffer (b : buffer_t) : Prop :=
  ∃ m, buf b = Live m ∧ zlen m = size b ∧
       0 ≤ rpos b ≤ wpos b ∧ wpos b ≤ size b < 2 ^ 32 ∧
       (rpos b = wpos b → rpos b = 0).

Ltac open_wf := match goal with
  | H : wf_buffer ?b |- _ =>
      destruct b as [p sz rp wp]; destruct H as (m & Hbuf & Hmlen & Hpos & Hsz & Hzero);
      cbn [buf size rpos wpos] in *; subst p
  end.

Ltac solve_wf := eexists; split; [reflexivity|]; cbn [buf size rpos wpos] in *; lia.

(** [memmem] finds the first occurrence, and finds one if there is any. *)
Lemma memmem_Some hay needle k :
  memmem hay needle = Some k →
  take (length needle) (drop k hay) = needle ∧
  ∀ j, (j < k)%nat → take (length needle) (drop j hay) ≠ needle.
Proof.
  revert k. induction hay as [|x hay IH]; intros k; cbn [memmem].
  - case_bool_decide; [|done]. intros [= <-]. split; [done|]. intros j. lia.
  - case_bool_decide as Hd.
    + intros [= <-]. split; [done|]. intros j. lia.
    + destruct (memmem hay needle) as [k'|]; [|done]. intros [= <-].
      destruct (IH k' eq_refl) as [H1 H2]. split; [done|].
      intros [|j] Hj; [done|]. apply H2. lia.
Qed.

Lemma memmem_None hay needle :
  memmem hay needle = None → ∀ j, take (length needle) (drop j hay) ≠ needle.
Proof.
  induction hay as [|x hay IH]; cbn [memmem]; case_bool_decide as Hd; try done; intros H j.
  - by rewrite drop_nil.
  - destruct j as [|j]; [done|]. apply IH. by destruct (memmem hay needle).
Qed.

Lemma memmem_fits hay needle k :
  memmem hay needle = Some k → (k + length needle ≤ length hay)%nat.
Proof.
  revert k. induction hay as [|x hay IH]; intros k; cbn [memmem]; case_bool_decide as Hd; try done.
  - intros [= <-]. rewrite <- Hd, take_nil. cbn. lia.
  - intros [= <-]. apply (f_equal length) in Hd. rewrite length_take in Hd. cbn in *. lia.
  - destruct (memmem hay needle) as [k'|]; [|done]. intros [= <-].
    specialize (IH k' eq_refl). cbn. lia.
Qed.

Section specs.
Context {E : Type} `{!Malloc E}.
Implicit Types (b : buffer_t) (s : E).

Lemma avail_contents b : wf_buffer b → buffer_avail b = zlen (contents b).
Proof.
  intros H. open_wf. unfold buffer_avail, contents. cbn. unwrap.
  rewrite slice_length; lia.
Qed.

Lemma space_val b : wf_buffer b → buffer_space b = size b - wpos b.
Proof. intros H. open_wf. unfold buffer_space. cbn. by unwrap. Qed.

Lemma empty_positions b : wf_buffer b → contents b = [] → rpos b = 0 ∧ wpos b = 0.
Proof.
  intros H Hc. pose proof (avail_contents b H) as Ha. rewrite Hc in Ha.
  open_wf. unfold buffer_avail in Ha. cbn in *. unwrap. lia.
Qed.

(** [buffer_extend] moves the unread bytes to the start of the block, and
    resizes the block unless the request then fits. *)
Definition compacted_fits b len : bool :=
  (0 <? rpos b) && (wpos b - rpos b + len <=? size b).

Definition extended_size b len : Z :=
  if compacted_fits b len then size b else wpos b - rpos b + len.

(** What [buffer_extend] answers: success if the moved bytes leave enough
    space, or else what the allocator says. *)
Definition extend_result b len s : Z :=
  if compacted_fits b len || fst (malloc_ok (wpos b - rpos b + len) s) then 0 else -1.

Lemma compact_run b :
  wf_buffer b → 0 < rpos b →
  ∃ b1, buffer_compact b = Ret b1 ∧ wf_buffer b1 ∧ contents b1 = contents b ∧
    rpos b1 = 0 ∧ wpos b1 = wpos b - rpos b ∧ size b1 = size b.
Proof.
  intros H Hr. open_wf. unfold buffer_compact. cbn [buf rpos wpos size]. unwrap.
  rewrite mem_move_ok by lia. eexists. split; [done|].
  pose proof (slice_length rp (wp - rp) m) as Hl.
  pose proof (splice_length 0 (slice rp (wp - rp) m) m) as Hs.
  split_and!; cbn; try done.
  - solve_wf.
  - rewrite Z.sub_0_r. transitivity (slice 0 (zlen (slice rp (wp - rp) m))
      (splice 0 (slice rp (wp - rp) m) m)); [f_equal; lia|].
    apply slice_splice_same; lia.
Qed.

(** Resizing a block that has its unread bytes at the start. *)
Lemma resized_run b len s :
  wf_buffer b → rpos b = 0 → 0 ≤ len → 0 < wpos b + len < 2 ^ 32 →
  ∃ mem old s', alloc (buf b) (u32 (wpos b + len)) s = Ret ((mem, old), s') ∧
    ((∃ m, mem = Live m ∧ wf_buffer (mk_buffer mem (wpos b + len) 0 (wpos b)) ∧
           contents (mk_buffer mem (wpos b + len) 0 (wpos b)) = contents b ∧
           fst (malloc_ok (wpos b + len) s) = true) ∨
     (mem = Null ∧ old = buf b ∧ fst (malloc_ok (wpos b + len) s) = false)).
Proof.
  intros H Hr Hl Hn. open_wf. subst rp. unfold alloc, default_alloc. unwrap.
  destruct (Z.eqb_spec (wp + len) 0) as [|_]; [lia|]. mrun.
  destruct (malloc_ok (wp + len) s) as [[|] s']; mrun; do 3 eexists; (split; [done|]).
  - left. eexists. split; [done|]. split_and!; [| |done].
    + pose proof (resize_length (wp + len) m). solve_wf.
    + unfold contents. cbn. apply slice_resize; lia.
  - by right.
Qed.

Lemma extend_run b len s :
  wf_buffer b → 0 ≤ len → 0 < wpos b - rpos b + len < 2 ^ 32 →
  ∃ b' s', buffer_extend b len s = Ret ((extend_result b len s, b'), s') ∧ wf_buffer b' ∧
    contents b' = contents b ∧ rpos b' = 0 ∧ wpos b' = wpos b - rpos b ∧
    size b' = if extend_result b len s =? 0 then extended_size b len else size b.
Proof.
  intros H Hl Hn.
  assert (∃ b1, (if 0 <? rpos b then lift (buffer_compact b) else mret b) s = Ret (b1, s) ∧
    wf_buffer b1 ∧ contents b1 = contents b ∧ rpos b1 = 0 ∧
    wpos b1 = wpos b - rpos b ∧ size b1 = size b) as (b1 & Hrun & Hwf & Hc & H0 & Hw & Hs).
  { destruct (Z.ltb_spec 0 (rpos b)) as [Hr|Hr].
    - destruct (compact_run b H Hr) as (b1 & -> & ?). eauto.
    - assert (rpos b = 0) by (destruct H as (m & ?); lia).
      eexists. split; [done|]. split_and!; auto; lia. }
  unfold buffer_extend. rewrite bind_run, Hrun. mrun.
  unfold extend_result, extended_size, compacted_fits.
  destruct (resized_run b1 len s Hwf H0 Hl ltac:(lia)) as (mem & old & s' & Ha & Hres).
  destruct b1 as [p1 sz1 r1 w1]. cbn [buf size rpos wpos] in *. subst r1 w1 sz1.
  rewrite u32_id in * by (unfold is_u32; lia).
  destruct (_ && _); [do 2 eexists; split_and!; eauto|].
  mrun. rewrite Ha. mrun.
  destruct Hres as [(m & -> & Hwf' & Hc' & ->)|(-> & -> & ->)]; mrun;
    do 2 eexists; (split; [done|]); split_and!; try done. congruence.
Qed.

(** Reading takes bytes from the front. *)
Lemma read_run b mem len n :
  wf_buffer b → is_u32 len → n = Z.min len (zlen (contents b)) →
  ∃ b', buffer_read b mem len =
          Ret (n, if mem then take (Z.to_nat n) (contents b) else [], b') ∧
        wf_buffer b' ∧ contents b' = drop (Z.to_nat n) (contents b) ∧
        buf b' = buf b ∧ size b' = size b.
Proof.
  intros H Hlen Heq. pose proof (avail_contents b H) as Ha. unfold buffer_avail in Ha.
  open_wf. unfold contents, buffer_read in *. cbn [buf size rpos wpos] in *. rewrite Ha.
  rewrite <- Heq. unwrap. unfold is_u32 in *.
  destruct (Z.eqb_spec n 0) as [Hn|Hn].
  { eexists. rewrite Hn. split; [by destruct mem|]. split_and!; try done. by exists m. }
  rewrite <- Ha in Heq. rewrite mem_read_ok by lia.
  rewrite slice_take, slice_drop by lia. unwrap.
  destruct (Z.leb_spec wp (rp + n)); eexists;
    (split; [by destruct mem|]); split_and!; try done; cbn.
  1,3: solve_wf.
  - replace (wp - rp - n) with 0 by lia. done.
  - f_equal. lia.
Qed.

(** Moving the write position over bytes that are there already. *)
Lemma advance_run b n s :
  wf_buffer b → 0 ≤ n → wpos b + n ≤ size b →
  buffer_write b None n s = Ret ((n, mk_buffer (buf b) (size b) (rpos b) (wpos b + n)), s) ∧
  wf_buffer (mk_buffer (buf b) (size b) (rpos b) (wpos b + n)).
Proof.
  intros H Hn Hfit. open_wf. unfold buffer_write. cbn [buf size rpos wpos].
  unwrap. destruct (Z.ltb_spec sz (wp + n)); [lia|]. mrun.
  cbn [buf size rpos wpos]. unwrap. split; [done|]. solve_wf.
Qed.

(** Storing [len] bytes in a buffer that has the space for them. *)
Lemma store_run b d len :
  wf_buffer b → 0 ≤ len ≤ zlen d → wpos b + len ≤ size b →
  ∃ m tail, (d' ← mem_read (Live d) 0 len; mem_write (buf b) (rpos b) d') = Ret m ∧
    let b' := mk_buffer m (size b) (rpos b) (wpos b + len) in
    wf_buffer b' ∧ zlen tail = len ∧
    contents b' = splice 0 (take (Z.to_nat len) d) (contents b ++ tail).
Proof.
  intros H Hl Hfit. open_wf. rewrite mem_read_ok by lia. cbn [mbind outcome_bind].
  pose proof (slice_length 0 len d) as Hd. rewrite mem_write_ok by lia.
  eexists _, (slice wp len m). split; [done|].
  pose proof (splice_length rp (slice 0 len d) m).
  split_and!; cbn; [|rewrite slice_length; lia|].
  - solve_wf.
  - rewrite slice_splice_start by lia. unfold slice at 1. rewrite drop_0. f_equal.
    rewrite (slice_split _ _ (wp - rp)) by lia. f_equal; f_equal; lia.
Qed.

Lemma extended_enough b len : wpos b - rpos b + len ≤ extended_size b len.
Proof. unfold extended_size, compacted_fits. destruct (_ && _) eqn:?; lia. Qed.

(** The first half of [buffer_write]: space for [len] more bytes. *)
Lemma room_run b len s :
  wf_buffer b → 0 ≤ len → wpos b + len < 2 ^ 32 →
  ∃ r b1 s', (if size b <? u32 (wpos b + len) then buffer_extend b len else mret (0, b)) s
               = Ret ((r, b1), s') ∧
    wf_buffer b1 ∧ contents b1 = contents b ∧
    ((r = 0 ∧ wpos b1 ≤ wpos b ∧ wpos b1 + len ≤ size b1 < 2 ^ 32) ∨
     (r = -1 ∧ size b < wpos b + len ∧ extend_result b len s = -1)).
Proof.
  intros H Hl Hw.
  assert (0 ≤ rpos b ≤ wpos b ∧ wpos b ≤ size b < 2 ^ 32) as Hp by (destruct H as (?&?); tauto).
  rewrite (u32_id (wpos b + len)) by (unfold is_u32; lia).
  destruct (Z.ltb_spec (size b) (wpos b + len)) as [Hsz|Hsz]; mrun.
  - destruct (extend_run b len s H) as (b1 & s1 & -> & Hwf & Hc & H0 & Hw1 & Hs1); [lia..|].
    do 3 eexists. split; [done|]. split; [done|]. split; [done|].
    assert (size b1 < 2 ^ 32) by (destruct Hwf as (?&?); tauto).
    revert Hs1. unfold extend_result. destruct (_ || _); mrun; intros Hs1; [left|right]; [|done].
    pose proof (extended_enough b len). lia.
  - do 3 eexists. split; [done|]. split_and!; auto; lia.
Qed.

Lemma write_fits b d len s :
  wf_buffer b → 0 ≤ len ≤ zlen d → wpos b + len ≤ size b →
  ∃ b' tail, buffer_write b (Some d) len s = Ret ((len, b'), s) ∧ wf_buffer b' ∧
    zlen tail = len ∧ contents b' = splice 0 (take (Z.to_nat len) d) (contents b ++ tail).
Proof.
  intros H Hl Hfit.
  assert (0 ≤ rpos b ≤ wpos b ∧ wpos b ≤ size b < 2 ^ 32) as Hp by (destruct H as (?&?); tauto).
  unfold buffer_write. rewrite !u32_id by (unfold is_u32; lia).
  destruct (Z.ltb_spec (size b) (wpos b + len)); [lia|]. mrun.
  destruct (store_run b d len) as (m & tail & -> & Hwf' & Ht & Hc'); [done|lia..|]. mrun.
  rewrite u32_id by (unfold is_u32; lia). eauto 10.
Qed.

Lemma write_run b d len s :
  wf_buffer b → 0 ≤ len ≤ zlen d → wpos b + len < 2 ^ 32 →
  ∃ r b' s', buffer_write b (Some d) len s = Ret ((r, b'), s') ∧ wf_buffer b' ∧
    ((r = len ∧ ∃ tail, zlen tail = len ∧
        contents b' = splice 0 (take (Z.to_nat len) d) (contents b ++ tail)) ∨
     (r = 0 ∧ size b < wpos b + len ∧ extend_result b len s = -1 ∧ contents b' = contents b)).
Proof.
  intros H Hl Hw. unfold buffer_write. rewrite bind_run.
  destruct (room_run b len s H) as (r & b1 & s1 & -> & Hwf & Hc & [(-> & Hw1 & Hr)|(-> & ?)]);
    [lia..| |]; mrun.
  - destruct (store_run b1 d len) as (m & tail & -> & Hwf' & Ht & Hc'); [done|lia..|].
    mrun. assert (0 ≤ wpos b1) by (destruct Hwf as (?&?&?&?&?&?); lia).
    rewrite u32_id by (unfold is_u32; lia).
    do 3 eexists. split; [done|]. split; [done|]. left. rewrite <- Hc. eauto.
  - do 3 eexists. split; [done|]. split; [done|]. right. tauto.
Qed.

(** Without a source [buffer_write] moves the write position over [len]
    bytes, whatever they hold. *)
Lemma skip_run b len s :
  wf_buffer b → 0 ≤ len → wpos b + len < 2 ^ 32 →
  ∃ r b' s', buffer_write b None len s = Ret ((r, b'), s') ∧ wf_buffer b' ∧
    ((r = len ∧ wpos b' ≤ wpos b + len ∧
        ∃ tail, zlen tail = len ∧ contents b' = contents b ++ tail) ∨
     (r = 0 ∧ size b < wpos b + len ∧ extend_result b len s = -1 ∧ contents b' = contents b)).
Proof.
  intros H Hl Hw. unfold buffer_write. rewrite bind_run.
  destruct (room_run b len s H) as (r & b1 & s1 & -> & Hwf & Hc & [(-> & Hw1 & Hr)|(-> & ?)]);
    [lia..| |]; mrun.
  - clear H Hw. revert Hc. open_wf. unwrap. intros Hc.
    do 3 eexists. split; [done|]. split; [solve_wf|]. left. split; [done|]. split; [cbn; lia|].
    exists (slice wp len m). rewrite slice_length by lia. split; [lia|].
    rewrite <- Hc. unfold contents. cbn. rewrite (slice_split _ _ (wp - rp)) by lia.
    do 2 f_equal; lia.
  - do 3 eexists. split; [done|]. split; [done|]. right. tauto.
Qed.

Lemma yield_run b delim hay :
  wf_buffer b → contents b = cells hay →
  match memmem hay delim with
  | Some k => ∃ b', buffer_yield b delim = Ret (Some (rpos b, Z.of_nat k + zlen delim), b') ∧
      wf_buffer b' ∧ contents b' = cells (drop (k + length delim) hay) ∧ buf b' = buf b ∧ size b' = size b ∧
      (rpos b' = wpos b' ∨ rpos b' = rpos b + (Z.of_nat k + zlen delim))
  | None => buffer_yield b delim = Ret (None, b)
  end.
Proof.
  intros H Hc. pose proof (avail_contents b H) as Ha. rewrite Hc, length_fmap in Ha.
  pose proof (memmem_fits hay delim) as Hfit.
  open_wf. unfold buffer_yield, buffer_avail, contents in *. cbn [buf size rpos wpos] in *.
  unwrap. rewrite mem_read_ok by lia. cbn [mbind outcome_bind]. rewrite Hc, defined_cells.
  cbn [mbind outcome_bind].
  destruct (memmem hay delim) as [k|]; [|done]. specialize (Hfit k eq_refl). unwrap.
  eexists. split; [done|].
  rewrite fmap_drop, <- Hc. destruct (Z.leb_spec wp (rp + (Z.of_nat k + zlen delim))).
  - split_and!; [solve_wf| |done|done|by left]. cbn. symmetry. apply drop_ge.
    rewrite slice_length; lia.
  - split_and!; [solve_wf| |done|done|by right]. cbn.
    replace (k + length delim)%nat with (Z.to_nat (Z.of_nat k + zlen delim)) by lia.
    rewrite slice_drop by lia. f_equal. lia.
Qed.

(** The unread bytes in memory. *)
Lemma unread_memory b hay n :
  wf_buffer b → contents b = cells hay → (n ≤ length hay)%nat →
  mem_read (buf b) (rpos b) (Z.of_nat n) = Ret (cells (take n hay)).
Proof.
  intros H Hc Hn. pose proof (avail_contents b H) as Ha. rewrite Hc, length_fmap in Ha.
  open_wf. unfold buffer_avail, contents in *. cbn [buf size rpos wpos] in *. unwrap.
  rewrite mem_read_ok by lia. f_equal. rewrite <- (slice_take _ (wp - rp)), Hc by lia.
  by rewrite Nat2Z.id, fmap_take.
Qed.

(** ** Formatted output *)

(** What [n] bytes of formatted text become where [avail] bytes are free:
    when they fill the free space the last one gives way to the null. *)
Definition printed (avail : Z) (txt : list byte) : list byte :=
  if zlen txt <? avail then txt else take (length txt - 1) txt ++ [x00].

Lemma vsnprintf_length avail txt :
  0 ≤ avail → zlen (vsnprintf_bytes avail txt) = Z.min (zlen txt + 1) avail.
Proof.
  intros. unfold vsnprintf_bytes. destruct (Z.eqb_spec avail 0); [cbn; lia|].
  rewrite length_fmap, length_app, length_take. cbn. lia.
Qed.

Lemma vsnprintf_prefix avail txt :
  0 < zlen txt ≤ avail →
  take (length txt) (vsnprintf_bytes avail txt) = cells (printed avail txt).
Proof.
  intros. unfold vsnprintf_bytes, printed. destruct (Z.eqb_spec avail 0); [lia|].
  rewrite <- fmap_take. f_equal. destruct (Z.ltb_spec (zlen txt) avail).
  - rewrite take_app_le, take_take by (rewrite length_take; lia). apply take_ge. lia.
  - replace (Z.to_nat (avail - 1)) with (length txt - 1)%nat by lia.
    apply take_ge. rewrite length_app, length_take. cbn. lia.
Qed.

(** The bytes written past the write position leave the buffer as it is. *)
Lemma scratch_run b d :
  wf_buffer b → zlen d ≤ size b - wpos b →
  ∃ m, mem_write (buf b) (wpos b) d = Ret m ∧
    let b1 := mk_buffer m (size b) (rpos b) (wpos b) in
    wf_buffer b1 ∧ contents b1 = contents b ∧
    ∀ n, 0 ≤ n ≤ zlen d →
      let b2 := mk_buffer m (size b) (rpos b) (wpos b + n) in
      wf_buffer b2 ∧ contents b2 = contents b ++ take (Z.to_nat n) d.
Proof.
  intros H Hd. open_wf. rewrite mem_write_ok by lia. eexists. split; [done|].
  pose proof (splice_length wp d m). cbn. split_and!; [solve_wf| |].
  - unfold contents. cbn. apply slice_splice_before; lia.
  - intros n Hn. split; [solve_wf|]. unfold contents. cbn.
    rewrite (slice_split _ _ (wp - rp)) by lia.
    rewrite slice_splice_before by lia. f_equal.
    rewrite <- (slice_take _ (zlen d)) by lia.
    replace (rp + (wp - rp)) with wp by lia. rewrite slice_splice_same by lia.
    f_equal. lia.
Qed.

Lemma vprintf_here b txt s :
  wf_buffer b → 0 < zlen txt ≤ size b - wpos b →
  ∃ b', buffer_printf b (Some txt) s = Ret ((zlen txt, b'), s) ∧ wf_buffer b' ∧
    contents b' = contents b ++ cells (printed (size b - wpos b) txt).
Proof.
  intros H Hn. pose proof (space_val b H) as Hs. unfold buffer_space in Hs.
  unfold buffer_printf, buffer_vprintf. rewrite Hs.
  pose proof (vsnprintf_length (size b - wpos b) txt) as Hl.
  destruct (scratch_run b (vsnprintf_bytes (size b - wpos b) txt) H) as (m & -> & _ & _ & Hb);
    [lia|]. mrun.
  assert (wpos b ≤ size b < 2 ^ 32 ∧ 0 ≤ wpos b) by (destruct H as (?&?&?&?&?&?); lia).
  rewrite !u32_id by (unfold is_u32; lia).
  destruct (Z.leb_spec (zlen txt) 0); [lia|].
  destruct (Z.leb_spec (zlen txt) (size b - wpos b)); [|lia].
  destruct (Hb (zlen txt)) as [Hwf Hc]; [lia|].
  rewrite Nat2Z.id, vsnprintf_prefix in Hc by lia. eauto.
Qed.

(** Text that does not fit. *)
Lemma vprintf_undefined b txt s :
  wf_buffer b → size b - wpos b < zlen txt → wpos b - rpos b + zlen txt < 2 ^ 32 →
  buffer_printf b (Some txt) s = UB.
Proof.
  intros H Hn Hw. pose proof (space_val b H) as Hs. unfold buffer_space in Hs.
  assert (0 ≤ rpos b ≤ wpos b ∧ wpos b ≤ size b < 2 ^ 32) as Hp by (destruct H as (?&?&?&?&?&?); lia).
  pose proof (vsnprintf_length (size b - wpos b) txt) as Hl.
  destruct (scratch_run b (vsnprintf_bytes (size b - wpos b) txt) H)
    as (m & Hm & Hwf & Hc & _); [lia|].
  unfold buffer_printf, buffer_vprintf. rewrite Hs, bind_run, Hm. cbn [lift].
  rewrite !u32_id by (unfold is_u32; lia).
  destruct (Z.leb_spec (zlen txt) 0); [lia|].
  destruct (Z.leb_spec (zlen txt) (size b - wpos b)); [lia|]. rewrite bind_run.
  destruct (extend_run _ (zlen txt) s Hwf) as (b2 & s2 & -> & _); [cbn; lia..|]. done.
Qed.

End specs.

(** * The operations as a whole *)

Section operations.
Context {E : Type} `{!Malloc E}.

Inductive buffer_op : Type :=
  | OpExtend (len : Z)
  | OpRead (mem : bool) (len : Z)
  | OpWrite (mem : option block) (len : Z)
  | OpYield (delim : list byte)
  | OpPrintf (txt : list byte).

Definition run_op (o : buffer_op) (b : buffer_t) : M E buffer_t :=
  match o with
  | OpExtend len => '(_, b') ← buffer_extend b len; mret b'
  | OpRead mem len => '(_, _, b') ← lift (buffer_read b mem len); mret b'
  | OpWrite mem len => '(_, b') ← buffer_write b mem len; mret b'
  | OpYield delim => '(_, b') ← lift (buffer_yield b delim); mret b'
  | OpPrintf txt => '(_, b') ← buffer_printf b (Some txt); mret b'
  end.

(** When an operation may be used: no 32-bit sum of a position and a length
    wraps around, a request is not for an empty block, a source holds the
    bytes asked for, a search meets initialised bytes, and formatted text is no
    longer than the free space. *)
Definition op_ok (o : buffer_op) (b : buffer_t) : Prop :=
  match o with
  | OpExtend len => 0 ≤ len ∧ 0 < wpos b - rpos b + len < 2 ^ 32
  | OpRead _ len => is_u32 len
  | OpWrite None len => 0 ≤ len ∧ wpos b + len < 2 ^ 32
  | OpWrite (Some d) len => 0 ≤ len ≤ zlen d ∧ wpos b + len < 2 ^ 32
  | OpYield delim => ∃ hay, contents b = cells hay
  | OpPrintf txt => 0 < zlen txt ≤ size b - wpos b
  end.

(** C2: every operation on a well-formed buffer returns without undefined
    behaviour and leaves a well-formed buffer, whatever the allocator answers,
    if no sum of a position and a length overflows, sources and searches meet
    bytes that are there, and formatted text is no longer than the free space
    (longer text is undefined, see [buffer_printf_appends]). *)
Theorem buffer_op_safe o b s :
  wf_buffer b → op_ok o b → ∃ b' s', run_op o b s = Ret (b', s') ∧ wf_buffer b'.
Proof.
  intros H Hok. destruct o as [len|mem len|[d|] len|delim|txt]; cbn [run_op op_ok] in *; mrun.
  - destruct (extend_run b len s H) as (b' & s' & -> & ? & _); [tauto..|]. mrun. eauto.
  - destruct (read_run b mem len _ H Hok eq_refl) as (b' & -> & ? & _). mrun. eauto.
  - destruct (write_run b d len s H) as (r & b' & s' & -> & ? & _); [tauto..|]. mrun. eauto.
  - destruct (skip_run b len s H) as (r & b' & s' & -> & ? & _); [tauto..|]. mrun. eauto.
  - destruct Hok as [hay Hc]. pose proof (yield_run b delim hay H Hc) as Hy.
    destruct (memmem hay delim); [destruct Hy as (b' & -> & ? & _)|rewrite Hy]; mrun; eauto.
  - destruct (vprintf_here b txt s H Hok) as (b' & -> & ? & _). mrun. eauto.
Qed.
End operations.

(** * Properties *)

Section properties.
Context {E : Type} `{!Malloc E}.
Implicit Types (b : buffer_t) (s : E) (d : list byte).

(** A new buffer is well formed and empty, and for every size but 0 it
    has no space at all: the requested size is never stored. *)
Theorem buffer_new_capacity sz s b s' :
  buffer_new sz s = Ret (Some b, s') →
  wf_buffer b ∧ contents b = [] ∧ buffer_len b = if sz =? 0 then 8192 else 0.
Proof.
  unfold buffer_new, alloc, default_alloc. mrun.
  destruct (malloc_ok 24 s) as [[|] s1]; mrun; [|done].
  destruct (malloc_ok _ s1) as [[|] s2]; mrun; [|done].
  intros [= <- <-]. split_and!; [|done|by destruct (sz =? 0)].
  change (Z.shiftl 1 BUF_SIZE_P) with 8192.
  eexists. split; [done|]. cbn [buf size rpos wpos]. rewrite length_replicate.
  destruct (sz =? 0); lia.
Qed.

(** What is written to an empty buffer is what is read from it, in
    order and in pieces of any length. *)
Theorem buffer_write_read b d s :
  wf_buffer b → contents b = [] → 0 < zlen d < 2 ^ 32 →
  zlen d ≤ size b ∨ fst (malloc_ok (zlen d) s) = true →
  ∃ b1 s1, buffer_write b (Some (cells d)) (zlen d) s = Ret ((zlen d, b1), s1) ∧
    wf_buffer b1 ∧ buffer_avail b1 = zlen d ∧
    ∀ n, is_u32 n → ∃ b2,
      buffer_read b1 true n =
        Ret (Z.min n (zlen d), cells (take (Z.to_nat n) d), b2) ∧
      wf_buffer b2 ∧ contents b2 = cells (drop (Z.to_nat n) d).
Proof.
  intros H He Hd Hm. destruct (empty_positions b H He) as [Hr0 Hw0].
  destruct (write_run b (cells d) (zlen d) s H) as (r & b1 & s1 & Hrun & Hwf & Hres);
    rewrite ?length_fmap; [lia..|].
  destruct Hres as [[-> (tail & Ht & Hc)]|(-> & Hsz & Hext & _)].
  - rewrite He, Nat2Z.id, take_ge, splice_nil_app in Hc;
      [|rewrite ?length_fmap; cbn; rewrite ?length_fmap; lia..].
    exists b1, s1. split; [done|]. split; [done|].
    rewrite avail_contents, Hc, length_fmap by done. split; [done|].
    intros n Hn. destruct (read_run b1 true n _ Hwf Hn eq_refl) as (b2 & -> & ? & Hc2 & _).
    rewrite Hc, length_fmap in *. unfold is_u32 in Hn. exists b2. split_and!; [|done|].
    + do 2 f_equal. f_equal. rewrite <- fmap_take. f_equal.
      destruct (Z.min_spec n (zlen d)) as [[? ->]|[? ->]]; [done|].
      rewrite !take_ge; [done|lia..].
    + rewrite Hc2, <- fmap_drop. f_equal.
      destruct (Z.min_spec n (zlen d)) as [[? ->]|[? ->]]; [done|].
      rewrite !drop_ge; [done|lia..].
  - exfalso. revert Hext. unfold extend_result. rewrite Hr0, Hw0 in *. 
    replace (0 - 0 + zlen d) with (zlen d) by lia.
    destruct Hm as [Hm|Hm]; [lia|]. by rewrite Hm, orb_true_r.
Qed.

(** A write to a buffer with unread bytes does not append.  The new
    bytes replace the unread ones from the first on, and as many bytes as
    were written become readable at the end without having been stored. *)
Theorem buffer_write_overlays b old d s :
  wf_buffer b → contents b = cells old → old ≠ [] → wpos b + zlen d ≤ size b →
  zlen d ≤ zlen old →
  ∃ b1 tail s1, buffer_write b (Some (cells d)) (zlen d) s = Ret ((zlen d, b1), s1) ∧
    wf_buffer b1 ∧ zlen tail = zlen d ∧
    contents b1 = cells (d ++ drop (length d) old) ++ tail.
Proof.
  intros H Hc Hne Hfit Hd.
  assert (wpos b ≤ size b < 2 ^ 32) by (destruct H as (?&?&?&?&?&?); lia).
  destruct (write_fits b (cells d) (zlen d) s H) as (b1 & tail & Hrun & Hwf & Ht & Hc1);
    rewrite ?length_fmap; [lia..|].
  exists b1, tail, s. split_and!; try done. rewrite Hc1, Nat2Z.id, take_ge, Hc by
    (rewrite length_fmap; lia).
  change (splice 0 (cells d) (cells old ++ tail))
    with (cells d ++ drop (length (cells d)) (cells old ++ tail)).
  rewrite length_fmap, drop_app_le by (rewrite length_fmap; lia).
  by rewrite <- fmap_drop, fmap_app, app_assoc.
Qed.

(** A read returns the oldest unread bytes, as many as asked for and
    there are, and consumes exactly those; without a destination it only
    consumes them. *)
Theorem buffer_read_takes b mem len data :
  wf_buffer b → is_u32 len → contents b = data →
  let n := Z.min len (zlen data) in
  ∃ b', buffer_read b mem len = Ret (n, if mem then take (Z.to_nat n) data else [], b') ∧
    wf_buffer b' ∧ contents b' = drop (Z.to_nat n) data ∧ buffer_avail b' = zlen data - n.
Proof.
  intros H Hlen <- n. destruct (read_run b mem len n H Hlen eq_refl) as (b' & -> & Hwf & Hc & _).
  exists b'. split_and!; [done..|]. rewrite avail_contents, Hc, length_drop by done.
  unfold is_u32, n in *. lia.
Qed.

(** [buffer_extend] keeps the unread bytes, moved to the start of the
    block, whether it succeeds or not.  It succeeds if they leave enough
    space once moved or the allocator grants the exact size, and then there
    is space for [len] bytes. *)
Theorem buffer_extend_keeps b len s :
  wf_buffer b → 0 ≤ len → 0 < zlen (contents b) + len < 2 ^ 32 →
  ∃ b' s', buffer_extend b len s = Ret ((extend_result b len s, b'), s') ∧ wf_buffer b' ∧
    contents b' = contents b ∧ buffer_rpos b' = 0 ∧
    (extend_result b len s = 0 → len ≤ buffer_space b') ∧
    (extend_result b len s = -1 → buffer_len b' = buffer_len b).
Proof.
  intros H Hl Hn. rewrite <- avail_contents in Hn by done. unfold buffer_avail in Hn.
  assert (0 ≤ rpos b ≤ wpos b ∧ wpos b ≤ size b < 2 ^ 32) as Hp by (destruct H as (?&?); tauto).
  rewrite u32_id in Hn by (unfold is_u32; lia).
  destruct (extend_run b len s H Hl Hn) as (b' & s' & Hrun & Hwf & Hc & H0 & Hw & Hs).
  exists b', s'. split; [done|]. split; [done|]. split; [done|]. split; [done|].
  rewrite space_val by done. unfold buffer_len.
  split; intros Hr; rewrite Hr in Hs; cbn in Hs; [|done].
  pose proof (extended_enough b len). lia.
Qed.

(** [buffer_yield] hands out the shortest prefix of the unread bytes
    that ends with the delimiter, still in place at the address returned,
    and consumes it; if the delimiter does not occur, nothing changes. *)
Theorem buffer_yield_record b delim hay :
  wf_buffer b → contents b = cells hay →
  (∃ k b', buffer_yield b delim = Ret (Some (buffer_rpos b, Z.of_nat k + zlen delim), b') ∧
     take (length delim) (drop k hay) = delim ∧
     (∀ j, (j < k)%nat → take (length delim) (drop j hay) ≠ delim) ∧
     wf_buffer b' ∧ contents b' = cells (drop (k + length delim) hay) ∧
     mem_read (buf b') (buffer_rpos b) (Z.of_nat k + zlen delim) =
       Ret (cells (take k hay ++ delim))) ∨
  (buffer_yield b delim = Ret (None, b) ∧ ∀ j, take (length delim) (drop j hay) ≠ delim).
Proof.
  intros H Hc. pose proof (yield_run b delim hay H Hc) as Hy.
  destruct (memmem hay delim) as [k|] eqn:Hk.
  - left. destruct Hy as (b' & Hrun & Hwf & Hc' & Hb & _).
    destruct (memmem_Some _ _ _ Hk) as [Hat Hmin]. pose proof (memmem_fits _ _ _ Hk).
    exists k, b'. split_and!; try done. rewrite Hb. rewrite <- Nat2Z.inj_add.
    unfold buffer_rpos. rewrite (unread_memory b hay) by done. by rewrite <- take_take_drop, Hat.
  - right. split; [done|]. by apply memmem_None.
Qed.

(** C36: formatted text that is shorter than the free space is appended to the
    unread bytes; of a text as long as the free space the last byte is replaced
    by the null that ends it, although its whole length is returned; a longer
    text extends the buffer and then formats with an argument list that has
    ended, which is undefined. *)
Theorem buffer_printf_appends b txt s :
  wf_buffer b → 0 < zlen txt → wpos b - rpos b + zlen txt < 2 ^ 32 →
  if zlen txt <=? buffer_space b then
    ∃ b', buffer_printf b (Some txt) s = Ret ((zlen txt, b'), s) ∧ wf_buffer b' ∧
      contents b' = contents b ++ cells (if zlen txt <? buffer_space b then txt else take (length txt - 1) txt ++ [x00])
  else buffer_printf b (Some txt) s = UB.
Proof.
  intros H Hn Hw. rewrite space_val by done. destruct (Z.leb_spec (zlen txt) (size b - wpos b)).
  - by apply vprintf_here.
  - by apply vprintf_undefined.
Qed.
End properties.

(** * Witnesses *)

Definition bytes_of (l : list nat) : list byte := default x00 ∘ Byte.of_nat <$> l.

(** A buffer of 8 bytes holding [d] from position [r] on. *)
Definition small (r : nat) (d : list byte) : buffer_t :=
  mk_buffer (Live (replicate r zero_cell ++ cells d ++ replicate (8 - r - length d) zero_cell))
    8 (Z.of_nat r) (Z.of_nat (r + length d)).

Ltac wf_small := eexists; split; [reflexivity|]; cbn; lia.

Definition abc : list byte := [x61; x62; x63].
Definition de : list byte := [x64; x65].

Lemma buffer_op_safe_witness :
  ∃ b' s', run_op (E:=unit) (OpWrite (Some (cells de)) 2) (small 3 abc) tt = Ret (b', s') ∧ wf_buffer b'.
Proof. apply (buffer_op_safe (E:=unit)); [wf_small|cbn; lia]. Defined.

Lemma buffer_new_capacity_witness :
  ∃ b, buffer_new (E:=unit) 64 tt = Ret (Some b, tt) ∧ wf_buffer b ∧ contents b = [] ∧ buffer_len b = 0.
Proof.
  exists (mk_buffer (Live []) 0 0 0). split; [reflexivity|].
  apply (buffer_new_capacity (E:=unit) 64 tt _ tt). reflexivity.
Defined.

Lemma buffer_write_read_witness :
  ∃ b1 s1, buffer_write (E:=unit) (small 0 []) (Some (cells abc)) 3 tt = Ret ((3, b1), s1) ∧
    wf_buffer b1 ∧ buffer_avail b1 = 3 ∧
    ∀ n, is_u32 n → ∃ b2,
      buffer_read b1 true n = Ret (Z.min n 3, cells (take (Z.to_nat n) abc), b2) ∧
      wf_buffer b2 ∧ contents b2 = cells (drop (Z.to_nat n) abc).
Proof. apply (buffer_write_read (E:=unit) (small 0 []) abc tt); [wf_small|done|cbn; lia|by left]. Defined.

Lemma buffer_write_overlays_witness :
  ∃ b1 tail s1, buffer_write (E:=unit) (small 2 abc) (Some (cells de)) 2 tt = Ret ((2, b1), s1) ∧
    wf_buffer b1 ∧ zlen tail = 2 ∧ contents b1 = cells [x64; x65; x63] ++ tail.
Proof. apply (buffer_write_overlays (E:=unit) (small 2 abc) abc de tt); [wf_small|done|done|cbn; lia|cbn; lia]. Defined.

Lemma buffer_read_takes_witness :
  ∃ b', buffer_read (small 2 abc) true 2 = Ret (2, cells [x61; x62], b') ∧
    wf_buffer b' ∧ contents b' = cells [x63] ∧ buffer_avail b' = 1.
Proof.
  assert (wf_buffer (small 2 abc)) as H by wf_small.
  exact (buffer_read_takes (small 2 abc) true 2 (cells abc) H ltac:(unfold is_u32; lia) eq_refl).
Defined.

Lemma buffer_extend_keeps_witness :
  extend_result (E:=unit) (small 3 abc) 9 tt = 0 ∧
  ∃ b' s', buffer_extend (E:=unit) (small 3 abc) 9 tt =
             Ret ((extend_result (E:=unit) (small 3 abc) 9 tt, b'), s') ∧ wf_buffer b' ∧
    contents b' = contents (small 3 abc) ∧ buffer_rpos b' = 0 ∧
    (extend_result (E:=unit) (small 3 abc) 9 tt = 0 → 9 ≤ buffer_space b') ∧
    (extend_result (E:=unit) (small 3 abc) 9 tt = -1 → buffer_len b' = buffer_len (small 3 abc)).
Proof.
  split; [reflexivity|].
  apply (buffer_extend_keeps (E:=unit) (small 3 abc) 9 tt); [wf_small|lia|by_computing].
Defined.

Lemma buffer_yield_record_witness :
  (∃ k b', buffer_yield (small 2 abc) [x62] = Ret (Some (2, Z.of_nat k + 1), b') ∧
     take 1 (drop k abc) = [x62] ∧ (∀ j, (j < k)%nat → take 1 (drop j abc) ≠ [x62]) ∧
     wf_buffer b' ∧ contents b' = cells (drop (k + 1) abc) ∧
     mem_read (buf b') 2 (Z.of_nat k + 1) = Ret (cells (take k abc ++ [x62]))) ∨
  (buffer_yield (small 2 abc) [x62] = Ret (None, small 2 abc) ∧
     ∀ j, take 1 (drop j abc) ≠ [x62]).
Proof. apply (buffer_yield_record (small 2 abc) [x62] abc); [wf_small|done]. Defined.

Lemma buffer_printf_appends_witness :
  ∃ b', buffer_printf (E:=unit) (small 2 abc) (Some abc) tt = Ret ((3, b'), tt) ∧ wf_buffer b' ∧
    contents b' = cells abc ++ cells [x61; x62; x00].
Proof. apply (buffer_printf_appends (E:=unit) (small 2 abc) abc tt); [wf_small|cbn; lia..]. Defined.
