(* ===== verification/Scan.v ===== *)
(** * Formatted input of the C library: [fgets], and [%s] and [%d] of [scanf]

    A file or a string is the list of its bytes; what is left after a
    conversion is returned with the result. *)
From stdpp Require Import strings.
From S2P Require Import Prelude Cstring Buffer.

Definition is_space (b : byte) : bool :=
  (byte_val b =? 32) || ((9 <=? byte_val b) && (byte_val b <=? 13)).

Fixpoint skip_space (l : list byte) : list byte :=
  match l with b :: l' => if is_space b then skip_space l' else l | [] => [] end.

(** The longest run of bytes that are no white space, and the rest. *)
Fixpoint word (l : list byte) : list byte * list byte :=
  match l with
  | b :: l' => if is_space b then ([], l) else let '(w, r) := word l' in (b :: w, r)
  | [] => ([], [])
  end.

(** [%s] into [size] bytes: nothing at the end of the input. *)
Definition scan_s (size : Z) (l : list byte) : outcome (option (list byte) * list byte) :=
  let '(w, r) := word (skip_space l) in
  if bool_decide (w = []) then Ret (None, r)
  else if size <=? zlen w then UB
  else Ret (Some w, r).

Fixpoint scan_digits (l : list byte) (acc : Z) : Z * list byte :=
  match l with
  | b :: l' => if is_digit b then scan_digits l' (10 * acc + (byte_val b - 48)) else (acc, l)
  | [] => (acc, [])
  end.

(** The value must be an [int]. *)
Definition is_int (z : Z) : bool := (- 2 ^ 31 <=? z) && (z <? 2 ^ 31).

(** The digits after the sign: nothing when there is none. *)
Definition scan_number (neg : bool) (l : list byte) : outcome (option Z * list byte) :=
  match l with
  | b :: _ =>
      if is_digit b then
        let '(v, r) := scan_digits l 0 in
        let v := if neg then - v else v in
        if is_int v then Ret (Some v, r) else UB
      else Ret (None, l)
  | [] => Ret (None, [])
  end.

(** [%d] *)
Definition scan_d (l : list byte) : outcome (option Z * list byte) :=
  match skip_space l with
  | b :: l' =>
      if byte_val b =? 45 then scan_number true l'
      else if byte_val b =? 43 then scan_number false l'
      else scan_number false (b :: l')
  | [] => Ret (None, [])
  end.

(** A line with its end, at most [n] bytes of it. *)
Fixpoint take_line (n : nat) (l : list byte) : list byte * list byte :=
  match n, l with
  | S n, b :: l' =>
      if decide (b = x0a) then ([b], l') else let '(w, r) := take_line n l' in (b :: w, r)
  | _, _ => ([], l)
  end.

(** [fgets] into [size] bytes. *)
Definition fgets (size : nat) (l : list byte) : option (list byte * list byte) :=
  match l with [] => None | _ => Some (take_line (Nat.pred size) l) end.

(** The string that starts with these bytes. *)
Fixpoint cstr (l : list byte) : list byte :=
  match l with b :: l' => if decide (b = x00) then [] else b :: cstr l' | [] => [] end.

(** [strstr]: does the string occur? *)
Definition strstr (hay needle : list byte) : bool :=
  match memmem hay needle with Some _ => true | None => false end.

Example scan_some :
  scan_d (str_of "  -12x") = Ret (Some (-12), str_of "x") ∧ scan_d (str_of "-x") = Ret (None, str_of "x") ∧
  scan_d (str_of "2147483648") = UB ∧
  scan_s 4 (str_of " abc de") = Ret (Some (str_of "abc"), str_of " de") ∧ scan_s 4 (str_of "abcd") = UB.
Proof. by vm_compute. Qed.

(** * Lemmas *)

Definition no_digit (l : list byte) : Prop := match l with b :: _ => is_digit b = false | [] => True end.
Definition no_space (l : list byte) : Prop := match l with b :: _ => is_space b = false | [] => True end.
Definition at_space (l : list byte) : Prop := match l with b :: _ => is_space b = true | [] => True end.

Lemma digit_no_space b : is_digit b = true → is_space b = false ∧ byte_val b ≠ 45 ∧ byte_val b ≠ 43.
Proof. unfold is_digit, is_space. intros H. split; [|lia]. apply orb_false_iff. split; [lia|]. apply andb_false_iff. lia. Qed.

Lemma skip_space_app w l : Forall (λ b, is_space b = true) w → skip_space (w ++ l) = skip_space l.
Proof. induction 1 as [|b w Hb _ IH]; cbn; [done|]. by rewrite Hb. Qed.

Lemma skip_space_none l : no_space l → skip_space l = l.
Proof. destruct l as [|b l]; cbn; [done|]. by intros ->. Qed.

Lemma word_app w l : Forall (λ b, is_space b = false) w → at_space l → word (w ++ l) = (w, l).
Proof.
  intros Hw Hl. induction Hw as [|b w Hb _ IH]; cbn.
  - destruct l as [|b l]; cbn in *; [done|]. by rewrite Hl.
  - by rewrite Hb, IH.
Qed.

(** Reading a word. *)
Lemma scan_s_word size sp w l :
  Forall (λ b, is_space b = true) sp → w ≠ [] → Forall (λ b, is_space b = false) w → at_space l → zlen w < size →
  scan_s size (sp ++ w ++ l) = Ret (Some w, l).
Proof.
  intros Hsp Hne Hw Hl Hsize. unfold scan_s. rewrite skip_space_app by done.
  rewrite skip_space_none by (destruct w; [done|]; by apply Forall_cons in Hw as [? _]).
  rewrite word_app by done. rewrite bool_decide_eq_false_2 by done.
  destruct (Z.leb_spec size (zlen w)); [lia|done].
Qed.

Lemma dec_go_scan fuel n acc :
  0 ≤ n < 2 ^ Z.of_nat fuel →
  ∃ p, ∀ m a, scan_digits (dec_go fuel n acc ++ m) a = scan_digits (acc ++ m) (a * p + n).
Proof.
  revert n acc. induction fuel as [|fuel IH]; intros n acc Hn.
  { exists 1. cbn in Hn. intros m a. replace (a * 1 + n) with a by lia. done. }
  cbn [dec_go]. pose proof (Z.mod_pos_bound n 10 eq_refl) as Hm.
  destruct (digit_val (n mod 10) Hm) as [Hv Hd].
  pose proof (Z.div_mod n 10) as Hdm. destruct (Z.ltb_spec n 10) as [Hlt|Hge].
  - exists 10. intros m a. cbn [app scan_digits]. rewrite Hd, Hv. f_equal.
    rewrite (Z.mod_small n 10) by lia. lia.
  - destruct (IH (n / 10) (digit_of (n mod 10) :: acc)) as [p Hp].
    { split; [apply Z.div_pos; lia|]. apply Z.div_lt_upper_bound; [lia|].
      replace (Z.of_nat (S fuel)) with (Z.succ (Z.of_nat fuel)) in Hn by lia.
      rewrite Z.pow_succ_r in Hn by lia. lia. }
    exists (10 * p). intros m a. rewrite Hp. cbn [app scan_digits]. rewrite Hd, Hv. f_equal. lia.
Qed.

Lemma scan_number_dec (neg : bool) z l :
  0 ≤ z → no_digit l → is_int (if neg then - z else z) = true →
  scan_number neg (dec_go (S (Z.to_nat (Z.log2 z))) z [] ++ l) = Ret (Some (if neg then - z else z), l).
Proof.
  intros Hz Hl Hint.
  assert (0 ≤ z < 2 ^ Z.of_nat (S (Z.to_nat (Z.log2 z)))) as Hr.
  { split; [done|]. rewrite Nat2Z.inj_succ, Z2Nat.id by apply Z.log2_nonneg.
    destruct (Z.eq_dec z 0) as [->|]; [done|]. apply Z.log2_spec. lia. }
  destruct (dec_go_scan _ z [] Hr) as [p Hp]. specialize (Hp l 0).
  destruct (dec_go_head (S (Z.to_nat (Z.log2 z))) z [] Hz) as (c & w & Hw & Hc); [lia|].
  rewrite Hw in *. cbn [app] in *. unfold scan_number. rewrite Hc, Hp. cbn [app].
  assert (scan_digits l (0 * p + z) = (z, l)) as ->.
  { destruct l as [|b l]; cbn; [|rewrite Hl]; done. }
  by rewrite Hint.
Qed.

(** Reading back a number that was printed. *)
Lemma scan_d_dec sp z l :
  Forall (λ b, is_space b = true) sp → is_i32 z → no_digit l → scan_d (sp ++ dec z ++ l) = Ret (Some z, l).
Proof.
  intros Hsp Hz Hl. unfold scan_d. rewrite skip_space_app by done. unfold dec, is_i32 in *.
  assert (is_int z = true) as Hint by (unfold is_int; lia).
  destruct (Z.ltb_spec z 0).
  - change (str_of "-") with [x2d]. cbn [app skip_space].
    change (is_space x2d) with false. cbn match. change (byte_val x2d =? 45) with true. cbn match.
    pose proof (scan_number_dec true (- z) l) as Hs. cbn match in Hs. rewrite Z.opp_involutive in Hs. apply Hs; [lia|done..].
  - destruct (dec_go_head (S (Z.to_nat (Z.log2 z))) z []) as (c & w & Hw & Hc); [lia..|].
    pose proof (scan_number_dec false z l) as Hs. rewrite Hw in *. cbn [app] in *.
    destruct (digit_no_space c Hc) as (Hsc & Hm & Hp). rewrite skip_space_none by done.
    destruct (Z.eqb_spec (byte_val c) 45); [done|]. destruct (Z.eqb_spec (byte_val c) 43); [done|].
    by apply Hs.
Qed.

Lemma scan_d_here z l : is_i32 z → no_digit l → scan_d (dec z ++ l) = Ret (Some z, l).
Proof. apply (scan_d_dec []). constructor. Qed.

Lemma scan_s_here size w l :
  w ≠ [] → Forall (λ b, is_space b = false) w → at_space l → zlen w < size → scan_s size (w ++ l) = Ret (Some w, l).
Proof. apply (scan_s_word size []). constructor. Qed.

Lemma take_line_app n w l :
  x0a ∉ w → (length w < n)%nat → take_line n (w ++ x0a :: l) = (w ++ [x0a], l).
Proof.
  revert n. induction w as [|b w IH]; intros n Hw Hn; (destruct n as [|n]; [cbn in Hn; lia|]); cbn; [done|].
  apply not_elem_of_cons in Hw as [Hb Hw]. rewrite decide_False by done. rewrite IH; [done..|cbn in Hn; lia].
Qed.

Lemma fgets_line size w l :
  x0a ∉ w → (length w + 1 < size)%nat → fgets size (w ++ x0a :: l) = Some (w ++ [x0a], l).
Proof.
  intros Hw Hn. unfold fgets. destruct (w ++ x0a :: l) eqn:H; [by destruct w|]. rewrite <- H.
  rewrite take_line_app by (done || lia). done.
Qed.

Lemma take_line_split n l w r : take_line n l = (w, r) → l = w ++ r.
Proof.
  revert l w r. induction n as [|n IH]; intros l w r; [by intros [= <- <-]|]. destruct l as [|b l]; cbn.
  { by intros [= <- <-]. }
  destruct (decide _); [by intros [= <- <-]|]. destruct (take_line n l) as [w' r'] eqn:H.
  intros [= <- <-]. cbn. f_equal. by apply IH.
Qed.

(** What one [fgets] into [size] bytes takes from a file: a line with its end, or
    as much of a longer one as fits. *)
Definition piece (size : nat) (w : list byte) : Prop :=
  (∃ v, w = v ++ [x0a] ∧ (x0a ∉ v) ∧ (length w < size)%nat) ∨ ((x0a ∉ w) ∧ S (length w) = size ∧ w ≠ []).

Lemma take_line_full w l : x0a ∉ w → take_line (length w) (w ++ l) = (w, l).
Proof.
  induction w as [|b w IH]; intros Hw; [by destruct l|]. apply not_elem_of_cons in Hw as [Hb Hw]. cbn.
  rewrite decide_False by done. by rewrite IH.
Qed.

Lemma fgets_piece size w l : piece size w → fgets size (w ++ l) = Some (w, l).
Proof.
  intros [(v & -> & Hv & Hn)|(Hw & Hn & Hne)].
  - rewrite <- app_assoc. rewrite length_app in Hn. cbn in Hn. by apply fgets_line; [|lia].
  - unfold fgets. destruct (w ++ l) eqn:Hcat; [by destruct w|]. rewrite <- Hcat, <- Hn. cbn [Nat.pred].
    by rewrite take_line_full.
Qed.

(** Every line takes something from the file. *)
Lemma fgets_shorter size l w r : (1 < size)%nat → fgets size l = Some (w, r) → (length r < length l)%nat.
Proof.
  intros Hs. unfold fgets. destruct l as [|b l]; [done|]. destruct size as [|[|size]]; [lia..|]. cbn [Nat.pred take_line].
  destruct (decide _); [intros [= _ <-]; cbn; lia|]. destruct (take_line size l) as [w' r'] eqn:H.
  intros [= _ <-]. apply take_line_split in H. subst l. cbn. rewrite length_app. lia.
Qed.

Lemma cstr_text l m : x00 ∉ l → cstr (l ++ x00 :: m) = l.
Proof.
  induction l as [|b l IH]; intros H; [done|]. apply not_elem_of_cons in H as [Hb Hl]. cbn.
  rewrite decide_False by done. by rewrite IH.
Qed.

Lemma cstr_id l : x00 ∉ l → cstr l = l.
Proof.
  induction l as [|b l IH]; intros H; [done|]. apply not_elem_of_cons in H as [Hb Hl]. cbn.
  rewrite decide_False by done. by rewrite IH.
Qed.
