(* ===== verification/Stream.v ===== *)
(** * Buffered streams ([stream.c], [stream.h]) *)
From S2P Require Import Prelude Alloc Sys Lock Buffer Event.

Definition STM_BUF_SIZE_P : Z := 13.
Definition STM_READALL_LEN : Z := 65535.

Definition SEEK_CUR : Z := 1.

(** [struct _stream], but for [funcs], which is a parameter of the operations
    that call through it. *)
Record stream_t := mk_stream {
  io : Z; flags : Z; sbuf : buffer_t; need_mask : Z; slock : Z; last_err : Z }.

Definition set_buf (b : buffer_t) (stm : stream_t) : stream_t :=
  mk_stream (io stm) (flags stm) b (need_mask stm) (slock stm) (last_err stm).
Definition set_need_mask (x : Z) (stm : stream_t) : stream_t :=
  mk_stream (io stm) (flags stm) (sbuf stm) x (slock stm) (last_err stm).
Definition set_lock (x : Z) (stm : stream_t) : stream_t :=
  mk_stream (io stm) (flags stm) (sbuf stm) (need_mask stm) x (last_err stm).
Definition set_last_err (x : Z) (stm : stream_t) : stream_t :=
  mk_stream (io stm) (flags stm) (sbuf stm) (need_mask stm) (slock stm) x.

(** [struct stream_funcs].  A count is returned through a pointer, which may be
    left alone ([None]).  [readv] gets the lengths of the destinations and
    returns the bytes that fill them in order; [writev] gets the bytes. *)
Record stream_funcs (E : Type) := mk_funcs {
  f_close : stream_t → M E (Z * stream_t);
  f_readv : stream_t → list Z → M E (Z * option Z * list byte * stream_t);
  f_writev : stream_t → list block → M E (Z * option Z * stream_t);
  f_seek : stream_t → Z → Z → M E (Z * option Z * stream_t);
}.
Arguments mk_funcs {E}.
Arguments f_close {E}.
Arguments f_readv {E}.
Arguments f_writev {E}.
Arguments f_seek {E}.

Section stream.
Context {E : Type} `{!Malloc E, !Errno E}.

Definition stream_new (io flags bufsize : Z) : M E (option stream_t) :=
  ok ← sys (malloc_ok 56);
  if negb ok then mret None
  else
    b ← buffer_new bufsize;
    match b with
    | None => _ ← set_errno ENOMEM; mret None
    | Some b => mret (Some (mk_stream io flags b 0 0 0))
    end.

Definition stream_free (stm : stream_t) : M E stream_t :=
  b ← buffer_free (sbuf stm); mret (set_buf b stm).

Definition stream_lock (stm : stream_t) : outcome stream_t :=
  v ← mtx_lock 1 (slock stm); Ret (set_lock v stm).
Definition stream_unlock (stm : stream_t) : stream_t := set_lock (mtx_unlock (slock stm)) stm.
Definition stream_errno (stm : stream_t) : Z := last_err stm.
Definition stream_set_mask (stm : stream_t) (mask : Z) : stream_t := set_need_mask mask stm.
Definition stream_get_mask (stm : stream_t) : Z := need_mask stm.
Definition stream_buffer (stm : stream_t) : buffer_t := sbuf stm.

Definition stream_yield (stm : stream_t) (delim : list byte) : outcome (option (Z * Z) * stream_t) :=
  '(r, b) ← buffer_yield (sbuf stm) delim; Ret (r, set_buf b stm).

Definition stream_vprintf (stm : stream_t) (out : option (list byte)) : M E (Z * stream_t) :=
  '(r, b) ← buffer_vprintf (sbuf stm) out; mret (r, set_buf b stm).

Definition stream_printf (stm : stream_t) (out : option (list byte)) : M E (Z * stream_t) :=
  stream_vprintf stm out.

(** ** Streams on a file descriptor *)

Context `{!FdOps E}.

Definition fd_close (stm : stream_t) : M E (Z * stream_t) :=
  r ← sys (sys_close (io stm));
  if r =? 0 then mret (0, stm)
  else e ← errno; mret (-1, set_last_err e stm).

(** The error branches of [fd_readv] and [fd_writev]. *)
Definition fd_failed (mask : Z) (stm : stream_t) : M E stream_t :=
  e ← errno;
  let stm := set_last_err e stm in
  mret (if e =? EAGAIN then set_need_mask (Z.lor (need_mask stm) mask) stm else stm).

Definition fd_readv (stm : stream_t) (lens : list Z) : M E (Z * option Z * list byte * stream_t) :=
  '(n, d) ← sys (sys_readv (io stm) lens);
  let ret := i32 n in
  if ret =? -1 then stm ← fd_failed EVMASK_READ stm; mret (-1, None, d, stm)
  else if ret =? 0 then mret (-1, None, d, set_last_err 0 stm)
  else mret (0, Some (u32 ret), d, stm).

Definition fd_writev (stm : stream_t) (iov : list block) : M E (Z * option Z * stream_t) :=
  n ← sys (sys_writev (io stm) iov);
  let ret := i32 n in
  if ret =? -1 then stm ← fd_failed EVMASK_WRITE stm; mret (-1, None, stm)
  else if ret =? 0 then mret (-1, None, set_last_err 0 stm)
  else mret (0, Some (u32 ret), stm).

Definition fd_seek (stm : stream_t) (delta whence : Z) : M E (Z * option Z * stream_t) :=
  off ← sys (sys_lseek (io stm) delta whence);
  if off =? -1 then e ← errno; mret (-1, None, set_last_err e stm)
  else mret (0, Some (u32 off), stm).

Definition stream_funcs_fd : stream_funcs E := mk_funcs fd_close fd_readv fd_writev fd_seek.

Definition stream_fd_open (fd flags bufsize : Z) : M E (option stream_t) :=
  stream_new fd flags bufsize.

Definition stream_file_open (O_LARGEFILE : Z) (file : list byte) (flags mode : Z)
    : M E (option stream_t) :=
  fd ← sys (sys_open file (Z.lor flags O_LARGEFILE) mode);
  if fd <? 0 then mret None
  else
    stm ← stream_fd_open fd 0 (Z.shiftl 1 STM_BUF_SIZE_P);
    match stm with
    | None => _ ← sys (sys_close fd); _ ← set_errno ENOMEM; mret None
    | Some stm => mret (Some stm)
    end.
End stream.

(** ** Operations through [funcs] *)

Section operations.
Context {E : Type} `{!Malloc E, !Errno E} (funcs : stream_funcs E).

(** The result, the count stored in [*nread], and the stream. *)
Definition stream_fill (stm : stream_t) : M E (Z * option Z * stream_t) :=
  stm ← lift (stream_lock stm);
  let space := buffer_space (sbuf stm) in
  let rbuf := buffer_wpos (sbuf stm) in
  '(r, cnt, data, stm) ← f_readv funcs stm [space; STM_READALL_LEN];
  m ← lift (mem_write (buf (sbuf stm)) rbuf (cells (take (Z.to_nat space) data)));
  let tmp := resize STM_READALL_LEN (cells (drop (Z.to_nat space) data)) in
  let b := mk_buffer m (size (sbuf stm)) (rpos (sbuf stm)) (wpos (sbuf stm)) in
  if negb (r =? 0) then
    let stm := stream_unlock (set_buf b stm) in
    _ ← set_errno (stream_errno stm); mret (-1, None, stm)
  else
    match cnt with
    | None => ub
    | Some cnt =>
        '(_, b) ← buffer_write b None cnt;
        '(_, b) ← (if space <? cnt then buffer_write b (Some tmp) (u32 (cnt - space))
                   else mret (0, b));
        mret (0, Some cnt, stream_unlock (set_buf b stm))
    end.

(** The loop of [stream_read]: [dest] is the caller's memory, [dpos] the
    position reached in it. *)
Fixpoint read_loop (fuel : nat) (stm : stream_t) (dest : bptr) (dpos len ret : Z)
    : M E (Z * option Z * bptr * stream_t) :=
  match fuel with
  | O => hang
  | S fuel =>
      if len <=? 0 then mret (0, Some ret, dest, stream_unlock stm)
      else
        let wavail := buffer_space (sbuf stm) in
        let wmem := buffer_wpos (sbuf stm) in
        let iov0 := len - (if wavail =? 0 then 0 else 1) in
        '(r, cnt, data, stm) ← f_readv funcs stm [iov0; wavail];
        dest ← lift (mem_write dest dpos (cells (take (Z.to_nat iov0) data)));
        m ← lift (mem_write (buf (sbuf stm)) wmem (cells (drop (Z.to_nat iov0) data)));
        let stm := set_buf (mk_buffer m (size (sbuf stm)) (rpos (sbuf stm)) (wpos (sbuf stm))) stm in
        stop ← (if r =? 0 then mret true
                else match cnt with None => ub | Some c => mret (c =? 0) end);
        if (stop : bool) then
          if negb (ret =? 0) then mret (0, Some ret, dest, stream_unlock stm)
          else _ ← set_errno (stream_errno stm); mret (-1, None, dest, stream_unlock stm)
        else
          match cnt with
          | None => ub
          | Some cnt =>
              '(dest, cnt) ← (if iov0 <? cnt then
                                x ← lift (mem_read m wmem 1);
                                dest ← lift (mem_write dest (dpos + len - 1) x);
                                mret (dest, len)
                              else mret (dest, cnt));
              read_loop fuel stm dest (dpos + cnt) (u32 (len - cnt)) (u32 (ret + cnt))
          end
  end.

(** [dest]: the caller's memory, [Null] when it gave none; [nread]: did it
    give a place for the count? *)
Definition stream_read (fuel : nat) (stm : stream_t) (dest : bptr) (len : Z) (nread : bool)
    : M E (Z * option Z * bptr * stream_t) :=
  if len =? 0 then (if nread then mret (0, Some 0, dest, stm) else ub)
  else
    stm ← lift (stream_lock stm);
    let stm := set_last_err 0 stm in
    let given := match dest with Null => false | _ => true end in
    '(nr, out, b) ← lift (buffer_read (sbuf stm) given len);
    let stm := set_buf b stm in
    dest ← (if given then lift (mem_write dest 0 out) else mret dest);
    let len := u32 (len - nr) in
    if len =? 0 then mret (0, Some nr, dest, stream_unlock stm)
    else if negb given then mret (-1, None, dest, stm)
    else read_loop fuel stm dest nr len nr.

(** After a partial write of [ret] bytes: what was sent leaves the buffer, and
    [iov] starts at the first byte not sent. *)
Definition write_advance (stm : stream_t) (iov : list block) (ret ravail : Z)
    : outcome (stream_t * list block) :=
  match iov with
  | [] => UB
  | iov0 :: iovs =>
      '(stm, ret, iov) ←
        (if zlen iov0 <? ret then
           '(_, _, b) ← buffer_read (sbuf stm) false ravail;
           Ret (set_buf b stm, ret - zlen iov0, iovs)
         else if bool_decide (length iov = 2%nat) then
           '(_, _, b) ← buffer_read (sbuf stm) false ret;
           Ret (set_buf b stm, ret, iov)
         else Ret (stm, ret, iov));
      match iov with
      | [] => UB
      | iov0 :: iovs => Ret (stm, drop (Z.to_nat ret) iov0 :: iovs)
      end
  end.

(** The loop of [_stream_write]; [iov] holds the [iovcnt] pieces still to be
    written. *)
Fixpoint write_loop (fuel : nat) (stm : stream_t) (iov : list block) (towrite ravail len : Z)
    : M E (Z * option Z * stream_t) :=
  match fuel with
  | O => hang
  | S fuel =>
      '(r, ret, stm) ← f_writev funcs stm iov;
      if negb (r =? 0) then _ ← set_errno (stream_errno stm); mret (-1, None, stm)
      else
        match ret with
        | None => ub
        | Some ret =>
            if ret =? towrite then
              '(_, _, b) ← lift (buffer_read (sbuf stm) false ravail);
              mret (0, Some len, set_buf b stm)
            else
              '(stm, iov) ← lift (write_advance stm iov ret ravail);
              write_loop fuel stm iov (u32 (towrite - ret)) ravail len
        end
  end.

(** [mem]: the source, when given. *)
Definition _stream_write (fuel : nat) (stm : stream_t) (mem : option block) (len : Z)
    : M E (Z * option Z * stream_t) :=
  if negb (len =? 0) && (len <? buffer_space (sbuf stm)) then
    '(_, b) ← buffer_write (sbuf stm) mem len;
    mret (0, Some len, set_buf b stm)
  else
    let ravail := buffer_avail (sbuf stm) in
    iov0 ← lift (mem_read (buf (sbuf stm)) (buffer_rpos (sbuf stm)) ravail);
    iov1 ← lift (match mem with
                 | Some d => mem_read (Live d) 0 len
                 | None => if len =? 0 then Ret [] else UB
                 end);
    write_loop fuel stm [iov0; iov1] (u32 (ravail + len)) ravail len.

Definition stream_write (fuel : nat) (stm : stream_t) (mem : option block) (len : Z)
    : M E (Z * option Z * stream_t) :=
  if len =? 0 then mret (0, Some 0, stm)
  else
    stm ← lift (stream_lock stm);
    '(r, nwrote, stm) ← _stream_write fuel stm mem len;
    mret (r, nwrote, stream_unlock stm).

Definition stream_flush (fuel : nat) (stm : stream_t) : M E (Z * stream_t) :=
  stm ← lift (stream_lock stm);
  if negb (buffer_avail (sbuf stm) =? 0) then
    '(_, _, stm) ← _stream_write fuel stm None 0;
    if negb (buffer_avail (sbuf stm) =? 0) then
      _ ← set_errno (stream_errno stm); mret (-1, stream_unlock stm)
    else mret (0, stream_unlock stm)
  else mret (0, stream_unlock stm).

Definition stream_close (fuel : nat) (stm : stream_t) : M E (Z * stream_t) :=
  '(r, stm) ← stream_flush fuel stm;
  if negb (r =? 0) then mret (-1, stm)
  else
    '(r, stm) ← f_close funcs stm;
    mret (if negb (r =? 0) then -1 else 0, stm).

(** The result, what [*newpos] holds if it was set, and the stream. *)
Definition stream_seek (fuel : nat) (stm : stream_t) (delta whence : Z)
    : M E (Z * option Z * stream_t) :=
  '(r, stm) ← stream_flush fuel stm;
  if r =? 0 then mret (-1, None, stm)
  else
    stm ← lift (stream_lock stm);
    let stm := set_last_err 0 stm in
    let delta := if whence =? SEEK_CUR then i32 (delta - buffer_avail (sbuf stm)) else delta in
    '(r, newpos, stm) ← f_seek funcs stm delta whence;
    if r =? 0 then
      _ ← set_errno (stream_errno stm); mret (-1, newpos, stream_unlock stm)
    else mret (0, newpos, stream_unlock stm).
End operations.

(** * What the operations rely on *)

(** The promise of a [writev] function to the stream it serves: it leaves the
    buffer and the lock alone, and either fails without having sent anything
    or sends some of the bytes, in order. *)
Class WritevSpec {E} (funcs : stream_funcs E) (fd : Z) (sent : E → block) := writev_spec :
  ∀ stm iov e, io stm = fd → 0 < zlen (concat iov) < 2 ^ 31 →
  ∃ r n stm' e', f_writev funcs stm iov e = Ret ((r, n, stm'), e') ∧
    io stm' = fd ∧ sbuf stm' = sbuf stm ∧ slock stm' = slock stm ∧
    ((r = 0 ∧ ∃ k, n = Some (Z.of_nat k) ∧ (0 < k ≤ length (concat iov))%nat ∧
        sent e' = sent e ++ take k (concat iov)) ∨
     (r = -1 ∧ sent e' = sent e)).

(** The state in which a [writev] function of the descriptor has just refused
    to take the bytes [d], all of them, or a state that differs from it in
    [errno] only. *)
Definition refused {E} `{!Errno E} (funcs : stream_funcs E) (fd : Z) (d : block) (e' : E) : Prop :=
  ∃ stm iov e n stm' e1 xs, io stm = fd ∧ concat iov = d ∧
    f_writev funcs stm iov e = Ret ((-1, n, stm'), e1) ∧ e' = foldr put_errno e1 xs.

(** The promise of a [readv] function: on success it received some bytes, no
    more than the destinations hold, and counted them; else it leaves the
    count alone. *)
Class ReadvSpec {E} (funcs : stream_funcs E) (fd : Z) := readv_spec :
  ∀ stm lens e, io stm = fd → 0 ≤ total lens < 2 ^ 31 →
  ∃ r n data stm' e', f_readv funcs stm lens e = Ret ((r, n, data, stm'), e') ∧
    io stm' = fd ∧ sbuf stm' = sbuf stm ∧ slock stm' = slock stm ∧
    ((r = 0 ∧ n = Some (zlen data) ∧ 0 < zlen data ≤ total lens) ∨
     (r = -1 ∧ n = None ∧ data = [])).

(** The functions of a file descriptor keep these promises if the kernel
    keeps its own. *)
Section fd_specs.
Context {E : Type} `{!Malloc E, !Errno E, !FdOps E} (fd : Z) (sent : E → block).
Context `{!FdLaws E fd sent}.

#[export] Instance fd_writev_spec : WritevSpec stream_funcs_fd fd sent.
Proof.
  intros stm iov e Hio Hn. cbn. unfold fd_writev. mrun. rewrite Hio.
  destruct (sys_writev fd iov e) as [n e'] eqn:Hs. mrun.
  destruct (writev_law iov e n e' Hs) as [[-> Hsent]|[Hr Hsent]].
  - change (i32 (-1)) with (-1). unfold fd_failed, errno. mrun.
    do 4 eexists. split; [done|]. split_and!; [by destruct (_ =? _)..|]. by right.
  - rewrite i32_id by (unfold is_i32; lia).
    destruct (Z.eqb_spec n (-1)); [lia|]. destruct (Z.eqb_spec n 0) as [->|]; mrun.
    + do 4 eexists. split; [done|]. split_and!; [done..|]. right. split; [done|].
      by rewrite Hsent, app_nil_r.
    + do 4 eexists. split; [done|]. split_and!; [done..|]. left. split; [done|].
      exists (Z.to_nat n). rewrite u32_id by (unfold is_u32; lia).
      split_and!; [f_equal; lia|lia|lia|done].
Qed.

(** A refusal by a descriptor is a call of [writev] with these bytes that did
    not take any. *)
Lemma fd_refused d e' :
  d ≠ [] → zlen d < 2 ^ 31 → refused stream_funcs_fd fd d e' →
  ∃ iov e n e1 xs, concat iov = d ∧ sys_writev fd iov e = (n, e1) ∧ n ≤ 0 ∧ e' = foldr put_errno e1 xs.
Proof.
  intros Hd Hsmall (stm & iov & e & n & stm' & e1 & xs & Hio & Hcat & Hrun & ->).
  cbn in Hrun. unfold fd_writev in Hrun. autorewrite with run in Hrun. rewrite Hio in Hrun.
  destruct (sys_writev fd iov e) as [x e2] eqn:Hs. autorewrite with run in Hrun.
  exists iov, e, x, e2, xs. split; [done|]. split; [done|].
  destruct (writev_law iov e x e2 Hs) as [[-> _]|[Hr _]].
  - split; [done|]. unfold fd_failed, errno in Hrun. autorewrite with run in Hrun. by injection Hrun as _ _ ->.
  - rewrite Hcat in Hr. rewrite i32_id in Hrun by (unfold is_i32; lia).
    destruct (Z.eqb_spec x (-1)); [lia|]. destruct (Z.eqb_spec x 0) as [->|]; autorewrite with run in Hrun.
    + split; [done|]. by injection Hrun as _ _ ->.
    + done.
Qed.

#[export] Instance fd_readv_spec : ReadvSpec stream_funcs_fd fd.
Proof.
  intros stm lens e Hio Hn. cbn. unfold fd_readv. mrun. rewrite Hio.
  destruct (sys_readv fd lens e) as [[n d] e'] eqn:Hs. mrun.
  destruct (readv_law lens e n d e' ltac:(lia) Hs) as [_ [[-> ->]|[-> Hr]]].
  - change (i32 (-1)) with (-1). unfold fd_failed, errno. mrun.
    do 5 eexists. split; [done|]. split_and!; [by destruct (_ =? _)..|]. by right.
  - rewrite i32_id by (unfold is_i32; lia).
    destruct (Z.eqb_spec (zlen d) (-1)); [lia|]. destruct (Z.eqb_spec (zlen d) 0) as [Hd|]; mrun.
    + do 5 eexists. split; [done|]. split_and!; [done..|]. right. split_and!; [done..|].
      destruct d; [done|cbn in Hd; lia].
    + do 5 eexists. split; [done|]. split_and!; [done..|]. left.
      rewrite u32_id by (unfold is_u32; lia). split_and!; [done..|lia|done].
Qed.
End fd_specs.

(** * Lemmas *)

Lemma lock_run {stm} : slock stm = 0 → stream_lock stm = Ret (set_lock 1 stm).
Proof. intros H. unfold stream_lock. rewrite mtx_lock_spec, H. done. Qed.

Lemma lock_held stm : slock stm ≠ 0 → stream_lock stm = Hang.
Proof.
  intros H. unfold stream_lock. rewrite mtx_lock_spec. by destruct (Z.eqb_spec (slock stm) 0).
Qed.

Section writing.
Context {E : Type} `{!Malloc E, !Errno E} (funcs : stream_funcs E) (fd : Z) (sent : E → block).
Context `{!WritevSpec funcs fd sent, !SentFrame E sent}.
Implicit Types (stm : stream_t) (e : E) (old data pre : block).

Lemma refused_here stm iov e n stm' e1 xs :
  io stm = fd → f_writev funcs stm iov e = Ret ((-1, n, stm'), e1) →
  refused funcs fd (concat iov) (foldr put_errno e1 xs).
Proof. intros Hio Hrun. by exists stm, iov, e, n, stm', e1, xs. Qed.

Lemma refused_errno x d e : refused funcs fd d e → refused funcs fd d (put_errno x e).
Proof.
  intros (stm & iov & e0 & n & stm' & e1 & xs & Hio & Hd & Hrun & ->).
  exists stm, iov, e0, n, stm', e1, (x :: xs). done.
Qed.

(** The pieces left when [k] bytes of the unread bytes [old] and the new bytes
    [data] are written. *)
Definition pieces (k : nat) old data (iov : list block) : Prop :=
  (iov = [drop k old; data] ∧ (k ≤ length old)%nat) ∨
  (iov = [drop (k - length old) data] ∧ (length old < k)%nat).

Lemma pieces_concat k old data iov :
  pieces k old data iov → concat iov = drop k (old ++ data).
Proof.
  intros [[-> ?]|[-> ?]]; cbn; rewrite app_nil_r, drop_app; [|by rewrite (drop_ge old) by lia].
  by replace (k - length old)%nat with 0%nat by lia.
Qed.

(** Reading without a destination. *)
Lemma drop_run b n :
  wf_buffer b → is_u32 n →
  ∃ x b', buffer_read b false n = Ret (x, [], b') ∧ wf_buffer b' ∧
    contents b' = drop (Z.to_nat n) (contents b).
Proof.
  intros H Hn. destruct (read_run b false n _ H Hn eq_refl) as (b' & -> & Hwf & Hc & _).
  do 2 eexists. split; [done|]. split; [done|]. rewrite Hc. unfold is_u32 in Hn.
  destruct (Z.min_spec n (zlen (contents b))) as [[? ->]|[? ->]]; [done|].
  rewrite !drop_ge; [done|lia..].
Qed.

Lemma write_advance_run k j stm iov old data :
  wf_buffer (sbuf stm) → contents (sbuf stm) = drop k old → pieces k old data iov →
  zlen old + zlen data < 2 ^ 31 → (k + j < length old + length data)%nat →
  ∃ stm' iov', write_advance stm iov (Z.of_nat j) (zlen old) = Ret (stm', iov') ∧
    io stm' = io stm ∧ slock stm' = slock stm ∧ wf_buffer (sbuf stm') ∧
    contents (sbuf stm') = drop (k + j) old ∧ pieces (k + j) old data iov'.
Proof.
  intros Hwf Hc Hp Hlen Hj. destruct Hp as [[-> Hk]|[-> Hk]]; cbn [write_advance length].
  - rewrite length_drop. destruct (Z.ltb_spec (Z.of_nat (length old - k)) (Z.of_nat j)).
    + destruct (drop_run (sbuf stm) (zlen old) Hwf) as (x & b & -> & Hwfb & Hcb);
        [unfold is_u32; lia|]. cbn [mbind outcome_bind].
      do 2 eexists. split; [done|]. split_and!; [done..| |].
      * cbn. rewrite Hcb, Hc, !drop_ge; [done|rewrite ?length_drop; lia..].
      * right. split; [|lia]. do 2 f_equal. lia.
    + rewrite bool_decide_eq_true_2 by done.
      destruct (drop_run (sbuf stm) (Z.of_nat j) Hwf) as (x & b & -> & Hwfb & Hcb);
        [unfold is_u32; lia|]. cbn [mbind outcome_bind].
      do 2 eexists. split; [done|]. split_and!; [done..| |].
      * cbn. by rewrite Hcb, Hc, drop_drop, Nat2Z.id.
      * left. split; [|lia]. by rewrite drop_drop, Nat2Z.id.
  - rewrite length_drop. destruct (Z.ltb_spec (Z.of_nat (length data - (k - length old))) (Z.of_nat j));
      [lia|]. cbn [mbind outcome_bind].
    do 2 eexists. split; [done|]. split_and!; [done..| |].
    + rewrite Hc, !drop_ge; [done|lia..].
    + right. split; [|lia]. rewrite drop_drop, Nat2Z.id. do 2 f_equal. lia.
Qed.

Lemma write_loop_run fuel k stm iov len e old data pre :
  io stm = fd → wf_buffer (sbuf stm) → contents (sbuf stm) = drop k old →
  pieces k old data iov → zlen old + zlen data < 2 ^ 31 →
  (k < length (old ++ data) ≤ fuel + k)%nat →
  sent e = pre ++ take k (old ++ data) →
  ∃ r n stm' e' k', write_loop funcs fuel stm iov (zlen (old ++ data) - Z.of_nat k) (zlen old) len e
      = Ret ((r, n, stm'), e') ∧
    io stm' = fd ∧ slock stm' = slock stm ∧ wf_buffer (sbuf stm') ∧
    contents (sbuf stm') = drop k' old ∧ sent e' = pre ++ take k' (old ++ data) ∧
    ((r = 0 ∧ n = Some len ∧ k' = length (old ++ data)) ∨
     (r = -1 ∧ n = None ∧ (k ≤ k' < length (old ++ data))%nat ∧
      refused funcs fd (drop k' (old ++ data)) e')).
Proof.
  revert k stm iov e. induction fuel as [|fuel IH]; intros k stm iov e Hio Hwf Hc Hp Hlen Hk Hsent;
    [lia|].
  pose proof (pieces_concat _ _ _ _ Hp) as Hcat. cbn [write_loop]. rewrite bind_run.
  assert (length (concat iov) = length (old ++ data) - k)%nat as Hcl by (by rewrite Hcat, length_drop).
  rewrite length_app in Hcl, Hk.
  destruct (writev_spec stm iov e Hio) as (r & n & stm1 & e1 & Hw & Hio1 & Hb1 & Hl1 & Hres); [lia|].
  rewrite Hw. destruct Hres as [(-> & j & -> & Hj & Hs1)|(-> & Hs1)]; mrun.
  2:{ unfold set_errno. mrun. do 5 eexists. split; [done|]. rewrite Hb1.
      split_and!; try done; [by rewrite sent_errno, Hs1|]. right. rewrite length_app.
      split_and!; [done..|lia|lia|]. rewrite <- Hcat. by eapply (refused_here stm iov e n stm1 e1 [_]). }
  assert (sent e1 = pre ++ take (k + j) (old ++ data)) as Hs1'.
  { by rewrite Hs1, Hsent, Hcat, <- app_assoc, take_take_drop. }
  rewrite <- Hb1 in Hwf, Hc.
  rewrite length_app, !Nat2Z.inj_add.
  destruct (Z.eqb_spec (Z.of_nat j) (zlen old + zlen data - Z.of_nat k)) as [Hall|Hpart].
  - destruct (drop_run (sbuf stm1) (zlen old) Hwf) as (x & b & Hrd & Hwfb & Hcb);
      [unfold is_u32; lia|]. rewrite Hrd. mrun.
    exists 0, (Some len), (set_buf b stm1), e1, (k + j)%nat. split_and!; try done.
    + cbn. rewrite Hcb, Hc, !drop_ge; [done|rewrite ?length_drop; lia..].
    + left. split_and!; [done..|lia].
  - rewrite u32_id by (unfold is_u32; lia).
    destruct (write_advance_run k j stm1 iov old data Hwf Hc Hp)
      as (stm2 & iov2 & -> & Hio2 & Hl2 & Hwf2 & Hc2 & Hp2); [lia..|]. mrun.
    destruct (IH (k + j)%nat stm2 iov2 e1) as
      (r & n & stm' & e' & k' & Hloop & ? & Hl' & ? & ? & ? & Hres); try done;
      [congruence|rewrite length_app; lia|].
    rewrite length_app, Nat2Z.inj_add in Hloop.
    replace (zlen old + zlen data - Z.of_nat k - Z.of_nat j)
      with (zlen old + zlen data - Z.of_nat (k + j)) by lia. rewrite Hloop.
    exists r, n, stm', e', k'. rewrite Hl', Hl2, Hl1. split_and!; try done.
    rewrite length_app in Hres.
    destruct Hres as [?|(? & ? & ? & ?)]; [by left|right]. split_and!; [done..|lia|lia|done].
Qed.

(** [_stream_write] when it does not just store the bytes. *)
Lemma direct_run fuel stm mem len data e :
  io stm = fd → wf_buffer (sbuf stm) → len = zlen data →
  (match mem with
   | Some d => mem_read (Live d) 0 len
   | None => if len =? 0 then Ret [] else UB
   end) = Ret data →
  negb (len =? 0) && (len <? buffer_space (sbuf stm)) = false →
  let old := contents (sbuf stm) in
  0 < zlen old + len < 2 ^ 31 → (length old + length data ≤ fuel)%nat →
  ∃ r n stm' e' k, _stream_write funcs fuel stm mem len e = Ret ((r, n, stm'), e') ∧
    slock stm' = slock stm ∧ io stm' = fd ∧ wf_buffer (sbuf stm') ∧
    contents (sbuf stm') = drop k old ∧ sent e' = sent e ++ take k (old ++ data) ∧
    ((r = 0 ∧ n = Some len ∧ k = length (old ++ data)) ∨
     (r = -1 ∧ n = None ∧ (k < length (old ++ data))%nat ∧ refused funcs fd (drop k (old ++ data)) e')).
Proof.
  intros Hio Hwf -> Hmem Hdir old Hlen Hfuel. unfold _stream_write. rewrite Hdir, Hmem.
  pose proof (avail_contents _ Hwf) as Ha. fold old in Ha. rewrite Ha.
  assert (mem_read (buf (sbuf stm)) (buffer_rpos (sbuf stm)) (zlen old) = Ret old) as Hold.
  { unfold old. clear old Hlen Hfuel Ha. destruct stm as [? ? b ? ? ?]. cbn [sbuf] in *.
    open_wf. unfold contents, buffer_rpos. cbn [buf size rpos wpos].
    pose proof (slice_length rp (wp - rp) m) as Hl. rewrite mem_read_ok by lia.
    do 2 f_equal. lia. }
  rewrite Hold. mrun.
  rewrite u32_id by (unfold is_u32; lia).
  destruct (write_loop_run fuel 0 stm [old; data] (zlen data) e old data (sent e))
    as (r & n & stm' & e' & k & Hrun & ? & ? & ? & ? & ? & Hres); try done.
  - left. split; [done|lia].
  - lia.
  - rewrite length_app. lia.
  - by rewrite take_0, app_nil_r.
  - rewrite length_app, Nat2Z.inj_add, Z.sub_0_r in Hrun. rewrite Hrun.
    do 5 eexists. split; [done|]. split_and!; try done.
    destruct Hres as [?|(? & ? & ? & ?)]; [by left|right]. split_and!; [done..|lia|done].
Qed.

(** The whole of [stream_flush]: without unread bytes it does nothing, else it
    writes them through. *)
Lemma flush_run fuel stm e :
  io stm = fd → wf_buffer (sbuf stm) → slock stm = 0 →
  zlen (contents (sbuf stm)) < 2 ^ 31 → (length (contents (sbuf stm)) ≤ fuel)%nat →
  ∃ r stm' e' k, stream_flush funcs fuel stm e = Ret ((r, stm'), e') ∧
    slock stm' = 0 ∧ io stm' = fd ∧ wf_buffer (sbuf stm') ∧
    sent e' = sent e ++ take k (contents (sbuf stm)) ∧
    contents (sbuf stm') = drop k (contents (sbuf stm)) ∧
    ((r = 0 ∧ contents (sbuf stm') = []) ∨
     (r = -1 ∧ contents (sbuf stm') ≠ [] ∧ refused funcs fd (contents (sbuf stm')) e')).
Proof.
  intros Hio Hwf Hl Hn Hfuel. unfold stream_flush. rewrite (lock_run Hl). mrun.
  set (stm1 := set_lock 1 stm). change (sbuf stm) with (sbuf stm1) in *.
  rewrite avail_contents by done.
  destruct (Z.eqb_spec (zlen (contents (sbuf stm1))) 0) as [H0|H0]; mrun.
  - exists 0, (stream_unlock stm1), e, 0%nat. split_and!; try done; [by rewrite app_nil_r|].
    left. split; [done|]. apply nil_length_inv. cbn in *. lia.
  - destruct (direct_run fuel stm1 None 0 [] e Hio Hwf eq_refl eq_refl eq_refl)
      as (r & n & stm2 & e2 & k & -> & Hl2 & Hio2 & Hwf2 & Hc2 & Hs2 & Hres); [cbn [length]; lia..|]. mrun.
    rewrite app_nil_r in *. rewrite avail_contents, Hc2, length_drop by done.
    destruct (Z.eqb_spec (Z.of_nat (length (contents (sbuf stm1)) - k)) 0) as [Hz|Hz]; mrun.
    + exists 0, (stream_unlock stm2), e2, k. split_and!; try done.
      left. split; [done|]. cbn. rewrite Hc2. apply drop_ge. lia.
    + unfold set_errno. mrun. eexists (-1), (stream_unlock stm2), _, k.
      split; [done|]. split_and!; try done; [by rewrite sent_errno|].
      destruct Hres as [(_ & _ & ->)|(_ & _ & _ & Href)]; [cbn [length] in Hz; lia|].
      right. split; [done|]. cbn. rewrite Hc2. split; [|by apply refused_errno]. intros Hd.
      apply (f_equal length) in Hd. rewrite length_drop in Hd. cbn [length] in Hd. lia.
Qed.
End writing.

(** * Properties *)

Section properties.
Context {E : Type} `{!Malloc E, !Errno E} (funcs : stream_funcs E) (fd : Z) (sent : E → block).
Context `{!WritevSpec funcs fd sent, !ReadvSpec funcs fd, !SentFrame E sent}.
Implicit Types (stm : stream_t) (e : E).

(** C6: [stream_flush] returns, unlocks the stream, and sends the unread bytes
    in order, which leave the buffer, until none is left, which it reports as a
    success, or until the descriptor refuses all that is left, which it reports
    as a failure.  As many iterations as there are bytes are enough. *)
Theorem stream_flush_drains fuel stm e :
  io stm = fd → wf_buffer (sbuf stm) → slock stm = 0 →
  zlen (contents (sbuf stm)) < 2 ^ 31 → (length (contents (sbuf stm)) ≤ fuel)%nat →
  ∃ r stm' e' k, stream_flush funcs fuel stm e = Ret ((r, stm'), e') ∧
    slock stm' = 0 ∧ io stm' = fd ∧ wf_buffer (sbuf stm') ∧
    sent e' = sent e ++ take k (contents (sbuf stm)) ∧
    contents (sbuf stm') = drop k (contents (sbuf stm)) ∧
    ((r = 0 ∧ contents (sbuf stm') = []) ∨
     (r = -1 ∧ contents (sbuf stm') ≠ [] ∧ refused funcs fd (contents (sbuf stm')) e')).
Proof. apply flush_run; done. Qed.

(** The whole of [stream_write], in three cases: bytes that fit behind the
    unread ones are stored at the start of these, and nothing is sent; else
    the unread bytes and then the new ones are sent; or the descriptor
    refuses what is left of them. *)
Definition written stm data r (n : option Z) stm' (e e' : E) : Prop :=
  let old := contents (sbuf stm) in
  (zlen data < buffer_space (sbuf stm) ∧ r = 0 ∧ n = Some (zlen data) ∧ e' = e ∧
    ∃ tail, zlen tail = zlen data ∧
      contents (sbuf stm') = cells data ++ drop (length data) (old ++ tail)) ∨
  (buffer_space (sbuf stm) ≤ zlen data ∧ r = 0 ∧ n = Some (zlen data) ∧
    sent e' = sent e ++ old ++ cells data ∧ contents (sbuf stm') = []) ∨
  (buffer_space (sbuf stm) ≤ zlen data ∧ r = -1 ∧ n = None ∧
    ∃ k, (k < length old + length data)%nat ∧ sent e' = sent e ++ take k (old ++ cells data) ∧
      contents (sbuf stm') = drop k old ∧ refused funcs fd (drop k (old ++ cells data)) e').

Lemma write_run_cases fuel stm data e :
  io stm = fd → wf_buffer (sbuf stm) → slock stm = 0 → data ≠ [] →
  let old := contents (sbuf stm) in
  zlen old + zlen data < 2 ^ 31 → (length old + length data ≤ fuel)%nat →
  ∃ r n stm' e', stream_write funcs fuel stm (Some (cells data)) (zlen data) e = Ret ((r, n, stm'), e') ∧
    slock stm' = 0 ∧ io stm' = fd ∧ wf_buffer (sbuf stm') ∧ written stm data r n stm' e e'.
Proof.
  intros Hio Hwf Hl Hne old Hlen Hfuel.
  assert (0 < zlen data) as Hpos by (destruct data; [done|cbn; lia]).
  unfold stream_write. destruct (Z.eqb_spec (zlen data) 0) as [|_]; [lia|].
  rewrite (lock_run Hl). mrun. set (stm1 := set_lock 1 stm). unfold written.
  destruct (negb (zlen data =? 0) && (zlen data <? buffer_space (sbuf stm1))) eqn:Hdir.
  - assert (zlen data < buffer_space (sbuf stm)) as Hsp by (cbn in Hdir; lia).
    pose proof Hsp as Hfit. rewrite space_val in Hfit by done.
    unfold _stream_write. rewrite Hdir. mrun.
    destruct (write_fits (sbuf stm1) (cells data) (zlen data) e Hwf)
      as (b & tail & -> & Hwfb & Ht & Hc); [rewrite length_fmap; lia|cbn; lia|]. mrun.
    exists 0, (Some (zlen data)), (stream_unlock (set_buf b stm1)), e.
    split_and!; try done. left. split_and!; [done..|]. exists tail. split; [done|]. cbn. rewrite Hc, Nat2Z.id.
    unfold splice. change (take (Z.to_nat 0) ?l) with (@nil cell). cbn [app].
    rewrite take_ge by (rewrite length_fmap; lia). by rewrite length_fmap.
  - destruct (direct_run funcs fd sent fuel stm1 (Some (cells data)) (zlen data) (cells data) e Hio Hwf)
      as (r & n & stm2 & e2 & k & -> & Hl2 & Hio2 & Hwf2 & Hc2 & Hs2 & Hres);
      rewrite ?length_fmap; change (contents (sbuf stm1)) with old in *;
      [done| |done|lia|lia|].
    { rewrite mem_read_ok by (rewrite ?length_fmap; lia). f_equal.
      rewrite <- (length_fmap Some data). apply slice_full. }
    assert (buffer_space (sbuf stm) ≤ zlen data) as Hsp by (cbn in Hdir; lia).
    mrun. exists r, n, (stream_unlock stm2), e2. rewrite length_app, length_fmap in *.
    change (contents (sbuf stm1)) with old in *. split_and!; try done. right.
    destruct Hres as [(-> & -> & ->)|(-> & -> & Hk & Href)]; [left|right].
    + split_and!; try done; cbn; [|rewrite Hc2; apply drop_ge; lia].
      rewrite Hs2, take_ge; [done|]. rewrite length_app, length_fmap. lia.
    + split_and!; try done. by exists k.
Qed.

(** Bytes that do not fit, or find the buffer empty. *)
Lemma write_run_order fuel stm data e :
  io stm = fd → wf_buffer (sbuf stm) → slock stm = 0 → data ≠ [] →
  let old := contents (sbuf stm) in
  zlen old + zlen data < 2 ^ 31 → (length old + length data ≤ fuel)%nat →
  (zlen data < buffer_space (sbuf stm) → old = []) →
  ∃ r n stm' e', stream_write funcs fuel stm (Some (cells data)) (zlen data) e = Ret ((r, n, stm'), e') ∧
    slock stm' = 0 ∧ io stm' = fd ∧ wf_buffer (sbuf stm') ∧
    ((r = 0 ∧ n = Some (zlen data) ∧
      sent e' ++ contents (sbuf stm') = sent e ++ old ++ cells data) ∨
     (r = -1 ∧ n = None ∧ ∃ k, sent e' = sent e ++ take k (old ++ cells data) ∧
      contents (sbuf stm') = drop k old ∧ (k < length old + length data)%nat ∧
      refused funcs fd (drop k (old ++ cells data)) e')).
Proof.
  intros Hio Hwf Hl Hne old Hlen Hfuel Hsafe.
  destruct (write_run_cases fuel stm data e Hio Hwf Hl Hne Hlen Hfuel)
    as (r & n & stm' & e' & Hrun & Hl' & Hio' & Hwf' & Hcase).
  exists r, n, stm', e'. split_and!; [done..|].
  destruct Hcase as [(Hsp & -> & -> & -> & tail & Ht & Hc)|[(_ & -> & -> & Hs & Hc)|(_ & -> & -> & k & ? & ? & ? & ?)]].
  - left. split_and!; [done..|]. rewrite Hc. fold old. rewrite (Hsafe Hsp). cbn [app].
    by rewrite drop_ge, app_nil_r by lia.
  - left. split_and!; [done..|]. by rewrite Hc, app_nil_r.
  - right. split_and!; [done..|]. by exists k.
Qed.

(** C9: [stream_write] returns and unlocks the stream.  Bytes that do not fit
    in the free space go through to the descriptor behind the unread ones, in
    order, and leave the buffer empty; or the descriptor refuses the rest, and
    the unread bytes not yet sent stay in the buffer.  Bytes that fit are
    stored at the start of the unread bytes, over them if there are any
    ([buffer_write]), and nothing is sent. *)
Theorem stream_write_in_order fuel stm data e :
  io stm = fd → wf_buffer (sbuf stm) → slock stm = 0 → data ≠ [] →
  let old := contents (sbuf stm) in
  zlen old + zlen data < 2 ^ 31 → (length old + length data ≤ fuel)%nat →
  ∃ r n stm' e', stream_write funcs fuel stm (Some (cells data)) (zlen data) e = Ret ((r, n, stm'), e') ∧
    slock stm' = 0 ∧ wf_buffer (sbuf stm') ∧
    if zlen data <? buffer_space (sbuf stm) then
      r = 0 ∧ n = Some (zlen data) ∧ e' = e ∧ ∃ tail, zlen tail = zlen data ∧
        contents (sbuf stm') = cells data ++ drop (length data) (old ++ tail)
    else
      (r = 0 ∧ n = Some (zlen data) ∧ sent e' = sent e ++ old ++ cells data ∧ contents (sbuf stm') = []) ∨
      (r = -1 ∧ n = None ∧ ∃ k, (k < length old + length data)%nat ∧
        sent e' = sent e ++ take k (old ++ cells data) ∧ contents (sbuf stm') = drop k old ∧
        refused funcs fd (drop k (old ++ cells data)) e').
Proof.
  intros Hio Hwf Hl Hne old Hlen Hfuel.
  destruct (write_run_cases fuel stm data e Hio Hwf Hl Hne Hlen Hfuel)
    as (r & n & stm' & e' & Hrun & ? & _ & ? & Hcase). exists r, n, stm', e'. split_and!; [done..|].
  destruct (Z.ltb_spec (zlen data) (buffer_space (sbuf stm)));
    destruct Hcase as [(? & ? & ? & ? & ?)|[(? & ? & ? & ? & ?)|(? & ? & ? & ?)]]; lia || tauto.
Qed.

(** What [readv] puts behind the write position does not touch the unread
    bytes. *)
Lemma received_run stm data n :
  wf_buffer (sbuf stm) → buffer_space (sbuf stm) = n →
  ∃ m, mem_write (buf (sbuf stm)) (buffer_wpos (sbuf stm)) (cells (take (Z.to_nat n) data)) = Ret m ∧
    let b := mk_buffer m (size (sbuf stm)) (rpos (sbuf stm)) (wpos (sbuf stm)) in
    wf_buffer b ∧ contents b = contents (sbuf stm) ∧
    (zlen data ≤ n →
       let b2 := mk_buffer m (size (sbuf stm)) (rpos (sbuf stm)) (wpos (sbuf stm) + zlen data) in
       wf_buffer b2 ∧ contents b2 = contents (sbuf stm) ++ cells data).
Proof.
  intros Hwf Hsp. rewrite space_val in Hsp by done.
  assert (wpos (sbuf stm) ≤ size (sbuf stm)) by (destruct Hwf as (?&?); tauto).
  destruct (scratch_run (sbuf stm) (cells (take (Z.to_nat n) data)) Hwf)
    as (m & Hm & Hwf1 & Hc1 & Hb); [rewrite length_fmap, length_take; lia|].
  exists m. cbv zeta. split_and!; [done..|]. intros Hd. rewrite (take_ge data) in Hb by lia.
  destruct (Hb (zlen data)) as [Hwf2 Hc2]; [rewrite length_fmap; lia|].
  split; [done|]. by rewrite Hc2, Nat2Z.id, take_ge by (rewrite length_fmap; lia).
Qed.

(** [stream_fill] by the answer of [readv]: bytes that fit are appended; after
    a failure the buffer is as it was. *)
Lemma fill_ok stm data stm1 e e1 :
  wf_buffer (sbuf stm) → slock stm = 0 →
  f_readv funcs (set_lock 1 stm) [buffer_space (sbuf stm); STM_READALL_LEN] e =
    Ret ((0, Some (zlen data), data, stm1), e1) →
  sbuf stm1 = sbuf stm → zlen data ≤ buffer_space (sbuf stm) →
  ∃ b', stream_fill funcs stm e = Ret ((0, Some (zlen data), stream_unlock (set_buf b' stm1)), e1) ∧
    wf_buffer b' ∧ contents b' = contents (sbuf stm) ++ cells data.
Proof.
  intros Hwf Hl Hread Hb Hfit. unfold stream_fill. rewrite (lock_run Hl). mrun.
  change (sbuf (set_lock 1 stm)) with (sbuf stm). rewrite Hread. mrun. rewrite <- Hb in *.
  destruct (received_run stm1 data _ Hwf eq_refl) as (m & Hm & Hwf1 & Hc1 & Hgot).
  destruct (Hgot Hfit) as [Hwf2 Hc2]. clear Hgot.
  rewrite Hm. mrun. rewrite space_val in Hfit by done.
  destruct (advance_run _ (zlen data) e1 Hwf1) as [-> _]; [lia|cbn; lia|]. mrun.
  destruct (Z.ltb_spec (buffer_space (sbuf stm1)) (zlen data)) as [Hlt|_].
  { rewrite space_val in Hlt by done. lia. }
  mrun. eexists. split; [done|]. split; done.
Qed.

Lemma fill_fails stm c stm1 e e1 :
  wf_buffer (sbuf stm) → slock stm = 0 →
  f_readv funcs (set_lock 1 stm) [buffer_space (sbuf stm); STM_READALL_LEN] e = Ret ((-1, c, [], stm1), e1) →
  sbuf stm1 = sbuf stm →
  ∃ b', stream_fill funcs stm e =
      Ret ((-1, None, stream_unlock (set_buf b' stm1)), put_errno (stream_errno stm1) e1) ∧
    wf_buffer b' ∧ contents b' = contents (sbuf stm).
Proof.
  intros Hwf Hl Hread Hb. unfold stream_fill. rewrite (lock_run Hl). mrun.
  change (sbuf (set_lock 1 stm)) with (sbuf stm). rewrite Hread. mrun. rewrite <- Hb in *.
  destruct (received_run stm1 [] _ Hwf eq_refl) as (m & Hm & Hwf1 & Hc1 & _).
  rewrite Hm. unfold set_errno. mrun. eexists. split; [done|]. by split.
Qed.

(** When the bytes received fit in the free space of the buffer,
    [stream_fill] appends exactly them, reports their number, allocates
    nothing and unlocks the stream. *)
Theorem stream_fill_appends stm data stm1 e e1 :
  wf_buffer (sbuf stm) → slock stm = 0 →
  f_readv funcs (set_lock 1 stm) [buffer_space (sbuf stm); STM_READALL_LEN] e =
    Ret ((0, Some (zlen data), data, stm1), e1) →
  sbuf stm1 = sbuf stm → zlen data ≤ buffer_space (sbuf stm) →
  ∃ stm', stream_fill funcs stm e = Ret ((0, Some (zlen data), stm'), e1) ∧
    slock stm' = 0 ∧ wf_buffer (sbuf stm') ∧
    contents (sbuf stm') = contents (sbuf stm) ++ cells data.
Proof.
  intros Hwf Hl Hread Hb Hfit. destruct (fill_ok _ _ _ _ _ Hwf Hl Hread Hb Hfit) as (b & -> & ? & ?).
  eexists. split; [done|]. by split_and!.
Qed.

(** When more is received than there was space for, the bytes beyond the
    space are counted twice, and they overwrite the oldest unread bytes: the
    buffer then starts with the end of what was received. *)
Theorem stream_fill_overflow stm data stm1 e e1 :
  (∀ n e, fst (malloc_ok n e) = true) → wf_buffer (sbuf stm) → slock stm = 0 →
  f_readv funcs (set_lock 1 stm) [buffer_space (sbuf stm); STM_READALL_LEN] e =
    Ret ((0, Some (zlen data), data, stm1), e1) →
  sbuf stm1 = sbuf stm → let over := zlen data - buffer_space (sbuf stm) in
  0 < over ≤ STM_READALL_LEN → wpos (sbuf stm) + zlen data + over < 2 ^ 32 →
  ∃ stm' e', stream_fill funcs stm e = Ret ((0, Some (zlen data), stm'), e') ∧
    slock stm' = 0 ∧ wf_buffer (sbuf stm') ∧
    zlen (contents (sbuf stm')) = zlen (contents (sbuf stm)) + zlen data + over ∧
    take (Z.to_nat over) (contents (sbuf stm')) =
      cells (drop (Z.to_nat (buffer_space (sbuf stm))) data).
Proof.
  intros Hmem Hwf Hl Hread Hb over Hover Hw.
  assert (over = zlen data - buffer_space (sbuf stm)) as Hov by done. clearbody over.
  unfold stream_fill. rewrite (lock_run Hl). mrun.
  change (sbuf (set_lock 1 stm)) with (sbuf stm). rewrite Hread. mrun.
  rewrite <- Hb in *. clear Hb Hread.
  assert (∀ b n e, extend_result b n e = 0) as Hext
    by (intros; unfold extend_result; by rewrite Hmem, orb_true_r).
  destruct (received_run stm1 data _ Hwf eq_refl) as (m & Hm & Hwf1 & Hc1 & _).
  rewrite Hm. mrun.
  destruct (skip_run _ (zlen data) e1 Hwf1) as (r & b2 & e2 & -> & Hwf2 & Hr);
    [lia|cbn; unfold STM_READALL_LEN in *; lia|]. mrun.
  destruct Hr as [(-> & Hw2 & tail & Ht & Hc2)|(_ & _ & Hx & _)]; [|by rewrite Hext in Hx].
  cbn [wpos] in Hw2. pose proof (space_val _ Hwf) as Hsp. rewrite <- Hov.
  assert (0 ≤ wpos (sbuf stm1) ≤ size (sbuf stm1)) by (destruct Hwf as (?&?&?&?&?&?); lia).
  destruct (Z.ltb_spec (buffer_space (sbuf stm1)) (zlen data)) as [_|]; [|lia].
  rewrite (u32_id over) by (unfold is_u32, STM_READALL_LEN in *; lia).
  set (tmp := resize STM_READALL_LEN _).
  pose proof (resize_length STM_READALL_LEN (cells (drop (Z.to_nat (buffer_space (sbuf stm1))) data)))
    as Htmp. fold tmp in Htmp.
  destruct (write_run b2 tmp over e2 Hwf2) as (r & b3 & e3 & -> & Hwf3 & Hr);
    [unfold STM_READALL_LEN in *; lia|lia|]. mrun.
  destruct Hr as [(-> & tail2 & Ht2 & Hc3)|(_ & _ & Hx & _)]; [|by rewrite Hext in Hx].
  assert (take (Z.to_nat over) tmp = cells (drop (Z.to_nat (buffer_space (sbuf stm1))) data)) as Htake.
  { unfold tmp, resize. rewrite take_app_le by (rewrite length_take, length_fmap, length_drop; lia).
    rewrite take_take, take_ge; [done|]. rewrite length_fmap, length_drop. lia. }
  do 2 eexists. split; [done|]. split_and!; [done|done| |].
  - change (zlen (contents b3) = zlen (contents (sbuf stm1)) + zlen data + over).
    rewrite Hc3, splice_length, length_app, Hc2, length_app, Hc1; [lia|lia|].
    rewrite length_take, length_app. lia.
  - cbn. rewrite Hc3. unfold splice. rewrite Htake.
    change (take (Z.to_nat 0) ?l) with (@nil cell). cbn [app].
    assert (length (cells (drop (Z.to_nat (buffer_space (sbuf stm1))) data)) = Z.to_nat over) as Hlen
      by (rewrite length_fmap, length_drop; lia).
    rewrite take_app_le, take_ge by lia. done.
Qed.

(** What the buffer holds already is delivered by [stream_read] without
    using the descriptor: the next [len] bytes go to the caller, and the
    stream is unlocked. *)
Theorem stream_read_buffered fuel stm dest len nread e :
  wf_buffer (sbuf stm) → slock stm = 0 → 0 < len ≤ zlen (contents (sbuf stm)) →
  len ≤ zlen dest → len < 2 ^ 32 →
  ∃ stm', stream_read funcs fuel stm (Live dest) len nread e =
      Ret ((0, Some len, Live (splice 0 (take (Z.to_nat len) (contents (sbuf stm))) dest), stm'), e) ∧
    slock stm' = 0 ∧ wf_buffer (sbuf stm') ∧
    contents (sbuf stm') = drop (Z.to_nat len) (contents (sbuf stm)).
Proof.
  intros Hwf Hl Hlen Hdest H32. unfold stream_read.
  destruct (Z.eqb_spec len 0) as [|_]; [lia|]. rewrite (lock_run Hl). mrun.
  change (sbuf (set_last_err 0 (set_lock 1 stm))) with (sbuf stm).
  destruct (read_run (sbuf stm) true len len Hwf) as (b' & -> & Hwf' & Hc' & _);
    [unfold is_u32; lia|lia|]. mrun.
  rewrite mem_write_ok by (rewrite ?length_take; lia). mrun.
  rewrite Z.sub_diag. change (u32 0) with 0. mrun.
  eexists. split; [done|]. split_and!; done.
Qed.

(** The first round of the loop of [stream_read] is the last. *)
Lemma read_loop_discards fuel stm dest dpos len ret e :
  wf_buffer (sbuf stm) → io stm = fd → contents (sbuf stm) = [] →
  0 < len → 0 ≤ dpos → dpos + len ≤ zlen dest → len + size (sbuf stm) < 2 ^ 31 →
  read_loop funcs (S fuel) stm (Live dest) dpos len ret e = UB ∨
  ∃ dest' stm' e', read_loop funcs (S fuel) stm (Live dest) dpos len ret e =
      Ret ((if ret =? 0 then -1 else 0, if ret =? 0 then None else Some ret,
            Live dest', stm'), e') ∧
    slock stm' = 0 ∧ contents (sbuf stm') = [].
Proof.
  intros Hwf Hio Hc Hlen Hdpos Hdest Hsz. cbn [read_loop].
  destruct (Z.leb_spec len 0); [lia|]. rewrite space_val by done.
  assert (0 ≤ wpos (sbuf stm) ≤ size (sbuf stm)) by (destruct Hwf as (?&?&?&?&?&?); lia).
  set (iov0 := len - _). assert (0 ≤ iov0 ≤ len) by (unfold iov0; destruct (_ =? 0); lia).
  rewrite bind_run.
  destruct (readv_spec stm [iov0; size (sbuf stm) - wpos (sbuf stm)] e Hio)
    as (r & n & data & stm1 & e1 & -> & Hio1 & Hb1 & Hl1 & Hres); [cbn; lia|].
  assert (zlen data ≤ iov0 + (size (sbuf stm) - wpos (sbuf stm))) as Hdata.
  { destruct Hres as [(_ & _ & ?)|(_ & _ & ->)]; cbn in *; lia. }
  cbv beta iota zeta.
  rewrite mem_write_ok by (rewrite ?length_fmap, ?length_take; lia). rewrite bind_run, lift_run.
  rewrite Hb1. unfold buffer_wpos.
  destruct (scratch_run (sbuf stm) (cells (drop (Z.to_nat iov0) data)) Hwf) as (m & -> & Hwfm & Hcm & _);
    [rewrite length_fmap, length_drop; lia|]. rewrite bind_run, lift_run. cbv beta iota.
  destruct Hres as [(-> & -> & ?)|(-> & -> & _)]; mrun; [right|by left].
  destruct (ret =? 0); mrun; unfold set_errno; mrun; do 3 eexists; (split; [done|]); split; try done;
    cbn; by rewrite Hcm.
Qed.

(** A read that asks for more than the buffer holds gets what the buffer
    holds and nothing more: the answer of the descriptor is taken for a
    failure, so with an empty buffer the read fails although bytes were
    received, and these are lost; when the descriptor does fail, an
    indeterminate count is used. *)
Theorem stream_read_discards fuel stm dest len nread e :
  wf_buffer (sbuf stm) → slock stm = 0 → io stm = fd →
  let avail := zlen (contents (sbuf stm)) in
  avail < len ≤ zlen dest → len + size (sbuf stm) < 2 ^ 31 →
  stream_read funcs (S fuel) stm (Live dest) len nread e = UB ∨
  ∃ dest' stm' e', stream_read funcs (S fuel) stm (Live dest) len nread e =
      Ret ((if avail =? 0 then -1 else 0, if avail =? 0 then None else Some avail,
            Live dest', stm'), e') ∧
    slock stm' = 0 ∧ contents (sbuf stm') = [].
Proof.
  intros Hwf Hl Hio avail Hlen Hsz.
  assert (avail = zlen (contents (sbuf stm))) as Hav by done. clearbody avail.
  unfold stream_read. destruct (Z.eqb_spec len 0) as [|_]; [lia|]. rewrite (lock_run Hl).
  rewrite bind_run, lift_run. cbv zeta iota beta.
  change (sbuf (set_last_err 0 (set_lock 1 stm))) with (sbuf stm).
  assert (0 ≤ size (sbuf stm)) by (destruct Hwf as (?&?&?&?&?&?); lia).
  destruct (read_run (sbuf stm) true len avail Hwf) as (b & -> & Hwfb & Hcb & _ & Hszb);
    [unfold is_u32; lia|lia|].
  rewrite bind_run, lift_run. cbv zeta iota beta.
  rewrite mem_write_ok by (rewrite ?length_take; lia). rewrite bind_run, lift_run.
  set (d1 := splice 0 _ dest). assert (length d1 = length dest) as Hd1
    by (apply splice_length; rewrite ?length_take; lia).
  rewrite u32_id by (unfold is_u32; lia).
  destruct (Z.eqb_spec (len - avail) 0) as [|_]; [lia|]. cbn [negb].
  apply read_loop_discards; cbn [sbuf set_buf set_last_err set_lock io]; [done..| | |lia|lia|lia].
  - rewrite Hcb. apply drop_ge. lia.
  - lia.
Qed.

(** A read without a destination that asks for more than the buffer holds
    fails with the stream still locked, and every later write, flush or fill
    of it spins for ever. *)
Theorem stream_read_keeps_lock fuel stm len nread e :
  wf_buffer (sbuf stm) → slock stm = 0 → zlen (contents (sbuf stm)) < len < 2 ^ 32 →
  ∃ stm', stream_read funcs fuel stm Null len nread e = Ret ((-1, None, Null, stm'), e) ∧
    slock stm' = 1 ∧
    ∀ fuel' mem len' e', len' ≠ 0 →
      stream_write funcs fuel' stm' mem len' e' = Hang ∧
      stream_flush funcs fuel' stm' e' = Hang ∧ stream_fill funcs stm' e' = Hang.
Proof.
  intros Hwf Hl Hlen. unfold stream_read.
  destruct (Z.eqb_spec len 0) as [|_]; [lia|]. rewrite (lock_run Hl). mrun.
  change (sbuf (set_last_err 0 (set_lock 1 stm))) with (sbuf stm).
  destruct (read_run (sbuf stm) false len (Z.min len (zlen (contents (sbuf stm)))) Hwf)
    as (b & -> & _); [unfold is_u32; lia|done|].
  mrun. rewrite Z.min_r, u32_id by (unfold is_u32; lia).
  destruct (Z.eqb_spec (len - zlen (contents (sbuf stm))) 0) as [|_]; [lia|]. mrun.
  eexists. split; [done|]. split; [done|]. intros fuel' mem len' e' Hne.
  unfold stream_write, stream_flush, stream_fill.
  destruct (Z.eqb_spec len' 0) as [|_]; [done|]. mrun. by rewrite lock_held.
Qed.

(** [stream_seek] takes the answers of the functions it calls the wrong
    way round: after a successful flush it fails without seeking, and it
    succeeds only if the flush and the seek both failed. *)
Theorem stream_seek_inverted fuel stm delta whence e :
  (∀ stm' e', stream_flush funcs fuel stm e = Ret ((0, stm'), e') →
     stream_seek funcs fuel stm delta whence e = Ret ((-1, None, stm'), e')) ∧
  (∀ newpos stm' e', stream_seek funcs fuel stm delta whence e = Ret ((0, newpos, stm'), e') →
     ∃ r1 stm1 e1 stm2 d r2 stm3, r1 ≠ 0 ∧ r2 ≠ 0 ∧
       stream_flush funcs fuel stm e = Ret ((r1, stm1), e1) ∧
       f_seek funcs stm2 d whence e1 = Ret ((r2, newpos, stm3), e')).
Proof.
  unfold stream_seek. split.
  - intros stm' e' H. rewrite bind_run, H. by mrun.
  - intros newpos stm' e'. rewrite bind_run.
    destruct (stream_flush funcs fuel stm e) as [[[r1 stm1] e1]| |] eqn:Hf; try done.
    destruct (Z.eqb_spec r1 0) as [->|Hr1]; mrun; [by intros [=]|].
    destruct (stream_lock stm1) as [stm2| |]; try done. mrun.
    destruct (f_seek funcs _ _ whence e1) as [[[[r2 np] stm3] e3]| |] eqn:Hseek; try done.
    destruct (Z.eqb_spec r2 0) as [->|Hr2]; unfold set_errno; mrun; [by intros [=]|].
    intros [= <- <- <-]. eauto 15.
Qed.
End properties.

(** * Witnesses *)

(** A stream on descriptor 3 with a small buffer, unlocked. *)
Definition small_stream (b : buffer_t) : stream_t := mk_stream 3 0 b 0 0 0.

Definition out_pipe (chunk : Z) : pipe := mk_pipe 0 [] (abc ++ de) chunk.

Lemma stream_flush_drains_witness :
  ∃ r stm' e' k, stream_flush stream_funcs_fd 3 (small_stream (small 2 abc)) (out_pipe 2) = Ret ((r, stm'), e') ∧
    slock stm' = 0 ∧ io stm' = 3 ∧ wf_buffer (sbuf stm') ∧
    p_sent e' = p_sent (out_pipe 2) ++ take k (cells abc) ∧
    contents (sbuf stm') = drop k (cells abc) ∧
    ((r = 0 ∧ contents (sbuf stm') = []) ∨
     (r = -1 ∧ contents (sbuf stm') ≠ [] ∧ refused stream_funcs_fd 3 (contents (sbuf stm')) e')).
Proof.
  apply (stream_flush_drains stream_funcs_fd 3 p_sent 3 (small_stream (small 2 abc)) (out_pipe 2));
    [done|wf_small|done|by_computing|vm_compute; lia].
Defined.

(** Two rounds: the descriptor takes two bytes at a time. *)
Example flush_in_rounds :
  (λ '(r, _, e), (r, p_sent e)) <$>
    (match stream_flush stream_funcs_fd 3 (small_stream (small 2 abc)) (out_pipe 2) with
     | Ret (r, stm, e) => Some (r, stm, e) | _ => None end) = Some (0, cells abc).
Proof. reflexivity. Qed.

Lemma stream_write_in_order_witness :
  (∃ r n stm' e', stream_write stream_funcs_fd 5 (small_stream (small 6 de)) (Some (cells abc)) 3 (out_pipe 4)
      = Ret ((r, n, stm'), e') ∧
    slock stm' = 0 ∧ wf_buffer (sbuf stm') ∧
    ((r = 0 ∧ n = Some 3 ∧ p_sent e' = [] ++ cells de ++ cells abc ∧ contents (sbuf stm') = []) ∨
     (r = -1 ∧ n = None ∧ ∃ k, (k < 2 + 3)%nat ∧ p_sent e' = [] ++ take k (cells de ++ cells abc) ∧
      contents (sbuf stm') = drop k (cells de) ∧
      refused stream_funcs_fd 3 (drop k (cells de ++ cells abc)) e'))) ∧
  (∃ r n stm' e', stream_write stream_funcs_fd 5 (small_stream (small 0 de)) (Some (cells abc)) 3 (out_pipe 4)
      = Ret ((r, n, stm'), e') ∧
    slock stm' = 0 ∧ wf_buffer (sbuf stm') ∧
    (r = 0 ∧ n = Some 3 ∧ e' = out_pipe 4 ∧ ∃ tail, zlen tail = 3 ∧
      contents (sbuf stm') = cells abc ++ drop 3 (cells de ++ tail))).
Proof.
  split.
  - apply (stream_write_in_order stream_funcs_fd 3 p_sent 5 (small_stream (small 6 de)) abc (out_pipe 4));
      [done|wf_small|done|done|by_computing|vm_compute; lia].
  - apply (stream_write_in_order stream_funcs_fd 3 p_sent 5 (small_stream (small 0 de)) abc (out_pipe 4));
      [done|wf_small|done|done|by_computing|vm_compute; lia].
Defined.

Lemma stream_fill_appends_witness :
  ∃ stm', stream_fill stream_funcs_fd (small_stream (small 0 abc)) (out_pipe 1) =
      Ret ((0, Some 5, stm'), mk_pipe 0 [] [] 1) ∧
    slock stm' = 0 ∧ wf_buffer (sbuf stm') ∧
    contents (sbuf stm') = cells abc ++ cells (abc ++ de).
Proof.
  apply (stream_fill_appends stream_funcs_fd (small_stream (small 0 abc)) (abc ++ de)
    (set_lock 1 (small_stream (small 0 abc))) (out_pipe 1) (mk_pipe 0 [] [] 1));
    [wf_small|done|reflexivity|done|by_computing].
Defined.

Lemma stream_fill_overflow_witness :
  ∃ stm' e', stream_fill stream_funcs_fd (small_stream (small 5 abc)) (out_pipe 1) =
      Ret ((0, Some 5, stm'), e') ∧
    slock stm' = 0 ∧ wf_buffer (sbuf stm') ∧
    zlen (contents (sbuf stm')) = 3 + 5 + 5 ∧
    take 5 (contents (sbuf stm')) = cells (abc ++ de).
Proof.
  apply (stream_fill_overflow stream_funcs_fd (small_stream (small 5 abc)) (abc ++ de)
    (set_lock 1 (small_stream (small 5 abc))) (out_pipe 1) (mk_pipe 0 [] [] 1));
    [done|wf_small|done|reflexivity|done|by_computing|by_computing].
Defined.

Lemma stream_read_buffered_witness :
  ∃ stm', stream_read stream_funcs_fd 9 (small_stream (small 2 abc)) (Live [None; None]) 2 true (out_pipe 1) =
      Ret ((0, Some 2, Live (splice 0 (take 2 (contents (small 2 abc))) [None; None]), stm'), out_pipe 1) ∧
    slock stm' = 0 ∧ wf_buffer (sbuf stm') ∧
    contents (sbuf stm') = drop 2 (contents (small 2 abc)).
Proof.
  apply (stream_read_buffered stream_funcs_fd 9 (small_stream (small 2 abc)) [None; None] 2 true (out_pipe 1));
    [wf_small|done|by_computing|by_computing|lia].
Defined.

Lemma stream_read_discards_witness :
  let run := stream_read stream_funcs_fd 1 (small_stream (small 0 [])) (Live [None; None]) 2 true (out_pipe 1) in
  run = UB ∨ ∃ dest' stm' e', run = Ret ((-1, None, Live dest', stm'), e') ∧
    slock stm' = 0 ∧ contents (sbuf stm') = [].
Proof.
  apply (stream_read_discards stream_funcs_fd 3 0 (small_stream (small 0 [])) [None; None] 2 true (out_pipe 1));
    [wf_small|done|done|by_computing|by_computing].
Defined.

Lemma stream_read_keeps_lock_witness :
  ∃ stm', stream_read stream_funcs_fd 9 (small_stream (small 2 abc)) Null 4 true (out_pipe 1) =
      Ret ((-1, None, Null, stm'), out_pipe 1) ∧ slock stm' = 1 ∧
    ∀ fuel' mem len' e', len' ≠ 0 →
      stream_write stream_funcs_fd fuel' stm' mem len' e' = Hang ∧
      stream_flush stream_funcs_fd fuel' stm' e' = Hang ∧ stream_fill stream_funcs_fd stm' e' = Hang.
Proof.
  apply (stream_read_keeps_lock stream_funcs_fd 9 (small_stream (small 2 abc)) 4 true (out_pipe 1));
    [wf_small|done|by_computing].
Defined.
