(* ===== verification/Queue.v ===== *)
(** * The output of a stream as a queue

    A stream with functions that keep the promise [WritevSpec] is a queue: what
    is printed, written and flushed leaves in the order in which it was given,
    no byte twice and none lost but for the rest of a write that failed, unless
    a print reaches the free space or a write fits in it behind unread bytes. *)
From S2P Require Import Prelude Alloc Sys Lock Buffer Stream.

(** What a user does to the output of a stream. *)
Inductive out_op :=
  | Print (text : list byte)
  | Write (data : list byte)
  | Flush.

Definition payload (op : out_op) : list byte :=
  match op with Print text => text | Write data => data | Flush => [] end.

Section run.
Context {E : Type} `{!Malloc E, !Errno E} (funcs : stream_funcs E) (fuel : nat).

(** Its result; printing returns the length of the text, the others 0 or -1. *)
Definition run_out (op : out_op) (stm : stream_t) : M E (Z * stream_t) :=
  match op with
  | Print text => stream_printf stm (Some text)
  | Write data =>
      '(r, _, stm) ← stream_write funcs fuel stm (Some (cells data)) (zlen data);
      mret (r, stm)
  | Flush => stream_flush funcs fuel stm
  end.

Fixpoint run_outs (ops : list out_op) (stm : stream_t) : M E (list Z * stream_t) :=
  match ops with
  | [] => mret ([], stm)
  | op :: ops =>
      '(r, stm) ← run_out op stm;
      '(rs, stm) ← run_outs ops stm;
      mret (r :: rs, stm)
  end.

(** A text that is printed fits in the free space; bytes that are written do
    not, or find the buffer empty; and the fuel is enough to send all. *)
Definition out_ready (op : out_op) (stm : stream_t) : Prop :=
  zlen (contents (sbuf stm)) + zlen (payload op) < 2 ^ 31 ∧
  (length (contents (sbuf stm)) + length (payload op) ≤ fuel)%nat ∧
  match op with
  | Print text => 0 < zlen text < buffer_space (sbuf stm)
  | Write data => data ≠ [] ∧ (zlen data < buffer_space (sbuf stm) → contents (sbuf stm) = [])
  | Flush => True
  end.

Fixpoint outs_ready (ops : list out_op) (stm : stream_t) (e : E) : Prop :=
  match ops with
  | [] => True
  | op :: ops =>
      out_ready op stm ∧ ∀ r stm1 e1, run_out op stm e = Ret ((r, stm1), e1) → outs_ready ops stm1 e1
  end.
End run.

(** * The queue

    Its state is all that was accepted so far; an operation accepts a prefix of
    what it was given, and all of it if it succeeds. *)
Definition accepts (op : out_op) (r : Z) (d : list byte) : Prop :=
  (∃ k, d = take k (payload op)) ∧ (r ≠ -1 → d = payload op).

Section queue.
Context {E : Type} `{!Malloc E, !Errno E} (funcs : stream_funcs E) (fd : Z) (sent : E → block).
Context `{!WritevSpec funcs fd sent, !SentFrame E sent}.

Definition out_stream (stm : stream_t) : Prop := io stm = fd ∧ slock stm = 0 ∧ wf_buffer (sbuf stm).

Lemma out_run fuel op stm (e : E) :
  out_stream stm → out_ready fuel op stm →
  ∃ r stm' e' d, run_out funcs fuel op stm e = Ret ((r, stm'), e') ∧ out_stream stm' ∧ accepts op r d ∧
    sent e' ++ contents (sbuf stm') = sent e ++ contents (sbuf stm) ++ cells d.
Proof.
  intros (Hio & Hl & Hwf) (Hn & Hf & Hop). destruct op as [text|data|]; cbn [run_out payload] in *.
  - rewrite space_val in Hop by done. unfold stream_printf, stream_vprintf.
    destruct (vprintf_here (sbuf stm) text e Hwf) as (b & Hrun & Hwfb & Hc); [lia|]. unfold buffer_printf in Hrun.
    autorewrite with run. rewrite Hrun. autorewrite with run.
    exists (zlen text), (set_buf b stm), e, text. split; [done|]. split; [done|]. split.
    { split; [|done]. exists (length text). by rewrite take_ge. }
    cbn [sbuf set_buf]. rewrite Hc. unfold printed.
    by destruct (Z.ltb_spec (zlen text) (size (sbuf stm) - wpos (sbuf stm))); [|lia].
  - destruct Hop as [Hne Hempty].
    destruct (write_run_order funcs fd sent fuel stm data e) as (r & n & stm' & e' & Hrun & Hl' & Hio' & Hwf' & Hcase);
      [done..|]. autorewrite with run. rewrite Hrun. autorewrite with run. exists r, stm', e'.
    destruct Hcase as [(-> & _ & Hs)|(-> & _ & k & Hs & Hc & Hk & _)].
    + exists data. split; [done|]. split; [done|]. split; [|done]. split; [|done].
      exists (length data). by rewrite take_ge.
    + exists (take (k - length (contents (sbuf stm))) data). split; [done|]. split; [done|].
      split; [split; [by eexists|done]|]. rewrite Hs, Hc, take_app, <- !app_assoc, fmap_take. f_equal.
      destruct (Nat.le_gt_cases k (length (contents (sbuf stm)))) as [Hle|Hgt].
      * replace (k - length (contents (sbuf stm)))%nat with 0%nat by lia. rewrite !take_0, app_nil_r.
        apply take_drop.
      * rewrite (drop_ge (contents (sbuf stm))) by lia. rewrite (take_ge (contents (sbuf stm))) by lia.
        by rewrite app_nil_r.
  - destruct (flush_run funcs fd sent fuel stm e) as (r & stm' & e' & k & Hrun & Hl' & Hio' & Hwf' & Hs & Hc & _);
      [done|done|done|cbn in Hn; lia|cbn in Hf; lia|].
    exists r, stm', e', []. split; [done|]. split; [done|]. split; [split; [by exists 0%nat|done]|].
    by rewrite Hs, Hc, app_nil_r, <- app_assoc, take_drop.
Qed.

(** * Theorems *)

(** C5: the output of a stream refines a queue, as long as no print reaches the
    free space and no write fits in it behind unread bytes (the code stores
    such bytes over the unread ones, see [stream_write_in_order]): after any
    sequence of such prints and writes and of flushes, what was sent and what
    the buffer still holds are what was there before and then what the
    operations accepted, in order; an operation that does not fail accepts all
    that it was given.  All of them return, however little the descriptor
    takes. *)
Theorem stream_output_fifo fuel ops stm (e : E) :
  out_stream stm → outs_ready funcs fuel ops stm e →
  ∃ rs ds stm' e', run_outs funcs fuel ops stm e = Ret ((rs, stm'), e') ∧ out_stream stm' ∧
    Forall3 accepts ops rs ds ∧
    sent e' ++ contents (sbuf stm') = sent e ++ contents (sbuf stm) ++ cells (concat ds).
Proof.
  revert stm e. induction ops as [|op ops IH]; intros stm e Hs Hr.
  { exists [], [], stm, e. split; [done|]. split; [done|]. split; [constructor|]. by rewrite app_nil_r. }
  destruct Hr as [Hop Hnext]. destruct (out_run fuel op stm e Hs Hop) as (r & stm1 & e1 & d & Hrun & Hs1 & Hacc & Hsent).
  destruct (IH stm1 e1 Hs1 (Hnext r stm1 e1 Hrun)) as (rs & ds & stm2 & e2 & Hruns & Hs2 & Haccs & Hsents).
  exists (r :: rs), (d :: ds), stm2, e2. cbn [run_outs]. autorewrite with run. rewrite Hrun. autorewrite with run.
  rewrite Hruns. split; [done|]. split; [done|]. split; [by constructor|].
  cbn [concat]. by rewrite Hsents, app_assoc, Hsent, fmap_app, <- !app_assoc.
Qed.
End queue.

(** * Witnesses *)

(** A stream whose descriptor takes two bytes at a time: a text is printed, sent,
    and more bytes than fit are written. *)
Lemma stream_output_fifo_witness :
  ∃ rs ds stm' e', run_outs stream_funcs_fd 20 [Print abc; Flush; Write (abc ++ abc ++ abc)] (small_stream (small 0 []))
      (out_pipe 2) = Ret ((rs, stm'), e') ∧ Forall3 accepts [Print abc; Flush; Write (abc ++ abc ++ abc)] rs ds ∧
    p_sent e' ++ contents (sbuf stm') = cells (concat ds).
Proof.
  destruct (stream_output_fifo stream_funcs_fd 3 p_sent 20 [Print abc; Flush; Write (abc ++ abc ++ abc)]
    (small_stream (small 0 [])) (out_pipe 2)) as (rs & ds & stm' & e' & Hrun & _ & Hacc & Hs).
  - split; [done|]. split; [done|]. wf_small.
  - split; [split; [by vm_compute|]; split; [vm_compute; lia|by vm_compute]|].
    intros r1 stm1 e1 H1. vm_compute in H1. injection H1 as <- <- <-.
    split; [split; [by vm_compute|]; split; [vm_compute; lia|done]|].
    intros r2 stm2 e2 H2. vm_compute in H2. injection H2 as <- <- <-.
    split; [split; [by vm_compute|]; split; [vm_compute; lia|split; [done|by vm_compute]]|]. done.
  - exists rs, ds, stm', e'. split; [exact Hrun|]. split; [exact Hacc|exact Hs].
Defined.
