(* ===== verification/Hmap.v ===== *)
(** * The string hash table ([hmap.c], [hmap.h])

    Open addressing with linear probing; a key is known by two 32-bit hashes
    of it, a third one gives the place where its search starts. *)
From stdpp Require Import strings.
From S2P Require Import Prelude Alloc.

(** ** Hashing *)

Definition HASH_OFFSET : Z := 0.
Definition HASH_A : Z := 1.
Definition HASH_B : Z := 2.

Definition crypt_seed (seed : Z) : Z := u32 (u32 (seed * 125) + 3) mod 0x2AAAAB.

(** The inner loop of [_init_crypt_table], [n] rounds from [idx2] on. *)
Fixpoint crypt_column (n : nat) (idx2 : Z) (seed : Z) (tbl : list Z) : Z * list Z :=
  match n with
  | O => (seed, tbl)
  | S n =>
      let seed := crypt_seed seed in
      let tmp1 := u32 (Z.shiftl (Z.land seed 0xFFFF) 0x10) in
      let seed := crypt_seed seed in
      let tmp2 := Z.land seed 0xFFFF in
      crypt_column n (idx2 + 0x100) seed (<[Z.to_nat idx2 := Z.lor tmp1 tmp2]> tbl)
  end.

(** The outer loop, [n] rounds from [idx1] on. *)
Fixpoint crypt_rows (n : nat) (idx1 : Z) (seed : Z) (tbl : list Z) : list Z :=
  match n with
  | O => tbl
  | S n =>
      let '(seed, tbl) := crypt_column 5 idx1 seed tbl in
      crypt_rows n (idx1 + 1) seed tbl
  end.

Definition _init_crypt_table (tbl : list Z) : list Z := crypt_rows 256 0 0x00100001 tbl.

(** [_crypt_table], a static array of zeros that [khlist_create] fills. *)
Definition _crypt_table : list Z := _init_crypt_table (replicate 1280 0).

Definition toupper (c : Z) : Z := if (97 <=? c) && (c <=? 122) then c - 32 else c.

(** The loop of [_hash_string]. *)
Fixpoint hash_loop (tbl : list Z) (str : list byte) (type seed1 seed2 : Z) : outcome Z :=
  match str with
  | [] => Ret seed1
  | key :: str =>
      let ch := toupper (byte_val key) in
      match tbl !! Z.to_nat (u32 (u32 (Z.shiftl type 8) + ch)) with
      | None => UB
      | Some t =>
          let seed1 := Z.lxor t (u32 (seed1 + seed2)) in
          let seed2 := u32 (ch + seed1 + seed2 + u32 (Z.shiftl seed2 5) + 3) in
          hash_loop tbl str type seed1 seed2
      end
  end.

(** [str]: the bytes before the terminating null. *)
Definition _hash_string (tbl : list Z) (str : list byte) (type : Z) : outcome Z :=
  hash_loop tbl str type 0x7FED7FED 0xEEEEEEEE.

(** ** The table *)

(** [struct hash_table] *)
Record slot := mk_slot { hasha : Z; hashb : Z; exist : Z; ud : Z }.

(** [struct khlist]; a slot that was never written is indeterminate. *)
Record khlist := mk_khlist { ksize : Z; hash_t : list (option slot) }.

(** [(unsigned)-1], the answer for "no". *)
Definition NOPOS : Z := u32 (-1).

Definition empty_slot : slot := mk_slot (u32 (-1)) (u32 (-1)) 0 0.

(** How a search ends: at the key, at a free slot, or back at its start. *)
Inductive probe_end := Found (npos : Z) | Free (npos : Z) | Wrapped.

Section khlist.
Context {E : Type} `{!Malloc E} (tbl : list Z).

Definition khlist_create (sz : Z) : M E (option khlist) :=
  ok ← sys (malloc_ok 16);
  if negb ok then mret None
  else
    ok ← sys (malloc_ok (sz * 24));
    if 2 ^ 31 <=? sz then ub
    else if negb ok && (0 <? sz) then ub
    else mret (Some (mk_khlist sz (replicate (Z.to_nat sz) (Some empty_slot)))).

(** The slots and the structure are freed: no slot can be used again. *)
Definition khlist_free (hl : khlist) : khlist := mk_khlist (ksize hl) [].

(** [hl->hash_t[npos]] *)
Definition slot_at (hl : khlist) (npos : Z) : outcome slot :=
  match hash_t hl !! Z.to_nat npos with Some (Some s) => Ret s | _ => UB end.

Definition put_slot (hl : khlist) (npos : Z) (s : slot) : khlist :=
  mk_khlist (ksize hl) (<[Z.to_nat npos := Some s]> (hash_t hl)).

(** The search loop that [khlist_get], [khlist_set] and [khlist_del] share. *)
Fixpoint probe (fuel : nat) (hl : khlist) (ha hb hash_start npos : Z) : outcome probe_end :=
  match fuel with
  | O => Hang
  | S fuel =>
      s ← slot_at hl npos;
      if exist s =? 1 then
        if (hasha s =? ha) && (hashb s =? hb) then Ret (Found npos)
        else
          let npos := u32 (npos + 1) mod ksize hl in
          if npos =? hash_start then Ret Wrapped
          else probe fuel hl ha hb hash_start npos
      else Ret (Free npos)
  end.

(** The start of the three operations: the hashes of the key, the start of the
    search, and its end. *)
Definition search (hl : khlist) (str : list byte) : outcome (probe_end * Z * Z) :=
  hash ← _hash_string tbl str HASH_OFFSET;
  ha ← _hash_string tbl str HASH_A;
  hb ← _hash_string tbl str HASH_B;
  if ksize hl =? 0 then UB
  else
    let hash_start := hash mod ksize hl in
    p ← probe (Z.to_nat (ksize hl)) hl ha hb hash_start hash_start;
    Ret (p, ha, hb).

(** The position, and the data stored in [*pud]. *)
Definition khlist_get (hl : khlist) (str : list byte) : outcome (Z * option Z) :=
  '(p, _, _) ← search hl str;
  match p with
  | Found npos => s ← slot_at hl npos; Ret (npos, Some (ud s))
  | _ => Ret (NOPOS, None)
  end.

(** Twice the slots; the old ones keep their positions, the new ones are
    uninitialised. *)
Definition _expand (hl : khlist) : M E (option khlist) :=
  let newsize := u32 (ksize hl * 2) in
  ok ← sys (malloc_ok (newsize * 24));
  if negb ok then mret None
  else if (2 ^ 31 <=? ksize hl) || (newsize <? ksize hl) then ub
  else mret (Some (mk_khlist newsize
                     (hash_t hl ++ replicate (Z.to_nat newsize - length (hash_t hl)) None))).

Fixpoint khlist_set (fuel : nat) (hl : khlist) (str : list byte) (u : Z) : M E (Z * khlist) :=
  match fuel with
  | O => hang
  | S fuel =>
      '(p, ha, hb) ← lift (search hl str);
      match p with
      | Found _ => mret (NOPOS, hl)
      | Free npos => mret (npos, put_slot hl npos (mk_slot ha hb 1 u))
      | Wrapped =>
          hl' ← _expand hl;
          match hl' with
          | None => mret (NOPOS, hl)
          | Some hl' => khlist_set fuel hl' str u
          end
      end
  end.

(** [pud]: is a place for the data given? *)
Definition khlist_del (hl : khlist) (str : list byte) (pud : bool) : outcome (Z * option Z * khlist) :=
  '(p, _, _) ← search hl str;
  match p with
  | Wrapped => Ret (NOPOS, None, hl)
  | Found npos | Free npos =>
      s ← slot_at hl npos;
      if negb pud then UB
      else Ret (npos, Some (ud s), put_slot hl npos (mk_slot (u32 (-1)) (u32 (-1)) 0 0))
  end.

Definition khlist_size (hl : khlist) : Z := ksize hl.

Definition khlist_ud (hl : khlist) (pos : Z) : outcome Z := s ← slot_at hl pos; Ret (ud s).
End khlist.

(** The first entries of the table, and two hashes with known values. *)
Example crypt_table_start :
  take 4 _crypt_table = [0x55C636E2; 0x02BE0170; 0x584B71D4; 0x2984F00E].
Proof. vm_compute. reflexivity. Qed.

Example hash_known :
  _hash_string _crypt_table (str_of "arr\units.dat"%string) HASH_OFFSET = Ret 0xF4E6C69D.
Proof. vm_compute. reflexivity. Qed.

Example hash_known_2 :
  _hash_string _crypt_table (str_of "unit\neutral\acritter.grp"%string) HASH_OFFSET = Ret 0xA26067F3.
Proof. vm_compute. reflexivity. Qed.

(** * Specification *)

(** The contents of the static table, as far as the proofs need them. *)
Definition crypt_ok (tbl : list Z) : Prop := length tbl = 1280%nat ∧ Forall is_u32 tbl.

Lemma toupper_range c : 0 ≤ c < 256 → 0 ≤ toupper c < 256.
Proof. unfold toupper. destruct (_ && _) eqn:?; lia. Qed.

Lemma hash_loop_total tbl str type seed1 seed2 :
  crypt_ok tbl → 0 ≤ type < 5 → is_u32 seed1 →
  ∃ h, hash_loop tbl str type seed1 seed2 = Ret h ∧ is_u32 h.
Proof.
  intros [Hlen Htbl] Ht. revert seed1 seed2.
  induction str as [|key str IH]; intros seed1 seed2 H1; cbn [hash_loop]; [eauto|].
  pose proof (toupper_range _ (byte_val_range key)) as Hc.
  rewrite (Z.shiftl_mul_pow2 type 8), (u32_id (type * _)), u32_id by (unfold is_u32; lia).
  destruct (tbl !! _) as [t|] eqn:Hlook; [|apply lookup_ge_None in Hlook; lia].
  apply IH. apply lxor_u32; [|apply u32_range].
  rewrite Forall_forall in Htbl. apply Htbl, list_elem_of_lookup. eauto.
Qed.

Lemma hash_total tbl str type :
  crypt_ok tbl → 0 ≤ type < 5 → ∃ h, _hash_string tbl str type = Ret h ∧ is_u32 h.
Proof. intros. apply hash_loop_total; [done..|]. unfold is_u32. lia. Qed.

Lemma crypt_table_ok : crypt_ok _crypt_table.
Proof.
  split; [vm_compute; reflexivity|].
  assert (forallb (λ z, (0 <=? z) && (z <? 2 ^ 32)) _crypt_table = true) as H
    by (vm_compute; reflexivity).
  apply Forall_forall. intros z Hz. rewrite forallb_forall in H.
  specialize (H z (proj1 (list_elem_of_In _ _) Hz)). unfold is_u32. lia.
Qed.

(** The hash of a key, as a value. *)
Definition hash_of (tbl : list Z) (str : list byte) (type : Z) : Z :=
  match _hash_string tbl str type with Ret h => h | _ => 0 end.

(** What a table knows of a key. *)
Definition key_of (tbl : list Z) (str : list byte) : Z * Z :=
  (hash_of tbl str HASH_A, hash_of tbl str HASH_B).

Definition skey (s : slot) : Z * Z := (hasha s, hashb s).

Definition wf_hl (hl : khlist) : Prop :=
  0 < ksize hl < 2 ^ 31 ∧ zlen (hash_t hl) = ksize hl ∧ Forall is_Some (hash_t hl).

(** The [j]-th position of a search that starts at [start]. *)
Definition place (n start j : Z) : Z := if start + j <? n then start + j else start + j - n.

Definition holds (hl : khlist) (p : Z) (s : slot) : Prop :=
  0 ≤ p < ksize hl ∧ slot_at hl p = Ret s.
Definition busy (hl : khlist) (p : Z) : Prop := ∃ s, holds hl p s ∧ exist s = 1.
Definition free (hl : khlist) (p : Z) : Prop := ∃ s, holds hl p s ∧ exist s ≠ 1.

(** The table [hl] stands for the map [m] from keys to data: every entry is in
    one slot, reached from the home of its key over busy slots, and every busy
    slot is such an entry. *)
Record repr (home : Z * Z → Z) (hl : khlist) (m : gmap (Z * Z) Z) : Prop := mk_repr {
  repr_wf : wf_hl hl;
  repr_sound p s : holds hl p s → exist s = 1 →
    m !! skey s = Some (ud s) ∧
    ∃ j, 0 ≤ j < ksize hl ∧ p = place (ksize hl) (home (skey s) mod ksize hl) j ∧
      ∀ i, 0 ≤ i < j → busy hl (place (ksize hl) (home (skey s) mod ksize hl) i);
  repr_complete k u : m !! k = Some u → ∃ p s, holds hl p s ∧ exist s = 1 ∧ skey s = k;
  repr_unique p q s t : holds hl p s → holds hl q t → exist s = 1 → exist t = 1 →
    skey s = skey t → p = q;
}.

(** * Lemmas *)

Lemma place_range n start j : 0 ≤ start < n → 0 ≤ j < n → 0 ≤ place n start j < n.
Proof. unfold place. intros. destruct (Z.ltb_spec (start + j) n); lia. Qed.

Lemma place_next n start j :
  n < 2 ^ 32 → 0 ≤ start < n → 0 ≤ j < n →
  u32 (place n start j + 1) mod n = place n start (j + 1).
Proof.
  intros Hn Hs Hj. pose proof (place_range n start j Hs Hj).
  rewrite u32_id by (unfold is_u32; lia). unfold place in *.
  destruct (Z.ltb_spec (start + j) n), (Z.ltb_spec (start + (j + 1)) n); try lia.
  - rewrite Z.mod_small; lia.
  - replace (start + j + 1) with n by lia. rewrite Z.mod_same by lia. lia.
  - rewrite Z.mod_small; lia.
Qed.

Lemma place_start n start j : 0 ≤ start < n → 0 < j ≤ n → place n start j = start ↔ j = n.
Proof. unfold place. intros. destruct (Z.ltb_spec (start + j) n); lia. Qed.

Lemma place_zero n start : 0 ≤ start < n → place n start 0 = start.
Proof. unfold place. intros. destruct (Z.ltb_spec (start + 0) n); lia. Qed.

Lemma place_one n p : n < 2 ^ 32 → 0 ≤ p < n → place n p 1 = u32 (p + 1) mod n.
Proof. intros. change 1 with (0 + 1) at 1. by rewrite <- place_next, place_zero by lia. Qed.

Lemma place_inj n start i j :
  0 ≤ start < n → 0 ≤ i < n → 0 ≤ j < n → place n start i = place n start j → i = j.
Proof.
  unfold place. intros. destruct (Z.ltb_spec (start + i) n), (Z.ltb_spec (start + j) n); lia.
Qed.

(** A search of all places comes by every position. *)
Lemma place_cover n start p : 0 ≤ start < n → 0 ≤ p < n → ∃ j, 0 ≤ j < n ∧ place n start j = p.
Proof.
  intros. exists (if start <=? p then p - start else p - start + n). unfold place.
  destruct (Z.leb_spec start p); [destruct (Z.ltb_spec (start + (p - start)) n)|
    destruct (Z.ltb_spec (start + (p - start + n)) n)]; lia.
Qed.

Lemma slot_defined hl p : wf_hl hl → 0 ≤ p < ksize hl → ∃ s, holds hl p s.
Proof.
  intros (_ & Hlen & Hall) Hp. unfold holds, slot_at.
  destruct (hash_t hl !! Z.to_nat p) as [o|] eqn:Hl; [|apply lookup_ge_None in Hl; lia].
  rewrite Forall_lookup in Hall. destruct (Hall _ _ Hl) as [s ->]. eauto.
Qed.

Lemma holds_det hl p s t : holds hl p s → holds hl p t → s = t.
Proof. intros [_ Hs] [_ Ht]. congruence. Qed.

Lemma put_wf hl p s : wf_hl hl → wf_hl (put_slot hl p s).
Proof.
  intros (Hn & Hlen & Hall). split; [done|]. cbn. rewrite length_insert. split; [done|].
  apply Forall_insert; eauto.
Qed.

Lemma put_same hl p s : wf_hl hl → 0 ≤ p < ksize hl → holds (put_slot hl p s) p s.
Proof.
  intros (Hn & Hlen & Hall) Hp. split; [done|]. unfold slot_at. cbn.
  by rewrite list_lookup_insert_eq by lia.
Qed.

Lemma put_other hl p q s t :
  0 ≤ p → p ≠ q → holds (put_slot hl p s) q t ↔ holds hl q t.
Proof.
  intros Hp Hpq. unfold holds, slot_at. cbn.
  split; intros [Hq Ht]; (split; [done|]); revert Ht;
    rewrite list_lookup_insert_ne by lia; done.
Qed.

(** How a search ends, and what it passed by. *)
Lemma probe_run fuel hl ha hb start i :
  wf_hl hl → 0 ≤ start < ksize hl → 0 ≤ i < ksize hl → ksize hl - i ≤ Z.of_nat fuel →
  ∃ r k, probe fuel hl ha hb start (place (ksize hl) start i) = Ret r ∧ i ≤ k ≤ ksize hl ∧
    (∀ j, i ≤ j < k → ∃ s, holds hl (place (ksize hl) start j) s ∧ exist s = 1 ∧ skey s ≠ (ha, hb)) ∧
    match r with
    | Found p => k < ksize hl ∧ p = place (ksize hl) start k ∧
                 ∃ s, holds hl p s ∧ exist s = 1 ∧ skey s = (ha, hb)
    | Free p => k < ksize hl ∧ p = place (ksize hl) start k ∧ free hl p
    | Wrapped => k = ksize hl
    end.
Proof.
  intros Hwf Hs. revert i. induction fuel as [|fuel IH]; intros i Hi Hf; [lia|].
  pose proof (place_range _ _ _ Hs Hi) as Hp.
  destruct (slot_defined hl _ Hwf Hp) as [s Hh]. cbn [probe]. rewrite (proj2 Hh).
  cbn [mbind outcome_bind].
  destruct (Z.eqb_spec (exist s) 1) as [He|He].
  2:{ exists (Free (place (ksize hl) start i)), i. split; [done|]. split; [lia|].
      split; [intros; lia|]. split_and!; [lia|done|]. by exists s. }
  destruct ((hasha s =? ha) && (hashb s =? hb)) eqn:Hk.
  { exists (Found (place (ksize hl) start i)), i. split; [done|]. split; [lia|].
    split; [intros; lia|]. split_and!; [lia|done|]. exists s. split_and!; [done..|].
    unfold skey. f_equal; lia. }
  assert (skey s ≠ (ha, hb)) as Hne by (unfold skey; intros [= ? ?]; lia).
  rewrite place_next by (destruct Hwf as [? _]; lia).
  destruct (Z.eqb_spec (place (ksize hl) start (i + 1)) start) as [Hw|Hw].
  - apply place_start in Hw; [|lia..]. exists Wrapped, (ksize hl). split; [done|]. split; [lia|].
    split; [|done]. intros j Hj. replace j with i by lia. eauto.
  - assert (i + 1 ≠ ksize hl) by (intros Hn; apply Hw, place_start; lia).
    destruct (IH (i + 1)) as (r & k & Hrun & Hk' & Hpass & Hr); [lia..|].
    exists r, k. split; [done|]. split; [lia|]. split; [|done].
    intros j Hj. destruct (Z.eq_dec i j) as [<-|]; [eauto|]. apply Hpass. lia.
Qed.

Lemma wrap_range n z : 0 < n → 0 ≤ z mod n < n.
Proof. apply Z.mod_pos_bound. Qed.
#[local] Hint Resolve wrap_range : word.

(** The search of an operation, started at the home of its key. *)
Lemma search_run tbl hl str :
  crypt_ok tbl → wf_hl hl →
  ∃ r k, search tbl hl str = Ret (r, fst (key_of tbl str), snd (key_of tbl str)) ∧
    0 ≤ k ≤ ksize hl ∧
    (∀ j, 0 ≤ j < k → ∃ s, holds hl (place (ksize hl) (hash_of tbl str HASH_OFFSET mod ksize hl) j) s ∧
       exist s = 1 ∧ skey s ≠ key_of tbl str) ∧
    match r with
    | Found p => k < ksize hl ∧ p = place (ksize hl) (hash_of tbl str HASH_OFFSET mod ksize hl) k ∧
                 ∃ s, holds hl p s ∧ exist s = 1 ∧ skey s = key_of tbl str
    | Free p => k < ksize hl ∧ p = place (ksize hl) (hash_of tbl str HASH_OFFSET mod ksize hl) k ∧ free hl p
    | Wrapped => k = ksize hl
    end.
Proof.
  intros Htbl Hwf. assert (Hn := Hwf). destruct Hn as [Hn _].
  destruct (hash_total tbl str HASH_OFFSET) as (h & Hh & _); [done..|].
  destruct (hash_total tbl str HASH_A) as (ha & Ha & _); [done..|].
  destruct (hash_total tbl str HASH_B) as (hb & Hb & _); [done..|].
  unfold key_of, hash_of, search. rewrite Hh, Ha, Hb. cbn [mbind outcome_bind fst snd].
  destruct (Z.eqb_spec (ksize hl) 0); [lia|].
  pose proof (Z.mod_pos_bound h (ksize hl)) as Hs.
  destruct (probe_run (Z.to_nat (ksize hl)) hl ha hb (h mod ksize hl) 0)
    as (r & k & Hrun & Hk & Hpass & Hr); [done|lia..|].
  rewrite place_zero in Hrun by lia. rewrite Hrun. cbn [mbind outcome_bind]. eauto 7.
Qed.

(** A search of a table that stands for [m] decides membership in [m]. *)
Lemma search_decides tbl home hl m str :
  crypt_ok tbl → repr home hl m → home (key_of tbl str) = hash_of tbl str HASH_OFFSET →
  ∃ r k, search tbl hl str = Ret (r, fst (key_of tbl str), snd (key_of tbl str)) ∧
    0 ≤ k ≤ ksize hl ∧
    (∀ j, 0 ≤ j < k → busy hl (place (ksize hl) (home (key_of tbl str) mod ksize hl) j)) ∧
    match r with
    | Found p => ∃ s, holds hl p s ∧ exist s = 1 ∧ skey s = key_of tbl str ∧
                      m !! key_of tbl str = Some (ud s)
    | Free p => m !! key_of tbl str = None ∧ k < ksize hl ∧
                p = place (ksize hl) (home (key_of tbl str) mod ksize hl) k ∧ free hl p
    | Wrapped => m !! key_of tbl str = None ∧ k = ksize hl
    end.
Proof.
  intros Htbl Hr Hhome.
  destruct (search_run tbl hl str) as (r & k & Hrun & Hk & Hpass & Hend);
    [done|apply (repr_wf _ _ _ Hr)|]. rewrite <- Hhome in *.
  exists r, k. split; [done|]. split; [done|].
  split; [intros j Hj; destruct (Hpass j Hj) as (s & ? & ? & _); by exists s|].
  assert ((∃ j, 0 ≤ j < ksize hl ∧ j = k ∧ free hl (place (ksize hl) (home (key_of tbl str) mod ksize hl) k))
          ∨ k = ksize hl → m !! key_of tbl str = None) as Hnone.
  { intros Hend'. apply eq_None_not_Some. intros [u Hu].
    destruct (repr_complete _ _ _ Hr _ _ Hu) as (p & s & Hp & He & Hkey).
    destruct (repr_sound _ _ _ Hr _ _ Hp He) as (_ & j & Hj & Hpj & Hbusy).
    rewrite Hkey in *. destruct (Z.lt_ge_cases j k) as [Hlt|Hge].
    { destruct (Hpass j) as (t & Ht & _ & Hne); [lia|]. rewrite <- Hpj in Ht.
      apply Hne. by rewrite (holds_det _ _ _ _ Ht Hp). }
    destruct Hend' as [(? & ? & -> & t & Ht & Hfree)|]; [|lia].
    destruct (Z.eq_dec j k) as [->|].
    - rewrite <- Hpj in Ht. by rewrite (holds_det _ _ _ _ Ht Hp) in Hfree.
    - destruct (Hbusy k) as (t' & Ht' & He'); [lia|].
      by rewrite (holds_det _ _ _ _ Ht Ht') in Hfree. }
  destruct r as [p|p|].
  - destruct Hend as (_ & _ & s & Hh & He & Hkey). exists s. split_and!; [done..|].
    rewrite <- Hkey. by apply (repr_sound _ _ _ Hr p).
  - destruct Hend as (Hlt & -> & Hfree). split_and!; [|done..]. apply Hnone. left.
    exists k. split_and!; [lia..|done].
  - split; [|done]. apply Hnone. by right.
Qed.

Lemma busy_put hl p q s : 
  wf_hl hl → 0 ≤ p < ksize hl → exist s = 1 → busy hl q → busy (put_slot hl p s) q.
Proof.
  intros Hwf Hp He (t & Ht & Hb). destruct (Z.eq_dec p q) as [<-|Hne].
  - exists s. split; [by apply put_same|done].
  - exists t. split; [apply put_other; [lia|done..]|done].
Qed.

(** A search that passed all places leaves no free one. *)
Lemma all_busy hl start p :
  0 ≤ start < ksize hl → (∀ j, 0 ≤ j < ksize hl → busy hl (place (ksize hl) start j)) → ¬ free hl p.
Proof.
  intros Hstart Hall (s & Hs & He).
  destruct (place_cover (ksize hl) start p) as (j & Hj & <-); [done|apply Hs|].
  destruct (Hall j Hj) as (t & Ht & Het). by rewrite (holds_det _ _ _ _ Hs Ht) in He.
Qed.

(** A new entry at the free slot where its search ends. *)
Lemma put_repr home hl m p k key u :
  repr home hl m → m !! key = None → 0 ≤ k < ksize hl →
  p = place (ksize hl) (home key mod ksize hl) k → free hl p →
  (∀ j, 0 ≤ j < k → busy hl (place (ksize hl) (home key mod ksize hl) j)) →
  repr home (put_slot hl p (mk_slot (fst key) (snd key) 1 u)) (<[key := u]> m).
Proof.
  intros Hr Hnone Hk Hp (f & Hf & Hfree) Hpass. assert (Hwf := repr_wf _ _ _ Hr).
  assert (0 ≤ p < ksize hl) as Hrange by apply Hf.
  set (new := mk_slot (fst key) (snd key) 1 u).
  assert (skey new = key) as Hkey by (by destruct key).
  assert (∀ q t, holds (put_slot hl p new) q t → exist t = 1 →
    (q = p ∧ t = new) ∨ (q ≠ p ∧ holds hl q t ∧ skey t ≠ key)) as Hcases.
  { intros q t Ht He. destruct (Z.eq_dec q p) as [->|Hne].
    - left. split; [done|]. apply (holds_det _ _ _ _ Ht). by apply put_same.
    - right. apply put_other in Ht; [|lia|done]. split_and!; [done..|]. intros Hk'.
      destruct (repr_sound _ _ _ Hr _ _ Ht He) as [Hm _]. congruence. }
  split.
  - by apply put_wf.
  - change (ksize (put_slot hl p new)) with (ksize hl).
    intros q t Ht He. destruct (Hcases q t Ht He) as [[-> ->]|(Hne & Ht' & Hk')].
    + rewrite Hkey, lookup_insert_eq. split; [done|]. exists k. split_and!; [lia..|done|].
      intros i Hi. apply busy_put; [done..|]. by apply Hpass.
    + rewrite lookup_insert_ne by done. destruct (repr_sound _ _ _ Hr _ _ Ht' He) as (Hm & j & Hj & Hq & Hb).
      split; [done|]. exists j. split_and!; [lia..|done|]. intros i Hi. apply busy_put; eauto.
  - intros key' u' Hl. destruct (decide (key' = key)) as [->|Hne].
    + exists p, new. split; [by apply put_same|done].
    + rewrite lookup_insert_ne in Hl by done.
      destruct (repr_complete _ _ _ Hr _ _ Hl) as (q & s & Hq & He & Hs).
      exists q, s. split; [|done]. apply put_other; [apply Hrange| |done].
      intros <-. by rewrite (holds_det _ _ _ _ Hf Hq) in Hfree.
  - intros q1 q2 s t Hs Ht Hes Het Hst.
    destruct (Hcases _ _ Hs Hes) as [[-> ->]|(H1 & Hs' & Hks)],
      (Hcases _ _ Ht Het) as [[-> ->]|(H2 & Ht' & Hkt)]; try done; try congruence.
    by apply (repr_unique _ _ _ Hr _ _ _ _ Hs' Ht').
Qed.

Lemma busy_clear hl p q s :
  wf_hl hl → 0 ≤ p → p ≠ q → busy hl q → busy (put_slot hl p s) q.
Proof. intros Hwf Hp Hne (t & Ht & Hb). exists t. split; [apply put_other|]; done. Qed.

(** The slot of a key whose entry is the last of its cluster can be cleared. *)
Lemma clear_repr home hl m p s c :
  repr home hl m → holds hl p s → exist s = 1 → exist c = 0 →
  free hl (place (ksize hl) p 1) → 
  repr home (put_slot hl p c) (delete (skey s) m).
Proof.
  intros Hr Hs He Hc (f & Hf & Hfree). assert (Hwf := repr_wf _ _ _ Hr).
  assert (0 ≤ p < ksize hl) as Hrange by apply Hs.
  assert (∀ q t, holds (put_slot hl p c) q t → exist t = 1 → q ≠ p ∧ holds hl q t) as Hcases.
  { intros q t Ht Het. destruct (Z.eq_dec q p) as [->|Hne].
    - rewrite (holds_det _ _ _ _ Ht (put_same _ _ _ Hwf Hrange)) in Het. congruence.
    - apply put_other in Ht; [done|lia|done]. }
  split.
  - by apply put_wf.
  - change (ksize (put_slot hl p c)) with (ksize hl). intros q t Ht Het.
    destruct (Hcases q t Ht Het) as [Hne Ht'].
    destruct (repr_sound _ _ _ Hr _ _ Ht' Het) as (Hm & j & Hj & Hq & Hb).
    assert (skey t ≠ skey s) as Hk by (intros Hk; apply Hne; by apply (repr_unique _ _ _ Hr q p t s)).
    rewrite lookup_delete_ne by done. split; [done|]. exists j. split_and!; [lia..|done|].
    intros i Hi. apply busy_clear; [done|lia| |by apply Hb]. intros Hpi.
    assert (i + 1 = j ∨ busy hl (place (ksize hl) p 1)) as [<-|(b & Hb' & Hbe)].
    + destruct (Z.eq_dec (i + 1) j) as [|Hij]; [by left|right].
      replace (place (ksize hl) p 1)
        with (place (ksize hl) (home (skey t) mod ksize hl) (i + 1)); [apply Hb; lia|].
      destruct Hwf as [? _]. rewrite place_one by lia.
      rewrite <- place_next by first [lia|apply Z.mod_pos_bound; lia]. by rewrite <- Hpi.
    + assert (q = place (ksize hl) p 1) as ->.
      { destruct Hwf as [? _]. rewrite place_one by lia.
        rewrite Hq, <- place_next by first [lia|apply Z.mod_pos_bound; lia]. by rewrite <- Hpi. }
      by rewrite (holds_det _ _ _ _ Hf Ht') in Hfree.
    + by rewrite (holds_det _ _ _ _ Hf Hb') in Hfree.
  - intros key u Hl. destruct (decide (key = skey s)) as [->|Hne]; [by rewrite lookup_delete_eq in Hl|].
    rewrite lookup_delete_ne in Hl by done.
    destruct (repr_complete _ _ _ Hr _ _ Hl) as (q & t & Hq & Het & Ht).
    exists q, t. split; [|done]. apply put_other; [lia| |done].
    intros <-. apply Hne. by rewrite <- Ht, (holds_det _ _ _ _ Hs Hq).
  - intros q1 q2 t1 t2 H1 H2 He1 He2 Hk.
    apply Hcases in H1 as [_ H1]; [|done]. apply Hcases in H2 as [_ H2]; [|done].
    by apply (repr_unique _ _ _ Hr _ _ _ _ H1 H2).
Qed.

Lemma create_repr home sz :
  0 < sz < 2 ^ 31 →
  repr home (mk_khlist sz (replicate (Z.to_nat sz) (Some empty_slot))) ∅.
Proof.
  intros Hsz. set (hl := mk_khlist _ _).
  assert (∀ p s, holds hl p s → exist s ≠ 1) as Hempty.
  { intros p s [Hp Hs]. unfold slot_at in Hs. cbn in *.
    rewrite lookup_replicate_2 in Hs by lia. by injection Hs as <-. }
  split.
  - split; [done|]. cbn. rewrite length_replicate. split; [lia|]. apply Forall_replicate. eauto.
  - intros p s Hh He. by apply Hempty in Hh.
  - intros key u Hk. by rewrite lookup_empty in Hk.
  - intros p q s t Hh _ He. by apply Hempty in Hh.
Qed.

(** The search started past the old slots of an expanded table. *)
Lemma probe_stuck fuel hl ha hb start p :
  (∀ q, 0 ≤ q < ksize hl → slot_at hl q = UB ∨ ∃ s, slot_at hl q = Ret s ∧ exist s = 1 ∧ skey s ≠ (ha, hb)) →
  0 ≤ start < ksize hl → 0 ≤ p < ksize hl → ksize hl < 2 ^ 32 →
  slot_at hl (ksize hl - 1) = UB → (start ≤ p) →
  ksize hl - p ≤ Z.of_nat fuel →
  probe fuel hl ha hb start p = UB.
Proof.
  intros Hall Hstart. revert p. induction fuel as [|fuel IH]; intros p Hp Hn Hlast Hsp Hf; [lia|].
  cbn [probe]. destruct (Hall p Hp) as [->|(s & Hs & He & Hk)]; [done|]. rewrite Hs.
  cbn [mbind outcome_bind]. rewrite He. cbn [Z.eqb Pos.eqb].
  assert ((hasha s =? ha) && (hashb s =? hb) = false) as ->.
  { apply not_true_is_false. intros Heq. apply Hk. unfold skey. f_equal; lia. }
  assert (p ≠ ksize hl - 1) by (intros ->; congruence).
  rewrite u32_id, Z.mod_small by (unfold is_u32; lia).
  destruct (Z.eqb_spec (p + 1) start); [lia|]. apply IH; [lia..|done|lia|lia].
Qed.

(** ** A sample table

    [key1] and [key2] have the same home in tables of two and of four slots. *)
Definition key1 : list byte := str_of "two"%string.
Definition key2 : list byte := str_of "b"%string.
Definition key3 : list byte := str_of "three"%string.

Definition home_of (keys : list (list byte)) (k : Z * Z) : Z :=
  match list_find (λ s, key_of _crypt_table s = k) keys with
  | Some (_, s) => hash_of _crypt_table s HASH_OFFSET
  | None => 0
  end.

Definition home3 : Z * Z → Z := home_of [key1; key2; key3].

Definition sample0 (sz : Z) : khlist := mk_khlist sz (replicate (Z.to_nat sz) (Some empty_slot)).
Definition sample1 (sz : Z) : khlist :=
  put_slot (sample0 sz) 1
    (mk_slot (fst (key_of _crypt_table key1)) (snd (key_of _crypt_table key1)) 1 10).
Definition sample2 (sz : Z) : khlist :=
  put_slot (sample1 sz) (2 mod sz)
    (mk_slot (fst (key_of _crypt_table key2)) (snd (key_of _crypt_table key2)) 1 20).

Definition map1 : gmap (Z * Z) Z := {[key_of _crypt_table key1 := 10]}.
Definition map2 : gmap (Z * Z) Z := <[key_of _crypt_table key2 := 20]> map1.

Lemma sample1_repr sz : sz = 2 ∨ sz = 4 → repr home3 (sample1 sz) map1.
Proof.
  intros Hsz. unfold sample1, map1.
  apply (put_repr home3 (sample0 sz) ∅ 1 0); [apply create_repr; lia|done|cbn; lia| | |].
  - destruct Hsz as [-> | ->]; vm_compute; reflexivity.
  - exists empty_slot. destruct Hsz as [-> | ->]; (split; [split; [cbn; lia|done]|done]).
  - intros j Hj. lia.
Qed.

Lemma sample2_repr sz : sz = 2 ∨ sz = 4 → repr home3 (sample2 sz) map2.
Proof.
  intros Hsz. unfold sample2, map2.
  apply (put_repr home3 (sample1 sz) map1 (2 mod sz) 1).
  - by apply sample1_repr.
  - unfold map1. apply lookup_singleton_ne. vm_compute. discriminate.
  - cbn. lia.
  - destruct Hsz as [-> | ->]; vm_compute; reflexivity.
  - exists empty_slot. destruct Hsz as [-> | ->]; (split; [split; [by_computing|vm_compute; reflexivity]|done]).
  - intros j Hj. replace j with 0 by lia.
    exists (mk_slot (fst (key_of _crypt_table key1)) (snd (key_of _crypt_table key1)) 1 10).
    destruct Hsz as [-> | ->]; (split; [split; [vm_compute; by split|vm_compute; reflexivity]|done]).
Qed.

Lemma sample_free p : p = 0 ∨ p = 3 → free (sample2 4) p.
Proof.
  intros Hp. exists empty_slot. destruct Hp as [-> | ->];
    (split; [split; [cbn; lia|vm_compute; reflexivity]|done]).
Qed.

Lemma sample_full p : ¬ free (sample2 2) p.
Proof.
  intros (s & [Hp Hs] & He). cbn in Hp. assert (p = 0 ∨ p = 1) as [-> | ->] by lia;
    vm_compute in Hs; injection Hs as <-; done.
Qed.

(** * Theorems *)

(** C7: a lookup ends and answers like the map the table stands for: a key of
    the map gives the position of its slot and its data, any other key gives
    [(unsigned)-1] and leaves [*pud] alone. *)
Theorem khlist_get_finds tbl home hl m str :
  crypt_ok tbl → repr home hl m → home (key_of tbl str) = hash_of tbl str HASH_OFFSET →
  match m !! key_of tbl str with
  | Some u => ∃ p s, khlist_get tbl hl str = Ret (p, Some u) ∧ holds hl p s ∧
                     exist s = 1 ∧ skey s = key_of tbl str ∧ khlist_ud hl p = Ret u
  | None => khlist_get tbl hl str = Ret (NOPOS, None)
  end.
Proof.
  intros Htbl Hr Hhome. unfold khlist_get, khlist_ud.
  destruct (search_decides tbl home hl m str) as (r & k & -> & _ & _ & Hend); [done..|].
  cbn [mbind outcome_bind]. destruct r as [p|p|].
  - destruct Hend as (s & Hh & He & Hk & ->). exists p, s.
    rewrite (proj2 Hh). cbn [mbind outcome_bind]. done.
  - by destruct Hend as [-> _].
  - by destruct Hend as [-> _].
Qed.

(** C14: with a free slot left, [khlist_set] of a key that is not in the table
    stores it in the slot whose position it returns and the table then stands
    for the map with the new entry; a key that is there already is refused
    with [(unsigned)-1] and the table is unchanged. *)
Theorem khlist_set_inserts {E} `{!Malloc E} tbl home fuel hl m str u (e : E) :
  crypt_ok tbl → repr home hl m → home (key_of tbl str) = hash_of tbl str HASH_OFFSET →
  (∃ p, free hl p) → (0 < fuel)%nat →
  match m !! key_of tbl str with
  | Some _ => khlist_set tbl fuel hl str u e = Ret ((NOPOS, hl), e)
  | None => ∃ p hl', khlist_set tbl fuel hl str u e = Ret ((p, hl'), e) ∧
      free hl p ∧ busy hl' p ∧ khlist_ud hl' p = Ret u ∧ khlist_size hl' = khlist_size hl ∧
      repr home hl' (<[key_of tbl str := u]> m)
  end.
Proof.
  intros Htbl Hr Hhome [f Hf] Hfuel. destruct fuel as [|fuel]; [lia|]. cbn [khlist_set].
  destruct (search_decides tbl home hl m str) as (r & k & -> & Hk & Hpass & Hend); [done..|].
  assert (Hwf := repr_wf _ _ _ Hr). mrun. destruct r as [p|p|].
  - by destruct Hend as (s & _ & _ & _ & ->).
  - destruct Hend as (Hm & Hlt & Hp & Hfree). rewrite Hm. eexists p, _. split; [done|].
    assert (0 ≤ k < ksize hl) as Hk' by lia.
    assert (0 ≤ p < ksize hl) as Hrange by (by destruct Hfree as (? & [? _] & _)).
    set (s := mk_slot _ _ 1 u). assert (holds (put_slot hl p s) p s) as Hh by by apply put_same.
    split_and!; [done|by exists s| |done|].
    + unfold khlist_ud. by rewrite (proj2 Hh).
    + by apply (put_repr home hl m p k).
  - destruct Hend as [_ ->]. exfalso. destruct Hwf as [Hn _]. revert Hf.
    eapply all_busy; [|exact Hpass]. apply Z.mod_pos_bound. lia.
Qed.

(** A table without a free slot does not grow: [_expand] copies the slots
    to twice the room and leaves the new half uninitialised, and the search
    that [khlist_set] then repeats reads it.  Without memory the key is
    refused and the table is unchanged. *)
Theorem khlist_set_full {E} `{!Malloc E} tbl home fuel hl m str u (e : E) :
  crypt_ok tbl → repr home hl m → home (key_of tbl str) = hash_of tbl str HASH_OFFSET →
  m !! key_of tbl str = None → (∀ p, ¬ free hl p) →
  khlist_set tbl (S (S fuel)) hl str u e =
    let '(ok, e') := malloc_ok (ksize hl * 2 * 24) e in
    if (ok : bool) then UB else Ret ((NOPOS, hl), e').
Proof.
  intros Htbl Hr Hhome Hnone Hfull. assert (Hwf := repr_wf _ _ _ Hr).
  destruct Hwf as (Hn & Hlen & _). cbn [khlist_set].
  destruct (search_run tbl hl str) as (r & k & Hrun & Hk & Hpass & Hend); [done..|apply Hr|].
  destruct (search_decides tbl home hl m str) as (r' & k' & Hrun' & _ & _ & Hend'); [done..|].
  rewrite Hrun in Hrun'. injection Hrun' as <-. rewrite Hrun.
  destruct r as [p|p|]; [destruct Hend' as (s & _ & _ & _ & ?); congruence| |subst k].
  { destruct Hend as (_ & _ & Hfree). by apply Hfull in Hfree. }
  unfold _expand. mrun. rewrite u32_id by (unfold is_u32; lia).
  destruct (malloc_ok _ e) as [[] e']; mrun; [|done].
  destruct (Z.leb_spec (2 ^ 31) (ksize hl)), (Z.ltb_spec (ksize hl * 2) (ksize hl)); try lia. mrun.
  set (hl' := mk_khlist _ _).
  assert (∀ q, 0 ≤ q < ksize hl' →
    (q < ksize hl → slot_at hl' q = slot_at hl q) ∧ (ksize hl ≤ q → slot_at hl' q = UB)) as Hslot.
  { intros q Hq. unfold slot_at, hl' in *. cbn in *. split; intros H'.
    - by rewrite lookup_app_l by lia.
    - rewrite lookup_app_r by lia. rewrite lookup_replicate_2 by lia. done. }
  destruct (hash_total tbl str HASH_OFFSET) as (h & Hh & ?); [done..|].
  destruct (hash_total tbl str HASH_A) as (ha & Ha & _); [done..|].
  destruct (hash_total tbl str HASH_B) as (hb & Hb & _); [done..|].
  assert (search tbl hl' str = UB) as ->; [|done].
  unfold search. rewrite Hh, Ha, Hb. cbn [mbind outcome_bind].
  change (ksize hl') with (ksize hl * 2) in *.
  destruct (Z.eqb_spec (ksize hl * 2) 0); [lia|].
  pose proof (Z.mod_pos_bound h (ksize hl * 2)).
  rewrite probe_stuck; [done| |change (ksize hl') with (ksize hl * 2); try lia..].
  - intros q Hq. change (ksize hl') with (ksize hl * 2) in Hq.
    destruct (Hslot q Hq) as [Hlow Hhigh]. destruct (Z.lt_ge_cases q (ksize hl)); [right|left; auto].
    rewrite Hlow by done.
    destruct (place_cover (ksize hl) (hash_of tbl str HASH_OFFSET mod ksize hl) q) as (j & Hj & <-);
      [apply Z.mod_pos_bound; lia|lia|].
    destruct (Hpass j Hj) as (s & Hs & He & Hne). exists s. split; [apply Hs|]. split; [done|].
    intros Heq. apply Hne. rewrite Heq. unfold key_of, hash_of. by rewrite Ha, Hb.
  - apply Hslot; lia.
Qed.

(** C35: a deletion of a key whose entry is followed by a free slot returns the
    key's position and data, and the table then stands for the map without
    the key. *)
Theorem khlist_del_last tbl home hl m str p u :
  crypt_ok tbl → repr home hl m → home (key_of tbl str) = hash_of tbl str HASH_OFFSET →
  khlist_get tbl hl str = Ret (p, Some u) → free hl (place (ksize hl) p 1) →
  ∃ hl', khlist_del tbl hl str true = Ret (p, Some u, hl') ∧
    khlist_size hl' = khlist_size hl ∧ repr home hl' (delete (key_of tbl str) m).
Proof.
  intros Htbl Hr Hhome Hget Hfree. unfold khlist_get in Hget. unfold khlist_del.
  destruct (search_decides tbl home hl m str) as (r & k & Hrun & _ & _ & Hend); [done..|].
  rewrite Hrun in *. cbn [mbind outcome_bind] in *. destruct r as [q|q|]; [|done..].
  destruct Hend as (s & Hh & He & Hk & Hm). rewrite (proj2 Hh) in *.
  cbn [mbind outcome_bind negb] in *. injection Hget as <- <-. eexists. split; [done|].
  split; [done|]. rewrite <- Hk. by apply clear_repr.
Qed.

(** Deleting an entry loses the entries whose search passed by its slot:
    their data stays in the table and a lookup no longer finds it. *)
Theorem khlist_del_orphans tbl home hl m str str' p u p' u' :
  crypt_ok tbl → repr home hl m →
  home (key_of tbl str) = hash_of tbl str HASH_OFFSET →
  home (key_of tbl str') = hash_of tbl str' HASH_OFFSET →
  khlist_get tbl hl str = Ret (p, Some u) → khlist_get tbl hl str' = Ret (p', Some u') →
  (∃ i j, 0 ≤ i < j ∧ j < ksize hl ∧ p = place (ksize hl) (hash_of tbl str' HASH_OFFSET mod ksize hl) i ∧
          p' = place (ksize hl) (hash_of tbl str' HASH_OFFSET mod ksize hl) j) →
  ∃ hl', khlist_del tbl hl str true = Ret (p, Some u, hl') ∧
    khlist_get tbl hl' str' = Ret (NOPOS, None) ∧ khlist_ud hl' p' = Ret u'.
Proof.
  intros Htbl Hr Hhome Hhome' Hget Hget' (i & j & Hi & Hj & Hp & Hp').
  assert (Hwf := repr_wf _ _ _ Hr). assert (0 < ksize hl) by apply Hwf.
  pose proof (Z.mod_pos_bound (hash_of tbl str' HASH_OFFSET) (ksize hl)) as Hst.
  unfold khlist_get in Hget. unfold khlist_del.
  destruct (search_decides tbl home hl m str) as (r & k & Hrun & _ & _ & Hend); [done..|].
  rewrite Hrun in *. cbn [mbind outcome_bind] in *. destruct r as [q|q|]; [|done..].
  destruct Hend as (s & Hh & He & Hk & Hm). rewrite (proj2 Hh) in *.
  cbn [mbind outcome_bind negb] in *. injection Hget as -> <-.
  set (hl' := put_slot hl p _). exists hl'. split; [done|].
  assert (p' ≠ p) as Hne.
  { intros Heq. rewrite Hp, Hp' in Heq. apply place_inj in Heq; lia. }
  unfold khlist_get in Hget'. unfold khlist_ud.
  destruct (search_run tbl hl str') as (r' & k' & Hrun' & Hk' & Hpass' & Hend'); [done..|].
  rewrite Hrun' in Hget'. cbn [mbind outcome_bind] in Hget'. destruct r' as [q'|q'|]; [|done..].
  destruct Hend' as (Hlt & Hq' & t & Ht & Het & Hkt). rewrite (proj2 Ht) in Hget'.
  cbn [mbind outcome_bind] in Hget'. injection Hget' as -> <-.
  assert (holds hl' p' t) as Ht' by (apply put_other; [apply Hh|done..]).
  split; [|by rewrite (proj2 Ht')].
  assert (k' = j) as -> by (rewrite Hp' in Hq'; apply place_inj in Hq'; lia).
  destruct (search_run tbl hl' str') as (r2 & k2 & Hrun2 & Hk2 & Hpass2 & Hend2);
    [done|by apply put_wf|].
  change (ksize hl') with (ksize hl) in *. unfold khlist_get. rewrite Hrun2.
  cbn [mbind outcome_bind]. destruct r2 as [q2|q2|]; [exfalso|done..].
  destruct Hend2 as (Hlt2 & Hq2 & t2 & Ht2 & Het2 & Hkt2).
  assert (∀ t3, holds hl' p t3 → exist t3 = 0) as Hclear.
  { intros t3 H3. rewrite (holds_det _ _ _ _ H3 (put_same _ _ _ Hwf (proj1 Hh))). done. }
  destruct (Z.lt_trichotomy k2 i) as [Hlt3|[->|Hgt]].
  - destruct (Hpass' k2) as (t4 & Ht4 & _ & Hne4); [lia|].
    rewrite <- Hq2 in Ht4. apply Hne4. rewrite <- Hkt2. f_equal.
    apply (holds_det hl' q2); [|done]. apply put_other; [apply Hh| |done].
    intros Heq. rewrite Hp, Hq2 in Heq. apply place_inj in Heq; lia.
  - rewrite <- Hp in Hq2. subst q2. rewrite Hclear in Het2; done.
  - destruct (Hpass2 i) as (t4 & Ht4 & He4 & _); [lia|]. rewrite <- Hp in Ht4.
    rewrite Hclear in He4; done.
Qed.

(** A deletion of a key that is not in the table, when a free slot ends
    its search, does not answer [(unsigned)-1] but the position of that slot;
    the table keeps its entries. *)
Theorem khlist_del_absent tbl home hl m str :
  crypt_ok tbl → repr home hl m → home (key_of tbl str) = hash_of tbl str HASH_OFFSET →
  m !! key_of tbl str = None → (∃ p, free hl p) →
  ∃ p v hl', khlist_del tbl hl str true = Ret (p, Some v, hl') ∧ p ≠ NOPOS ∧ free hl p ∧
    (∀ q, busy hl q ↔ busy hl' q) ∧ khlist_del tbl hl str false = UB.
Proof.
  intros Htbl Hr Hhome Hnone [f Hf]. assert (Hwf := repr_wf _ _ _ Hr). unfold khlist_del.
  destruct (search_decides tbl home hl m str) as (r & k & -> & Hk & Hpass & Hend); [done..|].
  cbn [mbind outcome_bind]. destruct r as [p|p|].
  - destruct Hend as (s & _ & _ & _ & ?). congruence.
  - destruct Hend as (_ & Hlt & Hp & s & Hs & He). rewrite (proj2 Hs). cbn [mbind outcome_bind negb].
    eexists p, _, _. split; [done|]. assert (Hs' := Hs). destruct Hs' as [Hrange _].
    split_and!; [|by exists s| |done].
    + destruct Hwf as [? _]. change NOPOS with (2 ^ 32 - 1). lia.
    + intros q. split.
      * intros (t & Ht & Het). apply busy_clear; [done|lia| |by exists t].
        intros <-. by rewrite (holds_det _ _ _ _ Hs Ht) in He.
      * intros (t & Ht & Het). destruct (Z.eq_dec p q) as [<-|Hne].
        { by rewrite (holds_det _ _ _ _ Ht (put_same _ _ _ Hwf Hrange)) in Het. }
        apply put_other in Ht; [by exists t|lia|done].
  - destruct Hend as [_ ->]. exfalso. destruct Hwf as [Hn _]. revert Hf.
    eapply all_busy; [|exact Hpass]. apply Z.mod_pos_bound. lia.
Qed.

(** * Witnesses *)

Lemma khlist_get_finds_witness :
  match map2 !! key_of _crypt_table key2 with
  | Some u => ∃ p s, khlist_get _crypt_table (sample2 4) key2 = Ret (p, Some u) ∧
      holds (sample2 4) p s ∧ exist s = 1 ∧ skey s = key_of _crypt_table key2 ∧
      khlist_ud (sample2 4) p = Ret u
  | None => khlist_get _crypt_table (sample2 4) key2 = Ret (NOPOS, None)
  end.
Proof.
  apply (khlist_get_finds _crypt_table home3 (sample2 4) map2 key2);
    [apply crypt_table_ok|apply sample2_repr; by right|vm_compute; reflexivity].
Defined.

Lemma khlist_set_inserts_witness :
  match map2 !! key_of _crypt_table key3 with
  | Some _ => khlist_set _crypt_table 1 (sample2 4) key3 30 tt = Ret ((NOPOS, sample2 4), tt)
  | None => ∃ p hl', khlist_set _crypt_table 1 (sample2 4) key3 30 tt = Ret ((p, hl'), tt) ∧
      free (sample2 4) p ∧ busy hl' p ∧ khlist_ud hl' p = Ret 30 ∧
      khlist_size hl' = khlist_size (sample2 4) ∧
      repr home3 hl' (<[key_of _crypt_table key3 := 30]> map2)
  end.
Proof.
  apply (khlist_set_inserts _crypt_table home3 1 (sample2 4) map2 key3 30 tt);
    [apply crypt_table_ok|apply sample2_repr; by right|vm_compute; reflexivity| |lia].
  exists 3. apply sample_free. by right.
Defined.

Lemma khlist_set_full_witness :
  khlist_set _crypt_table 2 (sample2 2) key3 30 tt = UB.
Proof.
  rewrite (khlist_set_full _crypt_table home3 0 (sample2 2) map2 key3 30 tt);
    [reflexivity|apply crypt_table_ok|apply sample2_repr; by left|vm_compute; reflexivity..|apply sample_full].
Defined.

Lemma khlist_del_last_witness :
  ∃ hl', khlist_del _crypt_table (sample2 4) key2 true = Ret (2, Some 20, hl') ∧
    khlist_size hl' = khlist_size (sample2 4) ∧ repr home3 hl' (delete (key_of _crypt_table key2) map2).
Proof.
  apply (khlist_del_last _crypt_table home3 (sample2 4) map2 key2 2 20);
    [apply crypt_table_ok|apply sample2_repr; by right|vm_compute; reflexivity..|].
  apply sample_free. by right.
Defined.

Lemma khlist_del_orphans_witness :
  ∃ hl', khlist_del _crypt_table (sample2 4) key1 true = Ret (1, Some 10, hl') ∧
    khlist_get _crypt_table hl' key2 = Ret (NOPOS, None) ∧ khlist_ud hl' 2 = Ret 20.
Proof.
  apply (khlist_del_orphans _crypt_table home3 (sample2 4) map2 key1 key2 1 10 2 20);
    [apply crypt_table_ok|apply sample2_repr; by right|vm_compute; reflexivity..|].
  exists 0, 1. split; [lia|]. split; [cbn; lia|]. vm_compute. by split.
Defined.

Lemma khlist_del_absent_witness :
  ∃ p v hl', khlist_del _crypt_table (sample2 4) key3 true = Ret (p, Some v, hl') ∧
    p ≠ NOPOS ∧ free (sample2 4) p ∧ (∀ q, busy (sample2 4) q ↔ busy hl' q) ∧
    khlist_del _crypt_table (sample2 4) key3 false = UB.
Proof.
  apply (khlist_del_absent _crypt_table home3 (sample2 4) map2 key3);
    [apply crypt_table_ok|apply sample2_repr; by right|vm_compute; reflexivity..|].
  exists 3. apply sample_free. by right.
Defined.
