(* ===== verification/Eventpoll.v ===== *)
(** * The poll ([epoll.c], [eventpoll.h])

    The registrations of events with epoll.  The library is built with
    [epoll_create1]. *)
From stdpp Require Import strings.
From S2P Require Import Prelude Alloc Sys Log Event Host.

Definition MAX_POLL_EVENT : Z := 256.
Definition DEFAULT_POLL_MASK : Z := Z.lor (Z.lor EPOLLHUP EPOLLERR) EPOLLET.

(** [struct _eventpoll], but for [disp], which is a parameter of the operation
    that calls it; [wakev] is the address of the event it embeds. *)
Record eventpoll_t := mk_eventpoll { pollfd : Z; wakev : positive; poll_ud : Z }.

Section eventpoll.
Context {E : Type} `{!Malloc E, !Errno E, !Events E, !Logger E, !IoOps E, !FdOps E, !EpollOps E}.

Definition warn_errno (text : list byte) : M E unit :=
  e ← errno; log_warn (text ++ strerror (E:=E) e ++ [x0a]).

Definition wake_cb_run (ev : positive) : M E unit :=
  e ← get_event ev;
  '(n, _) ← sys (sys_read (ev_fd e) 8);
  if negb (n =? 8) then warn_errno (str_of "wake_cb read error: ") else mret tt.

(** The errors after [poll] was allocated. *)
Definition eventpoll_fail (pollfd wakeupfd : Z) (poll : positive) : M E (option eventpoll_t) :=
  _ ← (if negb (pollfd =? 0) then sys (sys_close pollfd) else mret 0);
  _ ← (if negb (wakeupfd =? -1) then sys (sys_close wakeupfd) else mret 0);
  event_free poll;;
  mret None.

Definition eventpoll_new (ud : Z) : M E (option eventpoll_t) :=
  ok ← sys (malloc_ok 64);
  if negb ok then mret None
  else
    poll ← new_event;
    pollfd ← sys (sys_epoll_create1 EPOLL_CLOEXEC);
    if pollfd =? -1 then eventpoll_fail pollfd (-1) poll
    else
      wakeupfd ← sys (sys_eventfd 0 (Z.lor EFD_CLOEXEC EFD_NONBLOCK));
      if wakeupfd =? -1 then eventpoll_fail pollfd wakeupfd poll
      else
        event_init poll wakeupfd EVMASK_READ (Some wake_cb) 0;;
        _ ← sys (sys_epoll_ctl pollfd EPOLL_CTL_ADD wakeupfd
                   (Some (Z.lor EPOLLIN DEFAULT_POLL_MASK, poll)));
        mret (Some (mk_eventpoll pollfd poll ud)).

Definition eventpoll_free (poll : eventpoll_t) : M E unit :=
  _ ← sys (sys_close (pollfd poll));
  wake ← get_event (wakev poll);
  _ ← sys (sys_close (ev_fd wake));
  event_free (wakev poll).

(** The [switch] of [eventpoll_apply]; [newmask] is an [int]. *)
Definition newmask_of (mask : Z) : Z :=
  let m := Z.land mask (Z.lor EVMASK_READ EVMASK_WRITE) in
  if m =? Z.lor EVMASK_READ EVMASK_WRITE then i32 (Z.lor (Z.lor EPOLLIN EPOLLOUT) DEFAULT_POLL_MASK)
  else if m =? EVMASK_READ then i32 (Z.lor EPOLLIN DEFAULT_POLL_MASK)
  else if m =? EVMASK_WRITE then i32 (Z.lor EPOLLOUT DEFAULT_POLL_MASK)
  else 0.

Definition eventpoll_apply (poll : eventpoll_t) (ev : positive) : M E Z :=
  e ← get_event ev;
  let newmask := newmask_of (ev_mask e) in
  if newmask =? ev_last_mask e then mret 0
  else if newmask =? 0 then
    ret ← sys (sys_epoll_ctl (pollfd poll) EPOLL_CTL_DEL (ev_fd e) None);
    err ← errno;
    mret (if (ret <? 0) && (err =? ENOENT) then 0 else ret)
  else
    let op := if negb (ev_last_mask e =? 0) then EPOLL_CTL_MOD else EPOLL_CTL_ADD in
    let evt := Some (u32 newmask, ev) in
    upd_event ev (ev_set_last_mask newmask);;
    ret ← sys (sys_epoll_ctl (pollfd poll) op (ev_fd e) evt);
    err ← errno;
    if (ret =? -1) && (err =? EEXIST) && (op =? EPOLL_CTL_ADD)
    then sys (sys_epoll_ctl (pollfd poll) EPOLL_CTL_MOD (ev_fd e) evt)
    else mret ret.

Definition eventpoll_wakeup (poll : eventpoll_t) : M E unit :=
  wake ← get_event (wakev poll);
  n ← sys (sys_write (ev_fd wake) (cells [x01; x00; x00; x00; x00; x00; x00; x00]));
  if negb (n =? 8) then warn_errno (str_of "wakeup write error: ") else mret tt.

(** The [switch] of [eventpoll_poll]. *)
Definition mask_of (events : Z) : Z :=
  let m := Z.land events (Z.lor (Z.lor (Z.lor EPOLLIN EPOLLOUT) EPOLLERR) EPOLLHUP) in
  if m =? EPOLLIN then EVMASK_READ
  else if m =? EPOLLOUT then EVMASK_WRITE
  else if m =? Z.lor EPOLLIN EPOLLOUT then Z.lor EVMASK_READ EVMASK_WRITE
  else EVMASK_ERROR.

Section poll.
Variable disp : eventpoll_t → positive → Z → M E unit.

Fixpoint poll_loop (poll : eventpoll_t) (evt : list (Z * positive)) : M E unit :=
  match evt with
  | [] => mret tt
  | (events, ev) :: evt =>
      let mask := mask_of events in
      upd_event ev (ev_set_last_mask (i32 DEFAULT_POLL_MASK));;
      upd_event ev (ev_set_mask mask);;
      disp poll ev (poll_ud poll);;
      poll_loop poll evt
  end.

Definition eventpoll_poll (poll : eventpoll_t) : M E Z :=
  '(n, evt) ← sys (sys_epoll_wait (pollfd poll) MAX_POLL_EVENT (-1));
  poll_loop poll (take (Z.to_nat n) evt);;
  mret n.
End poll.
End eventpoll.

(** * Specification *)

(** The events and the registrations are apart in the environment. *)
Class EventpollFrame (E : Type) `{!Malloc E, !Errno E, !Events E, !EpollOps E}
    (interest : E → gmap Z (Z * positive)) := {
  interest_events m e : interest (put_events m e) = interest e;
  ctl_events epfd op fd evt e : events (snd (sys_epoll_ctl epfd op fd evt e)) = events e;
  wait_events epfd max t e : events (snd (sys_epoll_wait epfd max t e)) = events e;
}.

#[export] Instance host_frame : EventpollFrame host h_interest.
Proof.
  split; [done|..].
  - intros. cbn. by destruct (ctl_effect _ _ _ _).
  - intros. cbn. destruct (h_ready e) as [|l r]; [done|]. by destruct (_ && _).
Qed.

Definition wants (mask : Z) : bool := negb (Z.land mask (Z.lor EVMASK_READ EVMASK_WRITE) =? 0).

(** * Lemmas *)

(** A mask matters by its two lowest bits. *)
Lemma land3_cases mask :
  Z.land mask 3 = 0 ∨ Z.land mask 3 = 1 ∨ Z.land mask 3 = 2 ∨ Z.land mask 3 = 3.
Proof.
  assert (Z.land mask 3 = mask mod 4) as -> by (by apply (Z.land_ones mask 2)).
  pose proof (Z.mod_pos_bound mask 4). lia.
Qed.

Lemma newmask_wants mask :
  (wants mask = false ∧ newmask_of mask = 0) ∨
  (wants mask = true ∧ newmask_of mask ≠ 0 ∧ newmask_of mask ≠ i32 DEFAULT_POLL_MASK ∧
   mask_of (Z.land (u32 (newmask_of mask)) (Z.lor EPOLLIN EPOLLOUT)) = Z.land mask 3).
Proof.
  unfold wants, newmask_of. change (Z.lor EVMASK_READ EVMASK_WRITE) with 3.
  destruct (land3_cases mask) as [H|[H|[H|H]]]; rewrite H; vm_compute; [left|right..];
    split_and!; done.
Qed.

Section apply_lemmas.
Context {E : Type} `{!Malloc E, !Errno E, !Events E, !EventsLaws E, !EpollOps E}.
Context (poll : eventpoll_t) (interest : E → gmap Z (Z * positive)).
Context `{!EpollLaws E (pollfd poll) interest, !EventpollFrame E interest}.

(** A call of [epoll_ctl], by its result. *)
Lemma ctl_cases op fd evt (e : E) :
  ∃ r e', sys_epoll_ctl (pollfd poll) op fd evt e = (r, e') ∧ events e' = events e ∧
    ((r = 0 ∧ ctl_effect op fd evt (interest e) = Some (interest e')) ∨
     (r = -1 ∧ interest e' = interest e ∧
      (get_errno e' = EEXIST ↔ op = EPOLL_CTL_ADD ∧ is_Some (interest e !! fd)) ∧
      (get_errno e' = ENOENT ↔ op ≠ EPOLL_CTL_ADD ∧ interest e !! fd = None))).
Proof.
  pose proof (ctl_events (pollfd poll) op fd evt e) as Hev.
  destruct (sys_epoll_ctl (pollfd poll) op fd evt e) as [r e'] eqn:Hctl.
  exists r, e'. split; [done|]. split; [done|]. by apply (ctl_law op fd evt e r e').
Qed.

(** [EPOLL_CTL_MOD]. *)
Lemma mod_cases fd evt (e : E) :
  ∃ r e', sys_epoll_ctl (pollfd poll) EPOLL_CTL_MOD fd (Some evt) e = (r, e') ∧
    events e' = events e ∧
    ((r = 0 ∧ is_Some (interest e !! fd) ∧ interest e' = <[fd := evt]> (interest e)) ∨
     (r = -1 ∧ interest e' = interest e ∧ get_errno e' ≠ EEXIST ∧
      (get_errno e' = ENOENT ↔ interest e !! fd = None))).
Proof.
  destruct (ctl_cases EPOLL_CTL_MOD fd (Some evt) e) as (r & e' & Hctl & Hev & Hcase).
  exists r, e'. split; [done|]. split; [done|].
  destruct Hcase as [[-> Heff]|(-> & Hi & Hex & Hno)]; [left|right].
  - cbn in Heff. destruct (interest e !! fd) eqn:Hl; [|done]. injection Heff as <-. eauto.
  - split_and!; [done..| |].
    + rewrite Hex. by intros [? _].
    + rewrite Hno. split; [by intros [_ ?]|done].
Qed.

Lemma apply_skip ev e (s : E) :
  events s !! ev = Some e → newmask_of (ev_mask e) = ev_last_mask e →
  eventpoll_apply poll ev s = Ret (0, s).
Proof.
  intros He Hm. unfold eventpoll_apply. autorewrite with run. rewrite (get_event_run _ e) by done.
  rewrite Hm, Z.eqb_refl. done.
Qed.

(** Turning an event off. *)
Lemma apply_off ev e (s : E) :
  events s !! ev = Some e → newmask_of (ev_mask e) = 0 → ev_last_mask e ≠ 0 →
  ∃ r s', eventpoll_apply poll ev s = Ret (r, s') ∧ events s' = events s ∧
    ((r = 0 ∧ interest s' = delete (ev_fd e) (interest s)) ∨
     (r = -1 ∧ interest s' = interest s ∧ is_Some (interest s !! ev_fd e))).
Proof.
  intros He Hm Hl. unfold eventpoll_apply, errno. autorewrite with run. rewrite (get_event_run _ e) by done.
  rewrite Hm. destruct (Z.eqb_spec 0 (ev_last_mask e)); [lia|]. mrun.
  destruct (ctl_cases EPOLL_CTL_DEL (ev_fd e) None s) as (r & s' & -> & Hev & Hcase). mrun.
  eexists _, s'. split; [done|]. split; [done|].
  destruct Hcase as [[-> Heff]|(-> & Hi & _ & Hno)].
  - left. split; [done|]. cbn in Heff. destruct (interest s !! ev_fd e) eqn:?; [by injection Heff|done].
  - cbn [Z.ltb Z.compare andb]. destruct (Z.eqb_spec (get_errno s') ENOENT) as [Heq|Heq].
    + left. split; [done|]. apply Hno in Heq as [_ Heq]. by rewrite Hi, delete_id.
    + right. split_and!; [done..|]. destruct (interest s !! ev_fd e) eqn:Hs; [done|].
      exfalso. apply Heq, Hno. done.
Qed.

(** What is returned is the answer of the last call of [epoll_ctl], for the
    descriptor with its mask and its address, and nothing comes after it. *)
Lemma apply_answer ev e r (s s' : E) :
  events s !! ev = Some e → newmask_of (ev_mask e) ≠ 0 → newmask_of (ev_mask e) ≠ ev_last_mask e →
  eventpoll_apply poll ev s = Ret (r, s') →
  ∃ op s1, sys_epoll_ctl (pollfd poll) op (ev_fd e) (Some (u32 (newmask_of (ev_mask e)), ev)) s1 = (r, s').
Proof.
  intros He Hnz Hl. unfold eventpoll_apply, errno. autorewrite with run. rewrite (get_event_run _ e) by done.
  destruct (Z.eqb_spec (newmask_of (ev_mask e)) (ev_last_mask e)); [done|].
  destruct (Z.eqb_spec (newmask_of (ev_mask e)) 0); [done|]. autorewrite with run.
  rewrite (upd_event_run _ _ e) by done. autorewrite with run.
  destruct (sys_epoll_ctl _ _ _ _ _) as [q s2] eqn:Hctl. autorewrite with run.
  destruct (_ && _); autorewrite with run; [|intros [= <- <-]; eauto].
  destruct (sys_epoll_ctl _ EPOLL_CTL_MOD _ _ s2) as [q3 s3] eqn:Hctl2. autorewrite with run. intros [= <- <-]; eauto.
Qed.

(** Registering an event: the events and the registrations that result. *)
Lemma apply_on ev e (s : E) :
  events s !! ev = Some e → wants (ev_mask e) = true → newmask_of (ev_mask e) ≠ ev_last_mask e →
  ∃ r s', eventpoll_apply poll ev s = Ret (r, s') ∧
    events s' = <[ev := ev_set_last_mask (newmask_of (ev_mask e)) e]> (events s) ∧
    ((r = 0 ∧ interest s' = <[ev_fd e := (u32 (newmask_of (ev_mask e)), ev)]> (interest s) ∧
      (ev_last_mask e = 0 ∨ is_Some (interest s !! ev_fd e))) ∨
     (r = -1 ∧ interest s' = interest s ∧ get_errno s' ≠ EEXIST ∧
      (ev_last_mask e ≠ 0 → (get_errno s' = ENOENT ↔ interest s !! ev_fd e = None)))).
Proof.
  intros He Hw Hl. destruct (newmask_wants (ev_mask e)) as [[? _]|(_ & Hnz & _)]; [congruence|].
  unfold eventpoll_apply, errno. autorewrite with run. rewrite (get_event_run _ e) by done.
  destruct (Z.eqb_spec (newmask_of (ev_mask e)) (ev_last_mask e)); [done|].
  destruct (Z.eqb_spec (newmask_of (ev_mask e)) 0); [done|]. autorewrite with run.
  rewrite (upd_event_run _ _ e) by done.
  set (s1 := put_events _ s).
  assert (events s1 = <[ev := ev_set_last_mask (newmask_of (ev_mask e)) e]> (events s)) as Hs1
    by (unfold s1; by rewrite events_put).
  assert (interest s1 = interest s) as Hi1 by apply interest_events.
  clearbody s1. autorewrite with run.
  destruct (Z.eqb_spec (ev_last_mask e) 0) as [H0|H0]; cbn [negb].
  - destruct (ctl_cases EPOLL_CTL_ADD (ev_fd e) (Some (u32 (newmask_of (ev_mask e)), ev)) s1)
      as (r & s' & -> & Hev & Hcase). mrun. rewrite Hi1 in Hcase.
    destruct Hcase as [[-> Heff]|(-> & Hi & Hex & _)]; mrun.
    { eexists _, s'. split; [done|]. split; [congruence|]. left. split; [done|].
      cbn in Heff. destruct (interest s !! ev_fd e); [done|]. injection Heff as <-. eauto. }
    destruct (Z.eqb_spec (get_errno s') EEXIST) as [Heq|Heq]; mrun.
    + change (EPOLL_CTL_ADD =? EPOLL_CTL_ADD) with true. mrun. destruct (mod_cases (ev_fd e) (u32 (newmask_of (ev_mask e)), ev) s')
        as (r2 & s2 & -> & Hev2 & Hcase2).
      eexists _, s2. split; [done|]. split; [congruence|]. rewrite Hi in Hcase2.
      destruct Hcase2 as [(-> & _ & Hi2)|(-> & Hi2 & Hex2 & _)]; [left|right]; split_and!; auto; congruence.
    + eexists _, s'. split; [done|]. split; [congruence|]. right. split_and!; [done..|lia].
  - destruct (mod_cases (ev_fd e) (u32 (newmask_of (ev_mask e)), ev) s1)
      as (r & s' & -> & Hev & Hcase). mrun. rewrite Hi1 in Hcase.
    exists r, s'. destruct Hcase as [(-> & Hreg & Hi2)|(-> & Hi2 & Hex2 & Hno)]; mrun.
    + split; [done|]. split; [congruence|]. left. auto.
    + rewrite andb_false_r. split; [done|]. split; [congruence|]. right. auto.
Qed.
End apply_lemmas.

Section poll_lemmas.
Context {E : Type} `{!Malloc E, !Errno E, !Events E, !EventsLaws E, !EpollOps E}.
Context (poll : eventpoll_t) (disp : eventpoll_t → positive → Z → M E unit).
Context (trace : E → list (positive * Z)).

(** A dispatch function that records the events it is called for, and the
    mask it finds in them, and leaves the events alone. *)
Definition records : Prop :=
  (∀ m e, trace (put_events m e) = trace e) ∧
  ∀ a ev e, events e !! a = Some ev →
    ∃ e', disp poll a (poll_ud poll) e = Ret (tt, e') ∧ events e' = events e ∧
          trace e' = trace e ++ [(a, ev_mask ev)].

Lemma poll_loop_run l (s : E) :
  records → Forall (λ x, is_Some (events s !! snd x)) l →
  ∃ s', poll_loop disp poll l s = Ret (tt, s') ∧
    trace s' = trace s ++ map (λ x, (snd x, mask_of (fst x))) l ∧
    (∀ a ev, events s !! a = Some ev → ∃ ev', events s' !! a = Some ev' ∧
       (a ∉ map snd l → ev' = ev) ∧ (a ∈ map snd l → ev_last_mask ev' = i32 DEFAULT_POLL_MASK) ∧
       ev_fd ev' = ev_fd ev).
Proof.
  intros [Htr Hdisp]. revert s. induction l as [|[x a] l IH]; intros s Hl; cbn [poll_loop].
  { exists s. split; [done|]. cbn. rewrite app_nil_r. split; [done|]. intros a ev Ha.
    exists ev. split_and!; try done. by intros []%not_elem_of_nil. }
  inversion_clear Hl as [|? ? [ev Hev] Hl']. cbn [snd] in Hev. autorewrite with run.
  rewrite (upd_event_run _ _ ev) by done. autorewrite with run.
  rewrite (upd_event_run _ _ (ev_set_last_mask (i32 DEFAULT_POLL_MASK) ev)) by by apply upd_get.
  autorewrite with run events. rewrite insert_insert_eq.
  set (ev1 := ev_set_mask _ _). set (s1 := put_events _ s).
  assert (events s1 = <[a := ev1]> (events s)) as Hs1 by (unfold s1; by rewrite events_put).
  assert (trace s1 = trace s) as Ht1 by apply Htr. clearbody s1.
  destruct (Hdisp a ev1 s1) as (s2 & -> & Hs2 & Ht2); [by rewrite Hs1, lookup_insert_eq|].
  destruct (IH s2) as (s3 & -> & Ht3 & Hev3).
  { rewrite Hs2, Hs1. eapply Forall_impl; [exact Hl'|]. intros y Hy.
    destruct (decide (a = snd y)) as [<-|Hne]; [by rewrite lookup_insert_eq|].
    by rewrite lookup_insert_ne. }
  exists s3. split; [done|]. split.
  { rewrite Ht3, Ht2, Ht1, <- app_assoc. done. }
  intros b evb Hb. rewrite Hs2, Hs1 in Hev3. destruct (decide (a = b)) as [<-|Hne].
  - destruct (Hev3 a ev1) as (ev' & H1 & H2 & H3 & H4); [by rewrite lookup_insert_eq|].
    simplify_eq. exists ev'. split; [done|]. split; [|split; [|by rewrite H4]].
    + intros Hn. exfalso. apply Hn. by left.
    + intros _. destruct (decide (a ∈ map snd l)) as [Hin|Hin]; [auto|]. by rewrite H2.
  - destruct (Hev3 b evb) as (ev' & H1 & H2 & H3 & H4); [by rewrite lookup_insert_ne|].
    exists ev'. split; [done|]. split_and!; [|intros Hin|done].
    + intros Hn. apply H2. intros Hin. apply Hn. by right.
    + apply H3. cbn in Hin. by apply elem_of_cons in Hin as [?|?].
Qed.
End poll_lemmas.

(** * Theorems *)

(** C8: an event that wants to read or write is registered with epoll for just
    that: when [eventpoll_apply] returns 0 its descriptor is registered with
    its mask and its address; when it returns -1 epoll refused just that and
    the registrations are as before, but [ev_last_mask] is the new mask all the
    same; and in no case are other descriptors concerned.  [ev_last_mask], the
    mask that the code takes as registered, is assumed to be truthful. *)
Theorem eventpoll_apply_registers {E} `{!Malloc E, !Errno E, !Events E, !EventsLaws E, !EpollOps E}
    (poll : eventpoll_t) interest
    `{!EpollLaws E (pollfd poll) interest, !EventpollFrame E interest} ev e (s : E) :
  events s !! ev = Some e → wants (ev_mask e) = true →
  (ev_last_mask e = newmask_of (ev_mask e) →
     interest s !! ev_fd e = Some (u32 (newmask_of (ev_mask e)), ev)) →
  ∃ r s', eventpoll_apply poll ev s = Ret (r, s') ∧
    events s' = <[ev := ev_set_last_mask (newmask_of (ev_mask e)) e]> (events s) ∧
    (∀ fd, fd ≠ ev_fd e → interest s' !! fd = interest s !! fd) ∧
    ((r = 0 ∧ interest s' !! ev_fd e = Some (u32 (newmask_of (ev_mask e)), ev)) ∨
     (r = -1 ∧ interest s' = interest s ∧ get_errno s' ≠ EEXIST ∧ ∃ op s1,
      sys_epoll_ctl (pollfd poll) op (ev_fd e) (Some (u32 (newmask_of (ev_mask e)), ev)) s1 = (-1, s'))).
Proof.
  intros He Hw Htrue. destruct (Z.eq_dec (ev_last_mask e) (newmask_of (ev_mask e))) as [Heq|Hne].
  - exists 0, s. split; [by eapply apply_skip|]. split; [|split; [done|left; auto]].
    rewrite insert_id; [done|]. rewrite He. destruct e. unfold ev_set_last_mask. cbn in *. by rewrite Heq.
  - destruct (apply_on poll interest ev e s) as (r & s' & Hrun & Hev & Hcase); [done..|].
    exists r, s'. split; [done|]. split; [done|].
    destruct Hcase as [(-> & Hi & _)|(-> & Hi & Hex & _)]; rewrite Hi.
    + split; [intros; by rewrite lookup_insert_ne|left]. by rewrite lookup_insert_eq.
    + split; [done|]. right. split_and!; [done..|]. destruct (newmask_wants (ev_mask e)) as [[? _]|(_ & Hnz & _)]; [congruence|].
      by eapply apply_answer.
Qed.

(** An event that wants nothing any more is taken from epoll; that its
    descriptor was not registered counts as success.  The code keeps
    [ev_last_mask]. *)
Theorem eventpoll_apply_removes {E} `{!Malloc E, !Errno E, !Events E, !EventsLaws E, !EpollOps E}
    (poll : eventpoll_t) interest
    `{!EpollLaws E (pollfd poll) interest, !EventpollFrame E interest} ev e (s : E) :
  events s !! ev = Some e → wants (ev_mask e) = false → ev_last_mask e ≠ 0 →
  ∃ r s', eventpoll_apply poll ev s = Ret (r, s') ∧ events s' = events s ∧
    ((r = 0 ∧ interest s' = delete (ev_fd e) (interest s)) ∨
     (r = -1 ∧ interest s' = interest s ∧ is_Some (interest s !! ev_fd e))).
Proof.
  intros He Hw Hl. apply (apply_off poll interest ev e s); [done| |done].
  destruct (newmask_wants (ev_mask e)) as [[_ ?]|[? _]]; congruence.
Qed.

(** An event that was turned off cannot be turned on again: as its
    [ev_last_mask] survives, the same mask is taken for registered and nothing
    is done though 0 is returned, and another mask is modified, not added, and
    fails with [ENOENT].  The descriptor stays unregistered. *)
Theorem eventpoll_reenable_lost {E} `{!Malloc E, !Errno E, !Events E, !EventsLaws E, !EpollOps E}
    (poll : eventpoll_t) interest
    `{!EpollLaws E (pollfd poll) interest, !EventpollFrame E interest} ev e (s s1 : E) m :
  events s !! ev = Some e → wants (ev_mask e) = true →
  ev_last_mask e = newmask_of (ev_mask e) → wants m = true →
  (upd_event ev (ev_set_mask EVMASK_NONE);; eventpoll_apply poll ev) s = Ret (0, s1) →
  interest s1 = delete (ev_fd e) (interest s) ∧
  ∃ r s2, (upd_event ev (ev_set_mask m);; eventpoll_apply poll ev) s1 = Ret (r, s2) ∧
    interest s2 = interest s1 ∧
    (newmask_of m = newmask_of (ev_mask e) → r = 0) ∧
    (newmask_of m ≠ newmask_of (ev_mask e) → r = -1 ∧ get_errno s2 = ENOENT).
Proof.
  intros He Hw Hlast Hm Hoff.
  destruct (newmask_wants (ev_mask e)) as [[? _]|(_ & Hnz & _)]; [congruence|].
  autorewrite with run in Hoff. rewrite (upd_event_run _ _ e) in Hoff by done.
  destruct (apply_off poll interest ev (ev_set_mask EVMASK_NONE e)
      (put_events (<[ev:=ev_set_mask EVMASK_NONE e]> (events s)) s))
    as (r & s' & Hrun & Hev & Hcase);
    [by apply upd_get with (f := ev_set_mask EVMASK_NONE)|done|cbn; congruence|].
  rewrite Hrun in Hoff. injection Hoff as -> ->. rewrite interest_events in Hcase.
  destruct Hcase as [[_ Hi]|[? _]]; [|done]. split; [done|].
  rewrite events_put in Hev. set (e1 := ev_set_mask EVMASK_NONE e) in *.
  assert (events s1 !! ev = Some e1) as He1 by by rewrite Hev, lookup_insert_eq.
  autorewrite with run. rewrite (upd_event_run _ _ e1) by done.
  set (s2 := put_events _ s1).
  assert (events s2 !! ev = Some (ev_set_mask m e1)) as He2 by by apply upd_get.
  assert (interest s2 = interest s1) as Hi2 by apply interest_events. clearbody s2.
  destruct (Z.eq_dec (newmask_of m) (newmask_of (ev_mask e))) as [Heq|Hne].
  - exists 0, s2. split; [|done]. apply (apply_skip poll _ (ev_set_mask m e1)); [done|]. cbn. congruence.
  - destruct (apply_on poll interest ev (ev_set_mask m e1) s2) as (r & s3 & Hrun3 & _ & Hcase3);
      [done..|cbn; congruence|].
    exists r, s3. split; [done|]. rewrite Hi2, Hi in *. cbn in Hcase3. rewrite lookup_delete_eq in Hcase3.
    destruct Hcase3 as [(_ & _ & [?|[? ?]])|(-> & -> & _ & Hno)]; [congruence|done|].
    split_and!; [done..|]. intros _. split; [done|]. apply Hno; congruence.
Qed.

(** C13: the poll calls the dispatch function once for every event delivered, in
    order; each finds its event's mask set to what happened: reading or
    writing is possible, or an error.  Every such event is marked so that the
    next [eventpoll_apply] with a mask registers it anew, as edge-triggered
    polling needs.  A failed wait changes no event. *)
Theorem eventpoll_poll_dispatches {E} `{!Malloc E, !Errno E, !Events E, !EventsLaws E, !EpollOps E}
    (poll : eventpoll_t) interest disp trace
    `{!EpollLaws E (pollfd poll) interest, !EventpollFrame E interest} (s s1 : E) n l :
  records poll disp trace →
  (∀ fd x a, interest s !! fd = Some (x, a) → is_Some (events s !! a)) →
  sys_epoll_wait (pollfd poll) MAX_POLL_EVENT (-1) s = (n, l, s1) → trace s1 = trace s →
  ∃ s', eventpoll_poll disp poll s = Ret (n, s') ∧
    trace s' = trace s ++ map (λ x, (snd x, mask_of (fst x))) l ∧
    ∀ a ev, events s !! a = Some ev → ∃ ev', events s' !! a = Some ev' ∧ ev_fd ev' = ev_fd ev ∧
      (a ∉ map snd l → ev' = ev) ∧
      (a ∈ map snd l → ∀ m, wants m = true → newmask_of m ≠ ev_last_mask ev' ∧ ev_last_mask ev' ≠ 0).
Proof.
  intros Hrec Hlive Hwait Htr. unfold eventpoll_poll. autorewrite with run. rewrite Hwait.
  pose proof (wait_events (pollfd poll) MAX_POLL_EVENT (-1) s) as Hev. rewrite Hwait in Hev. cbn in Hev.
  destruct (wait_law _ _ _ _ _ _ Hwait) as [Hi Hcase].
  assert (take (Z.to_nat n) l = l) as -> by (destruct Hcase as [[-> ->]|[-> _]]; [done|apply take_ge; lia]).
  autorewrite with run.
  destruct (poll_loop_run poll disp trace l s1 Hrec) as (s' & -> & Htrace & Hafter).
  { destruct Hcase as [[_ ->]|(_ & _ & Hall)]; [by constructor|]. eapply Forall_impl; [exact Hall|].
    intros [x a] (fd & y & Hl). rewrite Hev. by eapply Hlive. }
  exists s'. split; [done|]. split; [by rewrite Htrace, Htr|]. intros a ev Ha.
  destruct (Hafter a ev) as (ev' & H1 & H2 & H3 & H4); [by rewrite Hev|].
  exists ev'. split_and!; [done..|]. intros Hin m Hm. rewrite H3 by done.
  destruct (newmask_wants m) as [[? _]|(_ & _ & Hd & _)]; [congruence|]. split; [done|]. by vm_compute.
Qed.

(** C34: epoll's report of a registered event is decoded to the mask that was
    registered, for any mask and any part of it that is reported; errors and
    hang-ups are reported as an error. *)
Theorem eventpoll_mask_roundtrip mask report :
  mask_of (Z.land (u32 (newmask_of mask)) report) =
    let err := Z.land (u32 (newmask_of mask)) (Z.land report (Z.lor EPOLLERR EPOLLHUP)) in
    let io := Z.lor (if Z.testbit report 0 then Z.land mask EVMASK_READ else 0)
                    (if Z.testbit report 2 then Z.land mask EVMASK_WRITE else 0) in
    if (err =? 0) && negb (io =? 0) then io else EVMASK_ERROR.
Proof.
  assert (∀ c, mask_of (Z.land c report) = mask_of (Z.land (Z.land c 31) (report mod 32))) as Hlow.
  { intros c. unfold mask_of. change (Z.lor (Z.lor (Z.lor EPOLLIN EPOLLOUT) EPOLLERR) EPOLLHUP) with 29.
    replace (Z.land (Z.land c report) 29)
      with (Z.land (Z.land (Z.land c 31) (report mod 32)) 29); [done|].
    replace (report mod 32) with (Z.land report 31) by (by apply (Z.land_ones report 5)).
    apply Z.bits_inj'. intros i Hi. rewrite !Z.land_spec.
    destruct (Z.testbit 29 i) eqn:H29; [|by rewrite !andb_false_r].
    assert (Z.testbit 31 i = true) as ->.
    { destruct (Z.lt_ge_cases i 5) as [Hlt|Hge];
        [|rewrite (Z.bits_above_log2 29) in H29; [done|lia|cbn; lia]].
      assert (i = 0 ∨ i = 1 ∨ i = 2 ∨ i = 3 ∨ i = 4) as [-> | [-> | [-> | [-> | ->]]]] by lia; done. }
    by rewrite !andb_true_r. }
  rewrite Hlow.
  assert (∀ i, 0 ≤ i < 5 → Z.testbit report i = Z.testbit (report mod 32) i) as Hbit.
  { intros i Hi. symmetry. change 32 with (2 ^ 5). apply Z.mod_pow2_bits_low. lia. }
  rewrite !Hbit by lia.
  assert (Z.land report (Z.lor EPOLLERR EPOLLHUP) = Z.land (report mod 32) (Z.lor EPOLLERR EPOLLHUP)) as ->.
  { replace (report mod 32) with (Z.land report 31) by (by apply (Z.land_ones report 5)).
    by rewrite <- Z.land_assoc. }
  assert (∀ k : bool, Z.land mask (if k then EVMASK_READ else EVMASK_WRITE) =
          Z.land (Z.land mask 3) (if k then EVMASK_READ else EVMASK_WRITE)) as Hm
    by (intros []; by rewrite <- Z.land_assoc).
  rewrite (Hm true), (Hm false). unfold newmask_of.
  change (Z.lor EVMASK_READ EVMASK_WRITE) with 3.
  pose proof (Z.mod_pos_bound report 32 eq_refl) as Hr. revert Hr. generalize (report mod 32).
  intros r Hr. assert (∃ n, (n < 32)%nat ∧ r = Z.of_nat n) as (n & Hn & ->)
    by (exists (Z.to_nat r); lia).
  destruct (land3_cases mask) as [H|[H|[H|H]]]; rewrite H; clear -Hn;
    (do 32 (destruct n as [|n]; [vm_compute; reflexivity|])); lia.
Qed.

(** * Witnesses *)

Definition poll_sample : eventpoll_t := mk_eventpoll 3 1 0.
Definition ev_sample : event_t := mk_event 7 EVMASK_READ (Some (user_cb 1)) 0 0 None.
Definition ev_on : event_t := ev_set_last_mask (newmask_of EVMASK_READ) ev_sample.

(** An event that was just made, and the same event after it was registered. *)
Definition host_new : host := with_events host0 {[5%positive := ev_sample]}.
Definition host_on : host :=
  with_interest (with_events host0 {[5%positive := ev_on]}) {[7 := (u32 (newmask_of EVMASK_READ), 5%positive)]}.

Definition record_disp (_ : eventpoll_t) (a : positive) (_ : Z) : M host unit := λ h,
  match h_events h !! a with
  | Some ev => Ret (tt, with_calls h (h_calls h ++ [(a, ev_mask ev)]))
  | None => UB
  end.

Lemma record_disp_records : records poll_sample record_disp h_calls.
Proof.
  split; [done|]. intros a ev h Ha. change (h_events h !! a = Some ev) in Ha. unfold record_disp.
  rewrite Ha. eauto.
Qed.

Lemma eventpoll_apply_registers_witness :
  ∃ r s', eventpoll_apply poll_sample 5 host_new = Ret (r, s') ∧
    events s' = <[5%positive := ev_on]> (events host_new) ∧
    (∀ fd, fd ≠ 7 → h_interest s' !! fd = h_interest host_new !! fd) ∧
    ((r = 0 ∧ h_interest s' !! 7 = Some (u32 (newmask_of EVMASK_READ), 5%positive)) ∨
     (r = -1 ∧ h_interest s' = h_interest host_new ∧ get_errno s' ≠ EEXIST ∧ ∃ op s1,
      sys_epoll_ctl (pollfd poll_sample) op 7 (Some (u32 (newmask_of EVMASK_READ), 5%positive)) s1 = (-1, s'))).
Proof.
  apply (eventpoll_apply_registers poll_sample h_interest 5 ev_sample host_new);
    [vm_compute; reflexivity..|]. vm_compute. discriminate.
Defined.

Lemma eventpoll_apply_removes_witness :
  let h := with_events host_on {[5%positive := ev_set_mask 0 ev_on]} in
  ∃ r s', eventpoll_apply poll_sample 5 h = Ret (r, s') ∧ events s' = events h ∧
    ((r = 0 ∧ h_interest s' = delete 7 (h_interest h)) ∨
     (r = -1 ∧ h_interest s' = h_interest h ∧ is_Some (h_interest h !! 7))).
Proof.
  apply (eventpoll_apply_removes poll_sample h_interest 5 (ev_set_mask 0 ev_on));
    [vm_compute; reflexivity..|vm_compute; discriminate].
Defined.

(** The state after the event of [host_on] was turned off. *)
Definition host_off : host :=
  with_interest (with_events host_on {[5%positive := ev_set_mask 0 ev_on]}) ∅.

Lemma eventpoll_reenable_lost_witness :
  h_interest host_off = delete 7 (h_interest host_on) ∧
  ∃ r s2, (upd_event 5 (ev_set_mask EVMASK_READ);; eventpoll_apply poll_sample 5) host_off = Ret (r, s2) ∧
    h_interest s2 = h_interest host_off ∧
    (newmask_of EVMASK_READ = newmask_of EVMASK_READ → r = 0) ∧
    (newmask_of EVMASK_READ ≠ newmask_of EVMASK_READ → r = -1 ∧ get_errno s2 = ENOENT).
Proof.
  apply (eventpoll_reenable_lost poll_sample h_interest 5 ev_on host_on host_off EVMASK_READ);
    vm_compute; reflexivity.
Defined.

Lemma eventpoll_poll_dispatches_witness :
  let s := with_ready host_on [[(EPOLLIN, 5%positive); (Z.lor EPOLLIN EPOLLERR, 5%positive)]] in
  ∃ s', eventpoll_poll record_disp poll_sample s = Ret (2, s') ∧
    h_calls s' = [] ++ [(5%positive, EVMASK_READ); (5%positive, EVMASK_ERROR)] ∧
    ∀ a ev, events s !! a = Some ev → ∃ ev', events s' !! a = Some ev' ∧ ev_fd ev' = ev_fd ev ∧
      (a ∉ [5%positive; 5%positive] → ev' = ev) ∧
      (a ∈ [5%positive; 5%positive] → ∀ m, wants m = true →
         newmask_of m ≠ ev_last_mask ev' ∧ ev_last_mask ev' ≠ 0).
Proof.
  intros s.
  apply (eventpoll_poll_dispatches poll_sample h_interest record_disp h_calls s host_on 2
           [(EPOLLIN, 5%positive); (Z.lor EPOLLIN EPOLLERR, 5%positive)]);
    [apply record_disp_records| |vm_compute; reflexivity..].
  intros fd x a H. cbn in H. apply lookup_singleton_Some in H as [_ [= _ <-]]. by exists ev_on.
Defined.
