(* ===== verification/Eventloop.v ===== *)
(** * The event loop ([eventloop.c], [eventloop.h])

    The loop polls and runs callbacks in one thread; other threads put events
    in a queue, linked through the events, which the loop applies after every
    poll. *)
From stdpp Require Import strings.
From S2P Require Import Prelude Alloc Sys Lock Log Thread Event Host Eventpoll.

(** [struct _eventloop] *)
Record eventloop_t := mk_eventloop {
  el_poll : option eventpoll_t;
  running : Z;
  pandings : option positive;
  pandings_tail : option positive;
  panding_lock : Z;
  el_me : option positive;
}.

Definition set_queue (h t : option positive) (l : eventloop_t) : eventloop_t :=
  mk_eventloop (el_poll l) (running l) h t (panding_lock l) (el_me l).
Definition set_panding_lock (x : Z) (l : eventloop_t) : eventloop_t :=
  mk_eventloop (el_poll l) (running l) (pandings l) (pandings_tail l) x (el_me l).
Definition set_running (x : Z) (l : eventloop_t) : eventloop_t :=
  mk_eventloop (el_poll l) x (pandings l) (pandings_tail l) (panding_lock l) (el_me l).

(** The loop that the operations are called with. *)
Class Loop (E : Type) := { get_loop : E → eventloop_t; put_loop : eventloop_t → E → E }.

Section eventloop.
Context {E : Type} `{!Malloc E, !Errno E, !Events E, !Logger E, !IoOps E, !FdOps E, !EpollOps E,
  !Threads E, !Loop E}.

Definition the_loop : M E eventloop_t := sys (λ e, (get_loop e, e)).
Definition upd_loop (f : eventloop_t → eventloop_t) : M E unit :=
  sys (λ e, (tt, put_loop (f (get_loop e)) e)).

(** The poll of the loop, through the pointer [loop->poll]. *)
Definition the_poll : M E eventpoll_t :=
  l ← the_loop; match el_poll l with Some p => mret p | None => ub end.

(** [loop->panding_lock]; a thread alone finds it free at once or never. *)
Definition lock_panding : M E unit :=
  l ← the_loop; v ← lift (mtx_lock 1 (panding_lock l)); upd_loop (set_panding_lock v).
Definition unlock_panding : M E unit := upd_loop (λ l, set_panding_lock (mtx_unlock (panding_lock l)) l).

Section callbacks.
(** The functions that are callbacks of events, but for [wake_cb]. *)
Variable call : event_pt → positive → M E unit.

Definition run_cb (cb : event_pt) (ev : positive) : M E unit :=
  match cb with wake_cb => wake_cb_run ev | _ => call cb ev end.

Definition _dispatch (poll : eventpoll_t) (ev : positive) (ud : Z) : M E unit :=
  e ← get_event ev;
  match ev_cb e with Some cb => run_cb cb ev | None => ub end.

(** [loop]: the address of the loop. *)
Definition eventloop_init (loop : Z) : M E unit :=
  upd_loop (λ _, mk_eventloop None 0 None None 0 None);;
  p ← eventpoll_new loop;
  upd_loop (λ l, mk_eventloop p (running l) (pandings l) (pandings_tail l) (panding_lock l) (el_me l));;
  self ← thread_self;
  upd_loop (λ l, mk_eventloop (el_poll l) (running l) (pandings l) (pandings_tail l) (panding_lock l) self);;
  upd_loop (set_running 1).

Definition eventloop_uninit : M E unit := p ← the_poll; eventpoll_free p.

(** Is there a loop? *)
Definition eventloop_new (loop : Z) : M E bool :=
  ok ← sys (malloc_ok 56);
  if negb ok then mret false
  else eventloop_init loop;; mret true.

Definition eventloop_free : M E unit := eventloop_uninit.

Definition apply_panding (ev : positive) : M E unit :=
  lock_panding;;
  l ← the_loop;
  (if decide (pandings l = pandings_tail l)
   then upd_loop (set_queue (Some ev) (Some ev))
   else
     match pandings_tail l with
     | None => ub
     | Some t => upd_event t (ev_set_next (Some ev));;
                 upd_loop (set_queue (pandings l) (Some ev))
     end);;
  unlock_panding.

Definition eventloop_apply (ev : positive) : M E Z :=
  l ← the_loop;
  self ← thread_self;
  if decide (el_me l = self) then p ← the_poll; eventpoll_apply p ev
  else
    apply_panding ev;;
    p ← the_poll;
    eventpoll_wakeup p;;
    mret 0.

(** The [while] loop of [panding]. *)
Fixpoint panding_loop (fuel : nat) (ev : option positive) : M E unit :=
  match fuel with
  | O => hang
  | S fuel =>
      match ev with
      | None => mret tt
      | Some a =>
          e ← get_event a;
          upd_loop (λ l, set_queue (ev_next e) (pandings_tail l) l);;
          p ← the_poll;
          _ ← eventpoll_apply p a;
          l ← the_loop;
          panding_loop fuel (pandings l)
      end
  end.

Definition panding (fuel : nat) : M E unit :=
  lock_panding;;
  l ← the_loop;
  panding_loop fuel (pandings l);;
  upd_loop (set_queue None None);;
  unlock_panding.

(** One round of [eventloop_loop]. *)
Definition loop_round (fuel : nat) : M E unit :=
  p ← the_poll;
  ret ← eventpoll_poll _dispatch p;
  (if ret =? 0 then log_debug (str_of "eventloop timeout" ++ [x0a])
   else if ret <? 0 then
     e ← errno; log_err (str_of "eventloop error: " ++ strerror (E:=E) e ++ [x0a])
   else mret tt);;
  panding fuel.

(** [fuel] rounds, and [pfuel] for the queue in each. *)
Fixpoint eventloop_loop (fuel pfuel : nat) : M E unit :=
  match fuel with
  | O => hang
  | S fuel =>
      l ← the_loop;
      if running l =? 0 then mret tt
      else loop_round pfuel;; eventloop_loop fuel pfuel
  end.

Definition eventloop_exit : M E unit := upd_loop (set_running 0).
End callbacks.
End eventloop.

(** * Specification *)

(** The loop is apart from what the poll reads and writes. *)
Class LoopLaws (E : Type) `{!Errno E, !Events E, !EpollOps E, !Loop E} := {
  loop_put l e : get_loop (put_loop l e) = l;
  put_loop_put l l' e : put_loop l (put_loop l' e) = put_loop l e;
  put_loop_id e : put_loop (get_loop e) e = e;
  loop_errno l e : get_errno (put_loop l e) = get_errno e;
  loop_events l e : events (put_loop l e) = events e;
  loop_put_events l m e : put_events m (put_loop l e) = put_loop l (put_events m e);
  loop_ctl l epfd op fd evt e :
    sys_epoll_ctl epfd op fd evt (put_loop l e) =
      (fst (sys_epoll_ctl epfd op fd evt e), put_loop l (snd (sys_epoll_ctl epfd op fd evt e)));
}.

Section apply_all.
Context {E : Type} `{!Errno E, !Events E, !EpollOps E}.

(** [eventpoll_apply] of several events. *)
Fixpoint apply_all (p : eventpoll_t) (l : list positive) : M E unit :=
  match l with
  | [] => mret tt
  | a :: l => _ ← eventpoll_apply p a; apply_all p l
  end.

(** The events from [h] on are linked in the order of [l]. *)
Fixpoint chain (s : E) (h : option positive) (l : list positive) : Prop :=
  match l with
  | [] => h = None
  | a :: l => h = Some a ∧ ∃ e, events s !! a = Some e ∧ chain s (ev_next e) l
  end.
End apply_all.

(** * Lemmas *)

Section loop_lemmas.
Context {E : Type} `{!Malloc E, !Errno E, !Events E, !EventsLaws E, !EpollOps E, !Loop E, !LoopLaws E}.
Context (interest : E → gmap Z (Z * positive)) `{!EventpollFrame E interest}.

(** [eventpoll_apply] neither sees nor changes the loop. *)
Lemma apply_put_loop p a l (s : E) :
  eventpoll_apply p a (put_loop l s) =
    match eventpoll_apply p a s with Ret (r, s') => Ret (r, put_loop l s') | UB => UB | Hang => Hang end.
Proof.
  unfold eventpoll_apply, get_event, errno. autorewrite with run. rewrite loop_events.
  destruct (events s !! a) as [e|] eqn:He; [|done].
  destruct (newmask_of (ev_mask e) =? ev_last_mask e); [done|].
  destruct (newmask_of (ev_mask e) =? 0).
  - autorewrite with run. rewrite loop_ctl.
    destruct (sys_epoll_ctl _ _ _ _ s) as [r s']. cbn [fst snd]. autorewrite with run.
    by rewrite loop_errno.
  - autorewrite with run. unfold upd_event. rewrite loop_events, He, loop_put_events.
    autorewrite with run. rewrite loop_ctl.
    destruct (sys_epoll_ctl _ _ _ _ (put_events _ s)) as [r s']. cbn [fst snd].
    autorewrite with run. rewrite loop_errno. destruct (_ && _); autorewrite with run; [|done].
    rewrite loop_ctl. by destruct (sys_epoll_ctl _ _ _ _ s').
Qed.

(** [eventpoll_apply] changes no links. *)
Lemma apply_next p a r (s s' : E) b :
  eventpoll_apply p a s = Ret (r, s') → ev_next <$> events s' !! b = ev_next <$> events s !! b.
Proof.
  unfold eventpoll_apply, get_event, errno, upd_event. autorewrite with run.
  destruct (events s !! a) as [e|] eqn:He; [|done].
  assert (∀ epfd op fd evt (e : E), events (snd (sys_epoll_ctl epfd op fd evt e)) = events e) as Hctl
    by apply ctl_events.
  destruct (newmask_of (ev_mask e) =? ev_last_mask e); [by intros [= _ <-]|].
  destruct (newmask_of (ev_mask e) =? 0).
  - autorewrite with run. specialize (Hctl (pollfd p) EPOLL_CTL_DEL (ev_fd e) None s).
    destruct (sys_epoll_ctl _ _ _ _ s) as [r1 s1]. cbn [snd] in Hctl. autorewrite with run.
    intros [= _ <-]. by rewrite Hctl.
  - autorewrite with run. rewrite He. set (s0 := put_events _ s).
    assert (ev_next <$> events s0 !! b = ev_next <$> events s !! b) as <-.
    { unfold s0. rewrite events_put. destruct (decide (a = b)) as [<-|Hne];
        [by rewrite lookup_insert_eq, He|by rewrite lookup_insert_ne]. }
    clearbody s0. autorewrite with run. pose proof (Hctl (pollfd p) (if negb (ev_last_mask e =? 0) then EPOLL_CTL_MOD else EPOLL_CTL_ADD)
      (ev_fd e) (Some (u32 (newmask_of (ev_mask e)), a)) s0) as H1.
    destruct (sys_epoll_ctl _ _ _ _ s0) as [r1 s1]. cbn [snd] in H1. autorewrite with run.
    destruct (_ && _); autorewrite with run; [|intros [= _ <-]; by rewrite H1].
    pose proof (Hctl (pollfd p) EPOLL_CTL_MOD (ev_fd e) (Some (u32 (newmask_of (ev_mask e)), a)) s1) as H2.
    destruct (sys_epoll_ctl _ _ _ _ s1) as [r2 s2]. cbn [snd] in H2. intros [= _ <-].
    by rewrite H2, H1.
Qed.

Lemma chain_next (s s' : E) h l :
  (∀ b, ev_next <$> events s' !! b = ev_next <$> events s !! b) → chain s h l → chain s' h l.
Proof.
  intros Hn. revert h. induction l as [|a l IH]; [done|]. intros h (-> & e & He & Hl).
  split; [done|]. specialize (Hn a). rewrite He in Hn. cbn in Hn.
  destruct (events s' !! a) as [e'|] eqn:He'; [|done]. exists e'. split; [done|].
  cbn in Hn. injection Hn as Hn. rewrite Hn. auto.
Qed.

Lemma chain_loop (s : E) h l x : chain s h l → chain (put_loop x s) h l.
Proof. apply chain_next. intros b. by rewrite loop_events. Qed.

Lemma lock_panding_run (s : E) :
  panding_lock (get_loop s) = 0 →
  lock_panding s = Ret (tt, put_loop (set_panding_lock 1 (get_loop s)) s).
Proof.
  intros H. unfold lock_panding, the_loop, upd_loop. autorewrite with run.
  rewrite mtx_lock_spec, H. done.
Qed.

(** The drain of a queue in any state of its head. *)
Lemma panding_loop_run fuel p l lp (s : E) :
  el_poll lp = Some p → (length l < fuel)%nat → chain s (pandings lp) l →
  panding_loop fuel (pandings lp) (put_loop lp s) =
    match apply_all p l s with
    | Ret (_, s') => Ret (tt, put_loop (set_queue (match l with [] => pandings lp | _ => None end)
                                          (pandings_tail lp) lp) s')
    | UB => UB | Hang => Hang
    end.
Proof.
  revert fuel lp s. induction l as [|a l IH]; intros fuel lp s Hp Hf Hc;
    (destruct fuel as [|fuel]; [cbn in Hf; lia|]); cbn [panding_loop apply_all].
  { cbn in Hc. rewrite Hc. mrun. do 3 f_equal. rewrite <- Hc. by destruct lp. }
  destruct Hc as (Hh & e & He & Hc). rewrite Hh. unfold the_poll, upd_loop, the_loop.
  autorewrite with run. unfold get_event at 1. rewrite loop_events, He. autorewrite with run.
  rewrite loop_put, put_loop_put, loop_put. cbn [el_poll set_queue]. rewrite Hp.
  autorewrite with run. rewrite apply_put_loop.
  destruct (eventpoll_apply p a s) as [[r s1]| |] eqn:Happ; [|done..].
  autorewrite with run. rewrite loop_put. change (pandings (set_queue ?h ?t lp)) with h.
  set (lp1 := set_queue (ev_next e) (pandings_tail lp) lp).
  change (ev_next e) with (pandings lp1). rewrite (IH fuel lp1 s1); [| done | cbn in Hf; lia |].
  - destruct (apply_all p l s1) as [[[] s2]| |]; [|done..]. do 3 f_equal.
    unfold lp1, set_queue. cbn. f_equal. destruct l; [by cbn in Hc|done].
  - eapply chain_next; [|exact Hc]. intros b. by eapply apply_next.
Qed.
End loop_lemmas.

Section queue_lemmas.
Context {E : Type} `{!Malloc E, !Errno E, !Events E, !EventsLaws E, !EpollOps E, !Loop E, !LoopLaws E}.
Context (interest : E → gmap Z (Z * positive)) `{!EventpollFrame E interest}.

Lemma panding_run fuel p l (s : E) :
  panding_lock (get_loop s) = 0 → el_poll (get_loop s) = Some p →
  chain s (pandings (get_loop s)) l → (length l < fuel)%nat →
  panding fuel s =
    match apply_all p l s with
    | Ret (_, s') => Ret (tt, put_loop (set_queue None None (get_loop s)) s')
    | UB => UB | Hang => Hang
    end.
Proof.
  intros Hlock Hp Hc Hf. unfold panding. autorewrite with run. rewrite lock_panding_run by done.
  unfold the_loop at 1. autorewrite with run. rewrite loop_put.
  rewrite (panding_loop_run interest fuel p l); [|done..].
  destruct (apply_all p l s) as [[[] s']| |]; [|done..].
  unfold upd_loop, unlock_panding, upd_loop. autorewrite with run.
  rewrite !put_loop_put, !loop_put. do 3 f_equal.
  unfold set_queue, set_panding_lock, mtx_unlock. cbn. by rewrite Hlock.
Qed.

(** An empty queue is left as it is. *)
Lemma panding_idle fuel (s : E) :
  panding_lock (get_loop s) = 0 → pandings (get_loop s) = None → pandings_tail (get_loop s) = None → (0 < fuel)%nat →
  panding fuel s = Ret (tt, s).
Proof.
  intros Hlock Hh Ht Hf. destruct fuel as [|fuel]; [lia|]. unfold panding. autorewrite with run.
  rewrite lock_panding_run by done. unfold the_loop at 1. autorewrite with run. rewrite loop_put.
  cbn [pandings set_panding_lock]. rewrite Hh. cbn [panding_loop].
  unfold upd_loop, unlock_panding, upd_loop. autorewrite with run. rewrite !put_loop_put, !loop_put. do 2 f_equal.
  rewrite <- put_loop_id. f_equal. unfold set_queue, set_panding_lock, mtx_unlock.
  destruct (get_loop s). cbn in *. congruence.
Qed.

(** With head and tail equal, which they always are, an event that is queued
    takes the place of what was queued. *)
Lemma apply_panding_run ev (s : E) :
  panding_lock (get_loop s) = 0 → pandings (get_loop s) = pandings_tail (get_loop s) →
  apply_panding ev s = Ret (tt, put_loop (set_queue (Some ev) (Some ev) (get_loop s)) s).
Proof.
  intros Hlock Heq. unfold apply_panding. autorewrite with run. rewrite lock_panding_run by done.
  unfold the_loop at 1. autorewrite with run. rewrite loop_put. cbn [pandings pandings_tail set_panding_lock].
  rewrite decide_True by done. unfold unlock_panding, upd_loop. autorewrite with run.
  rewrite !put_loop_put, !loop_put. do 3 f_equal.
  unfold set_queue, set_panding_lock, mtx_unlock. cbn. by rewrite Hlock.
Qed.

(** Several events, one after the other. *)
Fixpoint queue_all (evs : list positive) : M E unit :=
  match evs with [] => mret tt | ev :: evs => apply_panding ev;; queue_all evs end.

Lemma queue_all_run evs ev (s : E) :
  panding_lock (get_loop s) = 0 → pandings (get_loop s) = pandings_tail (get_loop s) →
  queue_all (evs ++ [ev]) s = Ret (tt, put_loop (set_queue (Some ev) (Some ev) (get_loop s)) s).
Proof.
  revert s. induction evs as [|a evs IH]; intros s Hlock Heq; cbn [app queue_all]; autorewrite with run;
    rewrite apply_panding_run by done; autorewrite with run; [done|].
  rewrite IH by (by rewrite loop_put). by rewrite put_loop_put, loop_put.
Qed.
End queue_lemmas.

(** [n] rounds of the loop, in each of which it was running. *)
Inductive rounds {E} `{!Loop E} (round : M E unit) : nat → E → E → Prop :=
  | rounds_O s : rounds round 0 s s
  | rounds_S n s s1 s2 :
      running (get_loop s) ≠ 0 → round s = Ret (tt, s1) → rounds round n s1 s2 →
      rounds round (S n) s s2.

(** ** The loop with the concrete environment *)

#[export] Instance loop_host_errno : Errno (eventloop_t * host) :=
  { get_errno e := get_errno (snd e); put_errno x e := (fst e, put_errno x (snd e)) }.
#[export] Instance loop_host_malloc : Malloc (eventloop_t * host) :=
  λ n e, let '(r, h) := malloc_ok n (snd e) in (r, (fst e, h)).
#[export] Instance loop_host_events : Events (eventloop_t * host) :=
  { events e := events (snd e); put_events m e := (fst e, put_events m (snd e)) }.
#[export] Instance loop_host_events_laws : EventsLaws (eventloop_t * host).
Proof. split; [done..|]. by intros [l []]. Qed.
#[export] Instance loop_host_epoll : EpollOps (eventloop_t * host) := {
  sys_epoll_create1 x e := let '(r, h) := sys_epoll_create1 x (snd e) in (r, (fst e, h));
  sys_eventfd x y e := let '(r, h) := sys_eventfd x y (snd e) in (r, (fst e, h));
  sys_epoll_ctl epfd op fd evt e :=
    let '(r, h) := sys_epoll_ctl epfd op fd evt (snd e) in (r, (fst e, h));
  sys_epoll_wait epfd max t e :=
    let '(r, h) := sys_epoll_wait epfd max t (snd e) in (r, (fst e, h));
}.
#[export] Instance loop_host_logger : Logger (eventloop_t * host) := {
  get_log_level e := get_log_level (snd e);
  put_log_level x e := (fst e, put_log_level x (snd e));
  get_stderr e := get_stderr (snd e);
  put_stderr x e := (fst e, put_stderr x (snd e));
  strerror := strerror (E := host);
}.
#[export] Instance loop_host_io : IoOps (eventloop_t * host) := {
  sys_read fd n e := let '(r, h) := sys_read fd n (snd e) in (r, (fst e, h));
  sys_write fd d e := let '(r, h) := sys_write fd d (snd e) in (r, (fst e, h));
}.
#[export] Instance loop_host : Loop (eventloop_t * host) :=
  { get_loop := fst; put_loop l e := (l, snd e) }.
#[export] Instance loop_host_laws : LoopLaws (eventloop_t * host).
Proof. split; [done|done|by intros []|done|done|done|]. intros. cbn. by destruct (ctl_effect _ _ _ _). Qed.
#[export] Instance loop_host_epoll_laws epfd :
  EpollLaws (eventloop_t * host) epfd (λ e, h_interest (snd e)).
Proof.
  split.
  - intros op fd evt [l h] r [l' h'] Heq.
    change ((let '(r0, h0) := sys_epoll_ctl epfd op fd evt h in (r0, (l, h0))) = (r, (l', h'))) in Heq.
    destruct (sys_epoll_ctl epfd op fd evt h) as [r1 h1] eqn:H. simplify_eq.
    exact (ctl_law (interest := h_interest) op fd evt h r h' H).
  - intros max t [l h] n evs [l' h'] Heq.
    change ((let '(r0, h0) := sys_epoll_wait epfd max t h in (r0, (l, h0))) = (n, evs, (l', h'))) in Heq.
    destruct (sys_epoll_wait epfd max t h) as [[n1 evs1] h1] eqn:H. simplify_eq.
    exact (wait_law (interest := h_interest) max t h n evs h' H).
Qed.
#[export] Instance loop_host_frame : EventpollFrame (eventloop_t * host) (λ e, h_interest (snd e)).
Proof.
  split; [done|..].
  - intros. cbn. by destruct (ctl_effect _ _ _ _).
  - intros. cbn. destruct (h_ready (snd e)) as [|l r]; [done|]. by destruct (_ && _).
Qed.

(** * Theorems *)

(** C17: the loop's thread applies the queued events once each, in the order of
    the queue, whatever its length, and leaves an empty queue and a free lock;
    one round of fuel per event and one more are enough. *)
Theorem panding_drains {E}
    `{!Malloc E, !Errno E, !Events E, !EventsLaws E, !EpollOps E, !Loop E, !LoopLaws E}
    interest `{!EventpollFrame E interest} fuel p l (s : E) :
  panding_lock (get_loop s) = 0 → el_poll (get_loop s) = Some p →
  chain s (pandings (get_loop s)) l → (length l < fuel)%nat →
  panding fuel s =
    match apply_all p l s with
    | Ret (_, s') => Ret (tt, put_loop (set_queue None None (get_loop s)) s')
    | UB => UB | Hang => Hang
    end.
Proof. apply (panding_run interest). Qed.

(** C21: when other threads queue events on a loop with an empty queue and the
    loop then drains it, the event that was queued last is applied just as if the
    loop's own thread had applied it, and nothing is done for those before it:
    each is dropped by the next (see [apply_panding_forgets]). *)
Theorem apply_panding_deferred {E}
    `{!Malloc E, !Errno E, !Events E, !EventsLaws E, !EpollOps E, !Loop E, !LoopLaws E}
    interest `{!EventpollFrame E interest} fuel p evs ev e (s : E) :
  panding_lock (get_loop s) = 0 → el_poll (get_loop s) = Some p →
  pandings (get_loop s) = None → pandings_tail (get_loop s) = None →
  events s !! ev = Some e → ev_next e = None → (1 < fuel)%nat →
  (queue_all (evs ++ [ev]);; panding fuel) s =
    match eventpoll_apply p ev s with
    | Ret (_, s') => Ret (tt, put_loop (get_loop s) s') | UB => UB | Hang => Hang
    end.
Proof.
  intros Hlock Hp Hq Ht He Hn Hf. autorewrite with run. rewrite queue_all_run by congruence.
  rewrite (panding_run interest fuel p [ev]); rewrite ?loop_put;
    [|done|done|apply chain_loop; cbn; eauto|cbn; lia].
  cbn [apply_all]. autorewrite with run. rewrite apply_put_loop.
  destruct (eventpoll_apply p ev s) as [[r s1]| |]; [|done..]. autorewrite with run.
  rewrite put_loop_put. do 3 f_equal. destruct (get_loop s). cbn in *. by subst.
Qed.

(** The queue never holds more than one event: queueing [a] and then [b]
    leaves the state that queueing [b] alone leaves, so [a] is never applied. *)
Theorem apply_panding_forgets {E}
    `{!Malloc E, !Errno E, !Events E, !EventsLaws E, !EpollOps E, !Loop E, !LoopLaws E} a b (s : E) :
  panding_lock (get_loop s) = 0 → pandings (get_loop s) = pandings_tail (get_loop s) →
  (apply_panding a;; apply_panding b) s = apply_panding b s ∧
  ∃ s', apply_panding b s = Ret (tt, s') ∧ pandings (get_loop s') = pandings_tail (get_loop s') ∧
        panding_lock (get_loop s') = 0 ∧ events s' = events s.
Proof.
  intros Hlock Heq. autorewrite with run. rewrite !apply_panding_run by done.
  rewrite apply_panding_run by (rewrite loop_put; done).
  rewrite apply_panding_run by done.
  rewrite put_loop_put, loop_put. split; [done|].
  eexists. split; [done|]. by rewrite loop_put, loop_events.
Qed.

(** [eventloop_loop] returns exactly when some round, or its caller, leaves
    [running] cleared: it runs rounds of polling and draining up to the first
    that does, and no further. *)
Theorem eventloop_loop_exits {E}
    `{!Malloc E, !Errno E, !Events E, !Logger E, !IoOps E, !EpollOps E, !Loop E}
    call fuel pfuel (s s' : E) :
  eventloop_loop call fuel pfuel s = Ret (tt, s') ↔
  ∃ n, (n < fuel)%nat ∧ rounds (loop_round call pfuel) n s s' ∧ running (get_loop s') = 0.
Proof.
  revert s. induction fuel as [|fuel IH]; intros s; cbn [eventloop_loop].
  { split; [done|]. intros (n & ? & _). lia. }
  unfold the_loop. autorewrite with run. destruct (Z.eqb_spec (running (get_loop s)) 0) as [H0|H0].
  - split.
    + intros [= <-]. exists O. split; [lia|]. split; [constructor|done].
    + intros (n & _ & Hr & _). inversion Hr; simplify_eq; first [done | congruence].
  - autorewrite with run. destruct (loop_round call pfuel s) as [[[] s1]| |] eqn:Hround.
    + rewrite IH. split.
      * intros (n & Hn & Hr & H1). exists (S n). split; [lia|]. split; [by econstructor|done].
      * intros (n & Hn & Hr & H1). inversion Hr as [|n' ? s2 ? ? Hround' Hr']; simplify_eq.
        rewrite Hround in Hround'. injection Hround' as <-. exists n'. split; [lia|done].
    + split; [done|]. intros (n & _ & Hr & H1). inversion Hr; simplify_eq; congruence.
    + split; [done|]. intros (n & _ & Hr & H1). inversion Hr; simplify_eq; congruence.
Qed.

(** * Witnesses *)

Definition loop_idle : eventloop_t := mk_eventloop (Some poll_sample) 1 None None 0 (Some 1%positive).

(** Two events, linked, of which the first is the head of the queue. *)
Definition host_two : host :=
  with_events host0 {[5%positive := ev_set_next (Some 6%positive) ev_sample;
                      6%positive := ev_set_fd 8 ev_sample]}.
Definition loop_two : eventloop_t * host :=
  (set_queue (Some 5%positive) (Some 6%positive) loop_idle, host_two).

Lemma panding_drains_witness :
  panding 3 loop_two =
    match apply_all poll_sample [5; 6]%positive loop_two with
    | Ret (_, s') => Ret (tt, put_loop (set_queue None None (get_loop loop_two)) s')
    | UB => UB | Hang => Hang
    end.
Proof.
  apply (panding_drains (λ e, h_interest (snd e)) 3 poll_sample [5; 6]%positive loop_two);
    [done|done| |cbn; lia].
  split; [done|]. exists (ev_set_next (Some 6%positive) ev_sample). split; [done|].
  split; [done|]. exists (ev_set_fd 8 ev_sample). done.
Defined.

Lemma apply_panding_deferred_witness :
  (queue_all [6%positive; 5%positive];; panding 2) (loop_idle, host_new) =
    match eventpoll_apply poll_sample 5 (loop_idle, host_new) with
    | Ret (_, s') => Ret (tt, put_loop (get_loop (loop_idle, host_new)) s') | UB => UB | Hang => Hang
    end.
Proof.
  apply (apply_panding_deferred (λ e, h_interest (snd e)) 2 poll_sample [6%positive] 5 ev_sample (loop_idle, host_new));
    [done..|lia].
Defined.

Lemma apply_panding_forgets_witness :
  (apply_panding 5;; apply_panding 6) (loop_idle, host_two) = apply_panding 6 (loop_idle, host_two) ∧
  ∃ s', apply_panding 6 (loop_idle, host_two) = Ret (tt, s') ∧
    pandings (get_loop s') = pandings_tail (get_loop s') ∧
    panding_lock (get_loop s') = 0 ∧ events s' = events (loop_idle, host_two).
Proof. by apply (apply_panding_forgets 5 6 (loop_idle, host_two)). Defined.

(** A run of the loop: an event is delivered, its callback ends the loop, and
    the round is finished before the loop returns. *)
Definition loop_run : eventloop_t * host :=
  (loop_idle, with_ready host_on [[(EPOLLIN, 5%positive)]; [(EPOLLOUT, 5%positive)]]).

Example eventloop_runs_once :
  match eventloop_loop (λ _ _, eventloop_exit) 2 1 loop_run with
  | Ret (_, s) => ev_mask <$> events s !! 5%positive = Some EVMASK_READ ∧ zlen (h_ready (snd s)) = 1
  | _ => False
  end.
Proof. by vm_compute. Qed.
