(* ===== verification/Sockaddr.v ===== *)
(** * Socket addresses ([sockaddr.c], [sockaddr.h])

    The union of the address structures is a run of 112 bytes, read and
    written at the offsets of [struct sockaddr_in], [sockaddr_in6] and
    [sockaddr_un]. *)
From stdpp Require Import strings.
From S2P Require Import Prelude Sys Cstring Host.

Definition AF_UNIX : Z := 1.
Definition AF_INET : Z := 2.
Definition AF_INET6 : Z := 10.
Definition AI_PASSIVE : Z := 0x1.
Definition AI_NUMERICHOST : Z := 0x4.
Definition AI_V4MAPPED : Z := 0x8.

(** Sizes of the structures, and of the union that holds them. *)
Definition sizeof_sa : Z := 16.
Definition sizeof_un : Z := 110.
Definition sizeof_v4 : Z := 16.
Definition sizeof_v6 : Z := 28.
Definition sizeof_union : Z := 112.
Definition sizeof_path : Z := 108.

(** [struct _sockaddr] *)
Record sockaddr_t := mk_sockaddr { family : Z; sa : block }.

(** What [getaddrinfo] returns: for every address found its family, kind,
    protocol and bytes. *)
Record addrinfo := mk_addrinfo { ai_family : Z; ai_socktype : Z; ai_protocol : Z; ai_addr : list byte }.

Class Resolver (E : Type) := {
  (** The host (or none), the port (or none), the flags and family asked for;
      0 and the addresses, or an error number. *)
  sys_getaddrinfo : option (list byte) → option (list byte) → Z → Z → E → Z * list addrinfo * E;
  gai_strerror : Z → list byte;
}.

(** Address conversions of the C library: the four bytes that a dotted text
    stands for, if any, and the text of an address of a family. *)
Class Inet := {
  inet_pton4 : list byte → option (list byte);
  inet_ntop : Z → list byte → list byte;
}.

Definition byte_of (z : Z) : byte :=
  match of_N (Z.to_N (z mod 256)) with Some b => b | None => x00 end.

(** [htons] as the bytes it leaves in memory, and [ntohs] of such bytes. *)
Definition htons (port : Z) : list byte := [byte_of (port / 256); byte_of port].
Definition ntohs (d : list byte) : Z :=
  match d with [a; b] => 256 * byte_val a + byte_val b | _ => 0 end.

(** A [sa_family_t] in memory. *)
Definition family_bytes (f : Z) : list byte := [byte_of f; byte_of (f / 256)].
Definition family_of (d : list byte) : Z :=
  match d with [a; b] => byte_val a + 256 * byte_val b | _ => 0 end.

Definition zeroed : sockaddr_t := mk_sockaddr 0 (replicate (Z.to_nat sizeof_union) (Some x00)).

Definition set_family (f : Z) (a : sockaddr_t) : sockaddr_t := mk_sockaddr f (sa a).
(** Writes at an offset of the union. *)
Definition put_sa (off : Z) (d : list byte) (a : sockaddr_t) : sockaddr_t :=
  mk_sockaddr (family a) (splice off (cells d) (sa a)).
Definition get_sa (off n : Z) (a : sockaddr_t) : outcome (list byte) :=
  defined (slice off n (sa a)).

(** Offsets: the family and the port of both structures for the internet, and
    the addresses. *)
Definition off_port : Z := 2.
Definition off_v4 : Z := 4.
Definition off_v6 : Z := 8.
Definition off_path : Z := 2.

Definition sockaddr_len (addr : sockaddr_t) : Z :=
  if family addr =? AF_UNIX then sizeof_un
  else if family addr =? AF_INET then sizeof_v4
  else if family addr =? AF_INET6 then sizeof_v6
  else sizeof_sa.

(** [memcpy(&sa->sa.sa, p, n)]: [n] bytes must be there. *)
Definition copy_sa (d : list byte) (n : Z) (a : sockaddr_t) : outcome sockaddr_t :=
  if zlen d <? n then UB else Ret (put_sa 0 (take (Z.to_nat n) d) a).

Section sockaddr.
Context {E : Type} `{!Errno E, !SockOps E, !Resolver E, !Inet}.

(** The result, and the address. *)
Definition sockaddr_set_v4 (addr : option (list byte)) (port : Z) : Z * sockaddr_t :=
  let sa := zeroed in
  let r := match addr with
           | None => Some sa
           | Some text => match inet_pton4 text with Some d => Some (put_sa off_v4 d sa) | None => None end
           end in
  match r with
  | None => (-1, sa)
  | Some sa => (0, put_sa off_port (htons port) (put_sa 0 (family_bytes AF_INET) (set_family AF_INET sa)))
  end.

Definition sockaddr_set_v6 (addr : option (list byte)) (port : Z) : M E (Z * sockaddr_t) :=
  let sa := zeroed in
  match addr with
  | None =>
      mret (0, put_sa off_port (htons port) (put_sa 0 (family_bytes AF_INET6) (set_family AF_INET6 sa)))
  | Some text =>
      '(ret, l) ← sys (sys_getaddrinfo (Some text) None (Z.lor AI_NUMERICHOST AI_V4MAPPED) AF_INET6);
      if negb (ret =? 0) then mret (-1, sa)
      else
        match l with
        | [] => ub
        | ai :: _ =>
            let sa := set_family (ai_family ai) sa in
            if family sa =? AF_INET6 then
              sa ← lift (copy_sa (ai_addr ai) sizeof_v6 sa); mret (0, put_sa off_port (htons port) sa)
            else if family sa =? AF_INET then
              sa ← lift (copy_sa (ai_addr ai) sizeof_v4 sa); mret (0, put_sa off_port (htons port) sa)
            else mret (-1, sa)
        end
  end.

(** [path]: the bytes before the terminating null; [old]: the address before. *)
Definition sockaddr_set_unix (old : sockaddr_t) (path : option (list byte)) (len : Z) : outcome (Z * sockaddr_t) :=
  match path with
  | None => Ret (-1, old)
  | Some path =>
      match path with
      | [] => Ret (-1, old)
      | _ =>
          let len := if len =? 0 then zlen path else len in
          if sizeof_path <=? u64 (len + 1) then Ret (-1, old)
          else
            let sa := put_sa 0 (family_bytes AF_UNIX) (set_family AF_UNIX zeroed) in
            if zlen path + 1 <? len then UB
            else Ret (0, put_sa off_path (take (Z.to_nat len) (path ++ [x00])) sa)
      end
  end.

Definition sockaddr_set_from_addrinfo (ai : addrinfo) : outcome (Z * sockaddr_t) :=
  let sa := set_family (ai_family ai) zeroed in
  if family sa =? AF_INET6 then sa ← copy_sa (ai_addr ai) sizeof_v6 sa; Ret (0, sa)
  else if family sa =? AF_INET then sa ← copy_sa (ai_addr ai) sizeof_v4 sa; Ret (0, sa)
  else Ret (-1, sa).

(** [h_addrtype] and [h_addr_list[0]] of the [hostent]. *)
Definition sockaddr_set_from_hostent (h_addrtype : Z) (h_addr : list byte) : outcome (Z * sockaddr_t) :=
  let sa := set_family h_addrtype zeroed in
  if family sa =? AF_INET6 then
    if zlen h_addr <? 16 then UB
    else Ret (0, put_sa off_v6 (take 16 h_addr) (put_sa 0 (family_bytes (family sa)) sa))
  else if family sa =? AF_INET then
    if zlen h_addr <? 4 then UB
    else Ret (0, put_sa off_v4 (take 4 h_addr) (put_sa 0 (family_bytes (family sa)) sa))
  else Ret (-1, sa).

Definition sockaddr_set_port (sa : sockaddr_t) (port : Z) : sockaddr_t :=
  if family sa =? AF_INET6 then put_sa off_port (htons port) sa
  else if family sa =? AF_INET then put_sa off_port (htons port) sa
  else sa.

(** The kernel writes at most [len] bytes of the name. *)
Definition sockaddr_sockname (fd : Z) : M E (Z * sockaddr_t) :=
  let sa := zeroed in
  let len := sockaddr_len sa in
  '(r, d) ← sys (sys_getsockname fd len);
  let sa := put_sa 0 (take (Z.to_nat len) d) sa in
  if r =? 0 then mret (0, sa)
  else e ← errno; mret (e, sa).

Definition sockaddr_peername (fd : Z) : M E (Z * sockaddr_t) :=
  let sa := zeroed in
  let len := sockaddr_len sa in
  '(r, d) ← sys (sys_getpeername fd len);
  let sa := put_sa 0 (take (Z.to_nat len) d) sa in
  if r =? 0 then mret (0, sa)
  else e ← errno; mret (e, sa).

(** [inet_ntop] into [buf]: the text with its null, or nothing when there is
    no room. *)
Definition ntop_into (af : Z) (d : list byte) (buf : block) (len : Z) : block :=
  let text := inet_ntop af d in
  if zlen text <? len then splice 0 (cells (text ++ [x00])) buf else buf.

Definition sockaddr_string (sa : sockaddr_t) (buf : block) (len : Z) : outcome block :=
  let '(af, off, n) := if family sa =? AF_INET then (AF_INET, off_v4, 4) else (AF_INET6, off_v6, 16) in
  d ← get_sa off n sa;
  let buf := ntop_into af d buf len in
  k ← strlen buf;
  p ← get_sa off_port 2 sa;
  snprintf_at buf k (u64 (len - k)) (str_of ":" ++ dec (ntohs p)).
End sockaddr.

(** * Lemmas *)

Lemma byte_of_val z : byte_val (byte_of z) = z mod 256.
Proof.
  unfold byte_of, byte_val. pose proof (Z.mod_pos_bound z 256 eq_refl).
  destruct (of_N (Z.to_N (z mod 256))) as [b|] eqn:Hb.
  - apply to_of_N in Hb. rewrite Hb. lia.
  - apply of_N_None_iff in Hb. lia.
Qed.

Lemma ntohs_htons p : 0 ≤ p < 65536 → ntohs (htons p) = p.
Proof.
  intros. unfold ntohs, htons. rewrite !byte_of_val.
  rewrite (Z.mod_small (p / 256)) by (split; [apply Z.div_pos|apply Z.div_lt_upper_bound]; lia).
  pose proof (Z.div_mod p 256). lia.
Qed.

Lemma family_roundtrip f : 0 ≤ f < 65536 → family_of (family_bytes f) = f.
Proof.
  intros. unfold family_of, family_bytes. rewrite !byte_of_val.
  rewrite (Z.mod_small (f / 256)) by (split; [apply Z.div_pos|apply Z.div_lt_upper_bound]; lia).
  pose proof (Z.div_mod f 256). lia.
Qed.

Definition wf_sa (a : sockaddr_t) : Prop := zlen (sa a) = sizeof_union.

Lemma put_sa_wf off d a : wf_sa a → 0 ≤ off → off + zlen d ≤ sizeof_union → wf_sa (put_sa off d a).
Proof. unfold wf_sa. intros Ha Ho Hd. cbn. rewrite splice_length; rewrite ?length_fmap; lia. Qed.

Lemma get_put_same off d a n :
  wf_sa a → 0 ≤ off → off + zlen d ≤ sizeof_union → n = zlen d → get_sa off n (put_sa off d a) = Ret d.
Proof.
  unfold wf_sa. intros Ha Ho Hd ->. unfold get_sa. cbn.
  rewrite <- (length_fmap Some d), slice_splice_same by (rewrite ?length_fmap; lia). apply defined_cells.
Qed.

Lemma get_put_before off d a k n :
  wf_sa a → 0 ≤ k → 0 ≤ n → k + n ≤ off → off ≤ sizeof_union →
  get_sa k n (put_sa off d a) = get_sa k n a.
Proof. unfold wf_sa. intros. unfold get_sa. cbn. by rewrite slice_splice_before by lia. Qed.

Lemma get_put_after off d a k n :
  wf_sa a → 0 ≤ off → off + zlen d ≤ k → off ≤ sizeof_union →
  get_sa k n (put_sa off d a) = get_sa k n a.
Proof.
  unfold wf_sa. intros. unfold get_sa. cbn. rewrite slice_splice_after; rewrite ?length_fmap; [done|lia..].
Qed.

Lemma zeroed_wf : wf_sa zeroed.
Proof. done. Qed.
Lemma set_family_wf f a : wf_sa a → wf_sa (set_family f a).
Proof. done. Qed.
Create HintDb sa.
#[export] Hint Resolve put_sa_wf zeroed_wf set_family_wf : sa.

(** ** Conversions to evaluate the definitions with *)

(** Dotted texts: of four numbers below 256. *)
Definition dotted (d : list byte) : list byte :=
  match d with
  | [a; b; c; e] => dec (byte_val a) ++ str_of "." ++ dec (byte_val b) ++ str_of "." ++
                    dec (byte_val c) ++ str_of "." ++ dec (byte_val e)
  | _ => []
  end.

Definition localhost : list byte := [x7f; x00; x00; x01].

#[export] Instance inet_sample : Inet := {
  inet_pton4 t := if decide (t = str_of "127.0.0.1") then Some localhost else None;
  inet_ntop af d := if af =? AF_INET then dotted d else str_of "::";
}.

Lemma v4_layout d port :
  zlen d = 4 →
  let a := put_sa off_port (htons port)
             (put_sa 0 (family_bytes AF_INET) (set_family AF_INET (put_sa off_v4 d zeroed))) in
  wf_sa a ∧ family a = AF_INET ∧ get_sa 0 2 a = Ret (family_bytes AF_INET) ∧
  get_sa off_port 2 a = Ret (htons port) ∧ get_sa off_v4 4 a = Ret d.
Proof.
  intros Hd. set (a1 := put_sa off_v4 d zeroed).
  assert (wf_sa a1) as H1 by (apply put_sa_wf; [done|by vm_compute|rewrite Hd; by vm_compute]).
  assert (get_sa off_v4 4 a1 = Ret d) as Hv4
    by (apply get_put_same; [done|by vm_compute|rewrite Hd; by vm_compute|done]).
  clearbody a1. set (a2 := put_sa 0 (family_bytes AF_INET) (set_family AF_INET a1)).
  assert (wf_sa a2) as H2 by (by apply put_sa_wf).
  assert (get_sa 0 2 a2 = Ret (family_bytes AF_INET)) as Hf by (by apply get_put_same).
  assert (get_sa off_v4 4 a2 = Ret d) as Hv4' 
    by (rewrite <- Hv4; change (get_sa off_v4 4 a1) with (get_sa off_v4 4 (set_family AF_INET a1));
        by apply get_put_after).
  assert (family a2 = AF_INET) as Hfam by done. clearbody a2. cbv zeta.
  split; [by apply put_sa_wf|]. split; [done|].
  split; [rewrite <- Hf; by apply get_put_before|].
  split; [by apply get_put_same|]. rewrite <- Hv4'. by apply get_put_after.
Qed.

Lemma set_port_layout a port :
  wf_sa a → family a = AF_INET →
  let a' := sockaddr_set_port a port in
  wf_sa a' ∧ family a' = AF_INET ∧ get_sa 0 2 a' = get_sa 0 2 a ∧
  get_sa off_port 2 a' = Ret (htons port) ∧ get_sa off_v4 4 a' = get_sa off_v4 4 a.
Proof.
  intros Hwf Hf. cbv zeta. unfold sockaddr_set_port. rewrite Hf. cbn [Z.eqb AF_INET6 AF_INET Pos.eqb].
  split; [by apply put_sa_wf|]. split; [done|].
  split; [by apply get_put_before|]. split; [by apply get_put_same|by apply get_put_after].
Qed.

Lemma string_v4 `{!Inet} a d port buf len :
  family a = AF_INET → get_sa off_v4 4 a = Ret d → get_sa off_port 2 a = Ret (htons port) →
  0 ≤ port < 65536 → x00 ∉ inet_ntop AF_INET d → zlen buf = len → len < 2 ^ 32 →
  zlen (inet_ntop AF_INET d) + 1 + zlen (dec port) < len →
  ∃ buf', sockaddr_string a buf len = Ret buf' ∧
    take (Z.to_nat (zlen (inet_ntop AF_INET d) + 1 + zlen (dec port) + 1)) buf' =
      cells (inet_ntop AF_INET d ++ str_of ":" ++ dec port ++ [x00]).
Proof.
  intros Hf Hd Hport Hp Hnul Hbuf Hlen Hfit. unfold sockaddr_string. rewrite Hf. cbn [Z.eqb AF_INET Pos.eqb].
  rewrite Hd. cbn [mbind outcome_bind]. unfold ntop_into. set (text := inet_ntop 2 d).
  change (inet_ntop AF_INET d) with text in *. destruct (Z.ltb_spec (zlen text) len); [|lia].
  assert (splice 0 (cells (text ++ [x00])) buf = cells text ++ Some x00 :: drop (length text + 1) buf) as ->.
  { unfold splice. rewrite length_fmap, length_app, fmap_app, <- app_assoc. done. }
  rewrite strlen_text by done. cbn [mbind outcome_bind]. rewrite Hport. cbn [mbind outcome_bind].
  rewrite ntohs_htons by done. unfold u64. rewrite Z.mod_small by lia.
  assert (zlen (str_of ":" ++ dec port) = 1 + zlen (dec port)) as Ht by (rewrite length_app; cbn; lia).
  rewrite snprintf_fits; [|lia| |lia].
  2:{ rewrite length_app, length_fmap. cbn [length]. rewrite length_drop. lia. }
  eexists. split; [done|]. unfold splice. rewrite Nat2Z.id.
  assert (∀ m, take (length text) (cells text ++ m) = cells text) as ->
    by (intros; apply take_app_length'; by rewrite length_fmap).
  rewrite app_assoc, take_app_length'.
  - by rewrite <- fmap_app, !app_assoc.
  - rewrite length_app, !length_fmap, length_app. cbn [length]. lia.
Qed.

(** * Theorems *)

(** C25: an IPv4 address made from a text and a port has the family, the port in
    network order and the address bytes where the system looks for them, and
    its length is that of [struct sockaddr_in]; [set_port] changes the port
    alone; and when the text is the canonical one, [sockaddr_string] prints
    text, colon and port, if they fit. *)
Theorem sockaddr_v4_roundtrip `{!Inet} text d port port' buf len :
  0 ≤ port < 65536 → 0 ≤ port' < 65536 → inet_pton4 text = Some d → zlen d = 4 →
  inet_ntop AF_INET d = text → x00 ∉ text →
  zlen buf = len → len < 2 ^ 32 → zlen text + 1 + zlen (dec port') < len →
  ∃ a, sockaddr_set_v4 (Some text) port = (0, a) ∧ sockaddr_len a = sizeof_v4 ∧
    (f ← get_sa 0 2 a; Ret (family_of f)) = Ret AF_INET ∧
    (p ← get_sa off_port 2 a; Ret (ntohs p)) = Ret port ∧
    get_sa off_v4 4 a = Ret d ∧
    let a' := sockaddr_set_port a port' in
    (p ← get_sa off_port 2 a'; Ret (ntohs p)) = Ret port' ∧
    get_sa off_v4 4 a' = Ret d ∧ get_sa 0 2 a' = get_sa 0 2 a ∧
    ∃ buf', sockaddr_string a' buf len = Ret buf' ∧
      take (Z.to_nat (zlen text + 1 + zlen (dec port') + 1)) buf' =
        cells (text ++ str_of ":" ++ dec port' ++ [x00]).
Proof.
  intros Hp Hp' Hpton Hd Hntop Hnul Hbuf Hlen Hfit. unfold sockaddr_set_v4. rewrite Hpton.
  destruct (v4_layout d port Hd) as (Hwf & Hf & H0 & Hport & Hv4).
  eexists. split; [done|]. revert Hwf Hf H0 Hport Hv4. generalize (put_sa off_port (htons port)
    (put_sa 0 (family_bytes AF_INET) (set_family AF_INET (put_sa off_v4 d zeroed)))).
  intros a Hwf Hf H0 Hport Hv4.
  destruct (set_port_layout a port' Hwf Hf) as (Hwf' & Hf' & H0' & Hport' & Hv4').
  split; [unfold sockaddr_len; by rewrite Hf|]. rewrite H0, Hport.
  split; [done|]. split; [cbn; f_equal; by apply ntohs_htons|]. split; [done|].
  cbv zeta. rewrite Hport', Hv4', H0', H0. split; [cbn; f_equal; by apply ntohs_htons|].
  split; [done|]. split; [done|]. rewrite <- Hntop in *.
  apply string_v4; [done|congruence|done..].
Qed.

(** C28: a path is accepted exactly when it is there, not empty, and at most 106
    bytes long (one of 107 bytes is refused although it and its null would fit
    in the 108 bytes of [sun_path]); the address then has the family, the path
    and its terminating null in place, and its length is that of
    [struct sockaddr_un].  A path that is refused leaves the address as it
    was. *)
Theorem sockaddr_unix_path old path len :
  x00 ∉ path → 0 ≤ len ≤ zlen path → zlen path < 2 ^ 32 →
  let n := if len =? 0 then zlen path else len in
  if (0 <? zlen path) && (n <=? 106) then
    ∃ a, sockaddr_set_unix old (Some path) len = Ret (0, a) ∧ sockaddr_len a = sizeof_un ∧
      get_sa 0 2 a = Ret (family_bytes AF_UNIX) ∧
      strlen (slice off_path sizeof_path (sa a)) = Ret n ∧
      get_sa off_path n a = Ret (take (Z.to_nat n) path)
  else sockaddr_set_unix old (Some path) len = Ret (-1, old).
Proof.
  intros Hnul Hlen Hmax n. unfold sockaddr_set_unix. destruct path as [|b path']; [done|].
  set (path := b :: path') in *. fold n.
  assert (0 < zlen path) as Hpos by (unfold path; cbn [length]; lia).
  assert (1 ≤ n ≤ zlen path) as Hn by (unfold n; destruct (Z.eqb_spec len 0); lia).
  clearbody n path. clear b path'.
  destruct (Z.ltb_spec 0 (zlen path)); [|lia]. cbn [andb].
  unfold u64, sizeof_path. rewrite Z.mod_small by lia.
  destruct (Z.leb_spec n 106), (Z.leb_spec 108 (n + 1)); try lia; [|done].
  destruct (Z.ltb_spec (zlen path + 1) n); [lia|].
  rewrite take_app_le by lia. set (d := take (Z.to_nat n) path).
  assert (zlen d = n) as Hd by (unfold d; rewrite length_take; lia).
  assert (x00 ∉ d) as Hdn by (intros Hin; apply Hnul;
    rewrite <- (take_drop (Z.to_nat n) path); apply elem_of_app; by left).
  clearbody d. set (a1 := put_sa 0 (family_bytes AF_UNIX) (set_family AF_UNIX zeroed)).
  eexists. split; [done|]. split; [done|].
  assert (wf_sa a1) as Hwf by by vm_compute.
  split; [|split].
  - rewrite get_put_before; [by vm_compute|done|by vm_compute..].
  - cbn [put_sa sa]. assert (drop 2 (sa a1) = replicate 110 (Some x00)) as Hz by by vm_compute.
    unfold slice, splice, off_path. rewrite drop_app_length' by done.
    assert (∀ k, drop (Z.to_nat 2 + k) (sa a1) = replicate (110 - k) (Some x00)) as ->
      by (intros k; rewrite <- drop_drop; change (Z.to_nat 2) with 2%nat; rewrite Hz; apply drop_replicate).
    rewrite length_fmap.
    destruct (110 - length d)%nat as [|k] eqn:Hk; [lia|]. cbn [replicate].
    rewrite take_app_ge by (rewrite length_fmap; lia). rewrite length_fmap.
    destruct (Z.to_nat 108 - length d)%nat as [|j] eqn:Hj; [lia|]. cbn [take].
    rewrite strlen_text by done. by rewrite Hd.
  - rewrite <- Hd. apply get_put_same; [done|by vm_compute|unfold off_path, sizeof_union; lia|done].
Qed.

(** [sockaddr_sockname] does not set the family of the address it fills: it
    stays 0, so the address counts as one of [sizeof(struct sockaddr)] bytes
    (16, whatever the kernel's name), [set_port] does nothing to it, and
    [sockaddr_string] takes it for an IPv6 address. *)
Theorem sockaddr_sockname_family {E} `{!Errno E, !SockOps E, !Inet} fd (e : E) r d e' :
  sys_getsockname fd sizeof_sa e = (0, d, e') → r = take 16 d →
  ∃ a, sockaddr_sockname fd e = Ret ((0, a), e') ∧
    get_sa 0 (zlen r) a = Ret r ∧ family a = 0 ∧ sockaddr_len a = sizeof_sa ∧
    (∀ port, sockaddr_set_port a port = a) ∧
    ∀ buf len, sockaddr_string a buf len =
               (sockaddr_string (set_family AF_INET6 a) buf len).
Proof.
  intros Hname ->. unfold sockaddr_sockname. autorewrite with run.
  change (sockaddr_len zeroed) with sizeof_sa. rewrite Hname. mrun.
  eexists. split; [done|]. split; [|done].
  apply get_put_same; [done|done| |done]. rewrite length_take. unfold sizeof_union. lia.
Qed.

(** * Witnesses *)

Lemma sockaddr_v4_roundtrip_witness :
  let text := str_of "127.0.0.1" in
  ∃ a, sockaddr_set_v4 (Some text) 8800 = (0, a) ∧ sockaddr_len a = sizeof_v4 ∧
    (f ← get_sa 0 2 a; Ret (family_of f)) = Ret AF_INET ∧
    (p ← get_sa off_port 2 a; Ret (ntohs p)) = Ret 8800 ∧
    get_sa off_v4 4 a = Ret localhost ∧
    let a' := sockaddr_set_port a 80 in
    (p ← get_sa off_port 2 a'; Ret (ntohs p)) = Ret 80 ∧
    get_sa off_v4 4 a' = Ret localhost ∧ get_sa 0 2 a' = get_sa 0 2 a ∧
    ∃ buf', sockaddr_string a' (replicate 32 None) 32 = Ret buf' ∧
      take (Z.to_nat (zlen text + 1 + zlen (dec 80) + 1)) buf' =
        cells (text ++ str_of ":" ++ dec 80 ++ [x00]).
Proof.
  apply (sockaddr_v4_roundtrip (str_of "127.0.0.1") localhost 8800 80 (replicate 32 None) 32);
    [lia|lia|vm_compute; reflexivity..| |done|lia|by vm_compute].
  by apply (bool_decide_unpack _).
Defined.

Lemma sockaddr_unix_path_witness :
  let path := str_of "/tmp/s" in
  let n := if 0 =? 0 then zlen path else 0 in
  if (0 <? zlen path) && (n <=? 106) then
    ∃ a, sockaddr_set_unix zeroed (Some path) 0 = Ret (0, a) ∧ sockaddr_len a = sizeof_un ∧
      get_sa 0 2 a = Ret (family_bytes AF_UNIX) ∧
      strlen (slice off_path sizeof_path (sa a)) = Ret n ∧
      get_sa off_path n a = Ret (take (Z.to_nat n) path)
  else sockaddr_set_unix zeroed (Some path) 0 = Ret (-1, zeroed).
Proof.
  apply (sockaddr_unix_path zeroed (str_of "/tmp/s") 0); [by apply (bool_decide_unpack _)|by_computing|done].
Defined.

Lemma sockaddr_sockname_family_witness :
  let h := with_open host0 {[3]} in
  ∃ a, sockaddr_sockname 3 h = Ret ((0, a), h) ∧
    get_sa 0 (zlen host_name) a = Ret host_name ∧ family a = 0 ∧ sockaddr_len a = sizeof_sa ∧
    (∀ port, sockaddr_set_port a port = a) ∧
    ∀ buf len, sockaddr_string a buf len = (sockaddr_string (set_family AF_INET6 a) buf len).
Proof.
  intros h. by apply (sockaddr_sockname_family 3 h host_name host_name h).
Defined.
