(* ===== verification/Net.v ===== *)
(** * Network helpers ([net.c], [net.h])

    Blocking and non-blocking TCP and local sockets on the kernel's calls. *)
From stdpp Require Import strings.
From S2P Require Import Prelude Alloc Sys Cstring Log Event Host Sockaddr.

Definition ERR_LEN : Z := 256.
Definition AF_UNSPEC : Z := 0.
Definition SOCK_STREAM : Z := 1.
Definition SOL_SOCKET : Z := 1.
Definition SO_REUSEADDR : Z := 2.
Definition SO_KEEPALIVE : Z := 9.
Definition IPPROTO_TCP : Z := 6.
Definition TCP_NODELAY : Z := 1.
Definition TCP_KEEPIDLE : Z := 4.
Definition TCP_KEEPINTVL : Z := 5.
Definition TCP_KEEPCNT : Z := 6.
Definition O_NONBLOCK : Z := 0x800.

(** The caller's buffer for the reason of a failure. *)
Class ErrBuf (E : Type) := put_err : list byte → E → E.

(** The value of a comparison. *)
Definition cmp (b : bool) : Z := if b then 1 else 0.

Section net.
Context {E : Type} `{!Errno E, !Logger E, !IoOps E, !FdOps E, !SockOps E, !Resolver E, !ErrBuf E, !Inet}.

(** [err]: is there a buffer? *)
Definition net_err (err : bool) (text : list byte) : M E unit :=
  if negb err then mret tt
  else sys (λ e, (tt, put_err (take (Z.to_nat (ERR_LEN - 1)) text ++ [x00]) e)).

Definition err_errno (err : bool) (text : list byte) : M E unit :=
  e ← errno; net_err err (text ++ strerror (E:=E) e).

Definition reuse (err : bool) (fd : Z) : M E Z :=
  r ← sys (sys_setsockopt fd SOL_SOCKET SO_REUSEADDR 1);
  if r =? -1 then err_errno err (str_of "setsockopt SO_REUSEADDR: ");; mret (-1)
  else mret 0.

(** The comparison [fd == socket(...)] leaves [fd] alone. *)
Definition newsocket (err : bool) (domain : Z) : M E Z :=
  let fd := -1 in
  s ← sys (sys_socket domain SOCK_STREAM 0);
  if cmp (fd =? s) =? -1 then err_errno err (str_of "socket: ");; mret (-1)
  else
    r ← reuse err fd;
    if r =? -1 then _ ← sys (sys_close fd); mret (-1)
    else mret fd.

Definition tcp_nonblock (err : bool) (fd : Z) : M E Z :=
  flags ← sys (sys_getfl fd);
  if flags =? -1 then err_errno err (str_of "fcntl F_GETFL: ");; mret (-1)
  else
    r ← sys (sys_setfl fd (Z.lor flags O_NONBLOCK));
    if r =? -1 then err_errno err (str_of "fcntl F_SETFL O_NONBLOCK: ");; mret (-1)
    else mret 0.

Definition tcp_listen (err : bool) (fd : Z) (sa : block) : M E Z :=
  r ← sys (sys_bind fd sa);
  if r =? -1 then err_errno err (str_of "bind: ");; _ ← sys (sys_close fd); mret (-1)
  else
    r ← sys (sys_listen fd 511);
    if r =? -1 then err_errno err (str_of "listen: ");; _ ← sys (sys_close fd); mret (-1)
    else mret 0.

(** The loop of [tcp_connect] over the addresses found; -1 where the code
    goes to [e]. *)
Fixpoint connect_loop (err : bool) (nonblock fd : Z) (servinfo : list addrinfo) : M E Z :=
  match servinfo with
  | [] => err_errno err (str_of "connecting ");; mret (-1)
  | p :: servinfo =>
      s ← sys (sys_socket (ai_family p) (ai_socktype p) (ai_protocol p));
      if cmp (fd =? s) =? -1 then connect_loop err nonblock fd servinfo
      else
        r ← reuse err fd;
        if r =? -1 then mret (-1)
        else
          nb ← (if nonblock =? 1 then tcp_nonblock err fd else mret 0);
          if negb (nb =? 0) then mret (-1)
          else
            c ← sys (sys_connect fd (cells (ai_addr p)));
            if c =? -1 then
              e ← errno;
              if (e =? EINPROGRESS) && (nonblock =? 1) then mret fd
              else _ ← sys (sys_close fd); connect_loop err nonblock fd servinfo
            else mret fd
  end.

Definition port_buf (port : Z) : list byte := take 5 (dec port).

Definition tcp_connect (err : bool) (addr : list byte) (port nonblock : Z) : M E Z :=
  '(rv, servinfo) ← sys (sys_getaddrinfo (Some addr) (Some (port_buf port)) 0 AF_UNSPEC);
  if negb (rv =? 0) then net_err err (gai_strerror (E:=E) rv);; mret (-1)
  else connect_loop err nonblock (-1) servinfo.

(** [strncpy] into [sun_path]: padded with nulls, but for the last byte. *)
Definition un_address (path : list byte) (last : cell) : block :=
  cells (family_bytes AF_UNIX) ++
  cells (take 107 path ++ replicate (107 - length path) x00) ++ [last].

Definition unix_connect (err : bool) (path : list byte) (nonblock : Z) : M E Z :=
  let fd := -1 in
  s ← newsocket err AF_UNIX;
  if cmp (fd =? s) =? -1 then mret (-1)
  else
    nb ← (if nonblock =? 1 then tcp_nonblock err fd else mret 0);
    if nb =? -1 then mret (-1)
    else
      r ← sys (sys_connect fd (un_address path None));
      if r =? -1 then
        e ← errno;
        if (e =? EINPROGRESS) && (nonblock =? 1) then mret fd
        else err_errno err (str_of "connect: ");; _ ← sys (sys_close fd); mret (-1)
      else mret fd.

(** The result, and the bytes stored in [buf]. *)
Fixpoint readn_loop (fuel : nat) (fd sz nleft : Z) (buf : list byte) : M E (Z * list byte) :=
  match fuel with
  | O => hang
  | S fuel =>
      if nleft <=? 0 then mret (sz - nleft, buf)
      else
        '(nread, d) ← sys (sys_read fd nleft);
        if nread <? 0 then
          e ← errno;
          if e =? EINTR then readn_loop fuel fd sz nleft buf else mret (-1, buf)
        else if nread =? 0 then mret (sz - nleft, buf)
        else readn_loop fuel fd sz (nleft - nread) (buf ++ d)
  end.

Definition readn (fuel : nat) (fd sz : Z) : M E (Z * list byte) := readn_loop fuel fd sz sz [].

(** [buf]: the bytes not written yet. *)
Fixpoint writen_loop (fuel : nat) (fd : Z) (buf : block) (sz nleft : Z) : M E Z :=
  match fuel with
  | O => hang
  | S fuel =>
      if nleft <=? 0 then mret sz
      else
        nwritten ← sys (sys_write fd (take (Z.to_nat nleft) buf));
        if nwritten <=? 0 then
          e ← errno;
          if (nwritten <? 0) && (e =? EINTR) then writen_loop fuel fd buf sz nleft else mret (-1)
        else writen_loop fuel fd (drop (Z.to_nat nwritten) buf) sz (nleft - nwritten)
  end.

Definition writen (fuel : nat) (fd : Z) (buf : block) (sz : Z) : M E Z := writen_loop fuel fd buf sz sz.

(** The texts that the calls below store: in a buffer of some bytes, if given. *)
Definition ntop_text (af : Z) (d : list byte) (ip : option Z) : option (list byte) :=
  match ip with
  | Some ip_len => if zlen (inet_ntop af d) <? ip_len then Some (inet_ntop af d) else None
  | None => None
  end.

Definition resolve (err : bool) (host : list byte) (ip_len : Z) : M E (Z * option (list byte)) :=
  '(rv, info) ← sys (sys_getaddrinfo (Some host) None 0 AF_UNSPEC);
  if negb (rv =? 0) then net_err err (gai_strerror (E:=E) rv);; mret (-1, None)
  else
    match info with
    | [] => ub
    | ai :: _ =>
        if ai_family ai =? AF_INET then
          if zlen (ai_addr ai) <? 8 then ub
          else mret (0, ntop_text AF_INET (slice off_v4 4 (ai_addr ai)) (Some ip_len))
        else mret (0, None)
    end.

Fixpoint server_loop (err : bool) (servinfo : list addrinfo) (text : list byte) : M E Z :=
  match servinfo with
  | [] => net_err err text;; mret (-1)
  | p :: servinfo =>
      fd ← sys (sys_socket (ai_family p) (ai_socktype p) (ai_protocol p));
      if fd =? -1 then server_loop err servinfo text
      else
        r ← reuse err fd;
        if r =? -1 then mret (-1)
        else
          r ← tcp_listen err fd (cells (ai_addr p));
          if r =? -1 then mret (-1) else mret fd
  end.

Definition tcp_server (err : bool) (port : Z) (bindaddr : option (list byte)) (tcp6 : Z) : M E Z :=
  let family := if tcp6 =? 1 then AF_INET6 else AF_INET in
  '(rv, servinfo) ← sys (sys_getaddrinfo bindaddr (Some (port_buf port)) AI_PASSIVE family);
  if negb (rv =? 0) then net_err err (gai_strerror (E:=E) rv);; mret (-1)
  else
    server_loop err servinfo
      (str_of "bind to addr error: " ++ default (str_of "(null)") bindaddr ++ str_of ":" ++ dec port).

Definition unix_server (err : bool) (path : list byte) (perm : Z) : M E Z :=
  fd ← newsocket err AF_UNIX;
  if fd =? -1 then mret (-1)
  else
    r ← tcp_listen err fd (un_address path (Some x00));
    if r =? -1 then mret (-1)
    else
      _ ← (if negb (perm =? 0) then sys (sys_chmod (take 107 path) perm) else mret 0);
      mret fd.

(** The descriptor, and the peer's address, of which [n] bytes fit. *)
Fixpoint nonblock_accept (fuel : nat) (err : bool) (fd n : Z) : M E (Z * list byte) :=
  match fuel with
  | O => hang
  | S fuel =>
      '(cfd, name) ← sys (sys_accept4 fd n 0);
      if cfd =? -1 then
        e ← errno;
        if e =? EINTR then nonblock_accept fuel err fd n
        else err_errno err (str_of "accept: ");; mret (-1, name)
      else mret (cfd, name)
  end.

(** [struct sockaddr_storage], filled with a name. *)
Definition storage (name : list byte) : block :=
  cells (take 128 name) ++ replicate (128 - length name) None.

(** The text and the port of a name, as far as [ip] and [port] ask for them. *)
Definition name_texts (name : list byte) (ip : option Z) (port : bool) : outcome (option (list byte) * option Z) :=
  f ← defined (slice 0 2 (storage name));
  let '(af, off, n) := if family_of f =? AF_INET then (AF_INET, off_v4, 4) else (AF_INET6, off_v6, 16) in
  t ← match ip with
      | Some _ => d ← defined (slice off n (storage name)); Ret (ntop_text af d ip)
      | None => Ret None
      end;
  p ← (if port then d ← defined (slice off_port 2 (storage name)); Ret (Some (ntohs d)) else Ret None);
  Ret (t, p).

Definition tcp_accept (fuel : nat) (err : bool) (fd : Z) (ip : option Z) (port : bool) :
    M E (Z * option (list byte) * option Z) :=
  '(cfd, name) ← nonblock_accept fuel err fd 128;
  if cfd =? -1 then mret (-1, None, None)
  else '(t, p) ← lift (name_texts name ip port); mret (cfd, t, p).

Definition unix_accept (fuel : nat) (err : bool) (fd : Z) : M E Z :=
  '(cfd, _) ← nonblock_accept fuel err fd sizeof_un;
  if cfd =? -1 then mret (-1) else mret cfd.

Definition tcp_nodelay (err : bool) (fd enable : Z) : M E Z :=
  r ← sys (sys_setsockopt fd IPPROTO_TCP TCP_NODELAY enable);
  if r =? -1 then err_errno err (str_of "setsockopt TCP_NODELAY: ");; mret (-1) else mret 0.

Definition tcp_keepalive (err : bool) (fd interval : Z) : M E Z :=
  r ← sys (sys_setsockopt fd SOL_SOCKET SO_KEEPALIVE 1);
  if r =? -1 then err_errno err (str_of "setsockopt SO_KEEPALIVE: ");; mret (-1)
  else
    r ← sys (sys_setsockopt fd IPPROTO_TCP TCP_KEEPIDLE interval);
    if r =? -1 then err_errno err (str_of "setsockopt TCP_KEEPIDLE: ");; mret (-1)
    else
      let val := interval `quot` 3 in
      let val := if val =? 0 then 1 else val in
      r ← sys (sys_setsockopt fd IPPROTO_TCP TCP_KEEPINTVL val);
      if r =? -1 then err_errno err (str_of "setsockopt TCP_KEEPINTVL: ");; mret (-1)
      else
        r ← sys (sys_setsockopt fd IPPROTO_TCP TCP_KEEPCNT 3);
        if r =? -1 then err_errno err (str_of "setsockopt TCP_KEEPCNT: ");; mret (-1)
        else mret 0.

(** [peer] and [local]; an unknown name is given as a question mark and port 0. *)
Definition name_result (r : Z) (name : list byte) (ip : option Z) (port : bool) :
    M E (Z * option (list byte) * option Z) :=
  if r =? -1 then
    match ip with
    | Some ip_len =>
        if ip_len <? 2 then ub else mret (-1, Some (str_of "?"), if port then Some 0 else None)
    | None => mret (-1, None, if port then Some 0 else None)
    end
  else '(t, p) ← lift (name_texts name ip port); mret (0, t, p).

Definition peer (fd : Z) (ip : option Z) (port : bool) : M E (Z * option (list byte) * option Z) :=
  '(r, name) ← sys (sys_getpeername fd 128); name_result r name ip port.

Definition local (fd : Z) (ip : option Z) (port : bool) : M E (Z * option (list byte) * option Z) :=
  '(r, name) ← sys (sys_getsockname fd 128); name_result r name ip port.
End net.

(** * Specification *)

(** The open descriptors: a call that makes one returns a number that was not
    in use, [close] frees its argument, no other call changes them, and calls
    on a descriptor that is not open fail.  [getaddrinfo] succeeds with at
    least one address. *)
Class NetLaws (E : Type) `{!Errno E, !FdOps E, !SockOps E, !Resolver E, !ErrBuf E} (fds : E → gset Z) := {
  socket_law d t p e r e' : sys_socket d t p e = (r, e') →
    (r = -1 ∧ fds e' = fds e) ∨ (0 ≤ r ∧ (r ∉ fds e) ∧ fds e' = ({[r]} ∪ fds e));
  close_law fd e : fds (snd (sys_close fd e)) = fds e ∖ {[fd]};
  setsockopt_law fd l o v e r e' : sys_setsockopt fd l o v e = (r, e') →
    fds e' = fds e ∧ (r = -1 ∨ r = 0 ∧ fd ∈ fds e);
  bind_law fd d e : fds (snd (sys_bind fd d e)) = fds e;
  listen_law fd n e : fds (snd (sys_listen fd n e)) = fds e;
  resolve_law h p f a e r l e' : sys_getaddrinfo h p f a e = (r, l, e') →
    fds e' = fds e ∧ (r = 0 → l ≠ []);
  put_err_law t e : fds (put_err t e) = fds e;
  fds_range e fd : fd ∈ fds e → 0 ≤ fd;
}.

(** Reading and writing one descriptor: what was read is the start of the
    input, what was written is added to the output, and calls are interrupted
    finitely often. *)
Class IoLaws (E : Type) `{!Errno E, !IoOps E} (fd : Z)
    (input : E → list byte) (sent : E → block) (interrupts : E → nat) := {
  read_law n e r d e' : 0 < n → sys_read fd n e = (r, d, e') →
    (r = -1 ∧ d = [] ∧ input e' = input e ∧
       (get_errno e' = EINTR → (interrupts e' < interrupts e)%nat)) ∨
    (r = zlen d ∧ r ≤ n ∧ input e = d ++ input e' ∧ (interrupts e' ≤ interrupts e)%nat);
  write_law d e r e' : sys_write fd d e = (r, e') →
    (r = -1 ∧ sent e' = sent e ∧ (get_errno e' = EINTR → (interrupts e' < interrupts e)%nat)) ∨
    (0 ≤ r ≤ zlen d ∧ sent e' = sent e ++ take (Z.to_nat r) d ∧ (interrupts e' ≤ interrupts e)%nat);
}.

(** * Lemmas *)

Lemma add_remove (x : Z) (X : gset Z) : x ∉ X → ({[x]} ∪ X) ∖ {[x]} = X.
Proof.
  intros Hx. apply leibniz_equiv. intros y.
  rewrite elem_of_difference, elem_of_union, elem_of_singleton. split; [tauto|].
  intros Hy. split; [by right|]. by intros ->.
Qed.

Section net_lemmas.
Context {E : Type} `{!Errno E, !Logger E, !FdOps E, !SockOps E, !Resolver E, !ErrBuf E, !Inet}.
Context (fds : E → gset Z) `{!NetLaws E fds}.

Lemma err_errno_run err text (e : E) :
  ∃ e', err_errno err text e = Ret (tt, e') ∧ fds e' = fds e.
Proof.
  unfold err_errno, errno, net_err. autorewrite with run. destruct err; cbn [negb]; mrun;
    (eexists; split; [done|]); [apply put_err_law|done].
Qed.

Lemma net_err_run err text (e : E) :
  ∃ e', net_err err text e = Ret (tt, e') ∧ fds e' = fds e.
Proof.
  unfold net_err. destruct err; cbn [negb]; mrun; (eexists; split; [done|]); [apply put_err_law|done].
Qed.

Lemma reuse_run err fd (e : E) :
  ∃ r e', reuse err fd e = Ret (r, e') ∧ fds e' = fds e ∧ (r = -1 ∨ r = 0 ∧ fd ∈ fds e).
Proof.
  unfold reuse. autorewrite with run.
  destruct (sys_setsockopt fd SOL_SOCKET SO_REUSEADDR 1 e) as [r e1] eqn:Hs.
  apply setsockopt_law in Hs as [Hf Hr]. destruct (Z.eqb_spec r (-1)) as [->|Hne].
  - autorewrite with run. destruct (err_errno_run err (str_of "setsockopt SO_REUSEADDR: ") e1) as (e2 & -> & He).
    exists (-1), e2. split; [done|]. split; [congruence|by left].
  - exists 0, e1. split; [done|]. split; [done|]. right. destruct Hr as [?|[_ ?]]; done.
Qed.

(** -1 is no descriptor. *)
Lemma reuse_none err (e : E) : ∃ e', reuse err (-1) e = Ret (-1, e') ∧ fds e' = fds e.
Proof.
  destruct (reuse_run err (-1) e) as (r & e' & -> & Hf & Hr). exists e'. split; [|done].
  destruct Hr as [->|[_ Hin]]; [done|]. apply fds_range in Hin. lia.
Qed.

Lemma cmp_never b : (cmp b =? -1) = false.
Proof. by destruct b. Qed.

Lemma newsocket_run err domain (e : E) :
  ∃ e', newsocket err domain e = Ret (-1, e') ∧
    (fds e' = fds e ∨ ∃ s, (s ∉ fds e) ∧ fds e' = ({[s]} ∪ fds e)).
Proof.
  unfold newsocket. autorewrite with run.
  destruct (sys_socket domain SOCK_STREAM 0 e) as [s e1] eqn:Hs. rewrite cmp_never.
  apply socket_law in Hs. autorewrite with run.
  destruct (reuse_none err e1) as (e2 & -> & H2). mrun.
  pose proof (close_law (-1) e2) as H3. destruct (sys_close (-1) e2) as [c e3]. cbn in H3. mrun.
  exists e3. split; [done|].
  assert (fds e3 = fds e1) as ->.
  { rewrite H3, H2. apply leibniz_equiv. intros x. rewrite elem_of_difference, elem_of_singleton.
    split; [by intros [? _]|]. intros Hx. split; [done|]. intros ->. apply fds_range in Hx. lia. }
  destruct Hs as [[_ ?]|(_ & ? & ?)]; [by left|right; eauto].
Qed.

Lemma listen_run err fd sa (e : E) :
  ∃ r e', tcp_listen err fd sa e = Ret (r, e') ∧
    ((r = 0 ∧ fds e' = fds e) ∨ (r = -1 ∧ fds e' = (fds e ∖ {[fd]}))).
Proof.
  unfold tcp_listen. autorewrite with run. pose proof (bind_law fd sa e) as Hb.
  destruct (sys_bind fd sa e) as [r1 e1]. cbn in Hb. destruct (r1 =? -1); autorewrite with run.
  { destruct (err_errno_run err (str_of "bind: ") e1) as (e2 & -> & He2).
    pose proof (close_law fd e2) as Hc. autorewrite with run. destruct (sys_close fd e2) as [c e3]. mrun.
    eexists _, e3. split; [done|]. right. split; [done|]. cbn in Hc. congruence. }
  pose proof (listen_law fd 511 e1) as Hl. destruct (sys_listen fd 511 e1) as [r2 e2]. cbn in Hl.
  destruct (r2 =? -1); autorewrite with run.
  - destruct (err_errno_run err (str_of "listen: ") e2) as (e3 & -> & He3).
    pose proof (close_law fd e3) as Hc. autorewrite with run. destruct (sys_close fd e3) as [c e4]. mrun.
    eexists _, e4. split; [done|]. right. split; [done|]. cbn in Hc. congruence.
  - eexists _, e2. split; [done|]. left. split; [done|congruence].
Qed.

Lemma server_loop_run err l text (e : E) :
  ∃ r e', server_loop err l text e = Ret (r, e') ∧
    ((0 ≤ r ∧ (r ∉ fds e) ∧ fds e' = ({[r]} ∪ fds e)) ∨
     (r = -1 ∧ fds e' = fds e) ∨
     (r = -1 ∧ ∃ s e1 e2, (s ∉ fds e) ∧ fds e' = ({[s]} ∪ fds e) ∧
        sys_setsockopt s SOL_SOCKET SO_REUSEADDR 1 e1 = (-1, e2) ∧ s ∈ fds e1)).
Proof.
  revert e. induction l as [|p l IH]; intros e; cbn [server_loop].
  { autorewrite with run. destruct (net_err_run err text e) as (e1 & -> & H1). mrun. eauto 7. }
  autorewrite with run. destruct (sys_socket _ _ _ e) as [s e1] eqn:Hs. apply socket_law in Hs.
  destruct Hs as [[-> H1]|(Hs & Hnew & H1)].
  { destruct (IH e1) as (r & e' & Hrun & Hcase). rewrite H1 in Hcase. exists r, e'. auto. }
  destruct (Z.eqb_spec s (-1)); [lia|]. autorewrite with run.
  unfold reuse. autorewrite with run.
  destruct (sys_setsockopt s SOL_SOCKET SO_REUSEADDR 1 e1) as [r e2] eqn:Hset.
  pose proof (setsockopt_law _ _ _ _ _ _ _ Hset) as [H2 Hr].
  destruct (Z.eqb_spec r (-1)) as [->|Hne]; autorewrite with run.
  - destruct (err_errno_run err (str_of "setsockopt SO_REUSEADDR: ") e2) as (e3 & -> & H3). mrun.
    eexists _, e3. split; [done|]. right. right. split; [done|]. exists s, e1, e2.
    split_and!; [done|congruence|done|]. rewrite H1. apply elem_of_union; left. by apply elem_of_singleton.
  - mrun. destruct (listen_run err s (cells (ai_addr p)) e2) as (r3 & e3 & -> & H3).
    destruct H3 as [[-> H3]|[-> H3]]; mrun.
    + eexists s, e3. split; [done|]. left. split_and!; [done..|congruence].
    + eexists _, e3. split; [done|]. right. left. split; [done|]. rewrite H3, H2, H1. by apply add_remove.
Qed.
End net_lemmas.

Section io_lemmas.
Context {E : Type} `{!Errno E, !IoOps E} (fd : Z).
Context (input : E → list byte) (sent : E → block) (interrupts : E → nat)
  `{!IoLaws E fd input sent interrupts}.

(** Why reading [n] bytes ended with [left] of them missing: none was, or the
    last [read], of just these, found the end of the input, or failed for good. *)
Definition read_ended (left r n : Z) (e' : E) : Prop :=
  (r = n ∧ left = 0) ∨
  (0 < left ∧ ∃ e1,
    (r = n - left ∧ sys_read fd left e1 = (0, [], e')) ∨
    (r = -1 ∧ sys_read fd left e1 = (-1, [], e') ∧ get_errno e' ≠ EINTR)).

Lemma readn_run fuel sz nleft buf (e : E) :
  0 ≤ nleft → (Z.to_nat nleft + interrupts e < fuel)%nat →
  ∃ r d e', readn_loop fuel fd sz nleft buf e = Ret ((r, buf ++ d), e') ∧
    input e = d ++ input e' ∧ zlen d ≤ nleft ∧ read_ended (nleft - zlen d) r sz e'.
Proof.
  revert nleft buf e. induction fuel as [|fuel IH]; intros nleft buf e Hn Hf; [lia|]. cbn [readn_loop].
  destruct (Z.leb_spec nleft 0).
  { exists (sz - nleft), [], e. rewrite app_nil_r. cbn. split; [done|]. split; [done|]. split; [lia|left; lia]. }
  autorewrite with run. destruct (sys_read fd nleft e) as [[r d] e1] eqn:Hread. pose proof Hread as Hlast.
  apply read_law in Hread as [(-> & -> & Hin & Hint)|(-> & Hle & Hin & Hint)]; [|..|done]; mrun.
  - cbn [Z.ltb Z.compare]. unfold errno. mrun. destruct (Z.eqb_spec (get_errno e1) EINTR) as [Heq|Hne].
    + destruct (IH nleft buf e1) as (r & d & e' & Hrun & H1 & H2 & H3); [lia|specialize (Hint Heq); lia|].
      exists r, d, e'. rewrite <- Hin. auto.
    + exists (-1), [], e1. rewrite app_nil_r. split; [done|]. cbn. split; [done|]. split; [lia|right].
      rewrite Z.sub_0_r. split; [lia|]. exists e. by right.
  - destruct (Z.ltb_spec (zlen d) 0); [lia|]. destruct (Z.eqb_spec (zlen d) 0) as [Hz|Hz].
    + exists (sz - nleft), [], e1. rewrite app_nil_r. split; [done|].
      destruct d; [|cbn in Hz; lia]. cbn. split; [done|]. split; [lia|right].
      rewrite Z.sub_0_r. split; [lia|]. exists e. by left.
    + destruct (IH (nleft - zlen d) (buf ++ d) e1) as (r & d' & e' & Hrun & H1 & H2 & H3); [lia..|].
      exists r, (d ++ d'), e'. rewrite app_assoc. split; [done|]. rewrite Hin, H1, app_assoc.
      split; [done|]. rewrite length_app. split; [lia|].
      by replace (nleft - Z.of_nat (length d + length d')) with (nleft - zlen d - zlen d') by lia.
Qed.

Lemma writen_run fuel buf sz nleft (e : E) :
  0 ≤ nleft ≤ zlen buf → (Z.to_nat nleft + interrupts e < fuel)%nat →
  ∃ r e' k, writen_loop fuel fd buf sz nleft e = Ret (r, e') ∧ 0 ≤ k ≤ nleft ∧
    sent e' = sent e ++ take (Z.to_nat k) buf ∧ ((r = sz ∧ k = nleft) ∨ (r = -1 ∧ k < nleft)).
Proof.
  revert buf nleft e. induction fuel as [|fuel IH]; intros buf nleft e Hn Hf; [lia|]. cbn [writen_loop].
  destruct (Z.leb_spec nleft 0).
  { exists sz, e, 0. cbn. rewrite app_nil_r. split_and!; try done; lia. }
  autorewrite with run. destruct (sys_write fd (take (Z.to_nat nleft) buf) e) as [r e1] eqn:Hw.
  apply write_law in Hw. rewrite length_take in Hw.
  destruct Hw as [(-> & Hs & Hint)|(Hr & Hs & Hint)]; mrun.
  - cbn [Z.leb Z.ltb Z.compare]. unfold errno. mrun.
    destruct (Z.eqb_spec (get_errno e1) EINTR) as [Heq|Hne]; mrun.
    + destruct (IH buf nleft e1) as (r & e' & k & Hrun & H1 & H2 & H3); [lia|specialize (Hint Heq); lia|].
      exists r, e', k. rewrite <- Hs. auto.
    + exists (-1), e1, 0. cbn. rewrite app_nil_r. split_and!; try done; try lia.
  - rewrite take_take in Hs. destruct (Z.leb_spec r 0).
    + unfold errno. mrun. destruct (Z.ltb_spec r 0); [lia|]. mrun.
      exists (-1), e1, 0. replace r with 0 in Hs by lia. split_and!; try done; try lia.
    + destruct (IH (drop (Z.to_nat r) buf) (nleft - r) e1) as (r' & e' & k & Hrun & H1 & H2 & H3);
        [rewrite length_drop; lia|lia|].
      exists r', e', (r + k). split; [done|]. split; [lia|]. split; [|lia].
      rewrite H2, Hs, <- app_assoc. f_equal.
      replace (Z.to_nat (r + k)) with (Z.to_nat r + Z.to_nat k)%nat by lia.
      rewrite <- take_take_drop. do 2 f_equal. lia.
Qed.
End io_lemmas.

(** ** The concrete environment *)

#[export] Instance host_errbuf : ErrBuf host := λ t h, with_stderr h t.
#[export] Instance host_resolver : Resolver host := {
  sys_getaddrinfo _ _ _ _ :=
    attempt (-2, []) (λ h, (0, [mk_addrinfo AF_INET6 SOCK_STREAM IPPROTO_TCP (replicate 28 x00);
                                mk_addrinfo AF_INET SOCK_STREAM IPPROTO_TCP host_name], h));
  gai_strerror _ := [];
}.

(** The descriptors that the host has open. *)
Definition host_fds (h : host) : gset Z := filter (λ x, 0 ≤ x) (h_open h).

Lemma new_fd_fresh X : 0 ≤ new_fd X ∧ new_fd X ∉ X.
Proof.
  assert (∀ l, 2 ≤ foldr Z.max 2 l ∧ ∀ x, x ∈ l → x ≤ foldr Z.max 2 l) as Hmax.
  { induction l as [|y l [IH1 IH2]]; cbn; [split; [lia|by intros x ?%not_elem_of_nil]|].
    split; [lia|]. intros x [->|Hx]%elem_of_cons; [lia|]. specialize (IH2 x Hx). lia. }
  unfold new_fd. destruct (Hmax (elements X)) as [H1 H2]. split; [lia|].
  intros Hin. apply elem_of_elements in Hin. apply H2 in Hin. lia.
Qed.

Lemma attempt_cases {A} (fail : A) f h r h' :
  attempt fail f h = (r, h') →
  (∃ l, f (with_script h l) = (r, h') ∧ (length l ≤ length (h_script h))%nat) ∨
  (r = fail ∧ ∃ l x, h' = with_errno (with_script h l) x ∧ (length l < length (h_script h))%nat).
Proof.
  unfold attempt. destruct (h_script h) as [|x l] eqn:Hs.
  - intros Hf. left. exists []. split; [|cbn; lia]. rewrite <- Hf. f_equal. rewrite <- Hs. by destruct h.
  - destruct (x =? 0).
    + intros Hf. left. exists l. split; [done|cbn; lia].
    + intros [= <- <-]. right. split; [done|]. exists l, x. split; [done|cbn; lia].
Qed.

Lemma on_fd_fds fd r h r' h' : on_fd fd (-1) (λ h, (r, h)) h = (r', h') →
  h_open h' = h_open h ∧ (r' = -1 ∨ r' = r ∧ fd ∈ host_fds h).
Proof.
  unfold on_fd. destruct (decide _) as [[H0 Hin]|]; [|intros [= <- <-]; by auto].
  intros [(l & Hf & _)|(-> & l & x & -> & _)]%attempt_cases.
  - injection Hf as <- <-. split; [done|]. right. split; [done|].
    unfold host_fds. apply elem_of_filter. done.
  - by auto.
Qed.

Lemma filter_add x (X : gset Z) : 0 ≤ x → filter (λ x, 0 ≤ x) ({[x]} ∪ X) = {[x]} ∪ filter (λ x, 0 ≤ x) X.
Proof.
  intros Hx. apply leibniz_equiv. intros y.
  rewrite elem_of_union, !elem_of_filter, elem_of_union, elem_of_singleton.
  split; [tauto|]. intros [->|[? ?]]; auto.
Qed.

#[export] Instance host_net_laws : NetLaws host host_fds.
Proof.
  split.
  - intros d t p h r h' [(l & Hf & _)|(-> & l & x & -> & _)]%attempt_cases; [right|by left].
    injection Hf as <- <-. destruct (new_fd_fresh (h_open h)) as [H0 Hnew]. split; [done|].
    unfold host_fds.
    split; [rewrite elem_of_filter; by intros [_ ?]|]. by apply filter_add.
  - intros fd h. unfold host_fds. cbn. apply leibniz_equiv. intros y.
    destruct (decide _) as [[H0 Hin]|Hn]; cbn;
      rewrite ?elem_of_difference, !elem_of_filter, ?elem_of_difference, elem_of_singleton; [tauto|].
    split; [|tauto]. intros [Hy1 Hy2]. split; [done|]. intros ->. auto.
  - intros fd l o v h r h' H. destruct (on_fd_fds _ _ _ _ _ H) as [Ho Hr].
    split; [by unfold host_fds; rewrite Ho|done].
  - intros fd d h. cbn. destruct (on_fd fd (-1) _ h) as [r h'] eqn:H.
    apply on_fd_fds in H as [H _]. unfold host_fds. cbn. by rewrite H.
  - intros fd n h. cbn. destruct (on_fd fd (-1) _ h) as [r h'] eqn:H.
    apply on_fd_fds in H as [H _]. unfold host_fds. cbn. by rewrite H.
  - intros a p f b h r l h' H. cbn in H.
    apply attempt_cases in H as [(s & Hf & _)|(Heq & s & x & -> & _)].
    + injection Hf as <- <- <-. done.
    + injection Heq as -> ->. done.
  - done.
  - intros h fd. unfold host_fds. rewrite elem_of_filter. by intros [? _].
Qed.

#[export] Instance host_io_laws fd : IoLaws host fd (input fd) (output fd) (λ h, length (h_script h)).
Proof.
  split.
  - intros n h r d h' Hn H. cbn in H.
    apply attempt_cases in H as [(s & Hf & Hs)|(Heq & s & x & -> & Hs)].
    + injection Hf as <- <- <-. right. cbn. split; [done|]. split; [rewrite length_take; lia|].
      unfold input. cbn. rewrite lookup_insert_eq. cbn. by rewrite take_drop.
    + injection Heq as -> ->. left. cbn. auto.
  - intros d h r h' H. cbn in H.
    apply attempt_cases in H as [(s & Hf & Hs)|(Heq & s & x & -> & Hs)].
    + injection Hf as <- <-. right. cbn. split; [lia|]. split; [|done].
      unfold output. cbn. by rewrite lookup_insert_eq, Nat2Z.id, firstn_all.
    + left. cbn. auto.
Qed.

(** * Theorems *)

(** C23: [readn] ends, however often it is interrupted, and stores in order the
    next bytes of the input: [sz] of them, or fewer if the last [read], of all
    that is missing, found the end of the input or failed for another reason
    than an interruption.  It returns their number, or -1 after such a failure.
    One round of fuel per byte and per interruption, and one more, are enough. *)
Theorem readn_reads {E} `{!Errno E, !IoOps E} fd
    (input : E → list byte) (sent : E → block) (interrupts : E → nat)
    `{!IoLaws E fd input sent interrupts} fuel sz (e : E) :
  0 ≤ sz → (Z.to_nat sz + interrupts e < fuel)%nat →
  ∃ r d e', readn fuel fd sz e = Ret ((r, d), e') ∧
    input e = d ++ input e' ∧
    ((r = zlen d ∧ zlen d = sz) ∨
     (0 ≤ zlen d < sz ∧ ∃ e1,
       (r = zlen d ∧ sys_read fd (sz - zlen d) e1 = (0, [], e')) ∨
       (r = -1 ∧ sys_read fd (sz - zlen d) e1 = (-1, [], e') ∧ get_errno e' ≠ EINTR))).
Proof.
  intros Hsz Hf. unfold readn.
  destruct (readn_run fd input sent interrupts fuel sz sz [] e) as (r & d & e' & Hrun & H1 & H2 & H3); [done..|].
  exists r, d, e'. split; [done|]. split; [done|].
  destruct H3 as [[-> ?]|(? & e1 & [[-> ?]|?])]; [left; lia|right|right]; (split; [lia|]); exists e1; [left|by right].
  split; [lia|done].
Qed.

(** C24: [writen] ends, however often it is interrupted, and writes the buffer in
    order: all of it when it returns [sz], a proper part of it when it returns
    -1. *)
Theorem writen_writes {E} `{!Errno E, !IoOps E} fd
    (input : E → list byte) (sent : E → block) (interrupts : E → nat)
    `{!IoLaws E fd input sent interrupts} fuel buf sz (e : E) :
  zlen buf = sz → (Z.to_nat sz + interrupts e < fuel)%nat →
  ∃ r e', writen fuel fd buf sz e = Ret (r, e') ∧
    ((r = sz ∧ sent e' = sent e ++ buf) ∨
     (r = -1 ∧ ∃ k, 0 ≤ k < sz ∧ sent e' = sent e ++ take (Z.to_nat k) buf)).
Proof.
  intros Hsz Hf. unfold writen.
  destruct (writen_run fd input sent interrupts fuel buf sz sz e) as (r & e' & k & Hrun & H1 & H2 & H3); [lia..|].
  exists r, e'. split; [done|]. destruct H3 as [[-> ->]|[-> Hk]]; [left|right].
  - rewrite H2, take_ge by lia. done.
  - split; [done|]. exists k. split; [lia|done].
Qed.

(** [fd == socket(...)] compares where it should assign, so no connection
    and no local server is ever made: [tcp_connect], [unix_connect] and
    [unix_server] return -1 whatever the system does, and the descriptor that
    [socket] made for [tcp_connect] is left open. *)
Theorem net_connect_fails {E} `{!Errno E, !Logger E, !FdOps E, !SockOps E, !Resolver E, !ErrBuf E}
    (fds : E → gset Z) `{!NetLaws E fds} err addr port nonblock path perm (e : E) :
  (∃ e', tcp_connect err addr port nonblock e = Ret (-1, e')) ∧
  (∃ e', unix_connect err path nonblock e = Ret (-1, e')) ∧
  (∃ e', unix_server err path perm e = Ret (-1, e')) ∧
  (∀ p l e1 s e2,
     sys_getaddrinfo (Some addr) (Some (port_buf port)) 0 AF_UNSPEC e = (0, p :: l, e1) →
     sys_socket (ai_family p) (ai_socktype p) (ai_protocol p) e1 = (s, e2) → s ≠ -1 →
     ∃ e', tcp_connect err addr port nonblock e = Ret (-1, e') ∧
           (s ∉ fds e) ∧ fds e' = ({[s]} ∪ fds e)).
Proof.
  assert (∀ p l e1 s e2, sys_socket (ai_family p) (ai_socktype p) (ai_protocol p) e1 = (s, e2) →
    ∃ e', connect_loop err nonblock (-1) (p :: l) e1 = Ret (-1, e') ∧ fds e' = fds e2) as Hloop.
  { intros p l e1 s e2 Hs. cbn [connect_loop]. autorewrite with run. rewrite Hs, cmp_never.
    autorewrite with run. destruct (reuse_none fds err e2) as (e3 & -> & H3). mrun. eauto. }
  split; [|split; [|split]].
  - unfold tcp_connect. autorewrite with run.
    destruct (sys_getaddrinfo _ _ _ _ e) as [[rv l] e1] eqn:Hr. destruct (rv =? 0); cbn [negb].
    + destruct l as [|p l]; [apply resolve_law in Hr|].
      * cbn [connect_loop]. autorewrite with run.
        destruct (err_errno_run fds err (str_of "connecting ") e1) as (e2 & -> & _). mrun. eauto.
      * destruct (sys_socket (ai_family p) (ai_socktype p) (ai_protocol p) e1) as [s e2] eqn:Hs.
        destruct (Hloop p l e1 s e2 Hs) as (e' & -> & _). eauto.
    + autorewrite with run. destruct (net_err_run fds err (gai_strerror (E:=E) rv) e1) as (e2 & -> & _). mrun. eauto.
  - unfold unix_connect. autorewrite with run.
    destruct (newsocket_run fds err AF_UNIX e) as (e1 & -> & _). rewrite cmp_never. autorewrite with run.
    assert (∃ nb e2, (if nonblock =? 1 then tcp_nonblock err (-1) else mret 0) e1 = Ret (nb, e2)) as (nb & e2 & ->).
    { destruct (nonblock =? 1); [|eauto]. unfold tcp_nonblock. autorewrite with run.
      destruct (sys_getfl (-1) e1) as [fl e2]. destruct (fl =? -1); autorewrite with run.
      - destruct (err_errno_run fds err (str_of "fcntl F_GETFL: ") e2) as (e3 & -> & _). mrun. eauto.
      - destruct (sys_setfl _ _ e2) as [r e3]. destruct (r =? -1); autorewrite with run; [|eauto].
        destruct (err_errno_run fds err (str_of "fcntl F_SETFL O_NONBLOCK: ") e3) as (e4 & -> & _). mrun. eauto. }
    destruct (nb =? -1); [mrun; eauto|]. autorewrite with run. destruct (sys_connect _ _ e2) as [c e3].
    destruct (c =? -1); [|mrun; eauto]. unfold errno. autorewrite with run.
    destruct (_ && _); [mrun; eauto|]. autorewrite with run.
    destruct (err_errno_run fds err (str_of "connect: ") e3) as (e4 & -> & _). autorewrite with run.
    destruct (sys_close _ e4). mrun. eauto.
  - unfold unix_server. autorewrite with run.
    destruct (newsocket_run fds err AF_UNIX e) as (e1 & -> & _). mrun. eauto.
  - intros p l e1 s e2 Hr Hs Hne. unfold tcp_connect. autorewrite with run. rewrite Hr. cbn [Z.eqb negb].
    destruct (Hloop p l e1 s e2 Hs) as (e' & -> & He'). exists e'. split; [done|].
    apply resolve_law in Hr as [Hr _]. apply socket_law in Hs as [[? _]|(_ & Hnew & H2)]; [done|].
    rewrite Hr in *. split; [done|congruence].
Qed.

(** C22: [tcp_server] returns a descriptor that was not in use and is now the
    only new one, or -1; with -1 every descriptor it made is closed, unless
    [SO_REUSEADDR] could not be set, in which case one stays open. *)
Theorem tcp_server_resources {E} `{!Errno E, !Logger E, !FdOps E, !SockOps E, !Resolver E, !ErrBuf E}
    (fds : E → gset Z) `{!NetLaws E fds} err port bindaddr tcp6 (e : E) :
  ∃ r e', tcp_server err port bindaddr tcp6 e = Ret (r, e') ∧
    ((0 ≤ r ∧ (r ∉ fds e) ∧ fds e' = ({[r]} ∪ fds e)) ∨
     (r = -1 ∧ fds e' = fds e) ∨
     (r = -1 ∧ ∃ s e1 e2, (s ∉ fds e) ∧ fds e' = ({[s]} ∪ fds e) ∧
        sys_setsockopt s SOL_SOCKET SO_REUSEADDR 1 e1 = (-1, e2) ∧ s ∈ fds e1)).
Proof.
  unfold tcp_server. autorewrite with run.
  destruct (sys_getaddrinfo _ _ _ _ e) as [[rv l] e1] eqn:Hr. apply resolve_law in Hr as [Hr _].
  destruct (rv =? 0); cbn [negb].
  - match goal with |- context [server_loop err l ?t e1] =>
      destruct (server_loop_run fds err l t e1) as (r & e' & Hrun & Hcase) end.
    rewrite Hr in Hcase. eauto.
  - autorewrite with run. destruct (net_err_run fds err (gai_strerror (E:=E) rv) e1) as (e2 & -> & H2). mrun.
    eexists _, e2. split; [done|]. right. left. split; [done|congruence].
Qed.

(** * Witnesses *)

Definition host_io0 : host :=
  with_script (with_input host0 {[3 := str_of "hello world"]}) [0; EINTR; 0].

Lemma readn_reads_witness :
  ∃ r d e', readn 20 3 5 host_io0 = Ret ((r, d), e') ∧
    input 3 host_io0 = d ++ input 3 e' ∧
    ((r = zlen d ∧ zlen d = 5) ∨
     (0 ≤ zlen d < 5 ∧ ∃ e1,
       (r = zlen d ∧ sys_read 3 (5 - zlen d) e1 = (0, [], e')) ∨
       (r = -1 ∧ sys_read 3 (5 - zlen d) e1 = (-1, [], e') ∧ get_errno e' ≠ EINTR))).
Proof.
  apply (readn_reads 3 (input 3) (output 3) (λ h, length (h_script h)) 20 5 host_io0); [lia|cbn; lia].
Defined.

Lemma writen_writes_witness :
  ∃ r e', writen 20 3 (cells (str_of "hello")) 5 host_io0 = Ret (r, e') ∧
    ((r = 5 ∧ output 3 e' = output 3 host_io0 ++ cells (str_of "hello")) ∨
     (r = -1 ∧ ∃ k, 0 ≤ k < 5 ∧ output 3 e' = output 3 host_io0 ++ take (Z.to_nat k) (cells (str_of "hello")))).
Proof.
  apply (writen_writes 3 (input 3) (output 3) (λ h, length (h_script h)) 20 (cells (str_of "hello")) 5 host_io0);
    [done|cbn; lia].
Defined.

Lemma net_connect_fails_witness :
  (∃ e', tcp_connect true (str_of "localhost") 80 1 host0 = Ret (-1, e')) ∧
  (∃ e', unix_connect true (str_of "/tmp/s") 1 host0 = Ret (-1, e')) ∧
  (∃ e', unix_server true (str_of "/tmp/s") 0 host0 = Ret (-1, e')) ∧
  (∀ p l e1 s e2,
     sys_getaddrinfo (Some (str_of "localhost")) (Some (port_buf 80)) 0 AF_UNSPEC host0 = (0, p :: l, e1) →
     sys_socket (ai_family p) (ai_socktype p) (ai_protocol p) e1 = (s, e2) → s ≠ -1 →
     ∃ e', tcp_connect true (str_of "localhost") 80 1 host0 = Ret (-1, e') ∧
           (s ∉ host_fds host0) ∧ host_fds e' = ({[s]} ∪ host_fds host0)).
Proof.
  exact (net_connect_fails host_fds true (str_of "localhost") 80 1 (str_of "/tmp/s") 0 host0).
Defined.

Lemma tcp_server_resources_witness :
  ∃ r e', tcp_server true 80 None 0 host0 = Ret (r, e') ∧
    ((0 ≤ r ∧ (r ∉ host_fds host0) ∧ host_fds e' = ({[r]} ∪ host_fds host0)) ∨
     (r = -1 ∧ host_fds e' = host_fds host0) ∨
     (r = -1 ∧ ∃ s e1 e2, (s ∉ host_fds host0) ∧ host_fds e' = ({[s]} ∪ host_fds host0) ∧
        sys_setsockopt s SOL_SOCKET SO_REUSEADDR 1 e1 = (-1, e2) ∧ s ∈ host_fds e1)).
Proof. exact (tcp_server_resources host_fds true 80 None 0 host0). Defined.

(** A server whose second address works, and one that leaks. *)
Example tcp_server_second :
  match tcp_server true 80 None 0 (with_script host0 [0; 98; 0; 0; 0; 0]) with
  | Ret (r, h) => r = 3 ∧ h_open h = {[3]} | _ => False
  end.
Proof. by vm_compute. Qed.
Example tcp_server_leaks :
  match tcp_server true 80 None 0 (with_script host0 [0; 0; ENOMEM]) with
  | Ret (r, h) => r = -1 ∧ h_open h = {[3]} | _ => False
  end.
Proof. by vm_compute. Qed.
