(* ===== verification/Socket.v ===== *)
(** * Sockets ([socket.c], [socket.h])

    A socket joins an event, the loop, and two streams on one descriptor.  Its
    event is its first member, so [container_of] gives the address of the event
    as the address of the socket. *)
From S2P Require Import Prelude Alloc Sys Lock Log Thread Event Host Buffer Stream.
From S2P Require Import Eventpoll Eventloop Sockaddr.

Definition SOCK_SHUT_RD : Z := 0.
Definition SOCK_SHUT_WR : Z := 1.
Definition SOCK_SHUT_RDWR : Z := 2.
Definition SOCK_STREAM : Z := 1.
Definition SOCK_CLOEXEC : Z := 0x80000.
Definition SOCK_NONBLOCK : Z := 0x800.
Definition O_NONBLOCK : Z := 0x800.
Definition FD_CLOEXEC : Z := 1.

(** [struct _socket], but for [ev]; [s_loop]: was the loop set? *)
Record socket_t := mk_socket {
  s_loop : bool;
  istm : option stream_t;
  ostm : option stream_t;
  timeout : Z;
  s_cb : option Z;
  s_enabled : Z;
  sockname : sockaddr_t;
  peername : sockaddr_t;
}.

Definition set_istm (x : option stream_t) (s : socket_t) : socket_t :=
  mk_socket (s_loop s) x (ostm s) (timeout s) (s_cb s) (s_enabled s) (sockname s) (peername s).
Definition set_ostm (x : option stream_t) (s : socket_t) : socket_t :=
  mk_socket (s_loop s) (istm s) x (timeout s) (s_cb s) (s_enabled s) (sockname s) (peername s).
Definition set_s_enabled (x : Z) (s : socket_t) : socket_t :=
  mk_socket (s_loop s) (istm s) (ostm s) (timeout s) (s_cb s) x (sockname s) (peername s).
Definition set_names (x y : option sockaddr_t) (s : socket_t) : socket_t :=
  mk_socket (s_loop s) (istm s) (ostm s) (timeout s) (s_cb s) (s_enabled s)
    (default (sockname s) x) (default (peername s) y).
Definition set_timeout (x : Z) (s : socket_t) : socket_t :=
  mk_socket (s_loop s) (istm s) (ostm s) x (s_cb s) (s_enabled s) (sockname s) (peername s).

Definition zero_socket : socket_t := mk_socket false None None 0 None 0 zeroed zeroed.

(** The sockets in use, by the address of their event. *)
Class Sockets (E : Type) := {
  sockets : E → gmap positive socket_t;
  put_sockets : gmap positive socket_t → E → E;
}.

Section socket.
Context {E : Type} `{!Malloc E, !Errno E, !Events E, !Logger E, !IoOps E, !FdOps E, !EpollOps E,
  !SockOps E, !Threads E, !Loop E, !Sockets E}.

Definition get_socket (a : positive) : M E socket_t := λ e,
  match sockets e !! a with Some s => Ret (s, e) | None => UB end.
Definition upd_socket (a : positive) (f : socket_t → socket_t) : M E unit := λ e,
  match sockets e !! a with
  | Some s => Ret (tt, put_sockets (<[a := f s]> (sockets e)) e)
  | None => UB
  end.
Definition the_stream (o : option stream_t) : M E stream_t :=
  match o with Some stm => mret stm | None => ub end.

Definition try_write (fuel : nat) (sock : positive) : M E Z :=
  s ← get_socket sock; stm ← the_stream (ostm s);
  '(r, stm) ← stream_flush stream_funcs_fd fuel stm;
  upd_socket sock (set_ostm (Some stm));;
  mret r.

Definition try_read (sock : positive) : M E Z :=
  s ← get_socket sock; stm ← the_stream (istm s);
  '(ret, _, stm) ← stream_fill stream_funcs_fd stm;
  upd_socket sock (set_istm (Some stm));;
  if negb (ret =? 0) then
    if negb (stream_errno stm =? EAGAIN) then mret (-1) else mret 0
  else mret 0.

Section callback.
(** [sock->cb]: the function, the socket, and its other arguments. *)
Variable call : Z → positive → Z → Z → M E unit.

Definition _sock_dispatch_run (fuel : nat) (sock : positive) : M E unit :=
  s ← get_socket sock; stm ← the_stream (istm s);
  upd_socket sock (set_istm (Some (stream_set_mask stm 0)));;
  ev ← get_event sock;
  (if Z.land (ev_mask ev) (Z.lor EVMASK_WRITE EVMASK_ERROR) =? EVMASK_WRITE then
     r ← try_write fuel sock;
     if negb (r =? 0) then upd_event sock (λ ev, ev_set_mask (Z.lor (ev_mask ev) EVMASK_ERROR) ev)
     else mret tt
   else mret tt);;
  ev ← get_event sock;
  (if Z.land (ev_mask ev) (Z.lor EVMASK_READ EVMASK_ERROR) =? EVMASK_READ then
     r ← try_read sock;
     if negb (r =? 0) then upd_event sock (λ ev, ev_set_mask (Z.lor (ev_mask ev) EVMASK_ERROR) ev)
     else mret tt
   else mret tt);;
  s ← get_socket sock; ev ← get_event sock;
  match s_cb s with Some cb => call cb sock (ev_mask ev) (ev_ud ev) | None => ub end.
End callback.

Definition drop_socket (sock : positive) : M E unit := λ e,
  match sockets e !! sock with
  | Some _ => Ret (tt, put_sockets (delete sock (sockets e)) e)
  | None => UB
  end.

(** [alloc(sock, 0)]: the socket with the event in it. *)
Definition free_socket (sock : positive) : M E unit := event_free sock;; drop_socket sock.

(** The two streams of a new socket. *)
Definition open_streams (fd : Z) (sock : positive) : M E (option stream_t * option stream_t) :=
  i ← stream_fd_open fd 0 0;
  upd_socket sock (set_istm i);;
  o ← stream_fd_open fd 0 0;
  upd_socket sock (set_ostm o);;
  mret (i, o).

Definition socket_new_from_fd (fd : Z) (sockname peername : option sockaddr_t) : M E (option positive) :=
  ok ← sys (malloc_ok 352);
  if negb ok then mret None
  else
    sock ← new_event;
    sys (λ e, (tt, put_sockets (<[sock := zero_socket]> (sockets e)) e));;
    event_init sock fd EVMASK_NONE (Some _sock_dispatch) 0;;
    '(i, o) ← open_streams fd sock;
    match i, o with
    | Some _, Some _ =>
        upd_socket sock (set_names sockname peername);;
        upd_socket sock (set_timeout 60000);;
        mret (Some sock)
    | _, _ => free_socket sock;; mret None
    end.

Definition socket_enable (sock : positive) (enable : Z) : M E Z :=
  s ← get_socket sock;
  if s_enabled s =? enable then mret 0
  else
    upd_socket sock (set_s_enabled enable);;
    upd_event sock (ev_set_mask (if negb (enable =? 0) then EVMASK_READ else EVMASK_NONE));;
    if negb (s_loop s) then ub
    else eventloop_apply sock.

Definition socket_shutdown (sock : positive) (how : Z) : M E Z :=
  ev ← get_event sock; sys (sys_shutdown (ev_fd ev) how).

(** The streams are freed with the socket; the descriptor stays open. *)
Definition socket_free (sock : positive) : M E unit :=
  s ← get_socket sock;
  i ← the_stream (istm s); _ ← stream_free i;
  o ← the_stream (ostm s); _ ← stream_free o;
  free_socket sock.

Definition socket_nonblock (fd enable : Z) : M E unit :=
  flag ← sys (sys_getfl fd);
  _ ← (if negb (enable =? 0) then sys (sys_setfl fd (Z.lor flag O_NONBLOCK))
       else sys (sys_setfl fd (Z.land flag (Z.lnot O_NONBLOCK))));
  mret tt.

Definition socket_for_addr (addr : sockaddr_t) (type flags : Z) : M E Z :=
  fd ← sys (sys_socket (family addr) type 0);
  if fd =? -1 then mret fd
  else
    _ ← (if negb (Z.land flags SOCK_CLOEXEC =? 0) then sys (sys_setfd fd FD_CLOEXEC) else mret 0);
    (if negb (Z.land flags SOCK_NONBLOCK =? 0) then socket_nonblock fd 1 else mret tt);;
    mret fd.
End socket.

(** * Specification *)

(** The stores of events and of sockets are apart from each other and from the
    kernel. *)
Class SocketLaws (E : Type) `{!Malloc E, !Errno E, !IoOps E, !FdOps E, !SockOps E, !Events E, !Sockets E} := {
  sockets_put m e : sockets (put_sockets m e) = m;
  sockets_put_events m e : sockets (put_events m e) = sockets e;
  events_put_sockets m e : events (put_sockets m e) = events e;
  kernel_events :: KernelFrame E (events (E := E));
  kernel_sockets :: KernelFrame E (sockets (E := E));
}.

(** Every socket has its event. *)
Definition sockets_ok {E} `{!Events E, !Sockets E} (e : E) : Prop :=
  ∀ a, is_Some (sockets e !! a) → is_Some (events e !! a).

(** * Lemmas *)

Section stream_frame.
Context {E X : Type} `{!Malloc E, !Errno E} (view : E → X).
Hypothesis malloc_view : ∀ n e, view (snd (malloc_ok n e)) = view e.
Hypothesis errno_view : ∀ x e, view (put_errno x e) = view e.

(** A new stream, and what making it leaves alone. *)
Definition fresh_stream (fd : Z) (stm : stream_t) : Prop :=
  io stm = fd ∧ slock stm = 0 ∧ need_mask stm = 0 ∧ wf_buffer (sbuf stm) ∧ contents (sbuf stm) = [] ∧
  buffer_len (sbuf stm) = 8192.

Lemma stream_open_run fd (e : E) :
  ∃ r e', stream_fd_open fd 0 0 e = Ret (r, e') ∧ view e' = view e ∧
    match r with Some stm => fresh_stream fd stm | None => True end.
Proof.
  unfold stream_fd_open, stream_new, buffer_new, alloc, default_alloc, set_errno. mrun.
  pose proof (malloc_view 56 e) as H1. destruct (malloc_ok 56 e) as [[] e1]; cbn in H1; mrun; [|eauto].
  pose proof (malloc_view 24 e1) as H2. destruct (malloc_ok 24 e1) as [[] e2]; cbn in H2; mrun.
  2:{ eexists None, _. split; [done|]. split; [|done]. rewrite errno_view. congruence. }
  pose proof (malloc_view (Z.shiftl 1 BUF_SIZE_P) e2) as H3.
  destruct (malloc_ok (Z.shiftl 1 BUF_SIZE_P) e2) as [[] e3]; cbn in H3; mrun.
  2:{ eexists None, _. split; [done|]. split; [|done]. rewrite errno_view. congruence. }
  eexists (Some _), e3. split; [done|]. split; [congruence|].
  change (Z.shiftl 1 BUF_SIZE_P) with 8192. unfold fresh_stream. cbn [io slock need_mask sbuf].
  split_and!; [done..| |done|done]. eexists. split; [done|]. cbn [buf size rpos wpos].
  rewrite length_replicate. lia.
Qed.
(** What a flush leaves alone, if the writes to its descriptor do. *)
Context `{!FdOps E} (fd : Z).
Hypothesis writev_view : ∀ iov e, view (snd (sys_writev fd iov e)) = view e.

Lemma fd_writev_view stm iov x n stm' (e e' : E) :
  io stm = fd → fd_writev stm iov e = Ret ((x, n, stm'), e') → view e' = view e ∧ io stm' = fd.
Proof.
  intros Hio. unfold fd_writev, fd_failed, errno. autorewrite with run. rewrite Hio. pose proof (writev_view iov e) as H.
  destruct (sys_writev fd iov e) as [m e1]. cbn in H. autorewrite with run.
  destruct (i32 m =? -1); [|destruct (i32 m =? 0)]; autorewrite with run; intros [= _ _ <- <-]; (split; [done|]).
  - by destruct (_ =? EAGAIN).
  - done.
  - done.
Qed.

Lemma write_advance_io stm iov ret ravail stm' iov' :
  write_advance stm iov ret ravail = Ret (stm', iov') → io stm' = io stm.
Proof.
  unfold write_advance. destruct iov as [|iov0 iov]; [done|]. destruct (zlen iov0 <? ret).
  - destruct (buffer_read _ _ _) as [[[? ?] ?]| |]; [|done..]. cbn. destruct iov; [done|]. by intros [= <- _].
  - destruct (bool_decide _); [|by intros [= <- _]].
    destruct (buffer_read _ _ _) as [[[? ?] ?]| |]; [|done..]. cbn. by intros [= <- _].
Qed.

Lemma write_loop_view fuel stm iov towrite ravail len r (e e' : E) :
  io stm = fd → write_loop stream_funcs_fd fuel stm iov towrite ravail len e = Ret (r, e') → view e' = view e.
Proof.
  revert stm iov towrite e. induction fuel as [|fuel IH]; intros stm iov towrite e Hio; [done|].
  cbn [write_loop f_writev stream_funcs_fd]. autorewrite with run.
  destruct (fd_writev stm iov e) as [[[[x n] stm1] e1]| |] eqn:Hw; [|done..].
  apply fd_writev_view in Hw as [Hw Hio1]; [|done]. rewrite <- Hw. unfold set_errno.
  destruct (negb (x =? 0)); autorewrite with run; [intros [= _ <-]; apply errno_view|].
  destruct n as [n|]; [|done]. unfold lift.
  destruct (n =? towrite); autorewrite with run.
  - destruct (buffer_read _ _ _) as [[[? ?] ?]| |]; [|done..]. autorewrite with run. by intros [= _ <-].
  - destruct (write_advance _ _ _ _) as [[stm2 iov2]| |] eqn:Ha; [|done..]. apply IH.
    by rewrite (write_advance_io _ _ _ _ _ _ Ha).
Qed.

Lemma flush_view fuel stm r (e e' : E) :
  io stm = fd → stream_flush stream_funcs_fd fuel stm e = Ret (r, e') → view e' = view e.
Proof.
  intros Hio. unfold stream_flush, _stream_write, set_errno, lift, stream_lock. autorewrite with run.
  destruct (mtx_lock _ _) as [x| |]; [|done..]. cbn [mbind outcome_bind]. set (stm1 := set_lock x stm).
  assert (io stm1 = fd) as Hio1 by done. clearbody stm1.
  destruct (negb (buffer_avail (sbuf stm1) =? 0)); autorewrite with run; [|by intros [= _ <-]].
  cbn [Z.eqb negb andb]. autorewrite with run.
  destruct (mem_read _ _ _) as [iov0| |]; [|done..]. autorewrite with run.
  destruct (write_loop _ _ _ _ _ _ _ e) as [[[[y n] stm2] e2]| |] eqn:Hw; [|done..].
  apply write_loop_view in Hw; [|done]. rewrite <- Hw. destruct (negb (_ =? 0)); autorewrite with run.
  - intros [= _ <-]. apply errno_view.
  - by intros [= _ <-].
Qed.
End stream_frame.

(** Read the two stores through the changes made to them. *)
Ltac stores_simpl :=
  repeat first [rewrite events_put | rewrite sockets_put | rewrite sockets_put_events
               | rewrite events_put_sockets].

Section socket_lemmas.
Context {E : Type} `{!Malloc E, !Errno E, !IoOps E, !FdOps E, !SockOps E,
  !Events E, !EventsLaws E, !Sockets E, !SocketLaws E}.

Definition stores (e : E) := (events e, sockets e).

Lemma stores_malloc n e : stores (snd (malloc_ok n e)) = stores e.
Proof. unfold stores. by rewrite (kf_malloc (view := events)), (kf_malloc (view := sockets)). Qed.
Lemma stores_errno x e : stores (put_errno x e) = stores e.
Proof. unfold stores. by rewrite (kf_errno (view := events)), (kf_errno (view := sockets)). Qed.

Lemma upd_socket_run a f s (e : E) :
  sockets e !! a = Some s →
  ∃ e', upd_socket a f e = Ret (tt, e') ∧ stores e' = (events e, <[a := f s]> (sockets e)).
Proof.
  intros H. unfold upd_socket. rewrite H. eexists. split; [done|]. unfold stores.
  by rewrite events_put_sockets, sockets_put.
Qed.

Definition fresh_or_none (fd : Z) (o : option stream_t) : Prop :=
  match o with Some stm => fresh_stream fd stm | None => True end.

Lemma open_streams_run fd a s (e : E) :
  sockets e !! a = Some s →
  ∃ i o e', open_streams fd a e = Ret ((i, o), e') ∧
    stores e' = (events e, <[a := set_ostm o (set_istm i s)]> (sockets e)) ∧
    fresh_or_none fd i ∧ fresh_or_none fd o.
Proof.
  intros Hs. unfold open_streams. autorewrite with run.
  destruct (stream_open_run stores stores_malloc stores_errno fd e) as (i & e1 & -> & H1 & Hi).
  injection H1 as H1e H1s. autorewrite with run.
  destruct (upd_socket_run a (set_istm i) s e1) as (e2 & -> & H2); [by rewrite H1s|].
  rewrite H1s in H2. injection H2 as H2e H2s. autorewrite with run.
  destruct (stream_open_run stores stores_malloc stores_errno fd e2) as (o & e3 & -> & H3 & Ho).
  injection H3 as H3e H3s. autorewrite with run.
  destruct (upd_socket_run a (set_ostm o) (set_istm i s) e3) as (e4 & -> & H4);
    [by rewrite H3s, H2s, lookup_insert_eq|].
  rewrite H3s, H2s, insert_insert_eq in H4. injection H4 as H4e H4s. autorewrite with run.
  exists i, o, e4. split; [done|]. unfold stores. rewrite H4e, H4s. split; [|done]. f_equal. congruence.
Qed.

(** A new event with its socket, both with every byte zero but for the event. *)
Lemma new_socket_run fd (e : E) :
  (∀ a, is_Some (sockets e !! a) → is_Some (events e !! a)) →
  ∃ a e', (sock ← new_event;
           sys (λ e, (tt, put_sockets (<[sock := zero_socket]> (sockets e)) e));;
           event_init sock fd EVMASK_NONE (Some _sock_dispatch) 0;; mret sock) e = Ret (a, e') ∧
    events e !! a = None ∧ sockets e !! a = None ∧
    stores e' = (<[a := mk_event fd EVMASK_NONE (Some _sock_dispatch) 0 0 None]> (events e),
                 <[a := zero_socket]> (sockets e)).
Proof.
  intros Hdom. unfold new_event, event_init. autorewrite with run. set (a := fresh (dom (events e))).
  assert (events e !! a = None) as Hfresh by (apply not_elem_of_dom, is_fresh).
  assert (sockets e !! a = None) as Hsfresh.
  { apply eq_None_not_Some. intros Hs. apply Hdom in Hs. rewrite Hfresh in Hs. by destruct Hs. }
  clearbody a. autorewrite with run.
  rewrite (upd_event_run _ _ zero_event) by (by rewrite events_put_sockets, events_put, lookup_insert_eq).
  autorewrite with run. eexists a, _. split; [done|]. split; [done|]. split; [done|].
  unfold stores. stores_simpl. by rewrite insert_insert_eq.
Qed.

(** A new socket: [socket_new_from_fd] with the stores before and after it. *)
Lemma socket_new_run fd sn pn (e : E) :
  (∀ a, is_Some (sockets e !! a) → is_Some (events e !! a)) →
  ∃ r e', socket_new_from_fd fd sn pn e = Ret (r, e') ∧
    match r with
    | None => events e' = events e ∧ sockets e' = sockets e
    | Some a => ∃ i o,
        events e !! a = None ∧
        events e' = <[a := mk_event fd EVMASK_NONE (Some _sock_dispatch) 0 0 None]> (events e) ∧
        sockets e' = <[a := mk_socket false (Some i) (Some o) 60000 None 0
                              (default zeroed sn) (default zeroed pn)]> (sockets e) ∧
        fresh_stream fd i ∧ fresh_stream fd o
    end.
Proof.
  intros Hdom. unfold socket_new_from_fd. autorewrite with run.
  pose proof (stores_malloc 352 e) as Hm. destruct (malloc_ok 352 e) as [[] e1]; cbn [snd] in Hm;
    injection Hm as Hev Hso; cbn [negb]; [|mrun; exists None, e1; auto].
  destruct (new_socket_run fd e1) as (a & e2 & Hnew & Hfe & Hfs & H2); [by rewrite Hev, Hso|].
  injection H2 as H2e H2s. revert Hnew. autorewrite with run.
  destruct (new_event e1) as [[b e3]| |]; [|done..]. autorewrite with run.
  destruct (event_init b fd _ _ _ _) as [[[] e4]| |]; [|done..]. autorewrite with run.
  intros [= -> ->].
  destruct (open_streams_run fd a zero_socket e2) as (i & o & e5 & -> & H5 & Hi & Ho);
    [by rewrite H2s, lookup_insert_eq|].
  rewrite H2e, H2s, insert_insert_eq, Hev, Hso in *. injection H5 as H5e H5s.
  destruct i as [i|], o as [o|].
  { autorewrite with run.
    destruct (upd_socket_run a (set_names sn pn) _ e5 (eq_trans (f_equal (lookup a) H5s) (lookup_insert_eq _ _ _)))
      as (e6 & -> & H6).
    rewrite H5e, H5s, insert_insert_eq in H6. injection H6 as H6e H6s. autorewrite with run.
    destruct (upd_socket_run a (set_timeout 60000) _ e6 (eq_trans (f_equal (lookup a) H6s) (lookup_insert_eq _ _ _)))
      as (e7 & -> & H7).
    rewrite H6e, H6s, insert_insert_eq in H7. injection H7 as H7e H7s. autorewrite with run.
    eexists (Some a), e7. split; [done|]. exists i, o. rewrite H7e, H7s. done. }
  all: unfold free_socket, event_free, drop_socket; autorewrite with run; rewrite H5e, lookup_insert_eq;
    autorewrite with run; rewrite sockets_put_events, H5s, lookup_insert_eq; autorewrite with run;
    eexists None, _; (split; [done|]);
    stores_simpl; by rewrite !delete_insert_id.
Qed.

(** What making a socket leaves alone. *)
Lemma open_streams_view {Y} (view : E → Y) fd a r (e e' : E) :
  (∀ n e, view (snd (malloc_ok n e)) = view e) → (∀ x e, view (put_errno x e) = view e) →
  (∀ m e, view (put_sockets m e) = view e) →
  open_streams fd a e = Ret (r, e') → view e' = view e.
Proof.
  intros Hm Hx Hs. unfold open_streams, upd_socket. autorewrite with run.
  destruct (stream_open_run view Hm Hx fd e) as (i & e1 & -> & H1 & _). autorewrite with run.
  destruct (sockets e1 !! a); [|done]. autorewrite with run.
  match goal with |- context [stream_fd_open fd 0 0 ?e2] =>
    destruct (stream_open_run view Hm Hx fd e2) as (o & e3 & -> & H3 & _) end. autorewrite with run.
  destruct (sockets e3 !! a); [|done]. autorewrite with run. intros [= _ <-]. by rewrite Hs, H3, Hs.
Qed.

Lemma socket_new_view {Y} (view : E → Y) fd sn pn r (e e' : E) :
  (∀ n e, view (snd (malloc_ok n e)) = view e) → (∀ x e, view (put_errno x e) = view e) →
  (∀ m e, view (put_sockets m e) = view e) → (∀ m e, view (put_events m e) = view e) →
  socket_new_from_fd fd sn pn e = Ret (r, e') → view e' = view e.
Proof.
  intros Hm Hx Hs He. unfold socket_new_from_fd, new_event. autorewrite with run.
  pose proof (Hm 352 e) as H1. destruct (malloc_ok 352 e) as [[] e1]; cbn [snd negb] in *;
    autorewrite with run; [|by intros [= _ <-]].
  unfold event_init, upd_event. destruct (events _ !! _); [|done]. autorewrite with run.
  match goal with |- context [open_streams fd ?a ?e2] => 
    assert (view e2 = view e) as H2 by (by rewrite He, Hs, He); revert H2; generalize e2 end.
  intros e2 H2. destruct (open_streams fd _ e2) as [[[i o] e3]| |] eqn:Ho; [|done..].
  apply (open_streams_view view) in Ho; [|done..]. unfold free_socket, event_free, drop_socket, upd_socket.
  destruct i, o; autorewrite with run.
  - destruct (sockets e3 !! _); [|done]. autorewrite with run. destruct (sockets _ !! _); [|done].
    autorewrite with run. intros [= _ <-]. rewrite !Hs. congruence.
  - destruct (events e3 !! _); [|done]. autorewrite with run. destruct (sockets _ !! _); [|done].
    autorewrite with run. intros [= _ <-]. rewrite Hs, He. congruence.
  - destruct (events e3 !! _); [|done]. autorewrite with run. destruct (sockets _ !! _); [|done].
    autorewrite with run. intros [= _ <-]. rewrite Hs, He. congruence.
  - destruct (events e3 !! _); [|done]. autorewrite with run. destruct (sockets _ !! _); [|done].
    autorewrite with run. intros [= _ <-]. rewrite Hs, He. congruence.
Qed.

(** No socket is made only when the allocator refused something. *)
Lemma stream_open_none fd (e e' : E) :
  stream_fd_open fd 0 0 e = Ret (None, e') → ∃ n e1, fst (malloc_ok n e1) = false.
Proof.
  unfold stream_fd_open, stream_new, buffer_new, alloc, default_alloc, set_errno. mrun.
  destruct (malloc_ok 56 e) as [[] e1] eqn:H1; mrun; [|intros _; exists 56, e; by rewrite H1].
  destruct (malloc_ok 24 e1) as [[] e2] eqn:H2; mrun; [|intros _; exists 24, e1; by rewrite H2].
  destruct (malloc_ok (Z.shiftl 1 BUF_SIZE_P) e2) as [[] e3] eqn:H3; mrun; [done|].
  intros _. exists (Z.shiftl 1 BUF_SIZE_P), e2. by rewrite H3.
Qed.

Lemma socket_new_none fd sn pn (e e' : E) :
  socket_new_from_fd fd sn pn e = Ret (None, e') → ∃ n e1, fst (malloc_ok n e1) = false.
Proof.
  unfold socket_new_from_fd. autorewrite with run.
  destruct (malloc_ok 352 e) as [[] e1] eqn:H1; cbn [negb]; autorewrite with run; [|intros _; exists 352, e; by rewrite H1].
  destruct (new_event e1) as [[a e2]| |]; [|done..]. autorewrite with run.
  destruct (event_init a _ _ _ _ _) as [[[] e3]| |]; [|done..]. autorewrite with run.
  unfold open_streams. autorewrite with run.
  destruct (stream_fd_open fd 0 0 e3) as [[[i|] e4]| |] eqn:Hi; [|by intros _; apply (stream_open_none fd e3 e4)|done..].
  autorewrite with run. destruct (upd_socket a _ e4) as [[[] e5]| |]; [|done..]. autorewrite with run.
  destruct (stream_fd_open fd 0 0 e5) as [[[o|] e6]| |] eqn:Ho; [|by intros _; apply (stream_open_none fd e5 e6)|done..].
  autorewrite with run. destruct (upd_socket a _ e6) as [[[] e7]| |]; [|done..]. autorewrite with run.
  destruct (upd_socket a _ e7) as [[[] e8]| |]; [|done..]. autorewrite with run.
  destruct (upd_socket a _ e8) as [[[] e9]| |]; [|done..]. autorewrite with run. done.
Qed.

End socket_lemmas.

(** ** Dispatching *)

(** The bytes sent do not depend on the stores. *)
Class SentStores (E : Type) `{!Events E, !Sockets E} (sent : E → block) := {
  sent_put_events m e : sent (put_events m e) = sent e;
  sent_put_sockets m e : sent (put_sockets m e) = sent e;
}.

(** A part of the environment apart from the stores, [errno] and the allocator. *)
Class StoresFrame (E : Type) `{!Malloc E, !Errno E, !Events E, !Sockets E} {X : Type} (view : E → X) := {
  sf_malloc n e : view (snd (malloc_ok n e)) = view e;
  sf_errno x e : view (put_errno x e) = view e;
  sf_events m e : view (put_events m e) = view e;
  sf_sockets m e : view (put_sockets m e) = view e;
}.

Section dispatch_lemmas.
Context {E : Type} `{!Malloc E, !Errno E, !IoOps E, !FdOps E, !SockOps E,
  !Events E, !EventsLaws E, !Sockets E, !SocketLaws E}.
Context (fd : Z) (sent : E → block) `{!FdLaws E fd sent, !SentFrame E sent, !SentStores E sent}.

Lemma get_socket_run a s (e : E) : sockets e !! a = Some s → get_socket a e = Ret (s, e).
Proof. intros H. unfold get_socket. by rewrite H. Qed.

Lemma upd_socket_eq a f s (e : E) :
  sockets e !! a = Some s → upd_socket a f e = Ret (tt, put_sockets (<[a := f s]> (sockets e)) e).
Proof. intros H. unfold upd_socket. by rewrite H. Qed.

Lemma try_write_run fuel a s o (e : E) :
  sockets e !! a = Some s → ostm s = Some o → io o = fd → wf_buffer (sbuf o) → slock o = 0 →
  zlen (contents (sbuf o)) < 2 ^ 31 → (length (contents (sbuf o)) ≤ fuel)%nat →
  ∃ r o' e' k, try_write fuel a e = Ret (r, e') ∧
    stores e' = (events e, <[a := set_ostm (Some o') s]> (sockets e)) ∧
    slock o' = 0 ∧ io o' = fd ∧ wf_buffer (sbuf o') ∧
    sent e' = sent e ++ take k (contents (sbuf o)) ∧ contents (sbuf o') = drop k (contents (sbuf o)) ∧
    ((r = 0 ∧ contents (sbuf o') = []) ∨ (r = -1 ∧ contents (sbuf o') ≠ [])).
Proof.
  intros Hs Ho Hio Hwf Hl Hn Hfuel. unfold try_write. autorewrite with run.
  rewrite (get_socket_run _ s) by done. rewrite Ho. unfold the_stream. autorewrite with run.
  destruct (flush_run stream_funcs_fd fd sent fuel o e Hio Hwf Hl Hn Hfuel)
    as (r & o' & e1 & k & Hrun & Hl' & Hio' & Hwf' & Hsent & Hc & Hr). rewrite Hrun.
  assert (stores e1 = stores e) as H1.
  { apply (flush_view stores stores_errno (io o)) in Hrun; [done| |done]. intros. unfold stores.
    by rewrite (kf_writev (view := events)), (kf_writev (view := sockets)). }
  injection H1 as H1e H1s. autorewrite with run. rewrite (upd_socket_eq _ _ s) by (by rewrite H1s).
  autorewrite with run. exists r, o', (put_sockets (<[a := set_ostm (Some o') s]> (sockets e1)) e1), k.
  split; [done|]. unfold stores. rewrite events_put_sockets, sockets_put, H1e, H1s, sent_put_sockets. tauto.
Qed.

(** What [fd_readv] makes of the answer of [readv]. *)
Lemma fd_readv_cases i lens n d (e e1 : E) :
  io i = fd → 0 ≤ total lens → zlen d < 2 ^ 31 → sys_readv fd lens e = (n, d, e1) →
  ∃ r c i1, fd_readv i lens e = Ret ((r, c, d, i1), e1) ∧ sbuf i1 = sbuf i ∧ slock i1 = slock i ∧ io i1 = io i ∧
    ((0 < n ∧ r = 0 ∧ c = Some (zlen d) ∧ need_mask i1 = need_mask i) ∨
     (n = 0 ∧ r = -1 ∧ d = [] ∧ stream_errno i1 = 0 ∧ need_mask i1 = need_mask i) ∨
     (n = -1 ∧ r = -1 ∧ d = [] ∧ stream_errno i1 = get_errno e1 ∧
      need_mask i1 = if get_errno e1 =? EAGAIN then Z.lor (need_mask i) EVMASK_READ else need_mask i)).
Proof.
  intros Hio Htot Hsmall Hread. unfold fd_readv. rewrite Hio. autorewrite with run. rewrite Hread.
  destruct (readv_law _ e n d e1 Htot Hread) as [_ [[-> ->]|[-> _]]].
  - change (i32 (-1)) with (-1). cbn [Z.eqb Pos.eqb]. unfold fd_failed, errno. autorewrite with run.
    do 3 eexists. split; [done|]. do 3 (split; [by destruct (_ =? _)|]).
    right. right. split_and!; [done..| |]; by destruct (_ =? _).
  - rewrite i32_id by (unfold is_i32; lia).
    destruct (Z.eqb_spec (zlen d) (-1)); [lia|]. destruct (Z.eqb_spec (zlen d) 0) as [Hd|Hd]; autorewrite with run.
    + destruct d; [|done]. do 3 eexists. split; [done|]. do 3 (split; [done|]). right. left. done.
    + do 3 eexists. split; [done|]. do 3 (split; [done|]). left. rewrite u32_id by (unfold is_u32; lia).
      split; [lia|done].
Qed.

(** A fill that fits, by what [readv] answers. *)
Lemma fill_run {X} (view : E → X) i n d (e e1 : E) :
  (∀ x e, view (put_errno x e) = view e) → view e1 = view e →
  io i = fd → wf_buffer (sbuf i) → slock i = 0 →
  sys_readv fd [buffer_space (sbuf i); STM_READALL_LEN] e = (n, d, e1) →
  zlen d ≤ buffer_space (sbuf i) → zlen d < 2 ^ 31 →
  ∃ r c i' e2, stream_fill stream_funcs_fd i e = Ret ((r, c, i'), e2) ∧ view e2 = view e ∧
    slock i' = 0 ∧ io i' = fd ∧ wf_buffer (sbuf i') ∧ contents (sbuf i') = contents (sbuf i) ++ cells d ∧
    ((0 < n ∧ r = 0 ∧ need_mask i' = need_mask i) ∨
     (n = 0 ∧ r = -1 ∧ stream_errno i' = 0 ∧ need_mask i' = need_mask i) ∨
     (n = -1 ∧ r = -1 ∧ stream_errno i' = get_errno e1 ∧
      need_mask i' = if get_errno e1 =? EAGAIN then Z.lor (need_mask i) EVMASK_READ else need_mask i)).
Proof.
  intros Hx H1 Hio Hwf Hl Hread Hfit Hsmall.
  assert (0 ≤ total [buffer_space (sbuf i); STM_READALL_LEN]) as Htot.
  { cbn. pose proof (u32_range (size (sbuf i) - wpos (sbuf i))) as Hu.
    unfold buffer_space, STM_READALL_LEN, is_u32 in *. lia. }
  destruct (fd_readv_cases (set_lock 1 i) _ n d e e1 Hio Htot Hsmall Hread)
    as (r & c & i1 & Hrun & Hb & Hl1 & Hio1 & [(Hn & -> & -> & Hm)|[(Hn & -> & -> & Herr & Hm)|(Hn & -> & -> & Herr & Hm)]]).
  - destruct (fill_ok stream_funcs_fd i d i1 e e1 Hwf Hl Hrun Hb Hfit) as (b & -> & Hwfb & Hc).
    do 4 eexists. split; [done|]. split_and!; [done|done|by rewrite <- Hio|done..|]. by left.
  - destruct (fill_fails stream_funcs_fd i c i1 e e1 Hwf Hl Hrun Hb) as (b & -> & Hwfb & Hc).
    do 4 eexists. split; [done|]. split; [by rewrite Hx|]. split_and!; [done|by rewrite <- Hio|done| |].
    + cbn. by rewrite Hc, app_nil_r.
    + right. by left.
  - destruct (fill_fails stream_funcs_fd i c i1 e e1 Hwf Hl Hrun Hb) as (b & -> & Hwfb & Hc).
    do 4 eexists. split; [done|]. split; [by rewrite Hx|]. split_and!; [done|by rewrite <- Hio|done| |].
    + cbn. by rewrite Hc, app_nil_r.
    + right. right. done.
Qed.

Lemma try_read_run {X} (view : E → X) `{!StoresFrame E view} a s i n d (e e1 : E) :
  view e1 = view e →
  sockets e !! a = Some s → istm s = Some i → io i = fd → wf_buffer (sbuf i) → slock i = 0 →
  sys_readv fd [buffer_space (sbuf i); STM_READALL_LEN] e = (n, d, e1) →
  zlen d ≤ buffer_space (sbuf i) → zlen d < 2 ^ 31 →
  let again := (n =? -1) && (get_errno e1 =? EAGAIN) in
  ∃ i' e', try_read a e = Ret (if (0 <? n) || again then 0 else -1, e') ∧
    stores e' = (events e, <[a := set_istm (Some i') s]> (sockets e)) ∧
    slock i' = 0 ∧ io i' = fd ∧ wf_buffer (sbuf i') ∧ contents (sbuf i') = contents (sbuf i) ++ cells d ∧
    need_mask i' = (if again then Z.lor (need_mask i) EVMASK_READ else need_mask i) ∧ view e' = view e.
Proof.
  intros Hv Hs Hi Hio Hwf Hl Hread Hfit Hsmall again.
  assert (stores e1 = stores e) as H1.
  { pose proof (kf_readv (view := events) fd [buffer_space (sbuf i); STM_READALL_LEN] e) as He.
    pose proof (kf_readv (view := sockets) fd [buffer_space (sbuf i); STM_READALL_LEN] e) as Hss.
    rewrite Hread in He, Hss. cbn in He, Hss. unfold stores. congruence. }
  unfold try_read. autorewrite with run.
  rewrite (get_socket_run _ s) by done. rewrite Hi. unfold the_stream. autorewrite with run.
  destruct (fill_run (λ e, (stores e, view e)) i n d e e1) as (r & c & i' & e2 & -> & H2 & Hl' & Hio' & Hwf' & Hc & Hcase);
    [intros; by rewrite stores_errno, sf_errno|by rewrite H1, Hv|done..|].
  injection H2 as H2e H2s H2v. autorewrite with run. rewrite (upd_socket_eq _ _ s) by (by rewrite H2s).
  autorewrite with run. exists i', (put_sockets (<[a := set_istm (Some i') s]> (sockets e2)) e2).
  assert (stores (put_sockets (<[a := set_istm (Some i') s]> (sockets e2)) e2) =
          (events e, <[a := set_istm (Some i') s]> (sockets e))) as ->
    by (unfold stores; by rewrite events_put_sockets, sockets_put, H2e, H2s).
  rewrite (sf_sockets (view := view)), H2v. unfold again. destruct Hcase as [(Hn & -> & Hm)|[(-> & -> & Herr & Hm)|(-> & -> & Herr & Hm)]].
  - replace (0 <? n) with true by lia. replace (n =? -1) with false by lia.
    cbn [Z.eqb negb orb andb]. autorewrite with run. by split_and!.
  - rewrite Herr. cbn. autorewrite with run. by split_and!.
  - rewrite Herr. cbn [Z.ltb Z.eqb Z.compare Pos.eqb negb orb andb].
    destruct (get_errno e1 =? EAGAIN); cbn [negb]; autorewrite with run; by split_and!.
Qed.
Lemma ev_set_same ev : ev_set_mask (ev_mask ev) ev = ev.
Proof. by destruct ev. Qed.

(** The callback of a socket, at the end of the dispatch. *)
Lemma sock_cb_run (call : Z → positive → Z → Z → M E unit) a s cb ev (e : E) :
  sockets e !! a = Some s → s_cb s = Some cb → events e !! a = Some ev →
  (s ← get_socket a; ev ← get_event a;
   match s_cb s with Some cb => call cb a (ev_mask ev) (ev_ud ev) | None => ub end) e =
  call cb a (ev_mask ev) (ev_ud ev) e.
Proof.
  intros Hs Hcb He. autorewrite with run. rewrite (get_socket_run _ s) by done. autorewrite with run.
  rewrite (get_event_run _ ev) by done. by rewrite Hcb.
Qed.

Lemma upd_event_view {X} (view : E → X) a f r (e e' : E) :
  (∀ m e, view (put_events m e) = view e) → upd_event a f e = Ret (r, e') → view e' = view e.
Proof. intros Hv. unfold upd_event. destruct (events e !! a); [|done]. intros [= _ <-]. apply Hv. Qed.

#[export] Instance unit_stores_frame : StoresFrame E (λ _, tt).
Proof. by split. Qed.

Lemma stores_upd_event a f ev (e : E) :
  events e !! a = Some ev →
  ∃ e', upd_event a f e = Ret (tt, e') ∧ stores e' = (<[a := f ev]> (events e), sockets e) ∧ sent e' = sent e.
Proof.
  intros H. rewrite (upd_event_run _ _ ev) by done. eexists. split; [done|].
  unfold stores. by rewrite events_put, sockets_put_events, sent_put_events.
Qed.

(** The dispatch of a readable descriptor. *)
Lemma receives_run {X} (view : E → X) `{!StoresFrame E view} call fuel a s i cb ev n d (e e1 : E) :
  sockets e !! a = Some s → istm s = Some i → s_cb s = Some cb →
  events e !! a = Some ev → ev_mask ev = EVMASK_READ →
  io i = fd → wf_buffer (sbuf i) → slock i = 0 →
  let e0 := put_sockets (<[a := set_istm (Some (stream_set_mask i 0)) s]> (sockets e)) e in
  sys_readv fd [buffer_space (sbuf i); STM_READALL_LEN] e0 = (n, d, e1) →
  view e1 = view e0 → zlen d ≤ buffer_space (sbuf i) → zlen d < 2 ^ 31 →
  let again := (n =? -1) && (get_errno e1 =? EAGAIN) in
  let mask := if (0 <? n) || again then EVMASK_READ else Z.lor EVMASK_READ EVMASK_ERROR in
  ∃ i' e', _sock_dispatch_run call fuel a e = call cb a mask (ev_ud ev) e' ∧
    events e' = <[a := ev_set_mask mask ev]> (events e) ∧
    sockets e' = <[a := set_istm (Some i') s]> (sockets e) ∧
    slock i' = 0 ∧ io i' = fd ∧ wf_buffer (sbuf i') ∧ contents (sbuf i') = contents (sbuf i) ++ cells d ∧
    need_mask i' = (if again then EVMASK_READ else 0) ∧ view e' = view e.
Proof.
  intros Hs Hi Hcb He Hmask Hio Hwf Hl e0 Hread Hview Hfit Hsmall again mask.
  unfold _sock_dispatch_run. autorewrite with run.
  rewrite (get_socket_run _ s) by done. rewrite Hi. unfold the_stream at 1. autorewrite with run.
  rewrite (upd_socket_eq _ _ s) by done. autorewrite with run. fold e0.
  set (s1 := set_istm (Some (stream_set_mask i 0)) s) in *.
  assert (stores e0 = (events e, <[a := s1]> (sockets e))) as H0
    by (unfold stores, e0; by rewrite events_put_sockets, sockets_put).
  assert (view e0 = view e) as Hv0 by (unfold e0; apply sf_sockets).
  clearbody e0. injection H0 as H0e H0s.
  rewrite (get_event_run _ ev) by (by rewrite H0e). rewrite Hmask.
  change (Z.land EVMASK_READ (Z.lor EVMASK_WRITE EVMASK_ERROR) =? EVMASK_WRITE) with false. cbn match.
  autorewrite with run. rewrite (get_event_run _ ev) by (by rewrite H0e). rewrite Hmask.
  change (Z.land EVMASK_READ (Z.lor EVMASK_READ EVMASK_ERROR) =? EVMASK_READ) with true. cbn match.
  autorewrite with run.
  destruct (try_read_run view a s1 (stream_set_mask i 0) n d e0 e1)
    as (i' & e2 & -> & H2 & Hl' & Hio' & Hwf' & Hc & Hm & Hv2); [done|by rewrite H0s, lookup_insert_eq|done..|].
  rewrite H0e, H0s, insert_insert_eq in H2. injection H2 as H2e H2s. fold again in Hm |- *.
  autorewrite with run. exists i'.
  assert (∃ e3, (if negb ((if (0 <? n) || again then 0 else -1) =? 0)
                 then upd_event a (λ ev, ev_set_mask (Z.lor (ev_mask ev) EVMASK_ERROR) ev)
                 else mret tt) e2 = Ret (tt, e3) ∧
    stores e3 = (<[a := ev_set_mask mask ev]> (events e), sockets e2) ∧ view e3 = view e2) as (e3 & -> & H3 & Hv3).
  { unfold mask. destruct ((0 <? n) || again); cbn [Z.eqb negb].
    - exists e2. split; [done|]. unfold stores. by rewrite <- Hmask, ev_set_same, insert_id, H2e.
    - destruct (stores_upd_event a (λ ev, ev_set_mask (Z.lor (ev_mask ev) EVMASK_ERROR) ev) ev e2)
        as (e3 & Hu & H3 & _); [by rewrite H2e|]. rewrite H2e, Hmask in H3. exists e3. split_and!; [done|done|].
      apply (upd_event_view view) in Hu; [done|]. intros. apply sf_events. }
  injection H3 as H3e H3s. autorewrite with run.
  assert (events e3 !! a = Some (ev_set_mask mask ev)) as He3 by (by rewrite H3e, lookup_insert_eq).
  pose proof (sock_cb_run call a (set_istm (Some i') s1) cb _ e3
    ltac:(by rewrite H3s, H2s, lookup_insert_eq) Hcb He3) as Hend.
  revert Hend. autorewrite with run. intros ->.
  exists e3. split; [done|]. rewrite H3e, H3s, H2s, Hv3, Hv2, Hv0. by destruct again.
Qed.
End dispatch_lemmas.

(** ** A concrete environment

    The host with a loop, threads, sockets, and what else is kept of type [X]. *)
Record env (X : Type) := mk_env {
  e_host : host;
  e_loop : eventloop_t;
  e_threads : Z * threads;
  e_socks : gmap positive socket_t;
  e_more : X;
}.
Arguments mk_env {X}.
Arguments e_host {X}.
Arguments e_loop {X}.
Arguments e_threads {X}.
Arguments e_socks {X}.
Arguments e_more {X}.

Section env.
Context {X : Type}.

Definition with_host (h : host) (e : env X) : env X :=
  mk_env h (e_loop e) (e_threads e) (e_socks e) (e_more e).

(** A call that concerns the host alone. *)
Definition on_host {A} (f : host → A * host) (e : env X) : A * env X :=
  let '(r, h) := f (e_host e) in (r, with_host h e).

#[export] Instance env_malloc : Malloc (env X) := λ n, on_host (malloc_ok n).
#[export] Instance env_errno : Errno (env X) :=
  { get_errno e := get_errno (e_host e); put_errno x e := with_host (put_errno x (e_host e)) e }.
#[export] Instance env_events : Events (env X) :=
  { events e := events (e_host e); put_events m e := with_host (put_events m (e_host e)) e }.
#[export] Instance env_events_laws : EventsLaws (env X).
Proof. split; [done..|]. by intros [[] ????]. Qed.
#[export] Instance env_logger : Logger (env X) := {
  get_log_level e := get_log_level (e_host e);
  put_log_level x e := with_host (put_log_level x (e_host e)) e;
  get_stderr e := get_stderr (e_host e);
  put_stderr x e := with_host (put_stderr x (e_host e)) e;
  strerror := strerror (E := host);
}.
#[export] Instance env_io : IoOps (env X) :=
  { sys_read fd n := on_host (sys_read fd n); sys_write fd d := on_host (sys_write fd d) }.
#[export] Instance env_fd : FdOps (env X) := {
  sys_open f x y := on_host (sys_open f x y);
  sys_close fd := on_host (sys_close fd);
  sys_readv fd l := on_host (sys_readv fd l);
  sys_writev fd l := on_host (sys_writev fd l);
  sys_lseek fd x y := on_host (sys_lseek fd x y);
}.
#[export] Instance env_epoll : EpollOps (env X) := {
  sys_epoll_create1 x := on_host (sys_epoll_create1 x);
  sys_eventfd x y := on_host (sys_eventfd x y);
  sys_epoll_ctl p op fd v := on_host (sys_epoll_ctl p op fd v);
  sys_epoll_wait p n t := on_host (sys_epoll_wait p n t);
}.
#[export] Instance env_sock : SockOps (env X) := {
  sys_socket d t p := on_host (sys_socket d t p);
  sys_bind fd d := on_host (sys_bind fd d);
  sys_listen fd n := on_host (sys_listen fd n);
  sys_connect fd d := on_host (sys_connect fd d);
  sys_accept4 fd n x := on_host (sys_accept4 fd n x);
  sys_getsockname fd n := on_host (sys_getsockname fd n);
  sys_getpeername fd n := on_host (sys_getpeername fd n);
  sys_setsockopt fd l o v := on_host (sys_setsockopt fd l o v);
  sys_getsockopt fd l o := on_host (sys_getsockopt fd l o);
  sys_getfl fd := on_host (sys_getfl fd);
  sys_setfl fd x := on_host (sys_setfl fd x);
  sys_setfd fd x := on_host (sys_setfd fd x);
  sys_shutdown fd x := on_host (sys_shutdown fd x);
  sys_unlink f := on_host (sys_unlink f);
  sys_chmod f x := on_host (sys_chmod f x);
}.
#[export] Instance env_threads : Threads (env X) := {
  get_threads e := snd (e_threads e);
  put_threads t e := mk_env (e_host e) (e_loop e) (fst (e_threads e), t) (e_socks e) (e_more e);
  pthread_self e := fst (e_threads e);
}.
#[export] Instance env_loop : Loop (env X) := {
  get_loop := e_loop;
  put_loop l e := mk_env (e_host e) l (e_threads e) (e_socks e) (e_more e);
}.
#[export] Instance env_sockets : Sockets (env X) := {
  sockets := e_socks;
  put_sockets m e := mk_env (e_host e) (e_loop e) (e_threads e) m (e_more e);
}.

Lemma on_host_view {A Y} (view : env X → Y) (f : host → A * host) e :
  (∀ h e, view (with_host h e) = view e) → view (snd (on_host f e)) = view e.
Proof. intros Hv. unfold on_host. destruct (f (e_host e)). apply Hv. Qed.

(** A part of the environment beside the host is not the kernel's. *)
Lemma env_frame {Y} (view : env X → Y) :
  (∀ h e, view (with_host h e) = view e) → KernelFrame (env X) view.
Proof. intros Hv. split; intros; first [apply Hv | by apply (on_host_view view)]. Qed.

Lemma on_host_part {A Y} (view : host → Y) (f : host → A * host) e :
  (∀ h, view (snd (f h)) = view h) → view (e_host (snd (on_host f e))) = view (e_host e).
Proof. intros Hf. unfold on_host. specialize (Hf (e_host e)). by destruct (f (e_host e)). Qed.

(** A part of the host that is not the kernel's. *)
Lemma env_frame_host {Y} (view : host → Y) :
  KernelFrame host view → KernelFrame (env X) (λ e, view (e_host e)).
Proof. intros Hv. split; intros; first [by apply (kf_errno (view := view)) | apply (on_host_part view); apply Hv]. Qed.

#[export] Instance env_socket_laws : SocketLaws (env X).
Proof.
  split; [done..| |].
  - apply (env_frame_host h_events). apply _.
  - by apply env_frame.
Qed.
#[export] Instance env_fd_laws fd : FdLaws (env X) fd (λ e, output fd (e_host e)).
Proof.
  split.
  - intros lens e r d e' Hn Hs. revert Hs. unfold sys_readv, env_fd, on_host.
    destruct (sys_readv fd lens (e_host e)) as [[n l] h] eqn:Hr. intros [= <- <- <-].
    by apply (readv_law lens (e_host e) n l h Hn Hr).
  - intros iov e r e' Hs. revert Hs. unfold sys_writev, env_fd, on_host.
    destruct (sys_writev fd iov (e_host e)) as [n h] eqn:Hw. intros [= <- <-].
    by apply (writev_law iov (e_host e) n h Hw).
Qed.
#[export] Instance env_sent_frame fd : SentFrame (env X) (λ e, output fd (e_host e)).
Proof. split; done. Qed.
#[export] Instance env_sent_stores fd : SentStores (env X) (λ e, output fd (e_host e)).
Proof. split; done. Qed.
End env.

(** * Theorems *)

(** A new socket on a descriptor gets an address that no event in use has;
    its event belongs to the descriptor, wants nothing yet and is dispatched to
    the sockets; its two streams are on the descriptor, unlocked and empty; its
    names are those given.  When memory is short nothing is left behind in the
    stores.  No other event or socket changes in either case. *)
Theorem socket_new_registers {E} `{!Malloc E, !Errno E, !IoOps E, !FdOps E, !SockOps E,
    !Events E, !EventsLaws E, !Sockets E, !SocketLaws E} fd sn pn (e : E) :
  (∀ a, is_Some (sockets e !! a) → is_Some (events e !! a)) →
  ∃ r e', socket_new_from_fd fd sn pn e = Ret (r, e') ∧
    match r with
    | None => events e' = events e ∧ sockets e' = sockets e
    | Some a => ∃ i o,
        events e !! a = None ∧
        events e' = <[a := mk_event fd EVMASK_NONE (Some _sock_dispatch) 0 0 None]> (events e) ∧
        sockets e' = <[a := mk_socket false (Some i) (Some o) 60000 None 0
                              (default zeroed sn) (default zeroed pn)]> (sockets e) ∧
        fresh_stream fd i ∧ fresh_stream fd o
    end.
Proof. apply socket_new_run. Qed.

(** C15: a socket whose descriptor is reported writable sends a prefix of the
    unread bytes of its output stream, in order, which leave the stream; then
    its callback is called, with [EVMASK_WRITE] when nothing is left, and with
    [EVMASK_ERROR] too otherwise, even when the descriptor just cannot take
    more now.  The mask is stored in its event, the input stream needs nothing,
    and no other event or socket changes. *)
Theorem sock_dispatch_sends {E} `{!Malloc E, !Errno E, !IoOps E, !FdOps E, !SockOps E,
    !Events E, !EventsLaws E, !Sockets E, !SocketLaws E} fd (sent : E → block)
    `{!FdLaws E fd sent, !SentFrame E sent, !SentStores E sent} call fuel a s i o cb ev (e : E) :
  sockets e !! a = Some s → istm s = Some i → ostm s = Some o → s_cb s = Some cb →
  events e !! a = Some ev → ev_mask ev = EVMASK_WRITE →
  io o = fd → wf_buffer (sbuf o) → slock o = 0 → zlen (contents (sbuf o)) < 2 ^ 31 →
  (length (contents (sbuf o)) ≤ fuel)%nat →
  ∃ o' e' k mask, _sock_dispatch_run call fuel a e = call cb a mask (ev_ud ev) e' ∧
    (mask = EVMASK_WRITE ∧ contents (sbuf o') = [] ∨
     mask = Z.lor EVMASK_WRITE EVMASK_ERROR ∧ contents (sbuf o') ≠ []) ∧
    events e' = <[a := ev_set_mask mask ev]> (events e) ∧
    sockets e' = <[a := set_ostm (Some o') (set_istm (Some (stream_set_mask i 0)) s)]> (sockets e) ∧
    slock o' = 0 ∧ wf_buffer (sbuf o') ∧
    sent e' = sent e ++ take k (contents (sbuf o)) ∧ contents (sbuf o') = drop k (contents (sbuf o)).
Proof.
  intros Hs Hi Ho Hcb He Hmask Hio Hwf Hl Hn Hfuel. unfold _sock_dispatch_run. autorewrite with run.
  rewrite (get_socket_run _ s) by done. rewrite Hi. unfold the_stream at 1. autorewrite with run.
  rewrite (upd_socket_eq _ _ s) by done. autorewrite with run.
  set (s1 := set_istm (Some (stream_set_mask i 0)) s). set (e1 := put_sockets _ e).
  assert (stores e1 = (events e, <[a := s1]> (sockets e))) as H1
    by (unfold stores, e1; by rewrite events_put_sockets, sockets_put).
  assert (sent e1 = sent e) as Hsent1 by apply sent_put_sockets. clearbody e1. injection H1 as H1e H1s.
  assert (sockets e1 !! a = Some s1) as Hs1 by (by rewrite H1s, lookup_insert_eq).
  rewrite (get_event_run _ ev) by (by rewrite H1e). rewrite Hmask.
  change (Z.land EVMASK_WRITE (Z.lor EVMASK_WRITE EVMASK_ERROR) =? EVMASK_WRITE) with true. cbn match.
  autorewrite with run.
  destruct (try_write_run fd sent fuel a s1 o e1 Hs1 Ho Hio Hwf Hl Hn Hfuel)
    as (r & o' & e2 & k & -> & H2 & Hl' & Hio' & Hwf' & Hsent & Hc & Hr).
  rewrite H1e, H1s, insert_insert_eq in H2. injection H2 as H2e H2s. rewrite Hsent1 in Hsent.
  autorewrite with run. exists o'.
  assert (∃ mask e3, (if negb (r =? 0) then upd_event a (λ ev, ev_set_mask (Z.lor (ev_mask ev) EVMASK_ERROR) ev)
                 else mret tt) e2 = Ret (tt, e3) ∧
    (mask = EVMASK_WRITE ∧ contents (sbuf o') = [] ∨
     mask = Z.lor EVMASK_WRITE EVMASK_ERROR ∧ contents (sbuf o') ≠ []) ∧
    stores e3 = (<[a := ev_set_mask mask ev]> (events e), sockets e2) ∧ sent e3 = sent e2)
    as (mask & e3 & -> & Hcase & H3 & Hsent3).
  { destruct Hr as [[-> ?]|[-> ?]]; cbn [Z.eqb negb].
    - exists EVMASK_WRITE, e2. split; [done|]. split; [by left|]. unfold stores.
      by rewrite <- Hmask, ev_set_same, insert_id, H2e.
    - destruct (stores_upd_event sent a (λ ev, ev_set_mask (Z.lor (ev_mask ev) EVMASK_ERROR) ev) ev e2)
        as (e3 & -> & H3 & Hs3); [by rewrite H2e|]. rewrite H2e, Hmask in H3. eauto 10. }
  injection H3 as H3e H3s. autorewrite with run.
  assert (events e3 !! a = Some (ev_set_mask mask ev)) as He3 by (by rewrite H3e, lookup_insert_eq).
  rewrite (get_event_run _ _ _ He3).
  assert ((Z.land mask (Z.lor EVMASK_READ EVMASK_ERROR) =? EVMASK_READ) = false) as Hno
    by (destruct Hcase as [[-> _]|[-> _]]; reflexivity).
  change (ev_mask (ev_set_mask mask ev)) with mask. rewrite Hno. autorewrite with run.
  pose proof (sock_cb_run call a (set_ostm (Some o') s1) cb _ e3
    ltac:(by rewrite H3s, H2s, lookup_insert_eq) Hcb He3) as Hend.
  revert Hend. autorewrite with run. intros ->.
  exists e3, k, mask. split; [done|]. rewrite H3e, H3s, H2s, Hsent3, Hsent. done.
Qed.

(** C16: a socket whose descriptor is reported readable, and delivers no more
    than the free space of its input stream holds, appends what it delivers to
    that stream; then its callback is called, with [EVMASK_READ] when there was
    something or the descriptor would have had to wait, and with [EVMASK_ERROR]
    too at the end of the input and after any other failure.  The mask is
    stored in its event, the stream needs [EVMASK_READ] exactly when the
    descriptor would have had to wait, and no other event or socket changes. *)
Theorem sock_dispatch_receives {E} `{!Malloc E, !Errno E, !IoOps E, !FdOps E, !SockOps E,
    !Events E, !EventsLaws E, !Sockets E, !SocketLaws E} fd (sent : E → block)
    `{!FdLaws E fd sent, !SentFrame E sent, !SentStores E sent} call fuel a s i cb ev n d (e e1 : E) :
  sockets e !! a = Some s → istm s = Some i → s_cb s = Some cb →
  events e !! a = Some ev → ev_mask ev = EVMASK_READ →
  io i = fd → wf_buffer (sbuf i) → slock i = 0 →
  let e0 := put_sockets (<[a := set_istm (Some (stream_set_mask i 0)) s]> (sockets e)) e in
  sys_readv fd [buffer_space (sbuf i); STM_READALL_LEN] e0 = (n, d, e1) →
  zlen d ≤ buffer_space (sbuf i) → zlen d < 2 ^ 31 →
  let again := (n =? -1) && (get_errno e1 =? EAGAIN) in
  let mask := if (0 <? n) || again then EVMASK_READ else Z.lor EVMASK_READ EVMASK_ERROR in
  ∃ i' e', _sock_dispatch_run call fuel a e = call cb a mask (ev_ud ev) e' ∧
    events e' = <[a := ev_set_mask mask ev]> (events e) ∧
    sockets e' = <[a := set_istm (Some i') s]> (sockets e) ∧
    slock i' = 0 ∧ wf_buffer (sbuf i') ∧ contents (sbuf i') = contents (sbuf i) ++ cells d ∧
    need_mask i' = if again then EVMASK_READ else 0.
Proof.
  intros Hs Hi Hcb He Hmask Hio Hwf Hl e0 Hread Hfit Hsmall again mask.
  destruct (receives_run fd sent (λ _, tt) call fuel a s i cb ev n d e e1)
    as (i' & e' & Hrun & ? & ? & ? & _ & ? & ? & ? & _); [done..|]. by exists i', e'.
Qed.

(** * Witnesses *)

Definition env0 {X} (h : host) (x : X) : env X := mk_env h loop_idle env7 ∅ x.

Lemma socket_new_registers_witness :
  let e := env0 host_new tt in
  ∃ r e', socket_new_from_fd 9 None (Some zeroed) e = Ret (r, e') ∧
    match r with
    | None => events e' = events e ∧ sockets e' = sockets e
    | Some a => ∃ i o,
        events e !! a = None ∧
        events e' = <[a := mk_event 9 EVMASK_NONE (Some _sock_dispatch) 0 0 None]> (events e) ∧
        sockets e' = <[a := mk_socket false (Some i) (Some o) 60000 None 0 zeroed zeroed]> (sockets e) ∧
        fresh_stream 9 i ∧ fresh_stream 9 o
    end.
Proof.
  intros e. apply (socket_new_registers 9 None (Some zeroed) e).
  intros a [s Hs]. cbn in Hs. by rewrite lookup_empty in Hs.
Defined.

(** A callback that does nothing, and a socket on descriptor 7 whose streams
    hold [buf]. *)
Definition quiet (cb : Z) (sock : positive) (why ud : Z) : M (env unit) unit := mret tt.
Definition sample_stream (b : buffer_t) : stream_t := mk_stream 7 0 b 0 0 0.
Definition sample_socket (b : buffer_t) : socket_t :=
  mk_socket true (Some (sample_stream b)) (Some (sample_stream b)) 60000 (Some 1) 1 zeroed zeroed.
Definition sample_event (mask : Z) : event_t := mk_event 7 mask (Some _sock_dispatch) 0 0 None.
Definition sample_env (h : host) (mask : Z) (b : buffer_t) : env unit :=
  mk_env (with_events h {[5%positive := sample_event mask]}) loop_idle env7 {[5%positive := sample_socket b]} tt.

Lemma sock_dispatch_sends_witness :
  let e := sample_env host0 EVMASK_WRITE (small 3 abc) in
  ∃ e' k, _sock_dispatch_run quiet 3 5 e = Ret (tt, e') ∧ output 7 (e_host e') = take k (cells abc).
Proof.
  intros e.
  destruct (sock_dispatch_sends 7 (λ e : env unit, output 7 (e_host e)) quiet 3 5 (sample_socket (small 3 abc))
    (sample_stream (small 3 abc)) (sample_stream (small 3 abc)) 1 (sample_event EVMASK_WRITE) e)
    as (o' & e' & k & mask & Hrun & _ & _ & _ & _ & _ & Hsent & _);
    [by vm_compute|done..|wf_small|done|by vm_compute|vm_compute; lia|].
  exists e', k. split; [exact Hrun|]. rewrite Hsent. done.
Defined.

Lemma sock_dispatch_receives_witness :
  let e := sample_env (with_input host0 {[7 := de]}) EVMASK_READ (small 0 abc) in
  ∃ i' e', _sock_dispatch_run quiet 3 5 e = Ret (tt, e') ∧
    sockets e' = <[5%positive := set_istm (Some i') (sample_socket (small 0 abc))]> (sockets e) ∧
    contents (sbuf i') = cells (abc ++ de).
Proof.
  intros e.
  edestruct (sock_dispatch_receives 7 (λ e : env unit, output 7 (e_host e)) quiet 3 5 (sample_socket (small 0 abc))
    (sample_stream (small 0 abc)) 1 (sample_event EVMASK_READ)) with (e := e)
    as (i' & e' & Hrun & _ & Hs & _ & _ & Hc & _);
    [by vm_compute|done..|wf_small|done|vm_compute; reflexivity|by vm_compute|by vm_compute|].
  exists i', e'. split; [exact Hrun|]. split; [exact Hs|exact Hc].
Defined.
