(* ===== verification/Listener.v ===== *)
(** * Listeners ([listener.c], [listener.h])

    The library is built with [accept4], on Linux. *)
From stdpp Require Import strings.
From S2P Require Import Prelude Alloc Sys Cstring Lock Log Thread Event Host Buffer Stream.
From S2P Require Import Eventpoll Eventloop Sockaddr Socket.

Definition SOL_SOCKET : Z := 1.
Definition SO_REUSEADDR : Z := 2.
Definition SO_REUSEPORT : Z := 15.
Definition SOMAXCONN : Z := 4096.

(** [struct _listener], but for [ev]; [l_loop]: is there a loop? *)
Record listener_t := mk_listener {
  l_loop : bool;
  l_addr : sockaddr_t;
  l_enabled : Z;
  listening : Z;
  backlog : Z;
  l_flags : Z;
  acceptor : option Z;
  l_name : list byte;
}.

Definition set_l_addr (x : sockaddr_t) (l : listener_t) : listener_t :=
  mk_listener (l_loop l) x (l_enabled l) (listening l) (backlog l) (l_flags l) (acceptor l) (l_name l).
Definition set_l_enabled (x : Z) (l : listener_t) : listener_t :=
  mk_listener (l_loop l) (l_addr l) x (listening l) (backlog l) (l_flags l) (acceptor l) (l_name l).
Definition set_listening (x : Z) (l : listener_t) : listener_t :=
  mk_listener (l_loop l) (l_addr l) (l_enabled l) x (backlog l) (l_flags l) (acceptor l) (l_name l).
Definition set_backlog (x : Z) (l : listener_t) : listener_t :=
  mk_listener (l_loop l) (l_addr l) (l_enabled l) (listening l) x (l_flags l) (acceptor l) (l_name l).

Definition zero_listener : listener_t := mk_listener false zeroed 0 0 0 0 None [].

(** The listeners in use, by the address of their event. *)
Class Listeners (E : Type) := {
  listeners : E → gmap positive listener_t;
  put_listeners : gmap positive listener_t → E → E;
}.

Section listener.
Context {E : Type} `{!Malloc E, !Errno E, !Events E, !Logger E, !IoOps E, !FdOps E, !EpollOps E,
  !SockOps E, !Threads E, !Loop E, !Sockets E, !Listeners E}.

Definition get_listener (a : positive) : M E listener_t := λ e,
  match listeners e !! a with Some l => Ret (l, e) | None => UB end.
Definition upd_listener (a : positive) (f : listener_t → listener_t) : M E unit := λ e,
  match listeners e !! a with
  | Some l => Ret (tt, put_listeners (<[a := f l]> (listeners e)) e)
  | None => UB
  end.
Definition drop_listener (a : positive) : M E unit := λ e,
  match listeners e !! a with
  | Some _ => Ret (tt, put_listeners (delete a (listeners e)) e)
  | None => UB
  end.

Section callback.
(** [lstn->acceptor] *)
Variable accept : Z → positive → positive → M E unit.

Definition _accept_dispatch_run (lstn : positive) : M E unit :=
  ev ← get_event lstn; l ← get_listener lstn;
  let a4flags := Z.lor (if negb (Z.land (l_flags l) SOCK_CLOEXEC =? 0) then SOCK_CLOEXEC else 0)
                       (if negb (Z.land (l_flags l) SOCK_NONBLOCK =? 0) then SOCK_NONBLOCK else 0) in
  '(fd, name) ← sys (sys_accept4 (ev_fd ev) sizeof_union a4flags);
  if fd =? -1 then warn_errno (str_of "accept error: ")
  else
    let sa := splice 0 (cells name) (replicate (Z.to_nat sizeof_union) None) in
    f ← lift (defined (slice 0 2 sa));
    let addr := mk_sockaddr (family_of f) sa in
    sock ← socket_new_from_fd fd (Some (l_addr l)) (Some addr);
    match sock with
    | None => _ ← sys (sys_close fd); mret tt
    | Some sock =>
        match acceptor l with Some a => accept a lstn sock | None => ub end
    end.
End callback.

Definition listener_set_backlog (lstn : positive) (n : Z) : M E unit :=
  if 0 <? n then upd_listener lstn (set_backlog n)
  else
    upd_listener lstn (set_backlog SOMAXCONN);;
    fd ← sys (sys_open (str_of "/proc/sys/net/core/somaxconn") 0 0);
    if 0 <=? fd then
      '(x, d) ← sys (sys_read fd 32);
      (if 0 <? x then
         v ← lift (strtol (cells d ++ replicate (32 - length d) None));
         upd_listener lstn (set_backlog (i32 v))
       else mret tt);;
      _ ← sys (sys_close fd);
      mret tt
    else mret tt.

(** The result of [alloc] is not checked. *)
Definition listener_new (name : list byte) (acc : option Z) : M E positive :=
  ok ← sys (malloc_ok 296);
  if negb ok then ub
  else
    lstn ← new_event;
    sys (λ e, (tt, put_listeners (<[lstn := zero_listener]> (listeners e)) e));;
    event_init lstn (-1) EVMASK_READ (Some _accept_dispatch) 0;;
    upd_listener lstn (λ l, mk_listener true (l_addr l) (l_enabled l) (listening l) (backlog l)
                              (Z.lor SOCK_CLOEXEC SOCK_NONBLOCK) acc (take 63 name));;
    listener_set_backlog lstn 0;;
    mret lstn.

Definition listener_free (lstn : positive) : M E unit := event_free lstn;; drop_listener lstn.

Definition listener_loop (lstn : positive) : M E bool := l ← get_listener lstn; mret (l_loop l).

Definition listener_fd (lstn : positive) : M E Z := ev ← get_event lstn; mret (ev_fd ev).

(** [bind] to the bytes of an address that count. *)
Definition bind_addr (fd : Z) (addr : sockaddr_t) : M E Z :=
  sys (sys_bind fd (slice 0 (sockaddr_len addr) (sa addr))).

(** The part of [listener_bind] that makes the descriptor: false on failure. *)
Definition listener_socket (lstn : positive) (addr : sockaddr_t) : M E bool :=
  ev ← get_event lstn; l ← get_listener lstn;
  if ev_fd ev =? -1 then
    fd ← socket_for_addr addr SOCK_STREAM (l_flags l);
    upd_event lstn (ev_set_fd fd);;
    if fd =? -1 then mret false
    else
      _ ← sys (sys_setsockopt fd SOL_SOCKET SO_REUSEADDR 1);
      _ ← sys (sys_setsockopt fd SOL_SOCKET SO_REUSEPORT 1);
      mret true
  else mret true.

(** The part that binds the descriptor. *)
Definition listener_bind_fd (fd : Z) (lstn : positive) (addr : sockaddr_t) : M E Z :=
  r ← bind_addr fd addr;
  if r =? 0 then upd_listener lstn (set_l_addr addr);; mret 0
  else
    err ← errno;
    if (err =? EADDRINUSE) && (family addr =? AF_UNIX) then
      n ← lift (strlen (slice off_path sizeof_path (sa addr)));
      path ← lift (get_sa off_path n addr);
      _ ← sys (sys_unlink path);
      r ← bind_addr fd addr;
      if r =? 0 then mret 0
      else set_errno err;; mret (-1)
    else mret (-1).

Definition listener_bind (lstn : positive) (addr : sockaddr_t) : M E Z :=
  ok ← listener_socket lstn addr;
  if negb ok then mret (-1)
  else ev ← get_event lstn; listener_bind_fd (ev_fd ev) lstn addr.

Definition listener_enable (lstn : positive) (enable : Z) : M E Z :=
  l ← get_listener lstn;
  if l_enabled l =? enable then mret 0
  else
    upd_event lstn (ev_set_mask (if enable =? 0 then EVMASK_NONE else EVMASK_READ));;
    ok ← (if listening l =? 0 then
            ev ← get_event lstn;
            r ← sys (sys_listen (ev_fd ev) (backlog l));
            if negb (r =? 0) then mret false
            else upd_listener lstn (set_listening 1);; mret true
          else mret true);
    if negb ok then mret (-1)
    else
      _ ← (if l_loop l then eventloop_apply lstn else ub);
      upd_listener lstn (set_l_enabled enable);;
      mret 0.
End listener.

(** * Specification *)

(** The loop and the threads, of which the operations of a listener need to
    know that they stay as they are. *)
Definition core {E} `{!Threads E, !Loop E} (e : E) := (get_loop e, get_threads e, pthread_self e).

(** The stores are apart from each other, from the kernel, and from the
    registrations with epoll. *)
Class ListenerLaws (E : Type) `{!Malloc E, !Errno E, !IoOps E, !FdOps E, !SockOps E, !EpollOps E,
    !Events E, !Threads E, !Loop E, !Listeners E} (interest : E → gmap Z (Z * positive)) := {
  listeners_put m e : listeners (put_listeners m e) = m;
  listeners_put_events m e : listeners (put_events m e) = listeners e;
  events_put_listeners m e : events (put_listeners m e) = events e;
  interest_put_listeners m e : interest (put_listeners m e) = interest e;
  core_put_events m e : core (put_events m e) = core e;
  core_put_listeners m e : core (put_listeners m e) = core e;
  listeners_ctl epfd op fd evt e : listeners (snd (sys_epoll_ctl epfd op fd evt e)) = listeners e;
  core_ctl epfd op fd evt e : core (snd (sys_epoll_ctl epfd op fd evt e)) = core e;
  listener_events :: KernelFrame E (events (E := E));
  kernel_listeners :: KernelFrame E (listeners (E := E));
}.

(** * Lemmas *)

(** What [eventpoll_apply] leaves alone. *)
Lemma apply_view {E Y} `{!Errno E, !Events E, !EpollOps E} (view : E → Y) p a r (e e' : E) :
  (∀ m e, view (put_events m e) = view e) →
  (∀ epfd op fd evt e, view (snd (sys_epoll_ctl epfd op fd evt e)) = view e) →
  eventpoll_apply p a e = Ret (r, e') → view e' = view e.
Proof.
  intros Hev Hctl. unfold eventpoll_apply, get_event, upd_event, errno. autorewrite with run.
  destruct (events e !! a) as [ev|]; [|done]. destruct (_ =? ev_last_mask ev); [by intros [= _ <-]|].
  destruct (_ =? 0); autorewrite with run.
  - specialize (Hctl (pollfd p) EPOLL_CTL_DEL (ev_fd ev) None e).
    destruct (sys_epoll_ctl _ _ _ _ e) as [q e1]. autorewrite with run. by intros [= _ <-].
  - destruct (events e !! a) as [ev'|]; [|done].
    rewrite <- (Hev (<[a:=ev_set_last_mask (newmask_of (ev_mask ev)) ev']> (events e)) e).
    generalize (put_events (<[a:=ev_set_last_mask (newmask_of (ev_mask ev)) ev']> (events e)) e).
    intros e0. autorewrite with run. match goal with |- context [sys_epoll_ctl ?w ?x ?y ?z e0] =>
      pose proof (Hctl w x y z e0) as H1; destruct (sys_epoll_ctl w x y z e0) as [q e1] end.
    autorewrite with run. destruct (_ && _); autorewrite with run; [|by intros [= _ <-]].
    match goal with |- context [sys_epoll_ctl ?w ?x ?y ?z e1] =>
      pose proof (Hctl w x y z e1) as H2; destruct (sys_epoll_ctl w x y z e1) as [q' e2] end.
    cbn in *. intros [= _ <-]. congruence.
Qed.

Section listener_lemmas.
Context {E : Type} `{!Malloc E, !Errno E, !Logger E, !IoOps E, !FdOps E, !SockOps E, !EpollOps E,
  !Events E, !EventsLaws E, !Threads E, !Loop E, !Listeners E}.
Context (interest : E → gmap Z (Z * positive)) `{!ListenerLaws E interest}.

(** The loop belongs to the running thread, and has a poll. *)
Definition owned (p : eventpoll_t) (e : E) : Prop :=
  el_poll (get_loop e) = Some p ∧
  ∃ t, t_self (get_threads e) !! pthread_self e = Some t ∧ el_me (get_loop e) = Some t.

Lemma owned_core p (e e' : E) : core e' = core e → owned p e → owned p e'.
Proof. unfold owned, core. intros [= -> -> ->]. done. Qed.

Lemma eventloop_apply_owned p a (e : E) : owned p e → eventloop_apply a e = eventpoll_apply p a e.
Proof.
  intros (Hp & t & Ht & Hme). unfold eventloop_apply, thread_self, the_loop, the_poll, the_threads, me, the_loop.
  autorewrite with run. rewrite Ht. autorewrite with run.
  rewrite Hme, decide_True by done. autorewrite with run. rewrite Hp. by autorewrite with run.
Qed.

Lemma upd_listener_run a f l (e : E) :
  listeners e !! a = Some l →
  upd_listener a f e = Ret (tt, put_listeners (<[a := f l]> (listeners e)) e).
Proof. intros H. unfold upd_listener. by rewrite H. Qed.

Lemma bind_keeps fd d r (e e1 : E) :
  sys_bind fd d e = (r, e1) → events e1 = events e ∧ listeners e1 = listeners e.
Proof.
  intros H. pose proof (kf_bind (view := events) fd d e) as H1.
  pose proof (kf_bind (view := listeners) fd d e) as H2. by rewrite H in H1, H2.
Qed.

Lemma unlink_keeps f r (e e1 : E) :
  sys_unlink f e = (r, e1) → events e1 = events e ∧ listeners e1 = listeners e.
Proof.
  intros H. pose proof (kf_unlink (view := events) f e) as H1.
  pose proof (kf_unlink (view := listeners) f e) as H2. by rewrite H in H1, H2.
Qed.

Lemma listener_bind_run a addr l ev (e : E) :
  listeners e !! a = Some l → events e !! a = Some ev → ev_fd ev ≠ -1 →
  listener_bind a addr e = listener_bind_fd (ev_fd ev) a addr e.
Proof.
  intros Hl He Hfd. unfold listener_bind, listener_socket, get_listener. autorewrite with run.
  rewrite (get_event_run _ ev) by done. autorewrite with run. rewrite Hl.
  destruct (Z.eqb_spec (ev_fd ev) (-1)); [done|]. autorewrite with run. cbn [negb]. autorewrite with run.
  by rewrite (get_event_run _ ev).
Qed.

(** Turning a listener that listens on or off. *)
Lemma enable_run p a x l ev r (e e1 : E) :
  listeners e !! a = Some l → events e !! a = Some ev → owned p e →
  l_enabled l ≠ x → listening l ≠ 0 → l_loop l = true →
  eventpoll_apply p a (put_events (<[a := ev_set_mask (if x =? 0 then EVMASK_NONE else EVMASK_READ) ev]>
                         (events e)) e) = Ret (r, e1) →
  ∃ e2, listener_enable a x e = Ret (0, e2) ∧ interest e2 = interest e1 ∧ events e2 = events e1 ∧
    owned p e2 ∧ listeners e2 = <[a := set_l_enabled x l]> (listeners e).
Proof.
  intros Hl He Ho Hx Hlis Hloop Happ. unfold listener_enable, get_listener. autorewrite with run. rewrite Hl.
  destruct (Z.eqb_spec (l_enabled l) x); [done|]. autorewrite with run.
  rewrite (upd_event_run _ _ ev) by done.
  set (e0 := put_events _ e) in *. assert (core e0 = core e) as Hc0 by apply core_put_events.
  assert (listeners e0 = listeners e) as Hl0 by apply listeners_put_events. clearbody e0.
  autorewrite with run. destruct (Z.eqb_spec (listening l) 0); [done|]. autorewrite with run. cbn [negb].
  rewrite Hloop. autorewrite with run. rewrite (eventloop_apply_owned p) by by eapply owned_core.
  rewrite Happ. autorewrite with run.
  pose proof (apply_view listeners p a r e0 e1 listeners_put_events listeners_ctl Happ) as Hl1.
  pose proof (apply_view core p a r e0 e1 core_put_events core_ctl Happ) as Hc1.
  rewrite (upd_listener_run _ _ l) by by rewrite Hl1, Hl0. autorewrite with run.
  eexists. split; [done|]. rewrite interest_put_listeners, events_put_listeners, listeners_put.
  split_and!; [done|done| |by rewrite Hl1, Hl0].
  apply (owned_core p e); [|done]. rewrite core_put_listeners. congruence.
Qed.
End listener_lemmas.

(** ** The concrete environment *)

#[export] Instance env_listeners : Listeners (env (gmap positive listener_t)) := {
  listeners := e_more;
  put_listeners m e := mk_env (e_host e) (e_loop e) (e_threads e) (e_socks e) m;
}.
#[export] Instance env_listener_laws :
  ListenerLaws (env (gmap positive listener_t)) (λ e, h_interest (e_host e)).
Proof.
  split; try done.
  - intros. by apply (on_host_view listeners).
  - intros. by apply (on_host_view core).
  - apply (env_frame_host h_events). apply _.
  - by apply env_frame.
Qed.
#[export] Instance env_epoll_laws {X} epfd : EpollLaws (env X) epfd (λ e, h_interest (e_host e)).
Proof.
  split.
  - intros op fd evt e r e' H. change (on_host (sys_epoll_ctl epfd op fd evt) e = (r, e')) in H.
    unfold on_host in H. destruct (sys_epoll_ctl epfd op fd evt (e_host e)) as [q h] eqn:Hq.
    injection H as <- <-. exact (ctl_law (interest := h_interest) op fd evt _ _ _ Hq).
  - intros max t e n l e' H. change (on_host (sys_epoll_wait epfd max t) e = (n, l, e')) in H.
    unfold on_host in H. destruct (sys_epoll_wait epfd max t (e_host e)) as [[q k] h] eqn:Hq.
    injection H as <- <- <-. exact (wait_law (interest := h_interest) max t _ _ _ _ Hq).
Qed.
#[export] Instance env_poll_frame {X} : EventpollFrame (env X) (λ e, h_interest (e_host e)).
Proof.
  split; [done|..].
  - intros. apply (on_host_part h_events). intros h. exact (ctl_events (interest := h_interest) epfd op fd evt h).
  - intros. apply (on_host_part h_events). intros h. exact (wait_events (interest := h_interest) epfd max t h).
Qed.

(** What an incoming connection comes to: a socket for the acceptor, or the
    descriptor is closed. *)
Definition peer_name (name : list byte) : sockaddr_t :=
  mk_sockaddr (family_of (take 2 name)) (cells name ++ replicate (Z.to_nat sizeof_union - length name) None).

Lemma accept_eq {E} `{!Malloc E, !Errno E, !Logger E, !IoOps E, !FdOps E, !SockOps E, !Events E, !Sockets E,
    !Listeners E} accept a l acc ev fd name (e e1 : E) :
  listeners e !! a = Some l → acceptor l = Some acc → l_flags l = Z.lor SOCK_CLOEXEC SOCK_NONBLOCK →
  events e !! a = Some ev →
  sys_accept4 (ev_fd ev) sizeof_union (Z.lor SOCK_CLOEXEC SOCK_NONBLOCK) e = (fd, name, e1) →
  fd ≠ -1 → 2 ≤ zlen name ≤ sizeof_union →
  _accept_dispatch_run accept a e =
    match socket_new_from_fd fd (Some (l_addr l)) (Some (peer_name name)) e1 with
    | Ret (Some sock, e2) => accept acc a sock e2
    | Ret (None, e2) => Ret (tt, snd (sys_close fd e2))
    | UB => UB
    | Hang => Hang
    end.
Proof.
  intros Hl Hacc Hflags He Haccept Hfd Hname. unfold _accept_dispatch_run. autorewrite with run.
  rewrite (get_event_run _ ev) by done. autorewrite with run. unfold get_listener. rewrite Hl.
  autorewrite with run. rewrite Hflags.
  change (Z.lor (if negb (Z.land (Z.lor SOCK_CLOEXEC SOCK_NONBLOCK) SOCK_CLOEXEC =? 0) then SOCK_CLOEXEC else 0)
            (if negb (Z.land (Z.lor SOCK_CLOEXEC SOCK_NONBLOCK) SOCK_NONBLOCK =? 0) then SOCK_NONBLOCK else 0))
    with (Z.lor SOCK_CLOEXEC SOCK_NONBLOCK).
  rewrite Haccept. destruct (Z.eqb_spec fd (-1)); [done|]. autorewrite with run.
  assert (splice 0 (cells name) (replicate (Z.to_nat sizeof_union) None) = sa (peer_name name)) as ->.
  { change (splice 0 ?d ?m) with (d ++ drop (length d) m). by rewrite length_fmap, drop_replicate. }
  assert (defined (slice 0 2 (sa (peer_name name))) = Ret (take 2 name)) as ->.
  { cbn [sa peer_name]. rewrite slice_app_l by (rewrite ?length_fmap; lia). unfold slice. rewrite drop_0.
    change (Z.to_nat 2) with 2%nat. rewrite <- fmap_take. apply defined_cells. }
  autorewrite with run. fold (peer_name name).
  destruct (socket_new_from_fd _ _ _ e1) as [[[sock|] e2]| |]; autorewrite with run; [by rewrite Hacc| |done..].
  by destruct (sys_close fd e2).
Qed.

(** * Theorems *)

(** A listener that was paused never accepts again: turning it off takes
    its descriptor from epoll (or fails to, without saying so), and turning
    it on again returns 0 and marks it enabled, but leaves the registrations
    as they are. *)
Theorem listener_resume_lost {E} `{!Malloc E, !Errno E, !Logger E, !IoOps E, !FdOps E, !SockOps E,
    !EpollOps E, !Events E, !EventsLaws E, !Threads E, !Loop E, !Listeners E}
    interest p `{!EpollLaws E (pollfd p) interest, !EventpollFrame E interest, !ListenerLaws E interest}
    a l ev (e : E) :
  listeners e !! a = Some l → l_enabled l = 1 → listening l ≠ 0 → l_loop l = true →
  events e !! a = Some ev → ev_last_mask ev = newmask_of EVMASK_READ → owned p e →
  ∃ e1 e2, listener_enable a 0 e = Ret (0, e1) ∧ listener_enable a 1 e1 = Ret (0, e2) ∧
    (interest e1 = delete (ev_fd ev) (interest e) ∨ interest e1 = interest e) ∧
    interest e2 = interest e1 ∧ l_enabled <$> listeners e2 !! a = Some 1.
Proof.
  intros Hl Hen Hlis Hloop He Hlast Ho. set (off := ev_set_mask EVMASK_NONE ev).
  set (e0 := put_events (<[a := off]> (events e)) e).
  assert (events e0 !! a = Some off) as He0 by (unfold e0; by rewrite events_put, lookup_insert_eq).
  destruct (apply_off p interest a off e0) as (r & e1 & Happ & Hev1 & Hcase);
    [done|done|cbn; rewrite Hlast; by vm_compute|].
  destruct (enable_run interest p a 0 l ev r e e1) as (e2 & Hrun & Hi2 & Hev2 & Ho2 & Hl2);
    [done|done|done|congruence|done..|].
  assert (interest e0 = interest e) as Hi0 by apply interest_events.
  assert (events e2 !! a = Some off) as He2 by congruence.
  set (on := ev_set_mask EVMASK_READ off).
  set (e3 := put_events (<[a := on]> (events e2)) e2).
  assert (events e3 !! a = Some on) as He3 by (unfold e3; by rewrite events_put, lookup_insert_eq).
  destruct (enable_run interest p a 1 (set_l_enabled 0 l) off 0 e2 e3) as (e4 & Hrun4 & Hi4 & _ & _ & Hl4);
    [by rewrite Hl2, lookup_insert_eq|done..| |].
  { apply (apply_skip p a on); [done|]. cbn. by rewrite Hlast. }
  exists e2, e4. split; [done|]. split; [done|]. split.
  - rewrite Hi2, <- Hi0. destruct Hcase as [[_ ->]|(_ & -> & _)]; auto.
  - rewrite Hi4. unfold e3. rewrite interest_events. split; [done|].
    by rewrite Hl4, lookup_insert_eq.
Qed.

(** C37: [listener_bind] on a listener with a descriptor, branch by branch:
    success stores the address; any failure leaves the listener as it was and
    returns -1; only for a path that is in use the file is removed and the
    call repeated, and then success does not store the address, and failure
    restores the first [errno]. *)
Theorem listener_bind_cases {E} `{!Malloc E, !Errno E, !Logger E, !IoOps E, !FdOps E, !SockOps E,
    !EpollOps E, !Events E, !EventsLaws E, !Threads E, !Loop E, !Listeners E}
    interest `{!ListenerLaws E interest} a l ev addr (e e1 : E) r :
  listeners e !! a = Some l → events e !! a = Some ev → ev_fd ev ≠ -1 →
  let bind := sys_bind (ev_fd ev) (slice 0 (sockaddr_len addr) (sa addr)) in
  bind e = (r, e1) →
  if r =? 0 then
    ∃ e', listener_bind a addr e = Ret (0, e') ∧ events e' = events e ∧
      listeners e' = <[a := set_l_addr addr l]> (listeners e)
  else if (get_errno e1 =? EADDRINUSE) && (family addr =? AF_UNIX) then
    ∀ n path u e2 r2 e3,
      strlen (slice off_path sizeof_path (sa addr)) = Ret n → get_sa off_path n addr = Ret path →
      sys_unlink path e1 = (u, e2) → bind e2 = (r2, e3) →
      ∃ e', listener_bind a addr e = Ret (if r2 =? 0 then 0 else -1, e') ∧
        (r2 = 0 → e' = e3) ∧ (r2 ≠ 0 → e' = put_errno EADDRINUSE e3) ∧
        events e' = events e ∧ listeners e' = listeners e
  else listener_bind a addr e = Ret (-1, e1) ∧ events e1 = events e ∧ listeners e1 = listeners e.
Proof.
  intros Hl He Hfd bind Hb. rewrite (listener_bind_run a addr l ev) by done.
  destruct (bind_keeps interest (ev_fd ev) (slice 0 (sockaddr_len addr) (sa addr)) _ _ _ Hb) as [Hev1 Hl1].
  unfold listener_bind_fd, bind_addr. fold bind. autorewrite with run. rewrite Hb. destruct (r =? 0).
  { autorewrite with run. unfold upd_listener. rewrite Hl1, Hl. autorewrite with run.
    eexists. split; [done|]. by rewrite events_put_listeners, listeners_put. }
  unfold errno. autorewrite with run.
  destruct (Z.eqb_spec (get_errno e1) EADDRINUSE) as [Heq|Heq]; cbn [andb]; [|by autorewrite with run].
  destruct (family addr =? AF_UNIX); [|by autorewrite with run].
  intros n path u e2 r2 e3 Hn Hpath Hu Hb2. autorewrite with run. rewrite Hn. autorewrite with run.
  rewrite Hpath. autorewrite with run. rewrite Hu. autorewrite with run. rewrite Hb2.
  destruct (unlink_keeps interest _ _ _ _ Hu) as [Hev2 Hl2].
  destruct (bind_keeps interest (ev_fd ev) (slice 0 (sockaddr_len addr) (sa addr)) _ _ _ Hb2) as [Hev3 Hl3].
  unfold set_errno. destruct (Z.eqb_spec r2 0) as [->|Hr2]; autorewrite with run.
  - exists e3. split_and!; [done..|congruence|congruence].
  - eexists. split; [by rewrite Heq|]. split; [done|]. split; [done|].
    rewrite (kf_errno (view := events)), (kf_errno (view := listeners)). split; congruence.
Qed.

(** C18: when a connection comes in on the descriptor of a listener, it is
    accepted with both flags; its descriptor gets a socket whose local name is
    the listener's address and whose peer is the name that came with the
    connection, and the acceptor is called with this socket.  Without memory
    for the socket the descriptor is closed and the acceptor is not called. *)
Theorem accept_dispatch_hands_over {E} `{!Malloc E, !Errno E, !Logger E, !IoOps E, !FdOps E, !SockOps E,
    !Events E, !EventsLaws E, !Sockets E, !SocketLaws E, !Listeners E}
    accept a l acc ev fd name (e e1 : E) :
  listeners e !! a = Some l → acceptor l = Some acc → l_flags l = Z.lor SOCK_CLOEXEC SOCK_NONBLOCK →
  events e !! a = Some ev → sockets_ok e →
  sys_accept4 (ev_fd ev) sizeof_union (Z.lor SOCK_CLOEXEC SOCK_NONBLOCK) e = (fd, name, e1) →
  fd ≠ -1 → 2 ≤ zlen name ≤ sizeof_union →
  let peer := mk_sockaddr (family_of (take 2 name))
                (cells name ++ replicate (Z.to_nat sizeof_union - length name) None) in
  ∃ sock e2,
    match sock with
    | Some sock => ∃ i o,
        _accept_dispatch_run accept a e = accept acc a sock e2 ∧
        events e !! sock = None ∧
        events e2 = <[sock := mk_event fd EVMASK_NONE (Some _sock_dispatch) 0 0 None]> (events e) ∧
        sockets e2 = <[sock := mk_socket false (Some i) (Some o) 60000 None 0 (l_addr l) peer]> (sockets e) ∧
        fresh_stream fd i ∧ fresh_stream fd o
    | None =>
        _accept_dispatch_run accept a e = Ret (tt, snd (sys_close fd e2)) ∧
        events e2 = events e ∧ sockets e2 = sockets e
    end.
Proof.
  intros Hl Hacc Hflags He Hok Haccept Hfd Hname peer. rewrite (accept_eq accept a l acc ev fd name e e1) by done.
  assert (events e1 = events e ∧ sockets e1 = sockets e) as [H1e H1s].
  { pose proof (kf_accept4 (view := events) (ev_fd ev) sizeof_union (Z.lor SOCK_CLOEXEC SOCK_NONBLOCK) e) as H1.
    pose proof (kf_accept4 (view := sockets) (ev_fd ev) sizeof_union (Z.lor SOCK_CLOEXEC SOCK_NONBLOCK) e) as H2.
    by rewrite Haccept in H1, H2. }
  destruct (socket_new_run fd (Some (l_addr l)) (Some (peer_name name)) e1) as (r & e2 & -> & Hr);
    [by rewrite H1e, H1s|]. rewrite H1e, H1s in Hr. exists r, e2. destruct r as [sock|]; [|by destruct Hr].
  destruct Hr as (i & o & ? & ? & ? & ? & ?). exists i, o. by split_and!.
Qed.

(** * Witnesses *)

Definition lstn_sample : listener_t := mk_listener true zeroed 1 1 128 0x80800 (Some 1) (str_of "echo").
Definition lstn_event : event_t :=
  mk_event 7 EVMASK_READ (Some _accept_dispatch) 0 (newmask_of EVMASK_READ) None.
Definition lstn_host : host :=
  with_open (with_interest (with_events host0 {[5%positive := lstn_event]})
    {[7 := (u32 (newmask_of EVMASK_READ), 5%positive)]}) {[7]}.

(** A listener on descriptor 7 that is enabled, in the thread of the loop. *)
Definition lstn_env (h : host) : env (gmap positive listener_t) :=
  mk_env h loop_idle (7, mk_threads {[1%positive := mk_thread 7 []]} {[7 := 1%positive]} {[7 := 1%positive]} true)
    ∅ {[5%positive := lstn_sample]}.

Lemma listener_resume_lost_witness :
  let e := lstn_env lstn_host in
  ∃ e1 e2, listener_enable 5 0 e = Ret (0, e1) ∧ listener_enable 5 1 e1 = Ret (0, e2) ∧
    (h_interest (e_host e1) = delete 7 (h_interest (e_host e)) ∨ h_interest (e_host e1) = h_interest (e_host e)) ∧
    h_interest (e_host e2) = h_interest (e_host e1) ∧ l_enabled <$> listeners e2 !! 5%positive = Some 1.
Proof.
  intros e. apply (listener_resume_lost (λ e, h_interest (e_host e)) poll_sample 5 lstn_sample lstn_event e);
    [done..|]. split; [done|]. by exists 1%positive.
Defined.

Definition unix_sample : sockaddr_t :=
  match sockaddr_set_unix zeroed (Some (str_of "/tmp/s")) 0 with Ret (_, a) => a | _ => zeroed end.

Lemma listener_bind_cases_witness :
  let e := lstn_env (with_script lstn_host [EADDRINUSE; 0; ENOMEM]) in
  ∃ e', listener_bind 5 unix_sample e = Ret (-1, e') ∧ get_errno e' = EADDRINUSE ∧
    events e' = events e ∧ listeners e' = listeners e.
Proof.
  intros e.
  destruct (sys_bind 7 (slice 0 (sockaddr_len unix_sample) (sa unix_sample)) e) as [r e1] eqn:H1.
  pose proof (listener_bind_cases (λ e, h_interest (e_host e)) 5 lstn_sample lstn_event unix_sample e e1 r
    eq_refl eq_refl ltac:(discriminate) H1) as H.
  vm_compute in H1. injection H1 as <- <-. cbn -[listener_bind] in H.
  edestruct (H 6) as (e' & Hrun & _ & Herr & Hev & Hl); [vm_compute; reflexivity..|].
  exists e'. split; [exact Hrun|]. rewrite Herr by done. done.
Defined.

(** An acceptor that does nothing; the connection that comes in has the name
    of every peer of the host. *)
Definition take_it (acc : Z) (lstn sock : positive) : M (env (gmap positive listener_t)) unit := mret tt.

Lemma accept_dispatch_hands_over_witness :
  let e := lstn_env lstn_host in
  let peer := mk_sockaddr AF_INET (cells host_name ++ replicate 96 None) in
  ∃ sock e2,
    match sock with
    | Some sock => ∃ i o,
        _accept_dispatch_run take_it 5 e = Ret (tt, e2) ∧
        events e !! sock = None ∧
        events e2 = <[sock := mk_event 8 EVMASK_NONE (Some _sock_dispatch) 0 0 None]> (events e) ∧
        sockets e2 = <[sock := mk_socket false (Some i) (Some o) 60000 None 0 zeroed peer]> (sockets e) ∧
        fresh_stream 8 i ∧ fresh_stream 8 o
    | None =>
        _accept_dispatch_run take_it 5 e = Ret (tt, snd (sys_close 8 e2)) ∧
        events e2 = events e ∧ sockets e2 = sockets e
    end.
Proof.
  intros e peer.
  eapply (accept_dispatch_hands_over take_it 5 lstn_sample 1 lstn_event 8 host_name e);
    [done..| |vm_compute; reflexivity|done|vm_compute; split; discriminate].
  intros x [s Hs]. cbn in Hs. by rewrite lookup_empty in Hs.
Defined.
