(* ===== verification/Connector.v ===== *)
(** * Connectors ([connector.c], [connector.h]) *)
From stdpp Require Import strings.
From S2P Require Import Prelude Alloc Sys Lock Log Thread Event Host Buffer Stream.
From S2P Require Import Eventpoll Eventloop Sockaddr Socket.

Definition SO_ERROR : Z := 4.

(** [struct _connector], but for [ev]; [c_loop]: is there a loop? *)
Record connector_t := mk_connector {
  c_loop : bool;
  c_addr : sockaddr_t;
  c_cb : option Z;
  c_name : list byte;
}.

Definition zero_connector : connector_t := mk_connector false zeroed None [].

(** The connectors in use, by the address of their event. *)
Class Connectors (E : Type) := {
  connectors : E → gmap positive connector_t;
  put_connectors : gmap positive connector_t → E → E;
}.

(** The socket that is passed to the callback: a pointer that was never
    assigned, null, or a socket. *)
Inductive sock_arg := Unset | NoSock | Sock (s : positive).

Definition sock_of (s : option positive) : sock_arg :=
  match s with Some s => Sock s | None => NoSock end.

Section connector.
Context {E : Type} `{!Malloc E, !Errno E, !Events E, !Logger E, !IoOps E, !FdOps E, !EpollOps E,
  !SockOps E, !Threads E, !Loop E, !Sockets E, !Connectors E}.

Definition get_connector (a : positive) : M E connector_t := λ e,
  match connectors e !! a with Some c => Ret (c, e) | None => UB end.
Definition upd_connector (a : positive) (f : connector_t → connector_t) : M E unit := λ e,
  match connectors e !! a with
  | Some c => Ret (tt, put_connectors (<[a := f c]> (connectors e)) e)
  | None => UB
  end.
Definition drop_connector (a : positive) : M E unit := λ e,
  match connectors e !! a with
  | Some _ => Ret (tt, put_connectors (delete a (connectors e)) e)
  | None => UB
  end.

Definition connector_new (name : list byte) (cb : option Z) : M E (option positive) :=
  ok ← sys (malloc_ok 240);
  if negb ok then mret None
  else
    conct ← new_event;
    sys (λ e, (tt, put_connectors (<[conct := zero_connector]> (connectors e)) e));;
    upd_connector conct (λ c, mk_connector true (c_addr c) cb (take 63 name));;
    mret (Some conct).

Definition connector_free (conct : positive) : M E unit := event_free conct;; drop_connector conct.

Definition connector_bind (conct : positive) (addr : sockaddr_t) : M E unit :=
  upd_connector conct (λ c, mk_connector (c_loop c) addr (c_cb c) (c_name c)).

Definition connector_loop (conct : positive) : M E bool := c ← get_connector conct; mret (c_loop c).

Section callback.
(** [conct->cb]: the function, the connector, the error and the socket. *)
Variable call : Z → positive → Z → sock_arg → M E unit.

Definition connector_cb (conct : positive) (err : Z) (sock : sock_arg) : M E unit :=
  c ← get_connector conct;
  match c_cb c with Some cb => call cb conct err sock | None => ub end.

(** The end of both functions below: the local name and a new socket. *)
Definition connected (conct : positive) (fd : Z) (sock : sock_arg) : M E unit :=
  '(err, addr) ← sockaddr_sockname fd;
  if err =? 0 then
    c ← get_connector conct;
    s ← socket_new_from_fd fd (Some addr) (Some (c_addr c));
    connector_cb conct err (sock_of s)
  else connector_cb conct err sock.

Definition _connector_dispatch_run (conct : positive) : M E unit :=
  ev ← get_event conct;
  if ev_mask ev =? EVMASK_TIME then connector_cb conct ETIMEDOUT NoSock
  else
    '(r, err) ← sys (sys_getsockopt (ev_fd ev) 1 SO_ERROR);
    if r <? 0 then e ← errno; connector_cb conct e NoSock
    else connected conct (ev_fd ev) NoSock.

Definition connector_connect (conct : positive) : M E unit :=
  c ← get_connector conct;
  fd ← socket_for_addr (c_addr c) SOCK_STREAM (Z.lor SOCK_CLOEXEC SOCK_NONBLOCK);
  if fd =? -1 then e ← errno; connector_cb conct e NoSock
  else
    ret ← sys (sys_connect fd (slice 0 (sockaddr_len (c_addr c)) (sa (c_addr c))));
    err ← errno;
    if (ret <? 0) && (err =? EINPROGRESS) then
      event_init conct fd EVMASK_WRITE (Some _connector_dispatch) 0;;
      _ ← (if c_loop c then eventloop_apply conct else ub);
      mret tt
    else connected conct fd Unset.
End callback.
End connector.

(** * Specification *)

Class ConnectorLaws (E : Type) `{!Malloc E, !Errno E, !IoOps E, !FdOps E, !SockOps E,
    !Events E, !Sockets E, !Connectors E} := {
  connectors_put m e : connectors (put_connectors m e) = m;
  connectors_put_events m e : connectors (put_events m e) = connectors e;
  connectors_put_sockets m e : connectors (put_sockets m e) = connectors e;
  kernel_connectors :: KernelFrame E (connectors (E := E));
}.

(** * Lemmas *)

Section connector_lemmas.
Context {E : Type} `{!Malloc E, !Errno E, !Logger E, !IoOps E, !FdOps E, !EpollOps E, !SockOps E,
  !Events E, !EventsLaws E, !Threads E, !Loop E, !Sockets E, !SocketLaws E, !Connectors E, !ConnectorLaws E}.

(** [socket_for_addr] is a matter of the kernel. *)
Lemma for_addr_view {Y} (view : E → Y) `{!KernelFrame E view} addr type flags r (e e' : E) :
  socket_for_addr addr type flags e = Ret (r, e') → view e' = view e.
Proof.
  unfold socket_for_addr, socket_nonblock. autorewrite with run.
  pose proof (kf_socket (view := view) (family addr) type 0 e) as H1.
  destruct (sys_socket _ _ _ e) as [fd e1]. cbn in H1.
  destruct (fd =? -1); autorewrite with run; [by intros [= _ <-]|].
  assert (∃ c e2, (if negb (Z.land flags SOCK_CLOEXEC =? 0) then sys (sys_setfd fd FD_CLOEXEC) else mret 0) e1
     = Ret (c, e2) ∧ view e2 = view e1) as (c & e2 & -> & H2).
  { destruct (negb _); autorewrite with run; [|eauto].
    pose proof (kf_setfd (view := view) fd FD_CLOEXEC e1) as H. destruct (sys_setfd _ _ e1). eauto. }
  autorewrite with run. destruct (negb (Z.land flags SOCK_NONBLOCK =? 0)); autorewrite with run.
  2:{ intros [= _ <-]. congruence. }
  pose proof (kf_getfl (view := view) fd e2) as H3. destruct (sys_getfl fd e2) as [fl e3]. cbn in H3.
  cbn [Z.eqb negb]. autorewrite with run.
  pose proof (kf_setfl (view := view) fd (Z.lor fl O_NONBLOCK) e3) as H4.
  destruct (sys_setfl _ _ e3) as [q e4]. cbn in H4. autorewrite with run. intros [= _ <-]. congruence.
Qed.

(** With a local name, what became of the connection does not matter. *)
Lemma connected_run call a c cb fd sock d (e e1 : E) :
  connectors e !! a = Some c → c_cb c = Some cb → sockets_ok e →
  sys_getsockname fd sizeof_sa e = (0, d, e1) →
  ∃ s e', connected call a fd sock e = call cb a 0 (sock_of s) e' ∧ connectors e' = connectors e ∧
    match s with
    | Some s => ∃ ev, events e' !! s = Some ev ∧ ev_fd ev = fd ∧ is_Some (sockets e' !! s)
    | None => True
    end.
Proof.
  intros Hc Hcb Hok Hname. unfold connected, sockaddr_sockname. autorewrite with run.
  change (sockaddr_len zeroed) with sizeof_sa. rewrite Hname. cbn [Z.eqb]. autorewrite with run.
  pose proof (kf_getsockname (view := connectors) fd sizeof_sa e) as H1.
  pose proof (kf_getsockname (view := events) fd sizeof_sa e) as H2.
  pose proof (kf_getsockname (view := sockets) fd sizeof_sa e) as H3. rewrite Hname in H1, H2, H3. cbn in H1, H2, H3.
  cbn [Z.eqb]. autorewrite with run. unfold get_connector at 1. rewrite H1, Hc. autorewrite with run.
  match goal with |- context [socket_new_from_fd fd ?x ?y e1] =>
    destruct (socket_new_run fd x y e1) as (s & e2 & Hnew & Hs) end.
  { intros b. rewrite H2, H3. apply Hok. }
  rewrite Hnew. apply (socket_new_view connectors) in Hnew;
    [|apply kf_malloc|apply kf_errno|apply connectors_put_sockets|apply connectors_put_events].
  exists s, e2. unfold connector_cb, get_connector. autorewrite with run. rewrite Hnew, H1, Hc.
  autorewrite with run. rewrite Hcb. split; [done|]. split; [done|]. destruct s as [s|]; [|done].
  destruct Hs as (i & o & _ & -> & -> & _). rewrite !lookup_insert_eq. eauto.
Qed.
End connector_lemmas.

(** ** The concrete environment *)

#[export] Instance env_connectors : Connectors (env (gmap positive connector_t)) := {
  connectors := e_more;
  put_connectors m e := mk_env (e_host e) (e_loop e) (e_threads e) (e_socks e) m;
}.
#[export] Instance env_connector_laws : ConnectorLaws (env (gmap positive connector_t)).
Proof. split; [done..|]. by apply env_frame. Qed.

(** * Theorems *)

(** A connector reports success whatever became of the connection, as long
    as the socket has a local name: its callback gets error 0 and, if memory
    allows, a new socket on the descriptor, both after a [connect] that failed
    at once (unless with [EINPROGRESS]), and after one that failed later,
    whatever error [SO_ERROR] reports. *)
Theorem connector_ignores_failure {E} `{!Malloc E, !Errno E, !Logger E, !IoOps E, !FdOps E, !EpollOps E,
    !SockOps E, !Events E, !EventsLaws E, !Threads E, !Loop E, !Sockets E, !SocketLaws E,
    !Connectors E, !ConnectorLaws E} call a c cb (e : E) :
  connectors e !! a = Some c → c_cb c = Some cb → sockets_ok e →
  (∀ fd e1 ret e2 d e3,
     socket_for_addr (c_addr c) SOCK_STREAM (Z.lor SOCK_CLOEXEC SOCK_NONBLOCK) e = Ret (fd, e1) → fd ≠ -1 →
     sys_connect fd (slice 0 (sockaddr_len (c_addr c)) (sa (c_addr c))) e1 = (ret, e2) →
     (ret < 0 → get_errno e2 ≠ EINPROGRESS) →
     sys_getsockname fd sizeof_sa e2 = (0, d, e3) →
     ∃ s e', connector_connect call a e = call cb a 0 (sock_of s) e' ∧ connectors e' = connectors e) ∧
  (∀ ev err e1 d e2,
     events e !! a = Some ev → ev_mask ev ≠ EVMASK_TIME →
     sys_getsockopt (ev_fd ev) 1 SO_ERROR e = (0, err, e1) →
     sys_getsockname (ev_fd ev) sizeof_sa e1 = (0, d, e2) →
     ∃ s e', _connector_dispatch_run call a e = call cb a 0 (sock_of s) e' ∧ connectors e' = connectors e).
Proof.
  intros Hc Hcb Hok. split.
  - intros fd e1 ret e2 d e3 Hfor Hfd Hconn Herr Hname. unfold connector_connect.
    autorewrite with run. unfold get_connector at 1. rewrite Hc. autorewrite with run. rewrite Hfor.
    destruct (Z.eqb_spec fd (-1)); [done|]. autorewrite with run. rewrite Hconn. unfold errno.
    autorewrite with run.
    assert ((ret <? 0) && (get_errno e2 =? EINPROGRESS) = false) as ->.
    { destruct (Z.ltb_spec ret 0) as [H|H]; [|done]. specialize (Herr H). cbn [andb]. lia. }
    assert (∀ {Y} (view : E → Y), KernelFrame E view → view e2 = view e) as Hview.
    { intros Y view Hv. apply (for_addr_view view) in Hfor.
      pose proof (kf_connect (view := view) fd (slice 0 (sockaddr_len (c_addr c)) (sa (c_addr c))) e1) as H.
      rewrite Hconn in H. cbn in H. congruence. }
    pose proof (Hview _ connectors _) as H1. pose proof (Hview _ events _) as H2.
    pose proof (Hview _ sockets _) as H3.
    destruct (connected_run call a c cb fd Unset d e2 e3) as (s & e' & Hrun & He' & _);
      [by rewrite H1|done|by unfold sockets_ok; rewrite H2, H3|done|].
    exists s, e'. split; [done|congruence].
  - intros ev err e1 d e2 Hev Hmask Hopt Hname. unfold _connector_dispatch_run. autorewrite with run.
    rewrite (get_event_run _ ev) by done. destruct (Z.eqb_spec (ev_mask ev) EVMASK_TIME); [done|].
    autorewrite with run. rewrite Hopt. cbn [Z.ltb Z.compare].
    pose proof (kf_getsockopt (view := connectors) (ev_fd ev) 1 SO_ERROR e) as H1.
    pose proof (kf_getsockopt (view := events) (ev_fd ev) 1 SO_ERROR e) as H2.
    pose proof (kf_getsockopt (view := sockets) (ev_fd ev) 1 SO_ERROR e) as H3.
    rewrite Hopt in H1, H2, H3. cbn in H1, H2, H3.
    destruct (connected_run call a c cb (ev_fd ev) NoSock d e1 e2) as (s & e' & Hrun & He' & _);
      [by rewrite H1|done|by unfold sockets_ok; rewrite H2, H3|done|].
    exists s, e'. split; [done|congruence].
Qed.

(** * Witnesses *)

Definition conn_sample : connector_t := mk_connector true zeroed (Some 1) (str_of "client").

(** A connector whose descriptor 7 waits to become writable. *)
Definition conn_env (h : host) : env (gmap positive connector_t) :=
  mk_env (with_open (with_events h {[5%positive := mk_event 7 EVMASK_WRITE (Some _connector_dispatch) 0 0 None]}) {[7]})
    loop_idle env7 ∅ {[5%positive := conn_sample]}.

(** A callback that must not be told of an error. *)
Definition no_error (cb : Z) (conct : positive) (err : Z) (sock : sock_arg) :
  M (env (gmap positive connector_t)) unit := if err =? 0 then mret tt else ub.

(** The descriptor is made and set up, and then [connect] is refused: the
    callback is told of no error; the same after an error in [SO_ERROR]. *)
Lemma connector_ignores_failure_witness :
  let e := conn_env (with_script host0 [0; 0; 0; 0; 111]) in
  (∃ e', connector_connect no_error 5 e = Ret (tt, e')) ∧
  (∃ e', _connector_dispatch_run no_error 5 (conn_env host0) = Ret (tt, e')).
Proof.
  intros e. split.
  - assert (sockets_ok e) as Hok by (intros a [s Hs]; cbn in Hs; by rewrite lookup_empty in Hs).
    destruct (connector_ignores_failure no_error 5 conn_sample 1 e ltac:(by vm_compute) ltac:(done) Hok) as [H _].
    edestruct H as (s & e' & Hrun & _);
      [vm_compute; reflexivity|discriminate|vm_compute; reflexivity|discriminate|vm_compute; reflexivity|].
    rewrite Hrun. by exists e'.
  - assert (sockets_ok (conn_env host0)) as Hok by (intros a [s Hs]; cbn in Hs; by rewrite lookup_empty in Hs).
    destruct (connector_ignores_failure no_error 5 conn_sample 1 (conn_env host0) ltac:(by vm_compute) ltac:(done) Hok) as [_ H].
    edestruct H as (s & e' & Hrun & _);
      [vm_compute; reflexivity|discriminate|vm_compute; reflexivity|vm_compute; reflexivity|].
    rewrite Hrun. by exists e'.
Defined.
