(* ===== verification/Util.v ===== *)
(** * Utilities ([util.c], [util.h])

    Pid files, the limit of open files, temporary files, and the share of the
    processor in use. *)
From stdpp Require Import strings.
From S2P Require Import Prelude Sys Cstring Host.

(** Whole files: is there a file of that name; its first bytes, unless it
    cannot be opened; writing and removing one. *)
Class Files (E : Type) := {
  sys_access : list byte → E → Z * E;
  file_read : list byte → Z → E → option (list byte) * E;
  file_write : list byte → list byte → E → bool * E;
  file_remove : list byte → E → Z * E;
  sys_getpid : E → Z;
}.

Class FilesLaws (E : Type) `{!Files E} (content : E → list byte → option (list byte)) := {
  access_law f e r e' : sys_access f e = (r, e') →
    content e' = content e ∧ (r = 0 ↔ is_Some (content e f));
  read_file_law f n e o e' : file_read f n e = (o, e') →
    content e' = content e ∧ (o = None ∨ ∃ c, content e f = Some c ∧ o = Some (take (Z.to_nat n) c));
  write_file_law f d e ok e' : file_write f d e = (ok, e') →
    sys_getpid e' = sys_getpid e ∧ (ok = true → content e' f = Some d);
}.

(** [RLIMIT_NOFILE], with its two limits. *)
Class Rlimit (E : Type) := {
  sys_getrlimit : E → Z * (Z * Z) * E;
  sys_setrlimit : Z → Z → E → Z * E;
}.

(** What the names of temporary files are made of: the nanoseconds of the
    clock, and two addresses. *)
Class TempSeed (E : Type) := {
  sys_nsec : E → Z * E;
  addr_base : Z;
  addr_file : Z;
}.

Definition O_RDWR : Z := 2.
Definition O_CREAT : Z := 0x40.
Definition O_EXCL : Z := 0x80.

Section util.
Context {E : Type} `{!Errno E, !FdOps E, !Files E, !Rlimit E, !TempSeed E}.

Definition end_ : list byte := str_of ".pid".

(** [atoi] of the 32 bytes that the file was read into. *)
Definition pid_check (bin : list byte) : M E Z :=
  let pidfile := bin ++ end_ in
  r ← sys (sys_access pidfile);
  if r =? 0 then
    o ← sys (file_read pidfile 32);
    match o with
    | None => mret (-1)
    | Some d => v ← lift (strtol (cells d ++ replicate (32 - length d) (Some x00))); mret (i32 v)
    end
  else mret 0.

Definition pid_write (bin : list byte) : M E Z :=
  let pidfile := bin ++ end_ in
  pid ← sys (λ e, (sys_getpid e, e));
  ok ← sys (file_write pidfile (dec pid));
  mret (if (ok : bool) then pid else 0).

Definition pid_remove (bin : list byte) : M E unit := _ ← sys (file_remove (bin ++ end_)); mret tt.

(** The [while] loop of [fd_limit]; [f] is unsigned. *)
Fixpoint limit_loop (fuel : nat) (f oldlimit : Z) : M E Z :=
  match fuel with
  | O => hang
  | S fuel =>
      if f <=? oldlimit then mret f
      else
        r ← sys (sys_setrlimit f f);
        if negb (r =? -1) then mret f else limit_loop fuel (u64 (f - 128)) oldlimit
  end.

Definition fd_limit (fuel : nat) (max : Z) : M E Z :=
  let maxfile := u64 max in
  '(r, (oldlimit, _)) ← sys sys_getrlimit;
  if r =? -1 then mret 1024
  else if oldlimit <? maxfile then
    f ← limit_loop fuel maxfile oldlimit;
    let f := if f <? oldlimit then oldlimit else f in
    mret (i32 (if negb (f =? maxfile) then f else maxfile))
  else mret (i32 maxfile).

Definition noddy_rando : M E Z :=
  base ← sys sys_nsec;
  mret (u64 (Z.lxor (u64 (base * 65537)) (addr_base (E:=E) / 16) + addr_file (E:=E))).

Definition name_char (r : Z) : byte :=
  match of_N (Z.to_N (65 + Z.land r 15 + Z.land r 16 * 2)) with Some b => b | None => x00 end.

(** The loop of [_make_temp_name]. *)
Fixpoint name_chars (len : nat) (r : Z) : list byte :=
  match len with O => [] | S len => name_char r :: name_chars len (Z.shiftr r 5) end.

Definition _make_temp_name (len : nat) : M E (list byte) := r ← noddy_rando; mret (name_chars len r).

(** The first loop of [tempfd]: how many [X] there are before position [base]
    and there; the byte at position 0 is not one of them. *)
Fixpoint count_x (filetpl : list byte) (base : nat) : nat :=
  match base with
  | O => O
  | S base' =>
      match filetpl !! base with
      | Some b => if decide (b = x58) then S (count_x filetpl base') else O
      | None => O
      end
  end.

(** The attempts of [tempfd]; the name tried last stays in the template. *)
Fixpoint temp_loop (retries : nat) (pre suf : list byte) (tlen : nat) (mid : list byte) (flags : Z) :
    M E (Z * list byte) :=
  match retries with
  | O => mret (-1, pre ++ mid ++ suf)
  | S retries =>
      mid ← _make_temp_name tlen;
      let name := pre ++ mid ++ suf in
      fd ← sys (sys_open name (Z.lor (Z.lor (Z.lor flags O_RDWR) O_CREAT) O_EXCL) 384);
      if 0 <? fd then mret (fd, name)
      else
        e ← errno;
        if negb (e =? EEXIST) then mret (-1, name)
        else temp_loop retries pre suf tlen mid flags
  end.

(** [filetpl]: the bytes before the terminating null. *)
Definition tempfd (filetpl : list byte) (sufflen flags : Z) : M E (Z * list byte) :=
  let len := zlen filetpl in
  let base := len - sufflen - 1 in
  if (base <? 0) || (len <? base) then ub
  else
    let tlen := count_x filetpl (Z.to_nat base) in
    if bool_decide (tlen = O) then set_errno EINVAL;; mret (-1, filetpl)
    else
      let start := (Z.to_nat base + 1 - tlen)%nat in
      temp_loop 100 (take start filetpl) (drop (start + tlen) filetpl) tlen
        (take tlen (drop start filetpl)) flags.
End util.

(** The end of [cpu_used]: its three static variables and the times read; the
    arithmetic is that of [int], which must not overflow. *)
Definition int_op (z : Z) : outcome Z := if (- 2 ^ 31 <=? z) && (z <? 2 ^ 31) then Ret z else UB.

Definition cpu_used_end (lastcputime lastptime cpus totalcputime totalptime : Z) : outcome (Z * Z * Z) :=
  if lastcputime =? 0 then Ret (0, totalcputime, totalptime)
  else if totalcputime =? lastcputime then Ret (0, lastcputime, lastptime)
  else
    dp ← int_op (totalptime - lastptime);
    p ← int_op (100 * dp);
    dc ← int_op (totalcputime - lastcputime);
    q ← int_op (p `quot` dc);
    q ← int_op (q * 100);
    cpu ← int_op (q * cpus);
    Ret (cpu, totalcputime, totalptime).

(** * Lemmas *)

Definition is_letter (b : byte) : Prop :=
  65 ≤ byte_val b ≤ 80 ∨ 97 ≤ byte_val b ≤ 112.

Lemma name_char_letter r : is_letter (name_char r).
Proof.
  assert (Z.land r 15 = r mod 16) as H15 by (by apply (Z.land_ones r 4)).
  pose proof (Z.mod_pos_bound r 16 eq_refl).
  assert (Z.land r 16 = 0 ∨ Z.land r 16 = 16) as H16.
  { destruct (Z.testbit r 4) eqn:Hb; [right|left]; apply Z.bits_inj'; intros i Hi;
      rewrite Z.land_spec; destruct (Z.eq_dec i 4) as [->|Hne];
      try (rewrite Hb; reflexivity);
      change 16 with (2 ^ 4); rewrite Z.pow2_bits_false by lia; by rewrite andb_false_r, ?Z.bits_0. }
  unfold is_letter, name_char, byte_val.
  destruct (of_N (Z.to_N (65 + Z.land r 15 + Z.land r 16 * 2))) as [b|] eqn:Hb.
  - apply to_of_N in Hb. rewrite Hb. lia.
  - apply of_N_None_iff in Hb. lia.
Qed.

Lemma name_chars_letters len r : length (name_chars len r) = len ∧ Forall is_letter (name_chars len r).
Proof.
  revert r. induction len as [|len IH]; intros r; cbn; [done|].
  destruct (IH (Z.shiftr r 5)) as [H1 H2]. split; [by rewrite H1|]. constructor; [apply name_char_letter|done].
Qed.

Lemma count_x_run pre n suf :
  pre ≠ [] → last pre ≠ Some x58 →
  count_x (pre ++ replicate n x58 ++ suf) (length pre + n - 1) = n.
Proof.
  intros Hpre Hlast. induction n as [|n IH].
  - rewrite Nat.add_0_r. cbn [replicate app]. destruct (length pre - 1)%nat as [|k] eqn:Hk; [done|].
    cbn [count_x]. rewrite last_lookup in Hlast. replace (Nat.pred (length pre)) with (S k) in Hlast by lia.
    rewrite lookup_app_l by lia. destruct (pre !! S k) as [b|] eqn:Hb; [|done].
    rewrite decide_False; [done|]. by intros ->.
  - destruct pre as [|p pre]; [done|]. replace (length (p :: pre) + S n - 1)%nat with (S (length pre + n)) by (cbn; lia).
    cbn [count_x]. rewrite lookup_app_r by (cbn; lia). cbn [length].
    rewrite lookup_app_l by (rewrite length_replicate; lia). rewrite lookup_replicate_2 by lia.
    rewrite decide_True by done. f_equal.
    replace (length (p :: pre) + n - 1)%nat with (length pre + n)%nat in IH by (cbn; lia).
    replace (replicate (S n) x58 ++ suf) with (replicate n x58 ++ x58 :: suf)
      by (by rewrite replicate_S_end, <- app_assoc).
    assert (∀ suf' k, (k ≤ length pre + n)%nat →
      count_x ((p :: pre) ++ replicate n x58 ++ suf') k = count_x ((p :: pre) ++ replicate n x58) k) as Hsuf.
    { intros suf' k. induction k as [|k IHk]; intros Hk; [done|]. cbn [count_x].
      rewrite (app_assoc (p :: pre)).
      rewrite lookup_app_l by (rewrite length_app, length_replicate; cbn; lia).
      rewrite <- app_assoc, IHk by lia. done. }
    rewrite (Hsuf suf) in IH by lia. by rewrite (Hsuf (x58 :: suf)) by lia.
Qed.

Section util_lemmas.
Context {E : Type} `{!Errno E, !FdOps E, !TempSeed E}.

Lemma temp_loop_run retries pre suf tlen mid flags (e : E) :
  length mid = tlen → (0 < retries)%nat →
  ∃ r mid' e', temp_loop retries pre suf tlen mid flags e = Ret ((r, pre ++ mid' ++ suf), e') ∧
    length mid' = tlen ∧ Forall is_letter mid' ∧
    (r = -1 ∨ 0 < r ∧ ∃ e1,
       sys_open (pre ++ mid' ++ suf) (Z.lor (Z.lor (Z.lor flags O_RDWR) O_CREAT) O_EXCL) 384 e1 = (r, e')).
Proof.
  revert mid e. induction retries as [|retries IH]; intros mid e Hmid Hr; [lia|]. cbn [temp_loop].
  unfold _make_temp_name, noddy_rando, errno. autorewrite with run.
  destruct (sys_nsec e) as [b e1]. autorewrite with run.
  match goal with |- context [name_chars tlen ?r] =>
    destruct (name_chars_letters tlen r) as [Hlen Hall]; generalize dependent (name_chars tlen r) end.
  intros mid' Hlen Hall.
  destruct (sys_open _ _ _ e1) as [fd e2] eqn:Hopen. destruct (Z.ltb_spec 0 fd).
  { autorewrite with run. exists fd, mid', e2. split_and!; [done..|]. right. eauto. }
  autorewrite with run. destruct (get_errno e2 =? EEXIST); cbn [negb].
  - destruct retries as [|retries].
    + cbn [temp_loop]. autorewrite with run. exists (-1), mid', e2. auto.
    + apply IH; [done|lia].
  - autorewrite with run. exists (-1), mid', e2. auto.
Qed.
End util_lemmas.

Section limit_lemmas.
Context {E : Type} `{!Rlimit E}.

(** Steps of 128 down to the first limit that is accepted or not above the old one. *)
Lemma limit_loop_run fuel f old (e : E) :
  0 ≤ f < 2 ^ 64 → f mod 128 ≤ old → f < 128 * Z.of_nat fuel →
  ∃ r e', limit_loop fuel f old e = Ret (r, e') ∧ 0 ≤ r ≤ f ∧
    (r ≤ old ∨ ∃ e1 q, sys_setrlimit r r e1 = (q, e') ∧ q ≠ -1).
Proof.
  revert f e. induction fuel as [|fuel IH]; intros f e Hf Hmod Hfuel; [lia|]. cbn [limit_loop].
  destruct (Z.leb_spec f old).
  { autorewrite with run. exists f, e. split; [done|]. split; [lia|]. left. lia. }
  autorewrite with run. destruct (sys_setrlimit f f e) as [q e1] eqn:Hs.
  destruct (Z.eqb_spec q (-1)); cbn [negb].
  - assert (128 ≤ f).
    { destruct (Z.lt_ge_cases f 128); [|done]. rewrite Z.mod_small in Hmod by lia. lia. }
    unfold u64. rewrite Z.mod_small by lia.
    destruct (IH (f - 128) e1) as (r & e' & Hrun & Hr & Hcase); [lia| |lia|].
    { rewrite <- (Z.mod_add f (-1) 128) in Hmod by lia. by replace (f - 128) with (f + -1 * 128) by lia. }
    exists r, e'. split; [done|]. split; [lia|done].
  - autorewrite with run. exists f, e1. split; [done|]. split; [lia|]. eauto.
Qed.

(** The remainder by 128 survives the wrap-around, and stays above the limit. *)
Lemma limit_loop_stuck fuel f old (e : E) :
  (∀ x e, fst (sys_setrlimit x x e) = -1) → 0 ≤ f → old < f mod 128 → limit_loop fuel f old e = Hang.
Proof.
  intros Hfail. revert f e. induction fuel as [|fuel IH]; intros f e Hf Hmod; [done|]. cbn [limit_loop].
  pose proof (Z.mod_le f 128). destruct (Z.leb_spec f old); [lia|].
  autorewrite with run. pose proof (Hfail f e) as Hq. destruct (sys_setrlimit f f e) as [q e1].
  cbn [fst] in Hq. rewrite Hq. cbn [Z.eqb negb Pos.eqb]. apply IH.
  - apply Z.mod_pos_bound. lia.
  - assert (u64 (f - 128) mod 128 = f mod 128) as ->; [|done].
    unfold u64. change (2 ^ 64) with (128 * 2 ^ 57). rewrite Z.rem_mul_r by lia.
    rewrite (Z.mul_comm 128), Z.mod_add, Z.mod_mod by lia.
    replace (f - 128) with (f + -1 * 128) by lia. by rewrite Z.mod_add by lia.
Qed.
End limit_lemmas.

(** ** A concrete environment

    One pid file, limits that may be set up to a ceiling, and a process id. *)
Record box := mk_box { b_pid : Z; b_file : option (list byte); b_limit : Z; b_ceiling : Z; b_err : Z }.

#[export] Instance box_files : Files box := {
  sys_access _ e := (match b_file e with Some _ => 0 | None => -1 end, e);
  file_read _ n e := (take (Z.to_nat n) <$> b_file e, e);
  file_write _ d e := (true, mk_box (b_pid e) (Some d) (b_limit e) (b_ceiling e) (b_err e));
  file_remove _ e := (0, mk_box (b_pid e) None (b_limit e) (b_ceiling e) (b_err e));
  sys_getpid := b_pid;
}.
#[export] Instance box_laws : FilesLaws box (λ e _, b_file e).
Proof.
  split.
  - intros f e r e'. cbn. intros [= <- <-]. split; [done|]. by destruct (b_file e); split; try done; intros [].
  - intros f n e o e'. cbn. intros [= <- <-]. split; [done|]. destruct (b_file e); cbn; eauto.
  - intros f d e ok e'. cbn. by intros [= <- <-].
Qed.
#[export] Instance box_rlimit : Rlimit box := {
  sys_getrlimit e := (0, (b_limit e, b_ceiling e), e);
  sys_setrlimit f _ e :=
    if f <=? b_ceiling e then (0, mk_box (b_pid e) (b_file e) f (b_ceiling e) (b_err e)) else (-1, e);
}.
#[export] Instance host_seed : TempSeed host := {
  sys_nsec h := (zlen (h_script h) * 1000003 + 77, h);
  addr_base := 140737488347136;
  addr_file := 140737488350000;
}.

(** * Theorems *)

(** C39: [fd_limit] ends when the remainder of the wanted limit by 128 is not
    above the old limit.  It returns a limit from the old one up to the one
    wanted; if it returns more than the old one, setting that limit was the
    last thing it did, and it succeeded.  A limit that is not above the old
    one is not set. *)
Theorem fd_limit_raises {E} `{!Rlimit E} fuel max (e e0 : E) old hard :
  0 ≤ max < 2 ^ 31 → 0 ≤ old < 2 ^ 31 → sys_getrlimit e = (0, (old, hard), e0) → 
  max mod 128 ≤ old → max < 128 * Z.of_nat fuel →
  ∃ r e', fd_limit fuel max e = Ret (r, e') ∧
    if old <? max then
      old ≤ r ≤ max ∧ (r = old ∨ ∃ e1 q, sys_setrlimit r r e1 = (q, e') ∧ q ≠ -1)
    else r = max ∧ e' = e0.
Proof.
  intros Hmax Hold Hget Hmod Hf. unfold fd_limit. autorewrite with run. rewrite Hget.
  cbn [Z.eqb]. unfold u64. rewrite Z.mod_small by lia.
  destruct (Z.ltb_spec old max).
  - autorewrite with run. destruct (limit_loop_run fuel max old e0) as (f & e' & -> & Hr & Hcase); [lia..|].
    autorewrite with run. eexists _, e'. split; [done|].
    destruct (Z.ltb_spec f old).
    + destruct (Z.eqb_spec old max); cbn [negb]; rewrite i32_id by (unfold is_i32; lia); [lia|].
      split; [lia|by left].
    + assert (i32 (if negb (f =? max) then f else max) = f) as ->.
      { destruct (Z.eqb_spec f max) as [->|]; cbn [negb]; apply i32_id; unfold is_i32; lia. }
      split; [lia|]. destruct Hcase as [?|?]; [left; lia|by right].
  - autorewrite with run. eexists _, e0. split; [done|]. split; [|done]. apply i32_id. unfold is_i32. lia.
Qed.

(** When the system refuses every limit and the remainder of the wanted
    limit by 128 is above the old limit, [fd_limit] never returns: [f] is
    unsigned and wraps around below zero, and the remainder never changes. *)
Theorem fd_limit_stuck {E} `{!Rlimit E} fuel max (e e0 : E) old hard :
  0 ≤ max < 2 ^ 31 → 0 ≤ old → sys_getrlimit e = (0, (old, hard), e0) →
  (∀ x e, fst (sys_setrlimit x x e) = -1) → old < max mod 128 →
  fd_limit fuel max e = Hang.
Proof.
  intros Hmax Hold Hget Hfail Hmod. unfold fd_limit. autorewrite with run. rewrite Hget.
  cbn [Z.eqb]. unfold u64. rewrite (Z.mod_small max) by lia. pose proof (Z.mod_le max 128).
  destruct (Z.ltb_spec old max); [|lia]. autorewrite with run.
  by rewrite limit_loop_stuck by (done || lia).
Qed.

(** C40: a template with [X]s before its suffix keeps its length, its start and
    its suffix: only the [X]s are replaced, by letters.  [tempfd] tries at
    most 100 names; a descriptor it returns is that of the name it leaves in
    the template.  (The [X]s must not reach the start of the template.) *)
Theorem tempfd_names {E} `{!Errno E, !FdOps E, !TempSeed E} pre n suf flags (e : E) :
  pre ≠ [] → last pre ≠ Some x58 → (0 < n)%nat →
  ∃ r mid e', tempfd (pre ++ replicate n x58 ++ suf) (zlen suf) flags e = Ret ((r, pre ++ mid ++ suf), e') ∧
    length mid = n ∧ Forall is_letter mid ∧
    (r = -1 ∨ 0 < r ∧ ∃ e1,
       sys_open (pre ++ mid ++ suf) (Z.lor (Z.lor (Z.lor flags O_RDWR) O_CREAT) O_EXCL) 384 e1 = (r, e')).
Proof.
  intros Hpre Hlast Hn. unfold tempfd.
  assert (0 < length pre)%nat by (destruct pre; [done|cbn; lia]).
  assert (zlen (pre ++ replicate n x58 ++ suf) - zlen suf - 1 = Z.of_nat (length pre + n - 1)) as ->
    by (rewrite !length_app, length_replicate; lia).
  destruct (Z.ltb_spec (Z.of_nat (length pre + n - 1)) 0); [lia|].
  destruct (Z.ltb_spec (zlen (pre ++ replicate n x58 ++ suf)) (Z.of_nat (length pre + n - 1)));
    [rewrite !length_app, length_replicate in *; lia|]. cbn [orb].
  rewrite Nat2Z.id, count_x_run by done. rewrite bool_decide_eq_false_2 by lia.
  replace (length pre + n - 1 + 1 - n)%nat with (length pre) by lia.
  rewrite take_app_length, (app_assoc pre), drop_app_length' by (rewrite length_app, length_replicate; lia).
  rewrite <- app_assoc, drop_app_length, take_app_length' by by rewrite length_replicate.
  apply temp_loop_run; [by rewrite length_replicate|lia].
Qed.

(** The pid that [pid_write] reports is the one [pid_check] then finds, if
    it can open the file; after a failed write 0 is reported. *)
Theorem pid_roundtrip {E} `{!Files E} content `{!FilesLaws E content} bin (e : E) :
  0 < sys_getpid e < 2 ^ 31 →
  ∃ r e1, pid_write bin e = Ret (r, e1) ∧
    (r = 0 ∨ r = sys_getpid e ∧
     ∃ r' e2, pid_check bin e1 = Ret (r', e2) ∧ (r' = sys_getpid e ∨ r' = -1)).
Proof.
  intros Hpid. unfold pid_write. autorewrite with run.
  destruct (file_write (bin ++ end_) (dec (sys_getpid e)) e) as [ok e1] eqn:Hw.
  apply write_file_law in Hw as [_ Hc]. autorewrite with run. eexists _, e1. split; [done|].
  destruct ok; [right|by left]. specialize (Hc eq_refl). split; [done|].
  unfold pid_check. autorewrite with run. destruct (sys_access (bin ++ end_) e1) as [a e2] eqn:Ha.
  apply access_law in Ha as [Hsame Ha]. rewrite (proj2 Ha) by (rewrite Hc; eauto). cbn [Z.eqb].
  autorewrite with run. destruct (file_read (bin ++ end_) 32 e2) as [o e3] eqn:Hread.
  apply read_file_law in Hread as [_ [->|(c & Hc' & ->)]]; [mrun; eauto 6|].
  rewrite Hsame, Hc in Hc'. injection Hc' as <-.
  pose proof (dec_length (sys_getpid e)) as Hlen. rewrite take_ge by lia.
  destruct (32 - length (dec (sys_getpid e)))%nat as [|k] eqn:Hk; [lia|]. cbn [replicate].
  rewrite strtol_dec by (done || lia). autorewrite with run. eexists _, e3. split; [done|]. left.
  apply i32_id. unfold is_i32. lia.
Qed.

(** * Witnesses *)

Lemma fd_limit_raises_witness :
  ∃ r e', fd_limit 9 1026 (mk_box 1 None 256 800 0) = Ret (r, e') ∧
    if 256 <? 1026 then
      256 ≤ r ≤ 1026 ∧ (r = 256 ∨ ∃ e1 q, sys_setrlimit r r e1 = (q, e') ∧ q ≠ -1)
    else r = 1026 ∧ e' = mk_box 1 None 256 800 0.
Proof.
  apply (fd_limit_raises 9 1026 (mk_box 1 None 256 800 0) (mk_box 1 None 256 800 0) 256 800);
    first [reflexivity|lia|by_computing].
Defined.

(** An environment that refuses every limit. *)
Inductive strict := Strict.
#[export] Instance strict_rlimit : Rlimit strict := {
  sys_getrlimit e := (0, (64, 64), e);
  sys_setrlimit _ _ e := (-1, e);
}.

Lemma fd_limit_stuck_witness : fd_limit 50 100 Strict = Hang.
Proof.
  apply (fd_limit_stuck 50 100 Strict Strict 64 64); [lia|lia|reflexivity|reflexivity|by_computing].
Defined.

Lemma tempfd_names_witness :
  ∃ r mid e', tempfd (str_of "abc_" ++ replicate 3 x58 ++ str_of ".ab") 3 0
      (with_script host0 [EEXIST; EEXIST; 0]) = Ret ((r, str_of "abc_" ++ mid ++ str_of ".ab"), e') ∧
    length mid = 3%nat ∧ Forall is_letter mid ∧
    (r = -1 ∨ 0 < r ∧ ∃ e1,
       sys_open (str_of "abc_" ++ mid ++ str_of ".ab") (Z.lor (Z.lor (Z.lor 0 O_RDWR) O_CREAT) O_EXCL) 384 e1 = (r, e')).
Proof.
  apply (tempfd_names (str_of "abc_") 3 (str_of ".ab") 0 (with_script host0 [EEXIST; EEXIST; 0]));
    [done|by vm_compute|lia].
Defined.

Definition box_new : box := mk_box 4242 None 0 0 0.

Lemma pid_roundtrip_witness :
  ∃ r e1, pid_write (str_of "srv") box_new = Ret (r, e1) ∧
    (r = 0 ∨ r = sys_getpid box_new ∧
     ∃ r' e2, pid_check (str_of "srv") e1 = Ret (r', e2) ∧ (r' = sys_getpid box_new ∨ r' = -1)).
Proof. apply (pid_roundtrip (λ e _, b_file e) (str_of "srv") box_new). by_computing. Defined.
