(* ===== verification/Usage.v ===== *)
(** * Resource usage ([cpu_used] and [mem_used] of [util.c])

    Both read files of the [proc] file system from start to end. *)
From stdpp Require Import strings.
From S2P Require Import Prelude Sys Cstring Buffer Scan Util.

(** What [fopen] finds under a name, and the id of the process. *)
Class ProcFs (E : Type) := {
  proc_open : list byte → E → option (list byte) * E;
  proc_getpid : E → Z;
}.

(** The static variables of [cpu_used]. *)
Record cpu_statics := mk_cpu { lastcputime : Z; lastptime : Z; cpus : Z }.
Definition cpu_init : cpu_statics := mk_cpu 0 0 0.

Section usage.
Context {E : Type} `{!ProcFs E}.

(** [/proc/<pid>/<file>] *)
Definition proc_file (file : list byte) : M E (option (list byte)) :=
  pid ← sys (λ e, (proc_getpid e, e));
  sys (proc_open (str_of "/proc/" ++ dec pid ++ str_of "/" ++ file)).

(** [n] conversions of [%d], and the sum of what they store. *)
Fixpoint sum_ints (n : nat) (f : list byte) (total : Z) : outcome (Z * list byte) :=
  match n with
  | O => Ret (total, f)
  | S n =>
      '(v, f) ← scan_d f;
      total ← int_op (total + default 0 v);
      sum_ints n f total
  end.

Fixpoint skip_ints (n : nat) (f : list byte) : outcome (list byte) :=
  match n with O => Ret f | S n => '(_, f) ← scan_d f; skip_ints n f end.

(** [fscanf(f, "%d %s %s", ...)]: it ends at the first conversion that fails. *)
Definition skip_name (f : list byte) : outcome (list byte) :=
  '(v, f) ← scan_d f;
  match v with
  | None => Ret f
  | Some _ =>
      '(w, f) ← scan_s 256 f;
      match w with None => Ret f | Some _ => '(_, f) ← scan_s 256 f; Ret f end
  end.

(** [sscanf(buff, "%s %d", buff, ...)] reads from the buffer it writes to,
    which the C standard leaves undefined: what is in the buffer after it. *)
Variable scan_in_place : list byte → outcome (list byte).

(** The loop over the lines of [/proc/cpuinfo]. *)
Fixpoint count_cpus (fuel : nat) (f : list byte) (n : Z) : outcome Z :=
  match fuel with
  | O => Hang
  | S fuel =>
      match fgets 256 f with
      | None => Ret n
      | Some (line, f) =>
          buff ← scan_in_place (cstr line);
          n ← (if strstr buff (str_of "processor") then int_op (n + 1) else Ret n);
          count_cpus fuel f n
      end
  end.

(** The processors: counted when the number is not known yet, or nothing when
    the file cannot be opened. *)
Definition cpu_count (cpus : Z) : M E (option Z) :=
  if cpus =? 0 then
    o ← sys (proc_open (str_of "/proc/cpuinfo"));
    match o with
    | None => mret None
    | Some f => n ← lift (count_cpus (S (length f)) f 0); mret (Some n)
    end
  else mret (Some cpus).

Definition cpu_used (st : cpu_statics) : M E (Z * cpu_statics) :=
  o ← sys (proc_open (str_of "/proc/stat"));
  match o with
  | None => mret (0, st)
  | Some f =>
      '(_, f) ← lift (scan_s 256 f);
      '(totalcputime, _) ← lift (sum_ints 8 f 0);
      o ← proc_file (str_of "stat");
      match o with
      | None => mret (0, st)
      | Some f =>
          f ← lift (skip_name f);
          f ← lift (skip_ints 10 f);
          '(totalptime, _) ← lift (sum_ints 4 f 0);
          n ← cpu_count (cpus st);
          match n with
          | None => mret (0, st)
          | Some n =>
              '(cpu, c, p) ← lift (cpu_used_end (lastcputime st) (lastptime st) n totalcputime totalptime);
              mret (cpu, mk_cpu c p n)
          end
      end
  end.

(** The loop of [mem_used]: a line without a word or a number leaves [key] or
    [val] as it was. *)
Fixpoint mem_loop (fuel : nat) (f key : list byte) (val : Z) : outcome Z :=
  match fuel with
  | O => Hang
  | S fuel =>
      match fgets 256 f with
      | None => Ret val
      | Some (line, f) =>
          '(w, r) ← scan_s 256 (cstr line);
          '(key, val) ← match w with
                        | None => Ret (key, val)
                        | Some w => '(v, _) ← scan_d r; Ret (w, default val v)
                        end;
          if strstr key (str_of "VmRSS") then Ret val else mem_loop fuel f key val
      end
  end.

Definition mem_used : M E Z :=
  o ← proc_file (str_of "status");
  match o with
  | None => mret (-1)
  | Some f => lift (mem_loop (S (length f)) f [] 0)
  end.
End usage.

(** * Specification *)

(** Numbers as the [proc] file system prints them. *)
Definition spaced (l : list Z) : list byte := concat ((λ n, x20 :: dec n) <$> l).

Definition counts (l : list Z) : Prop := Forall (Z.le 0) l ∧ total l < 2 ^ 31.

Definition plain (w : list byte) : Prop := w ≠ [] ∧ Forall (λ b, is_space b = false) w ∧ zlen w < 256.

(** The text of [/proc/stat]: the name of the first line, blanks, its eight
    times, each behind one more blank, and what follows. *)
Definition stat_text (name blanks : list byte) (times : list Z) (rest : list byte) : list byte :=
  name ++ blanks ++ spaced times ++ rest.

(** The lines that name a processor, as they are after they were scanned in
    place. *)
Definition processors (words : list (list byte)) : Z :=
  zlen (filter (λ w, strstr w (str_of "processor") = true) words).

(** How [cpu_used] learns the number of processors: it has counted them
    already, or reads [/proc/cpuinfo], which it sees in pieces. *)
Definition counted {E} `{!ProcFs E} (in_place : list byte → outcome (list byte)) (cpus n : Z) (e e' : E) : Prop :=
  (cpus ≠ 0 ∧ n = cpus ∧ e' = e) ∨
  (cpus = 0 ∧ ∃ pieces words, proc_open (str_of "/proc/cpuinfo") e = (Some (concat pieces), e') ∧
    Forall (piece 256) pieces ∧ Forall2 (λ l w, in_place (cstr l) = Ret w) pieces words ∧
    zlen pieces < 2 ^ 31 ∧ n = processors words).

(** That of [/proc/<pid>/stat]: the id, the name, and the state of the process,
    ten numbers, its four times, and what follows. *)
Definition pid_stat_text (pid : Z) (comm state : list byte) (skipped times : list Z) (rest : list byte) : list byte :=
  dec pid ++ (x20 :: comm) ++ (x20 :: state) ++ spaced skipped ++ spaced times ++ rest.

(** A line of [/proc/<pid>/status] before the one looked for. *)
Definition other_line (w : list byte) : Prop :=
  (x0a ∉ w) ∧ (x00 ∉ w) ∧ (length w + 1 < 256)%nat ∧
  ∃ key r v r', scan_s 256 (w ++ [x0a]) = Ret (Some key, r) ∧ strstr key (str_of "VmRSS") = false ∧
    scan_d r = Ret (v, r').

(** * Lemmas *)

Lemma int_op_ok z : - 2 ^ 31 ≤ z < 2 ^ 31 → int_op z = Ret z.
Proof. intros. unfold int_op. destruct (Z.leb_spec (- 2 ^ 31) z); [|lia]. destruct (Z.ltb_spec z (2 ^ 31)); [done|lia]. Qed.

Lemma no_digit_spaced l rest : no_digit rest → no_digit (spaced l ++ rest).
Proof. destruct l; [done|]. intros _. done. Qed.

Lemma sum_ints_spaced l rest t :
  Forall (Z.le 0) l → 0 ≤ t → t + total l < 2 ^ 31 → no_digit rest →
  sum_ints (length l) (spaced l ++ rest) t = Ret (t + total l, rest).
Proof.
  revert t. induction l as [|n l IH]; intros t Hl Ht Hsum Hrest; cbn [length sum_ints].
  { cbn. by rewrite Z.add_0_r. }
  apply Forall_cons in Hl as [Hn Hl]. cbn [total foldr] in *. fold (total l) in *.
  assert (0 ≤ total l) as Hpos by (clear -Hl; induction Hl; cbn in *; unfold total in *; lia).
  unfold spaced. cbn [fmap list_fmap concat]. fold (spaced l).
  change ((x20 :: dec n) ++ spaced l) with ([x20] ++ dec n ++ spaced l). rewrite <- !app_assoc.
  rewrite scan_d_dec; [|by repeat constructor|unfold is_i32; lia|by apply no_digit_spaced].
  cbn [mbind outcome_bind]. change (default 0 (Some n)) with n. rewrite int_op_ok by lia.
  cbn [mbind outcome_bind]. rewrite IH; [|done|lia..|done]. do 2 f_equal. lia.
Qed.

Lemma scan_d_blanks sp f : Forall (λ b, is_space b = true) sp → scan_d (sp ++ f) = scan_d f.
Proof. intros Hsp. unfold scan_d. by rewrite skip_space_app. Qed.

Lemma sum_ints_blanks n sp f t :
  Forall (λ b, is_space b = true) sp → sum_ints (S n) (sp ++ f) t = sum_ints (S n) f t.
Proof. intros Hsp. cbn [sum_ints]. by rewrite scan_d_blanks. Qed.

Lemma count_cpus_run in_place pieces words fuel n :
  Forall (piece 256) pieces → Forall2 (λ l w, in_place (cstr l) = Ret w) pieces words →
  (length pieces < fuel)%nat → 0 ≤ n → n + zlen pieces < 2 ^ 31 →
  count_cpus in_place fuel (concat pieces) n = Ret (n + processors words).
Proof.
  intros Hp Hw. revert fuel n Hp. induction Hw as [|l w pieces words Hlw Hw IH]; intros fuel n Hp Hf H0 Hn;
    (destruct fuel as [|fuel]; [lia|]); cbn [count_cpus concat]; [by rewrite Z.add_0_r|].
  apply Forall_cons in Hp as [Hl Hp]. cbn [length] in *. rewrite (fgets_piece 256 l _ Hl), Hlw. cbn [mbind outcome_bind].
  unfold processors. rewrite filter_cons. destruct (strstr w (str_of "processor")) eqn:Hs; cbn [mbind outcome_bind].
  - rewrite int_op_ok by lia. cbn [mbind outcome_bind]. rewrite IH by (done || lia).
    rewrite decide_True by done. cbn [length]. unfold processors. f_equal. lia.
  - rewrite IH by (done || lia). by rewrite decide_False.
Qed.

Lemma pieces_length pieces : Forall (piece 256) pieces → (length pieces ≤ length (concat pieces))%nat.
Proof.
  induction 1 as [|w pieces Hw _ IH]; [done|]. cbn [concat length]. rewrite length_app.
  assert (w ≠ []) by (destruct Hw as [(v & -> & _)|(_ & _ & ?)]; [by destruct v|done]).
  destruct w; [done|]. cbn [length]. lia.
Qed.

Lemma cpu_count_run {E} `{!ProcFs E} in_place cpus n (e e' : E) :
  counted in_place cpus n e e' → cpu_count in_place cpus e = Ret (Some n, e').
Proof.
  intros [(Hc & -> & ->)|(-> & pieces & words & Hopen & Hp & Hw & Hn & ->)]; unfold cpu_count.
  - by destruct (Z.eqb_spec cpus 0).
  - cbn [Z.eqb]. autorewrite with run. rewrite Hopen. autorewrite with run.
    pose proof (pieces_length pieces Hp). rewrite (count_cpus_run in_place pieces words) by (done || lia).
    by autorewrite with run.
Qed.

Lemma skip_ints_spaced l rest :
  Forall is_i32 l → no_digit rest → skip_ints (length l) (spaced l ++ rest) = Ret rest.
Proof.
  induction l as [|n l IH]; intros Hl Hrest; cbn [length skip_ints]; [done|].
  apply Forall_cons in Hl as [Hn Hl]. unfold spaced. cbn [fmap list_fmap concat]. fold (spaced l).
  change ((x20 :: dec n) ++ spaced l) with ([x20] ++ dec n ++ spaced l). rewrite <- !app_assoc.
  rewrite scan_d_dec; [|by repeat constructor|done|by apply no_digit_spaced].
  cbn [mbind outcome_bind]. by apply IH.
Qed.

Lemma at_space_spaced l rest : l ≠ [] → at_space (spaced l ++ rest).
Proof. by destruct l. Qed.

Lemma skip_name_run pid comm state l rest :
  is_i32 pid → plain comm → plain state → l ≠ [] →
  skip_name (dec pid ++ (x20 :: comm) ++ (x20 :: state) ++ spaced l ++ rest) = Ret (spaced l ++ rest).
Proof.
  intros Hpid (Hc & Hcs & Hcl) (Hs & Hss & Hsl) Hl. unfold skip_name.
  rewrite scan_d_here by done. cbn [mbind outcome_bind].
  change ((x20 :: comm) ++ (x20 :: state) ++ spaced l ++ rest) with ([x20] ++ comm ++ (x20 :: state ++ spaced l ++ rest)).
  rewrite scan_s_word by (done || by repeat constructor). cbn [mbind outcome_bind].
  change (x20 :: state ++ spaced l ++ rest) with ([x20] ++ state ++ (spaced l ++ rest)).
  rewrite scan_s_word; [done|by repeat constructor|done..|by apply at_space_spaced|done].
Qed.

Lemma lines_length (lines : list (list byte)) :
  (length lines ≤ length (concat ((λ w, w ++ [x0a]) <$> lines)))%nat.
Proof.
  induction lines as [|w lines IH]; [done|]. cbn [fmap list_fmap concat length]. rewrite !length_app. cbn [length]. lia.
Qed.

Lemma mem_loop_skip fuel lines rest key val :
  Forall other_line lines → (length lines < fuel)%nat →
  ∃ key' val', mem_loop fuel (concat ((λ w, w ++ [x0a]) <$> lines) ++ rest) key val =
    mem_loop (fuel - length lines) rest key' val'.
Proof.
  revert fuel key val. induction lines as [|w lines IH]; intros fuel key val Hl Hf.
  { exists key, val. cbn [fmap list_fmap concat app length]. by rewrite Nat.sub_0_r. }
  apply Forall_cons in Hl as [(Hnl & Hnull & Hlen & key1 & r & v & r' & Hs & Hno & Hd) Hl].
  destruct fuel as [|fuel]; [cbn in Hf; lia|]. cbn [fmap list_fmap concat mem_loop].
  rewrite <- !app_assoc. change ([x0a] ++ ?x) with (x0a :: x). rewrite fgets_line by done.
  rewrite cstr_id by (rewrite not_elem_of_app; split; [done|]; by rewrite list_elem_of_singleton).
  rewrite Hs. cbn [mbind outcome_bind]. rewrite Hd. cbn [mbind outcome_bind]. rewrite Hno.
  apply IH; [done|cbn in Hf; lia].
Qed.

Lemma cpu_used_end_run last lastp n c p :
  0 ≤ c < 2 ^ 31 → 0 ≤ p < 2 ^ 31 → 0 < n → (last ≠ 0 → 0 < last < c ∧ 0 ≤ lastp ≤ p) →
  (p - lastp) * 10000 * n < 2 ^ 31 →
  cpu_used_end last lastp n c p =
    Ret (if last =? 0 then 0 else 100 * (p - lastp) / (c - last) * 100 * n, c, p).
Proof.
  intros Hc Hp Hn Hlast Hbig. unfold cpu_used_end. destruct (Z.eqb_spec last 0) as [Hz|Hz]; [done|].
  destruct (Hlast Hz) as [Hl Hlp]. destruct (Z.eqb_spec c last); [lia|].
  set (dp := p - lastp) in *. set (dc := c - last).
  assert (0 ≤ dp < 2 ^ 31) by (unfold dp; lia). assert (0 < dc < 2 ^ 31) by (unfold dc; lia).
  assert (100 * dp < 2 ^ 31) by nia.
  assert (0 ≤ 100 * dp / dc ≤ 100 * dp) as Hq.
  { split; [apply Z.div_pos; lia|]. apply Z.div_le_upper_bound; nia. }
  rewrite (int_op_ok dp) by lia. cbn [mbind outcome_bind]. rewrite (int_op_ok (100 * dp)) by lia. cbn [mbind outcome_bind].
  rewrite (int_op_ok dc) by lia. cbn [mbind outcome_bind]. rewrite Z.quot_div_nonneg by lia.
  set (q := 100 * dp / dc) in *. rewrite (int_op_ok q) by lia. cbn [mbind outcome_bind].
  assert (q * 100 * n < 2 ^ 31) by nia. assert (0 ≤ q * 100 ≤ q * 100 * n) by nia.
  rewrite int_op_ok by lia. cbn [mbind outcome_bind]. rewrite int_op_ok by lia. done.
Qed.

(** * Theorems *)

Section theorems.
Context {E : Type} `{!ProcFs E}.


(** [mem_used] returns the number of the line [VmRSS] that the kernel
    prints, whatever lines come before and after it, and -1 when there is no
    such file. *)
Theorem mem_used_finds (e e1 : E) o :
  proc_open (str_of "/proc/" ++ dec (proc_getpid e) ++ str_of "/status") e = (o, e1) →
  match o with
  | None => mem_used e = Ret (-1, e1)
  | Some f =>
      ∀ lines sp n tail rest,
        f = concat ((λ w, w ++ [x0a]) <$> lines) ++ (str_of "VmRSS:" ++ sp ++ dec n ++ tail) ++ x0a :: rest →
        Forall other_line lines → Forall (λ b, is_space b = true) sp → sp ≠ [] → is_i32 n → no_digit tail →
        x0a ∉ sp ++ dec n ++ tail → x00 ∉ sp ++ dec n ++ tail → (length (sp ++ dec n ++ tail) < 248)%nat →
        mem_used e = Ret (n, e1)
  end.
Proof.
  intros Hopen. unfold mem_used, proc_file. autorewrite with run.
  change (str_of "/" ++ str_of "status") with (str_of "/status"). rewrite Hopen.
  destruct o as [f|]; [|by autorewrite with run].
  intros lines sp n tail rest Hf Hl Hsp Hne Hn Htail Hnl Hnull Hlen.
  assert (∃ k v fuel, mem_loop (S (length f)) f [] 0 =
    mem_loop (S fuel) ((str_of "VmRSS:" ++ sp ++ dec n ++ tail) ++ x0a :: rest) k v) as (k & v & fuel & ->).
  { destruct (mem_loop_skip (S (length f)) lines ((str_of "VmRSS:" ++ sp ++ dec n ++ tail) ++ x0a :: rest) [] 0)
      as (k & v & Hrun); [done| |].
    - rewrite Hf, length_app. pose proof (lines_length lines). lia.
    - rewrite <- Hf in Hrun. rewrite Hrun. exists k, v, (length f - length lines)%nat. f_equal.
      rewrite Hf, length_app. pose proof (lines_length lines). lia. }
  cbn [mem_loop]. rewrite fgets_line; [| |rewrite (length_app (str_of "VmRSS:")); change (length (str_of "VmRSS:")) with 6%nat; lia].
  2:{ rewrite not_elem_of_app. split; [apply (bool_decide_unpack _); by vm_compute|done]. }
  rewrite cstr_id.
  2:{ rewrite !not_elem_of_app in *. split_and!; try tauto.
      - apply (bool_decide_unpack _). by vm_compute.
      - by rewrite list_elem_of_singleton. }
  rewrite <- !app_assoc.
  rewrite scan_s_here; [|done|by repeat constructor| |done].
  2:{ destruct sp as [|b sp]; [done|]. by apply Forall_cons in Hsp as [? _]. }
  autorewrite with run. cbn [mbind outcome_bind].
  rewrite scan_d_dec; [|done..|by destruct tail]. cbn [mbind outcome_bind].
  change (strstr (str_of "VmRSS:") (str_of "VmRSS")) with true. cbn match. by autorewrite with run.
Qed.
End theorems.

(** * Witnesses *)

(** A [proc] file system as a list of texts, and the id of the process. *)
Record procfs := mk_procfs { p_files : list (list byte * list byte); p_pid : Z }.

#[export] Instance procfs_proc : ProcFs procfs := {|
  proc_open n e := (snd <$> find (λ p, bool_decide (p.1 = n)) (p_files e), e);
  proc_getpid := p_pid;
|}.

Definition cpuinfo0 : list (list byte) :=
  [ (str_of "processor" ++ x09 :: str_of ": 0") ++ [x0a]; (str_of "cpu MHz" ++ x09 :: str_of ": 2000") ++ [x0a]
  ; (str_of "processor" ++ x09 :: str_of ": 1") ++ [x0a] ].

Lemma piece_line v : bool_decide (x0a ∉ v) && (length v <? 255)%nat = true → piece 256 (v ++ [x0a]).
Proof.
  intros [Hv%bool_decide_eq_true Hl%Nat.ltb_lt]%andb_prop. left. exists v. split; [done|]. split; [done|].
  rewrite length_app. cbn. lia.
Qed.

Definition proc0 : procfs := mk_procfs
  [ (str_of "/proc/stat", stat_text (str_of "cpu") [x20] [100; 0; 50; 800; 30; 10; 5; 5] (x0a :: str_of "cpu0"))
  ; (str_of "/proc/77/stat",
      pid_stat_text 77 (str_of "(srv)") (str_of "R") [1; 77; 1; 0; -1; 4194304; 9; 0; 0; 0] [30; 20; 0; 0] (str_of " 20"))
  ; (str_of "/proc/cpuinfo", concat cpuinfo0)
  ; (str_of "/proc/77/status",
      str_of "Name:" ++ x09 :: str_of "srv" ++ x0a :: str_of "Threads:" ++ x09 :: str_of "3" ++ x0a ::
      (str_of "VmRSS:" ++ x09 :: str_of "   5120" ++ str_of " kB") ++ x0a :: str_of "VmData: 8 kB") ] 77.

(** The word that is left in the buffer. *)
Definition first_word (l : list byte) : outcome (list byte) := '(w, _) ← scan_s 256 l; Ret (default l w).


Lemma mem_used_finds_witness : mem_used proc0 = Ret (5120, proc0).
Proof.
  apply (mem_used_finds proc0 proc0 (Some (str_of "Name:" ++ x09 :: str_of "srv" ++ x0a :: str_of "Threads:" ++ x09 :: str_of "3" ++ x0a ::
      (str_of "VmRSS:" ++ x09 :: str_of "   5120" ++ str_of " kB") ++ x0a :: str_of "VmData: 8 kB")) ltac:(by vm_compute)
    [str_of "Name:" ++ x09 :: str_of "srv"; str_of "Threads:" ++ x09 :: str_of "3"]
    (x09 :: str_of "   ") 5120 (str_of " kB") (str_of "VmData: 8 kB"));
    try reflexivity; try done; try (apply (bool_decide_unpack _); by vm_compute).
  - assert (∀ w r v r', bool_decide (x0a ∉ w) && bool_decide (x00 ∉ w) && (length w + 1 <? 256)%nat = true →
      ∀ key, scan_s 256 (w ++ [x0a]) = Ret (Some key, r) → strstr key (str_of "VmRSS") = false →
      scan_d r = Ret (v, r') → other_line w) as Hline.
    { intros w r v r' [[Hnl%bool_decide_eq_true Hz%bool_decide_eq_true]%andb_prop Hl%Nat.ltb_lt]%andb_prop key Hs Hk Hd.
      unfold other_line. eauto 10. }
    repeat apply Forall_cons_2; [..|constructor]; (eapply Hline; [by vm_compute..]).
Defined.
