(* ===== verification/Signals.v ===== *)
(** * Handlers of signals ([handle_crash] and [handle_term] of [util.c])

    The library installs its two handlers with [sigaction] and keeps what they
    need in static variables.  That a signal runs the handler installed for it
    is the kernel's doing: [deliver] states it. *)
From stdpp Require Import strings.
From S2P Require Import Prelude Sys.

Definition SIGINT : Z := 2.
Definition SIGQUIT : Z := 3.
Definition SIGILL : Z := 4.
Definition SIGABRT : Z := 6.
Definition SIGBUS : Z := 7.
Definition SIGFPE : Z := 8.
Definition SIGSEGV : Z := 11.
Definition SIGTERM : Z := 15.

Definition SA_SIGINFO : Z := 4.
Definition SA_NODEFER : Z := 0x40000000.
Definition SA_RESETHAND : Z := 0x80000000.

Definition STDOUT_FILENO : Z := 1.
Definition RLIMIT_CORE : Z := 4.
Definition RLIMIT_NPROC : Z := 6.
Definition RLIM_INFINITY : Z := 2 ^ 64 - 1.

(** The handlers a signal can have. *)
Inductive handler :=
  | SIG_DFL
  | Term_handler
  | Segv_handler.

(** [struct sigaction]; the set of signals blocked while it runs is empty. *)
Record sigact := mk_sigact { sa_handler : handler; sa_flags : Z }.

(** The static variables of the file: a function is an id. *)
Record sig_statics := mk_sig { _term_cb : option Z; _ud : Z; _out : Z }.
Definition sig_init : sig_statics := mk_sig None 0 STDOUT_FILENO.

Class Signals (E : Type) := {
  statics : E → sig_statics;
  put_statics : sig_statics → E → E;
  sys_sigaction : Z → sigact → E → Z * E;
  (** The resource, and its two limits. *)
  sys_set_limits : Z → Z → Z → E → Z * E;
  sys_system : list byte → E → Z * E;
  (** The return addresses on the stack, at most so many. *)
  sys_backtrace : Z → E → list Z * E;
  (** Their names, one in a line, to a descriptor. *)
  sys_backtrace_symbols_fd : list Z → Z → E → E;
}.

Section signals.
Context {E : Type} `{!Signals E}.

Definition get_statics : M E sig_statics := sys (λ e, (statics e, e)).
Definition set_statics (f : sig_statics → sig_statics) : M E unit :=
  sys (λ e, (tt, put_statics (f (statics e)) e)).

(** [rip]: where the signal stopped the thread.  It takes the place of the
    frame of the handler. *)
Definition _stack_trace (rip out : Z) : M E unit :=
  trace ← sys (sys_backtrace 128);
  sys (λ e, (tt, sys_backtrace_symbols_fd (<[1%nat := rip]> trace) out e)).

Definition _sig_segv_handler (rip : Z) : M E unit := s ← get_statics; _stack_trace rip (_out s).

Definition core_command : list byte :=
  str_of "echo " ++ [x22] ++ str_of "core-%e-%p-%s-%t" ++ [x22] ++ str_of " > /proc/sys/kernel/core_pattern".

Definition handle_crash (outfd : Z) : M E unit :=
  _ ← sys (sys_set_limits RLIMIT_CORE RLIM_INFINITY RLIM_INFINITY);
  _ ← sys (sys_set_limits RLIMIT_NPROC RLIM_INFINITY RLIM_INFINITY);
  set_statics (λ s, mk_sig (_term_cb s) (_ud s) outfd);;
  let act := mk_sigact Segv_handler (Z.lor (Z.lor SA_NODEFER SA_RESETHAND) SA_SIGINFO) in
  _ ← sys (sys_sigaction SIGSEGV act);
  _ ← sys (sys_sigaction SIGBUS act);
  _ ← sys (sys_sigaction SIGFPE act);
  _ ← sys (sys_sigaction SIGILL act);
  _ ← sys (sys_sigaction SIGABRT act);
  _ ← sys (sys_system core_command);
  mret tt.

Definition handle_term (cb : option Z) (ud : Z) : M E unit :=
  set_statics (λ s, mk_sig cb ud (_out s));;
  let act := mk_sigact Term_handler 0 in
  _ ← sys (sys_sigaction SIGTERM act);
  _ ← sys (sys_sigaction SIGINT act);
  _ ← sys (sys_sigaction SIGQUIT act);
  mret tt.

Section callback.
(** [_term_cb]: the function, the signal, and its other argument. *)
Variable call : Z → Z → Z → M E unit.

Definition _sig_term_handler (sig : Z) : M E unit :=
  s ← get_statics; match _term_cb s with Some cb => call cb sig (_ud s) | None => mret tt end.
End callback.
End signals.

(** * Specification *)

(** sigaction(2): it replaces the action of a signal, and refuses only signals
    that do not exist or that cannot be caught.  The other calls do not touch
    the actions, and none touches the static variables. *)
Class SignalsLaws (E : Type) `{!Signals E} (actions : E → gmap Z sigact) (put_actions : gmap Z sigact → E → E) := {
  sigaction_law sig act e r e' : sys_sigaction sig act e = (r, e') → 1 ≤ sig ≤ 31 → sig ≠ 9 → sig ≠ 19 →
    r = 0 ∧ actions e' = <[sig := act]> (actions e) ∧ statics e' = statics e;
  limits_law res c m e : actions (snd (sys_set_limits res c m e)) = actions e ∧
    statics (snd (sys_set_limits res c m e)) = statics e;
  system_law c e : actions (snd (sys_system c e)) = actions e ∧ statics (snd (sys_system c e)) = statics e;
  actions_put_statics s e : actions (put_statics s e) = actions e;
  statics_put s e : statics (put_statics s e) = s;
  statics_put_actions m e : statics (put_actions m e) = statics e;
  actions_put m e : actions (put_actions m e) = m;
}.

Definition term_signals : list Z := [SIGTERM; SIGINT; SIGQUIT].
Definition crash_signals : list Z := [SIGSEGV; SIGBUS; SIGFPE; SIGILL; SIGABRT].

Section deliver.
Context {E : Type} `{!Signals E} (actions : E → gmap Z sigact) (put_actions : gmap Z sigact → E → E).
Variable call : Z → Z → Z → M E unit.

(** signal(7): a signal with a handler runs it, after it lost the handler when
    the flags say so ([SA_RESETHAND]); [None]: the default action. *)
Definition deliver (sig rip : Z) : M E (option unit) := λ e,
  match actions e !! sig with
  | Some act =>
      let e1 := if Z.testbit (sa_flags act) 31 then put_actions (delete sig (actions e)) e else e in
      match sa_handler act with
      | SIG_DFL => Ret (None, e1)
      | Term_handler => (_sig_term_handler call sig;; mret (Some tt)) e1
      | Segv_handler => (_sig_segv_handler rip;; mret (Some tt)) e1
      end
  | None => Ret (None, e)
  end.
End deliver.

(** * Theorems *)

Section theorems.
Context {E : Type} `{!Signals E} (actions : E → gmap Z sigact) (put_actions : gmap Z sigact → E → E)
  `{!SignalsLaws E actions put_actions}.
Variable call : Z → Z → Z → M E unit.

(** The actions that a list of signals gets. *)
Definition install (act : sigact) (sigs : list Z) (m : gmap Z sigact) : gmap Z sigact :=
  foldl (λ m sig, <[sig := act]> m) m sigs.

Lemma install_lookup act sigs m sig :
  install act sigs m !! sig = if bool_decide (sig ∈ sigs) then Some act else m !! sig.
Proof.
  revert m. induction sigs as [|x sigs IH]; intros m; [by rewrite bool_decide_eq_false_2 by apply not_elem_of_nil|].
  cbn. fold (install act sigs (<[x := act]> m)). rewrite IH.
  destruct (decide (sig ∈ sigs)); [rewrite !bool_decide_eq_true_2; [done|by right|done]|].
  rewrite (bool_decide_eq_false_2 (sig ∈ sigs)) by done. destruct (decide (sig = x)) as [->|].
  - by rewrite lookup_insert_eq, bool_decide_eq_true_2 by left.
  - rewrite lookup_insert_ne by done. by rewrite bool_decide_eq_false_2 by (rewrite elem_of_cons; tauto).
Qed.

Lemma sigaction_run sig act (e : E) :
  1 ≤ sig ≤ 31 → sig ≠ 9 → sig ≠ 19 →
  ∃ e', sys (sys_sigaction sig act) e = Ret (0, e') ∧ actions e' = <[sig := act]> (actions e) ∧ statics e' = statics e.
Proof.
  intros. destruct (sys_sigaction sig act e) as [r e'] eqn:Hr.
  destruct (sigaction_law _ _ _ _ _ Hr) as (-> & ? & ?); [done..|]. exists e'. by rewrite sys_run, Hr.
Qed.

Lemma handle_term_run cb ud (e : E) :
  ∃ e', handle_term cb ud e = Ret (tt, e') ∧ statics e' = mk_sig cb ud (_out (statics e)) ∧
    actions e' = install (mk_sigact Term_handler 0) term_signals (actions e).
Proof.
  unfold handle_term, set_statics. autorewrite with run.
  set (e0 := put_statics _ e). set (act := mk_sigact Term_handler 0).
  destruct (sigaction_run SIGTERM act e0) as (e1 & H1 & Ha1 & Hs1); [done..|].
  destruct (sigaction_run SIGINT act e1) as (e2 & H2 & Ha2 & Hs2); [done..|].
  destruct (sigaction_run SIGQUIT act e2) as (e3 & H3 & Ha3 & Hs3); [done..|].
  rewrite sys_run in H1, H2, H3. injection H1 as H1. injection H2 as H2. injection H3 as H3.
  rewrite H1. autorewrite with run. rewrite H2. autorewrite with run. rewrite H3. autorewrite with run.
  exists e3. split; [done|]. rewrite Hs3, Hs2, Hs1, Ha3, Ha2, Ha1. unfold e0.
  by rewrite statics_put, actions_put_statics.
Qed.

Lemma handle_crash_run out (e : E) :
  ∃ e' act, handle_crash out e = Ret (tt, e') ∧ statics e' = mk_sig (_term_cb (statics e)) (_ud (statics e)) out ∧
    actions e' = install act crash_signals (actions e) ∧ sa_handler act = Segv_handler ∧
    Z.testbit (sa_flags act) 31 = true.
Proof.
  unfold handle_crash, set_statics. autorewrite with run.
  destruct (limits_law RLIMIT_CORE RLIM_INFINITY RLIM_INFINITY e) as [Hla Hls].
  destruct (sys_set_limits _ _ _ e) as [r1 e1]. cbn [snd] in *. autorewrite with run.
  destruct (limits_law RLIMIT_NPROC RLIM_INFINITY RLIM_INFINITY e1) as [Hla' Hls'].
  destruct (sys_set_limits _ _ _ e1) as [r2 e2]. cbn [snd] in *. autorewrite with run.
  set (e0 := put_statics _ e2). set (act := mk_sigact Segv_handler _).
  destruct (sigaction_run SIGSEGV act e0) as (e3 & H3 & Ha3 & Hs3); [done..|].
  destruct (sigaction_run SIGBUS act e3) as (e4 & H4 & Ha4 & Hs4); [done..|].
  destruct (sigaction_run SIGFPE act e4) as (e5 & H5 & Ha5 & Hs5); [done..|].
  destruct (sigaction_run SIGILL act e5) as (e6 & H6 & Ha6 & Hs6); [done..|].
  destruct (sigaction_run SIGABRT act e6) as (e7 & H7 & Ha7 & Hs7); [done..|].
  rewrite sys_run in H3, H4, H5, H6, H7. injection H3 as H3. injection H4 as H4. injection H5 as H5.
  injection H6 as H6. injection H7 as H7.
  rewrite H3. autorewrite with run. rewrite H4. autorewrite with run. rewrite H5. autorewrite with run.
  rewrite H6. autorewrite with run. rewrite H7. autorewrite with run.
  destruct (system_law core_command e7) as [Hca Hcs]. destruct (sys_system core_command e7) as [r8 e8].
  cbn [snd] in *. autorewrite with run. exists e8, act. split; [done|].
  rewrite Hcs, Hs7, Hs6, Hs5, Hs4, Hs3, Hca, Ha7, Ha6, Ha5, Ha4, Ha3. unfold e0.
  rewrite statics_put, actions_put_statics, Hls', Hls, Hla', Hla. done.
Qed.

(** C27: After [handle_term] a signal to end the process (and no other) calls the
    callback with the signal and its argument, every time again; without a
    callback it does nothing. *)
Theorem handle_term_delivers cb ud (e : E) :
  ∃ e', handle_term cb ud e = Ret (tt, e') ∧
    (∀ sig rip e1, sig ∈ term_signals → actions e1 = actions e' → statics e1 = statics e' →
       deliver actions put_actions call sig rip e1 =
         match cb with
         | Some f => match call f sig ud e1 with Ret (_, e2) => Ret (Some tt, e2) | UB => UB | Hang => Hang end
         | None => Ret (Some tt, e1)
         end) ∧
    (∀ sig, sig ∉ term_signals → actions e' !! sig = actions e !! sig).
Proof.
  destruct (handle_term_run cb ud e) as (e' & -> & Hs & Ha). exists e'. split; [done|]. split.
  - intros sig rip e1 Hsig Ha1 Hs1. unfold deliver. rewrite Ha1, Ha, install_lookup, bool_decide_eq_true_2 by done.
    cbn [sa_handler sa_flags]. change (Z.testbit 0 31) with false. cbn match.
    unfold _sig_term_handler, get_statics. autorewrite with run. rewrite Hs1, Hs. cbn [_term_cb _ud].
    destruct cb as [f|]; [|done]. by destruct (call f sig ud e1) as [[[] e2]| |].
  - intros sig Hsig. by rewrite Ha, install_lookup, bool_decide_eq_false_2.
Qed.

(** C38: After [handle_crash] a crash prints the stack of the thread that crashed,
    with the place of the crash in it, to the descriptor given; the handler is
    gone then, so that the crash itself, when it is repeated, ends the process.
    A callback for the end of the process is kept. *)
Theorem handle_crash_traces out (e : E) :
  ∃ e', handle_crash out e = Ret (tt, e') ∧
    _term_cb (statics e') = _term_cb (statics e) ∧
    (∀ sig rip, sig ∈ crash_signals →
       let e1 := put_actions (delete sig (actions e')) e' in
       let '(trace, e2) := sys_backtrace 128 e1 in
       deliver actions put_actions call sig rip e' =
         Ret (Some tt, sys_backtrace_symbols_fd (<[1%nat := rip]> trace) out e2) ∧
       deliver actions put_actions call sig rip e1 = Ret (None, e1)) ∧
    (∀ sig, sig ∉ crash_signals → actions e' !! sig = actions e !! sig).
Proof.
  destruct (handle_crash_run out e) as (e' & act & -> & Hs & Ha & Hh & Hr). exists e'.
  split; [done|]. split; [by rewrite Hs|]. split.
  - intros sig rip Hsig. cbn zeta. destruct (sys_backtrace 128 _) as [trace e2] eqn:Hb. split.
    + unfold deliver. rewrite Ha at 1. rewrite install_lookup, bool_decide_eq_true_2 by done. rewrite Hh, Hr.
      unfold _sig_segv_handler, _stack_trace, get_statics. autorewrite with run. rewrite Hb. autorewrite with run.
      by rewrite statics_put_actions, Hs.
    + unfold deliver. by rewrite actions_put, lookup_delete_eq.
  - intros sig Hsig. by rewrite Ha, install_lookup, bool_decide_eq_false_2.
Qed.
End theorems.

(** * Witnesses *)

(** A process: its actions, its static variables, and what it printed. *)
Record proc := mk_proc { p_actions : gmap Z sigact; p_statics : sig_statics; p_out : list (Z * list Z) }.

#[export] Instance proc_signals : Signals proc := {|
  statics := p_statics;
  put_statics s e := mk_proc (p_actions e) s (p_out e);
  sys_sigaction sig act e :=
    if (1 <=? sig) && (sig <=? 31) && negb (sig =? 9) && negb (sig =? 19)
    then (0, mk_proc (<[sig := act]> (p_actions e)) (p_statics e) (p_out e)) else (-1, e);
  sys_set_limits _ _ _ e := (-1, e);
  sys_system _ e := (0, e);
  sys_backtrace _ e := ([10; 20; 30], e);
  sys_backtrace_symbols_fd l fd e := mk_proc (p_actions e) (p_statics e) (p_out e ++ [(fd, l)]);
|}.

Definition put_proc_actions (m : gmap Z sigact) (e : proc) : proc := mk_proc m (p_statics e) (p_out e).

#[export] Instance proc_laws : SignalsLaws proc p_actions put_proc_actions.
Proof.
  split; try done. intros sig act e r e' Hr Hs H9 H19. cbn in Hr.
  destruct (Z.leb_spec 1 sig); [|lia]. destruct (Z.leb_spec sig 31); [|lia].
  destruct (Z.eqb_spec sig 9); [done|]. destruct (Z.eqb_spec sig 19); [done|]. by injection Hr as <- <-.
Qed.

Definition proc_init : proc := mk_proc ∅ sig_init [].

(** The program's callback notes the signal. *)
Definition note_signal (cb sig ud : Z) : M proc unit := sys (λ e, (tt, mk_proc (p_actions e) (p_statics e) (p_out e ++ [(cb, [sig; ud])]))).

Lemma handle_term_delivers_witness :
  ∃ e', handle_term (Some 7) 3 proc_init = Ret (tt, e') ∧
    deliver p_actions put_proc_actions note_signal SIGINT 0 e' =
      Ret (Some tt, mk_proc (p_actions e') (p_statics e') [(7, [SIGINT; 3])]).
Proof.
  destruct (handle_term_delivers p_actions put_proc_actions note_signal (Some 7) 3 proc_init) as (e' & He' & Hd & _).
  exists e'. split; [done|]. rewrite (Hd SIGINT 0 e') by (done || by right; left).
  vm_compute in He'. injection He' as <-. by vm_compute.
Defined.

Lemma handle_crash_traces_witness :
  ∃ e' e2, handle_crash 2 proc_init = Ret (tt, e') ∧
    deliver p_actions put_proc_actions note_signal SIGSEGV 99 e' = Ret (Some tt, e2) ∧
    p_out e2 = [(2, [10; 99; 30])] ∧
    deliver p_actions put_proc_actions note_signal SIGSEGV 99 e2 = Ret (None, e2).
Proof.
  destruct (handle_crash_traces p_actions put_proc_actions note_signal 2 proc_init) as (e' & He' & _ & Hd & _).
  destruct (Hd SIGSEGV 99) as [H1 _]; [by left|]. exists e'. eexists. split; [done|]. split; [exact H1|].
  vm_compute in He'. injection He' as <-. by vm_compute.
Defined.
