(* ===== verification/Typing.v ===== *)
(** * The store of sockets is well typed

    Every socket in use has its event at the same address, dispatched to
    [_sock_dispatch], and two streams on the descriptor of the event, unlocked
    and with well-formed buffers.  Every operation of a socket keeps this, so
    sequences of operations on sockets that are in use have no undefined
    behaviour. *)
From S2P Require Import Prelude Alloc Sys Lock Log Thread Event Host Buffer Stream.
From S2P Require Import Eventpoll Eventloop Sockaddr Socket Listener.

Definition stream_typed (fd : Z) (o : option stream_t) : Prop :=
  ∃ stm, o = Some stm ∧ io stm = fd ∧ slock stm = 0 ∧ wf_buffer (sbuf stm).

Definition socket_typed (ev : event_t) (s : socket_t) : Prop :=
  ev_cb ev = Some _sock_dispatch ∧ stream_typed (ev_fd ev) (istm s) ∧ stream_typed (ev_fd ev) (ostm s).

Definition store_typed {E} `{!Events E, !Sockets E} (e : E) : Prop :=
  ∀ a s, sockets e !! a = Some s → ∃ ev, events e !! a = Some ev ∧ socket_typed ev s.

(** An operation on the sockets in use: those of [socket_] but for [nonblock],
    and the assignments to the fields that are the user's. *)
Inductive sock_op :=
  | New (fd : Z) (sockname peername : option sockaddr_t)
  | Enable (a : positive) (x : Z)
  | Shutdown (a : positive) (how : Z)
  | Free (a : positive)
  | SetCallback (a : positive) (cb : option Z)
  | SetLoop (a : positive)
  | Yield (a : positive) (delim : list byte)
  | Flush (a : positive).

Definition set_s_cb (x : option Z) (s : socket_t) : socket_t :=
  mk_socket (s_loop s) (istm s) (ostm s) (timeout s) x (s_enabled s) (sockname s) (peername s).
Definition set_s_loop (x : bool) (s : socket_t) : socket_t :=
  mk_socket x (istm s) (ostm s) (timeout s) (s_cb s) (s_enabled s) (sockname s) (peername s).

Section ops.
Context {E : Type} `{!Malloc E, !Errno E, !Events E, !Logger E, !IoOps E, !FdOps E, !EpollOps E,
  !SockOps E, !Threads E, !Loop E, !Sockets E}.

Definition run_sock_op (fuel : nat) (op : sock_op) : M E unit :=
  match op with
  | New fd sn pn => _ ← socket_new_from_fd fd sn pn; mret tt
  | Enable a x => _ ← socket_enable a x; mret tt
  | Shutdown a how => _ ← socket_shutdown a how; mret tt
  | Free a => socket_free a
  | SetCallback a cb => upd_socket a (set_s_cb cb)
  | SetLoop a => upd_socket a (set_s_loop true)
  | Yield a delim =>
      s ← get_socket a; i ← the_stream (istm s);
      '(_, i) ← lift (stream_yield i delim);
      upd_socket a (set_istm (Some i))
  | Flush a => _ ← try_write fuel a; mret tt
  end.

Fixpoint run_sock_ops (fuel : nat) (ops : list sock_op) : M E unit :=
  match ops with [] => mret tt | op :: ops => run_sock_op fuel op;; run_sock_ops fuel ops end.
End ops.

(** The socket is in use; a loop is set before it is turned on; what is read
    are values; and the fuel suffices to send what there is. *)
Definition op_ready {E} `{!Sockets E} (fuel : nat) (op : sock_op) (e : E) : Prop :=
  match op with
  | New _ _ _ => True
  | Enable a _ => ∃ s, sockets e !! a = Some s ∧ s_loop s = true
  | Yield a _ => ∃ s i hay, sockets e !! a = Some s ∧ istm s = Some i ∧ contents (sbuf i) = cells hay
  | Flush a => ∃ s o, sockets e !! a = Some s ∧ ostm s = Some o ∧
      zlen (contents (sbuf o)) < 2 ^ 31 ∧ (length (contents (sbuf o)) ≤ fuel)%nat
  | Shutdown a _ | Free a | SetCallback a _ | SetLoop a => is_Some (sockets e !! a)
  end.

(** All of a sequence, one after the other. *)
Fixpoint ops_ready {E} `{!Malloc E, !Errno E, !Events E, !Logger E, !IoOps E, !FdOps E, !EpollOps E,
    !SockOps E, !Threads E, !Loop E, !Sockets E} (fuel : nat) (ops : list sock_op) (e : E) : Prop :=
  match ops with
  | [] => True
  | op :: ops => op_ready fuel op e ∧ ∀ e1, run_sock_op fuel op e = Ret (tt, e1) → ops_ready fuel ops e1
  end.

(** The loop and the threads are apart from the stores and from the kernel, and
    the stores from epoll and [shutdown]. *)
Class TypingLaws (E : Type) `{!Malloc E, !Errno E, !Events E, !FdOps E, !SockOps E, !EpollOps E, !Threads E,
    !Loop E, !Sockets E} := {
  core_stores :: StoresFrame E (core (E := E));
  core_writev fd l e : core (snd (sys_writev fd l e)) = core e;
  ctl_core epfd op fd evt e : core (snd (sys_epoll_ctl epfd op fd evt e)) = core e;
  ctl_sockets epfd op fd evt e : sockets (snd (sys_epoll_ctl epfd op fd evt e)) = sockets e;
  shutdown_stores fd how e : stores (snd (sys_shutdown fd how e)) = stores e;
  shutdown_core fd how e : core (snd (sys_shutdown fd how e)) = core e;
}.

(** * Lemmas *)

Section typing.
Context {E : Type} `{!Malloc E, !Errno E, !IoOps E, !FdOps E, !SockOps E, !EpollOps E,
  !Events E, !EventsLaws E, !Sockets E, !SocketLaws E, !Logger E, !Threads E, !Loop E, !TypingLaws E}.
Context (sent : Z → E → block) `{!∀ fd, FdLaws E fd (sent fd), !∀ fd, SentFrame E (sent fd), !∀ fd, SentStores E (sent fd)}.
Context (poll : eventpoll_t) (interest : E → gmap Z (Z * positive)).
Context `{!EpollLaws E (pollfd poll) interest, !EventpollFrame E interest}.

(** The store stays well typed when a socket and its event change to ones that
    fit each other. *)
Lemma typed_insert a ev s (e e' : E) :
  store_typed e → socket_typed ev s → events e' = <[a := ev]> (events e) → sockets e' = <[a := s]> (sockets e) →
  store_typed e'.
Proof.
  intros He Hs Hev Hso b t. rewrite Hev, Hso. destruct (decide (a = b)) as [<-|Hne].
  - rewrite !lookup_insert_eq. intros [= <-]. eauto.
  - rewrite !lookup_insert_ne by done. apply He.
Qed.

Lemma typed_socket a f s (e : E) :
  store_typed e → sockets e !! a = Some s → (∀ ev, socket_typed ev s → socket_typed ev (f s)) →
  ∃ e', upd_socket a f e = Ret (tt, e') ∧ store_typed e' ∧ core e' = core e.
Proof.
  intros He Hs Hf. destruct (He a s Hs) as (ev & Hev & Ht).
  rewrite (upd_socket_eq _ _ s) by done. eexists. split; [done|]. split.
  - apply (typed_insert a ev (f s) e); [done|by apply Hf| |by apply sockets_put].
    by rewrite events_put_sockets, insert_id.
  - apply (sf_sockets (view := core)).
Qed.

(** Whatever the poll answers, at most the last mask of the event changes. *)
Lemma apply_total a ev (e : E) :
  events e !! a = Some ev →
  ∃ r m e', eventpoll_apply poll a e = Ret (r, e') ∧ events e' = <[a := ev_set_last_mask m ev]> (events e) ∧
    sockets e' = sockets e ∧ core e' = core e.
Proof.
  intros Hev.
  assert (∃ r m e', eventpoll_apply poll a e = Ret (r, e') ∧ events e' = <[a := ev_set_last_mask m ev]> (events e))
    as (r & m & e' & Hrun & He').
  { assert (∀ m, m = ev_last_mask ev → ev_set_last_mask m ev = ev) as Hsame by (intros ? ->; by destruct ev).
    destruct (Z.eq_dec (newmask_of (ev_mask ev)) (ev_last_mask ev)) as [Heq|Hne].
    - exists 0, (ev_last_mask ev), e. split; [by eapply apply_skip|]. by rewrite Hsame, insert_id.
    - destruct (newmask_wants (ev_mask ev)) as [[_ Hoff]|(Hw & _)].
      + destruct (apply_off poll interest a ev e) as (r & e' & Hrun & He' & _); [done|done|congruence|].
        exists r, (ev_last_mask ev), e'. split; [done|]. by rewrite Hsame, insert_id.
      + destruct (apply_on poll interest a ev e) as (r & e' & Hrun & He' & _); [done..|]. eauto. }
  exists r, m, e'. split; [done|]. split; [done|]. split.
  - eapply (apply_view sockets); [| |exact Hrun]; intros; [apply sockets_put_events|apply ctl_sockets].
  - eapply (apply_view core); [| |exact Hrun]; intros; [apply (sf_events (view := core))|apply ctl_core].
Qed.

Lemma typed_enable a x s (e : E) :
  store_typed e → owned poll e → sockets e !! a = Some s → s_loop s = true →
  ∃ r e', socket_enable a x e = Ret (r, e') ∧ store_typed e' ∧ core e' = core e.
Proof.
  intros He Hown Hs Hl. destruct (He a s Hs) as (ev & Hev & Ht). unfold socket_enable. autorewrite with run.
  rewrite (get_socket_run _ s) by done. autorewrite with run. destruct (s_enabled s =? x); [by exists 0, e|].
  autorewrite with run. rewrite (upd_socket_eq _ _ s) by done. autorewrite with run.
  rewrite (upd_event_run _ _ ev) by by rewrite events_put_sockets. autorewrite with run. rewrite Hl. cbn [negb].
  set (ev1 := ev_set_mask _ ev). set (e1 := put_events _ _).
  assert (core e1 = core e) as Hc1
    by (unfold e1; rewrite (sf_events (view := core)); apply (sf_sockets (view := core))).
  assert (events e1 = <[a := ev1]> (events e)) as He1 by (unfold e1; by rewrite events_put, events_put_sockets).
  assert (sockets e1 = <[a := set_s_enabled x s]> (sockets e)) as Hs1
    by (unfold e1; by rewrite sockets_put_events, sockets_put).
  clearbody e1. rewrite (eventloop_apply_owned poll) by by eapply owned_core.
  destruct (apply_total a ev1 e1) as (r & m & e2 & -> & He2 & Hs2 & Hc2); [by rewrite He1, lookup_insert_eq|].
  exists r, e2. split; [done|]. split; [|congruence].
  apply (typed_insert a (ev_set_last_mask m ev1) (set_s_enabled x s) e); [done|done| |by rewrite Hs2].
  by rewrite He2, He1, insert_insert_eq.
Qed.

Lemma fresh_typed fd stm : fresh_stream fd stm → stream_typed fd (Some stm).
Proof. intros (? & ? & _ & ? & _). by exists stm. Qed.

Lemma typed_new fd sn pn (e : E) :
  store_typed e → ∃ r e', socket_new_from_fd fd sn pn e = Ret (r, e') ∧ store_typed e' ∧ core e' = core e.
Proof.
  intros He. destruct (socket_new_run fd sn pn e) as (r & e' & Hrun & Hr).
  { intros a [s Hs]. destruct (He a s Hs) as (ev & -> & _). eauto. }
  exists r, e'. split; [done|]. split.
  - destruct r as [a|].
    + destruct Hr as (i & o & _ & Hev & Hso & Hi & Ho). eapply typed_insert; [done| |done|done].
      split; [done|]. by split; apply fresh_typed.
    + destruct Hr as [Hev Hso]. intros a s. rewrite Hev, Hso. apply He.
  - eapply (socket_new_view core); [..|exact Hrun]; intros; [apply (sf_malloc (view := core))
      |apply (sf_errno (view := core))|apply (sf_sockets (view := core))|apply (sf_events (view := core))].
Qed.

Lemma typed_free a s (e : E) :
  store_typed e → sockets e !! a = Some s →
  ∃ e', socket_free a e = Ret (tt, e') ∧ store_typed e' ∧ core e' = core e.
Proof.
  intros He Hs. destruct (He a s Hs) as (ev & Hev & _ & (i & Hi & _ & _ & mi & Hmi & _) & (o & Ho & _ & _ & mo & Hmo & _)).
  unfold socket_free. autorewrite with run. rewrite (get_socket_run _ s) by done. autorewrite with run.
  rewrite Hi, Ho. unfold the_stream, stream_free, buffer_free, alloc, default_alloc. autorewrite with run.
  rewrite Hmi. cbn [Z.eqb]. autorewrite with run. rewrite Hmo. cbn [Z.eqb]. autorewrite with run.
  unfold free_socket, event_free, drop_socket. autorewrite with run. rewrite Hev. autorewrite with run.
  rewrite sockets_put_events, Hs. eexists. split; [done|]. split.
  - intros b t. stores_simpl. intros [Hne Ht]%lookup_delete_Some. rewrite lookup_delete_ne by done. by apply He.
  - rewrite (sf_sockets (view := core)). apply (sf_events (view := core)).
Qed.

Lemma typed_flush fuel a s o (e : E) :
  store_typed e → sockets e !! a = Some s → ostm s = Some o →
  zlen (contents (sbuf o)) < 2 ^ 31 → (length (contents (sbuf o)) ≤ fuel)%nat →
  ∃ r e', try_write fuel a e = Ret (r, e') ∧ store_typed e' ∧ core e' = core e.
Proof.
  intros He Hs Ho Hn Hf. destruct (He a s Hs) as (ev & Hev & Hcb & Hi & (o' & Ho' & Hio & Hl & Hwf)).
  assert (o' = o) as -> by congruence.
  destruct (try_write_run (ev_fd ev) (sent (ev_fd ev)) fuel a s o e)
    as (r & o1 & e1 & k & Hrun & Hst & Hl1 & Hio1 & Hwf1 & _); [done..|]. injection Hst as Hst_e Hst_s.
  exists r, e1. split; [done|]. split.
  - apply (typed_insert a ev (set_ostm (Some o1) s) e); [done| |by rewrite Hst_e, insert_id|done].
    split; [done|]. split; [done|]. by exists o1.
  - revert Hrun. unfold try_write. autorewrite with run. rewrite (get_socket_run _ s) by done. rewrite Ho.
    unfold the_stream. autorewrite with run.
    destruct (stream_flush stream_funcs_fd fuel o e) as [[[q o2] e2]| |] eqn:Hfl; [|done..].
    apply (flush_view core (sf_errno (view := core)) (io o)) in Hfl; [|intros; apply core_writev|done].
    autorewrite with run. unfold upd_socket. destruct (sockets e2 !! a); [|done]. autorewrite with run.
    intros [= _ <-]. by rewrite (sf_sockets (view := core)).
Qed.

Lemma op_typed fuel op (e : E) :
  store_typed e → owned poll e → op_ready fuel op e →
  ∃ e', run_sock_op fuel op e = Ret (tt, e') ∧ store_typed e' ∧ core e' = core e.
Proof.
  intros He Hown Hready. destruct op as [fd sn pn|a x|a how|a|a cb|a|a delim|a]; cbn [run_sock_op op_ready] in *.
  - destruct (typed_new fd sn pn e He) as (r & e' & Hrun & ?). autorewrite with run. rewrite Hrun. eauto.
  - destruct Hready as (s & Hs & Hl). destruct (typed_enable a x s e He Hown Hs Hl) as (r & e' & Hrun & ?).
    autorewrite with run. rewrite Hrun. eauto.
  - destruct Hready as [s Hs]. destruct (He a s Hs) as (ev & Hev & _). unfold socket_shutdown. autorewrite with run.
    rewrite (get_event_run _ ev) by done. autorewrite with run.
    pose proof (shutdown_stores (ev_fd ev) how e) as Hss. pose proof (shutdown_core (ev_fd ev) how e) as Hsc.
    destruct (sys_shutdown (ev_fd ev) how e) as [r e1]. cbn [snd] in *. injection Hss as Hse Hsso.
    autorewrite with run. exists e1. split; [done|]. split; [|done]. intros b t. rewrite Hse, Hsso. apply He.
  - destruct Hready as [s Hs]. by apply (typed_free a s).
  - destruct Hready as [s Hs]. by apply (typed_socket a _ s).
  - destruct Hready as [s Hs]. by apply (typed_socket a _ s).
  - destruct Hready as (s & i & hay & Hs & Hi & Hc).
    destruct (He a s Hs) as (ev & Hev & Hcb & (i' & Hi' & Hio & Hl & Hwf) & Ho). assert (i' = i) as -> by congruence.
    autorewrite with run. rewrite (get_socket_run _ s) by done. autorewrite with run. rewrite Hi. unfold the_stream.
    autorewrite with run. unfold stream_yield.
    assert (∃ r b, buffer_yield (sbuf i) delim = Ret (r, b) ∧ wf_buffer b) as (r & b & -> & Hb).
    { pose proof (yield_run (sbuf i) delim hay Hwf Hc) as Hy. destruct (memmem hay delim).
      - destruct Hy as (b & ? & ? & _). eauto.
      - eauto. }
    cbn [mbind outcome_bind]. autorewrite with run. apply (typed_socket a _ s); [done..|].
    intros ev' (Hcb' & (j & Hj & Hioj & Hlj & _) & Ho'). assert (j = i) as -> by congruence.
    split; [done|]. split; [by exists (set_buf b i)|done].
  - destruct Hready as (s & o & Hs & Ho & Hn & Hf).
    destruct (typed_flush fuel a s o e He Hs Ho Hn Hf) as (r & e' & Hrun & ?). autorewrite with run. rewrite Hrun. eauto.
Qed.

(** * Theorems *)

(** C3: the store of sockets is well typed after any sequence of operations on
    sockets in use: every operation returns whatever the kernel and the
    allocator answer, nothing it does is undefined, and every socket still has
    its event and two well-formed streams on the descriptor of that event. *)
Theorem sock_ops_typed fuel ops (e : E) :
  store_typed e → owned poll e → ops_ready fuel ops e →
  ∃ e', run_sock_ops fuel ops e = Ret (tt, e') ∧ store_typed e' ∧ core e' = core e.
Proof.
  revert e. induction ops as [|op ops IH]; intros e He Hown Hr; [by exists e|].
  destruct Hr as [Hop Hnext]. destruct (op_typed fuel op e He Hown Hop) as (e1 & Hrun & He1 & Hc1).
  cbn [run_sock_ops]. autorewrite with run. rewrite Hrun.
  destruct (IH e1) as (e2 & -> & He2 & Hc2); [done|by eapply owned_core|by apply Hnext|].
  exists e2. split; [done|]. split; [done|congruence].
Qed.
End typing.

(** * Witnesses *)

#[export] Instance env_typing_laws {X} : TypingLaws (env X).
Proof.
  split; try done.
  - intros fd l e. exact (on_host_view (core (E := env X)) (sys_writev (E := host) fd l) e (λ _ _, eq_refl)).
  - intros p op fd evt e. exact (on_host_view (core (E := env X)) (sys_epoll_ctl (E := host) p op fd evt) e (λ _ _, eq_refl)).
  - intros p op fd evt e. exact (on_host_view (sockets (E := env X)) (sys_epoll_ctl (E := host) p op fd evt) e (λ _ _, eq_refl)).
  - intros fd how e. cbn. unfold on_host, on_fd, attempt. cbn. destruct (decide _); [|done].
    destruct (h_script (e_host e)) as [|x q]; [done|]. by destruct (x =? 0).
  - intros fd how e. exact (on_host_view (core (E := env X)) (sys_shutdown (E := host) fd how) e (λ _ _, eq_refl)).
Qed.

(** The sample socket, with unread bytes in both streams, in the thread of its
    loop. *)
Definition typed_env : env unit :=
  mk_env (with_open (with_events host0 {[5%positive := sample_event EVMASK_NONE]}) {[7]}) loop_idle
    (7, mk_threads {[1%positive := mk_thread 7 []]} {[7 := 1%positive]} {[7 := 1%positive]} true)
    {[5%positive := sample_socket (small 2 abc)]} tt.

Definition life : list sock_op :=
  [SetCallback 5 (Some 1); Enable 5 0; Enable 5 1; Yield 5 [x62]; Flush 5; Shutdown 5 SOCK_SHUT_RDWR; Free 5].

Lemma typed_env_typed : store_typed typed_env.
Proof.
  intros a s Hs. change (({[5%positive := sample_socket (small 2 abc)]} : gmap positive socket_t) !! a = Some s) in Hs.
  apply lookup_singleton_Some in Hs as [<- <-]. exists (sample_event EVMASK_NONE). split; [by vm_compute|].
  split; [done|]. split; exists (sample_stream (small 2 abc)); (split; [done|]; split; [done|]; split; [done|]; wf_small).
Qed.

(** Run an operation, and go on with the state it leaves. *)
Ltac next_op :=
  let e := fresh "e" in let H := fresh "H" in
  intros e H; vm_compute in H; injection H as <-.

Lemma sock_ops_typed_witness :
  ∃ e', run_sock_ops 3 life typed_env = Ret (tt, e') ∧ store_typed e' ∧ core e' = core typed_env.
Proof.
  apply (sock_ops_typed (λ fd (e : env unit), output fd (e_host e)) poll_sample (λ e, h_interest (e_host e)) 3 life typed_env);
    [exact typed_env_typed|by split; [|by exists 1%positive]|].
  split; [by eexists|]. next_op.
  split; [by eexists|]. next_op.
  split; [by eexists|]. next_op.
  split; [eexists _, _, abc; split; [by vm_compute|]; split; [reflexivity|by vm_compute]|]. next_op.
  split; [eexists _, _; split; [by vm_compute|]; split; [done|]; split; [by vm_compute|vm_compute; lia]|]. next_op.
  split; [by eexists|]. next_op.
  split; [by eexists|]. done.
Defined.
