(* ===== verification/Echo.v ===== *)
(** * The echo program ([test.c])

    The program that the library comes with: a server that sends every line it
    receives back, and a client of it in the same loop.  It is where the
    components meet: the loop polls, an event is dispatched to its owner, a
    socket fills its stream and calls [ecprocessor], which takes a record from
    the input stream and prints it to the output stream. *)
From stdpp Require Import strings.
From S2P Require Import Prelude Alloc Sys Cstring Lock Log Thread Event Host Buffer Scan Stream.
From S2P Require Import Eventpoll Eventloop Sockaddr Socket Listener Connector Util Signals.

(** The standard output. *)
Class Stdout (E : Type) := { get_stdout : E → list byte; put_stdout : list byte → E → E }.

Definition crlf : list byte := [x0d; x0a].

(** The functions that the program hands to the library. *)
Definition ecprocessor_id : Z := 1.
Definition acceptor_id : Z := 2.
Definition connected_id : Z := 3.
Definition term_id : Z := 4.

(** The string that starts at [off]. *)
Definition c_string (m : block) (off : Z) : outcome (list byte) :=
  n ← strlen (drop (Z.to_nat off) m); defined (slice off n m).

Section echo.
Context {E : Type} `{!Malloc E, !Errno E, !Events E, !Logger E, !IoOps E, !FdOps E, !EpollOps E,
  !SockOps E, !Threads E, !Loop E, !Sockets E, !Listeners E, !Connectors E, !Clock E, !Stdout E, !Inet}.

(** [vsnprintf] cannot count more than an [int] holds. *)
Definition formatted (text : list byte) : option (list byte) := if zlen text <? 2 ^ 31 then Some text else None.

Definition printf (text : list byte) : M E unit := sys (λ e, (tt, put_stdout (get_stdout e ++ text) e)).

(** [sockaddr.string(&a, tmp, 32)] of a variable that has no value yet. *)
Definition name_string (a : sockaddr_t) : outcome (list byte) :=
  buf ← sockaddr_string a (replicate 32 None) 32; c_string buf 0.

(** The names of the two ends, as both callbacks print them. *)
Definition print_names (what : list byte) (s : socket_t) : M E unit :=
  local ← lift (name_string (sockname s));
  peer ← lift (name_string (peername s));
  printf (what ++ str_of " local:" ++ local ++ str_of ", peer:" ++ peer ++ [x0a]).

Definition the_buf (stm : stream_t) : outcome block := match buf (sbuf stm) with Live m => Ret m | _ => UB end.

(** The rest of [ecprocessor] once a record of [len] bytes was found at [pos]:
    its delimiter becomes a null. *)
Definition echo_record (fuel : nat) (sock : positive) (pos len : Z) : M E unit :=
  s ← get_socket sock; i ← the_stream (istm s);
  m ← lift (mem_write (buf (sbuf i)) (pos + u32 (len - 2)) (cells [x00]));
  let i := set_buf (mk_buffer m (size (sbuf i)) (rpos (sbuf i)) (wpos (sbuf i))) i in
  upd_socket sock (set_istm (Some i));;
  now ← timer_now;
  m ← lift (the_buf i);
  text ← lift (c_string m pos);
  printf (dec now ++ str_of " " ++ text ++ [x0a]);;
  s ← get_socket sock; o ← the_stream (ostm s);
  '(_, o) ← stream_printf o (formatted (text ++ crlf));
  upd_socket sock (set_ostm (Some o));;
  '(_, o) ← stream_flush stream_funcs_fd fuel o;
  upd_socket sock (set_ostm (Some o)).

Definition ecprocessor (fuel : nat) (sock : positive) (why ud : Z) : M E unit :=
  ev ← get_event sock;
  printf (str_of "ecprocessor, fd:" ++ dec (ev_fd ev) ++ str_of ", why:" ++ dec why ++ [x0a]);;
  if negb (Z.land why (Z.lor EVMASK_ERROR EVMASK_TIME) =? 0) then
    printf (str_of "disconnecting {}" ++ [x0a]);;
    s ← get_socket sock;
    _ ← socket_enable sock 0;
    _ ← socket_shutdown sock SOCK_SHUT_RDWR;
    socket_free sock;;
    if s_loop s then eventloop_exit else ub
  else
    s ← get_socket sock;
    print_names (str_of "ecprocessor") s;;
    i ← the_stream (istm s);
    printf (str_of "fd:" ++ dec (ev_fd ev) ++ str_of " why :" ++ dec why ++ str_of ", " ++
            dec (buffer_avail (stream_buffer i)) ++ str_of ", space: " ++ dec (buffer_space (stream_buffer i)) ++ [x0a]);;
    '(r, i) ← lift (stream_yield i crlf);
    upd_socket sock (set_istm (Some i));;
    match r with
    | Some (pos, len) =>
        if 0 <? len then echo_record fuel sock pos len else printf (str_of "not find record" ++ [x0a])
    | None => printf (str_of "not find record" ++ [x0a])
    end.

Definition acceptor (lstn sock : positive) : M E unit :=
  upd_socket sock (λ s, mk_socket (s_loop s) (istm s) (ostm s) (timeout s) (Some ecprocessor_id)
                          (s_enabled s) (sockname s) (peername s));;
  printf (str_of "accepted {}" ++ [x0a]);;
  l ← listener_loop lstn;
  upd_socket sock (λ s, mk_socket l (istm s) (ostm s) (timeout s) (s_cb s) (s_enabled s) (sockname s) (peername s));;
  r ← socket_enable sock 1;
  if negb (r =? 0) then
    e ← errno; printf (str_of "socket enable: " ++ strerror (E := E) e ++ [x0a])
  else mret tt.

(** It connects again and again, as long as [connect] succeeds at once. *)
Fixpoint connected (fuel : nat) (conct : positive) (err : Z) (sock : sock_arg) : M E unit :=
  match fuel with
  | O => hang
  | S fuel =>
      printf (str_of "connected status: " ++ dec err ++ str_of ", " ++ strerror (E := E) err ++ [x0a]);;
      if negb (err =? 0) then printf (str_of "connected " ++ strerror (E := E) err ++ [x0a])
      else
        match sock with
        | Sock sock =>
            s ← get_socket sock;
            print_names (str_of "connected") s;;
            ev ← get_event sock;
            printf (str_of "connected :" ++ dec (ev_fd ev) ++ [x0a]);;
            l ← connector_loop conct;
            upd_socket sock (λ s, mk_socket l (istm s) (ostm s) (timeout s) (Some ecprocessor_id)
                                    (s_enabled s) (sockname s) (peername s));;
            _ ← socket_enable sock 1;
            s ← get_socket sock; o ← the_stream (ostm s);
            '(_, o) ← stream_printf o (formatted (str_of "hello:" ++ dec (ev_fd ev) ++ crlf));
            upd_socket sock (set_ostm (Some o));;
            '(_, o) ← stream_flush stream_funcs_fd fuel o;
            upd_socket sock (set_ostm (Some o));;
            connector_connect (λ cb conct err sock,
              if cb =? connected_id then connected fuel conct err sock else ub) conct
        | _ => ub
        end
  end.

(** ** The callbacks, through the pointers that the objects keep *)

Definition sock_call (fuel : nat) (cb : Z) (sock : positive) (why ud : Z) : M E unit :=
  if cb =? ecprocessor_id then ecprocessor fuel sock why ud else ub.

Definition accept_call (acc : Z) (lstn sock : positive) : M E unit :=
  if acc =? acceptor_id then acceptor lstn sock else ub.

Definition conct_call (fuel : nat) (cb : Z) (conct : positive) (err : Z) (sock : sock_arg) : M E unit :=
  if cb =? connected_id then connected fuel conct err sock else ub.

Definition echo_call (fuel : nat) (cb : event_pt) (ev : positive) : M E unit :=
  match cb with
  | wake_cb => wake_cb_run ev
  | _sock_dispatch => _sock_dispatch_run (sock_call fuel) fuel ev
  | _accept_dispatch => _accept_dispatch_run accept_call ev
  | _connector_dispatch => _connector_dispatch_run (conct_call fuel) ev
  | user_cb _ => ub
  end.

(** ** [main]

    From [thread.init] on. *)
Definition serve (fuel : nat) (loop : Z) (addr : sockaddr_t) : M E Z :=
  thread_init;;
  eventloop_init loop;;
  text ← lift (name_string addr);
  printf (str_of "will listen on " ++ text ++ [x0a]);;
  lstn ← listener_new (str_of "echo") (Some acceptor_id);
  r ← listener_bind lstn addr;
  (if negb (r =? 0) then e ← errno; printf (str_of "err :" ++ dec e ++ [x0a]) else mret tt);;
  _ ← listener_enable lstn 1;
  conct ← connector_new (str_of "conct") (Some connected_id);
  match conct with
  | None => ub
  | Some conct =>
      connector_bind conct addr;;
      connector_connect (conct_call fuel) conct;;
      eventloop_loop (echo_call fuel) fuel fuel;;
      listener_free lstn;;
      connector_free conct;;
      eventloop_uninit;;
      thread_uninit;;
      mret 0
  end.
End echo.

Definition EX_USAGE : Z := 64.

(** The lines of the logo, each up to its tabs, and how many these are. *)
Definition ascii_logo : list byte :=
  concat ((λ '(t, n), x09 :: str_of t ++ replicate n x09 ++ [x0a]) <$>
    [("||   //", 8); ("||  //", 8); ("|| //", 8); ("||//", 8);
     ("||\\", 8); ("|| \\", 8); ("||  \\", 7); ("||   \\", 7)]%nat%string).

(** The options of the program: the address to listen on. *)
Record options := mk_options { use_v4 : bool; addrstr : option (list byte); port : Z }.
Definition default_options : options := mk_options false None 8800.

Section main.
Context {E : Type} `{!Malloc E, !Errno E, !Events E, !Logger E, !IoOps E, !FdOps E, !EpollOps E,
  !SockOps E, !Threads E, !Loop E, !Sockets E, !Listeners E, !Connectors E, !Clock E, !Stdout E, !Inet,
  !Resolver E, !Files E, !Rlimit E, !TempSeed E, !Signals E}.
Definition logo : M E unit := printf ascii_logo.

Definition usage_text : list byte :=
  str_of "Invalid parameters" ++ [x0a] ++
  str_of " -4          - interpret address as an IPv4 address" ++ [x0a] ++
  str_of " -l ADDRESS  - which address to listen on" ++ [x0a] ++
  str_of " -p PORTNO   - which port to listen on" ++ [x0a] ++
  str_of " -s          - enable SSL" ++ [x0a].

(** The options that [getopt] finds one after the other, with their arguments;
    [None]: the program exits. *)
Fixpoint parse_options (opts : list (byte * list byte)) (o : options) : M E (option options) :=
  match opts with
  | [] => mret (Some o)
  | (c, optarg) :: opts =>
      if decide (c = x34) then parse_options opts (mk_options true (addrstr o) (port o))
      else if decide (c = x73) then parse_options opts o
      else if decide (c = x6c) then parse_options opts (mk_options (use_v4 o) (Some optarg) (port o))
      else if decide (c = x70) then
        v ← lift (strtol (cells (optarg ++ [x00])));
        parse_options opts (mk_options (use_v4 o) (addrstr o) (i32 v mod 2 ^ 16))
      else log_debug usage_text;; mret None
  end.

Definition _term (sig ud : Z) : M E Z := printf (str_of "term sig:" ++ dec sig ++ [x0a]);; mret 0.

(** The result is the exit status.  Before it serves, the program stores
    through a null pointer. *)
Definition main (fuel : nat) (loop : Z) (argv0 : list byte) (opts : list (byte * list byte)) : M E Z :=
  _ ← log_setlevel LOG_DEBUG;
  o ← parse_options opts default_options;
  match o with
  | None => mret EX_USAGE
  | Some o =>
      '(r, addr) ← (if use_v4 o then mret (sockaddr_set_v4 (addrstr o) (port o))
                    else sockaddr_set_v6 (addrstr o) (port o));
      if negb (r =? 0) then
        printf (str_of "Invalid address [" ++ default (str_of "*") (addrstr o) ++ str_of "]:" ++ dec (port o) ++ [x0a]);;
        mret EX_USAGE
      else
        logo;;
        _ ← tempfd (str_of "abc_XXX.ab") 3 0;
        handle_crash 2;;
        handle_term (Some term_id) 0;;
        r ← pid_check argv0; printf (dec r ++ [x0a]);;
        r ← pid_write argv0; printf (dec r ++ [x0a]);;
        r ← fd_limit fuel 1026; printf (dec r ++ [x0a]);;
        (ub : M E unit);;
        assertion true [] [] [] [] [];;
        serve fuel loop addr
  end.
End main.

(** * Specification

    One report of a readable descriptor: the bytes received join those that
    wait, and the first record among them, if any, is sent back, up to its
    first null. *)
Definition reply (hay : list byte) : list byte * list byte :=
  match memmem hay crlf with
  | Some k => (drop (k + 2) hay, cstr (take k hay) ++ crlf)
  | None => (hay, [])
  end.

(** What waits, and what was sent back, and what a report makes of it. *)
Definition echo_step (st : list byte * list byte) (d : list byte) : list byte * list byte :=
  let '(rest, out) := reply (fst st ++ d) in (rest, snd st ++ out).

(** * Lemmas *)

Lemma c_string_run pos n (m : block) (l : list byte) :
  0 ≤ pos → zlen l = n → pos + n < zlen m → slice pos n m = cells l → slice (pos + n) 1 m = [Some x00] →
  c_string m pos = Ret (cstr l).
Proof.
  intros Hpos Hn Hlen Hl H0. unfold c_string.
  assert (drop (Z.to_nat pos) m = cells l ++ Some x00 :: drop (Z.to_nat pos + length l + 1) m) as Hd.
  { rewrite <- (take_drop (length l) (drop (Z.to_nat pos) m)). f_equal.
    - rewrite <- Hl. unfold slice. by rewrite <- Hn, Nat2Z.id.
    - rewrite drop_drop. rewrite <- (take_drop 1 (drop (Z.to_nat pos + length l) m)), drop_drop.
      unfold slice in H0. replace (Z.to_nat (pos + n)) with (Z.to_nat pos + length l)%nat in H0 by lia.
      change (Z.to_nat 1) with 1%nat in H0. by rewrite H0. }
  assert (∀ l m, ∃ k, (k ≤ length l)%nat ∧ strlen (cells l ++ Some x00 :: m) = Ret (Z.of_nat k) ∧ cstr l = take k l) as Hstr.
  { clear. intros l m. induction l as [|b l (k & Hk & IH & Hc)]; [by exists 0%nat|]. cbn.
    destruct (decide (b = x00)); [exists 0%nat; split; [lia|done]|].
    exists (S k). rewrite IH. cbn. split; [lia|]. split; [do 2 f_equal; lia|by rewrite Hc]. }
  destruct (Hstr l (drop (Z.to_nat pos + length l + 1) m)) as (k & Hk & Hs & ->).
  rewrite Hd, Hs. cbn [mbind outcome_bind]. rewrite <- (slice_take pos n) by lia.
  rewrite Hl, Nat2Z.id, <- fmap_take. apply defined_cells.
Qed.

(** A record is taken from a buffer, its delimiter gives way to a null, and it
    is read where it was. *)
Lemma record_run b hay :
  wf_buffer b → contents b = cells hay →
  match memmem hay crlf with
  | Some k => ∃ b' m, buffer_yield b crlf = Ret (Some (rpos b, Z.of_nat k + 2), b') ∧
      mem_write (buf b') (rpos b + u32 (Z.of_nat k + 2 - 2)) (cells [x00]) = Ret (Live m) ∧
      c_string m (rpos b) = Ret (cstr (take k hay)) ∧
      let b1 := mk_buffer (Live m) (size b') (rpos b') (wpos b') in
      wf_buffer b1 ∧ contents b1 = cells (drop (k + 2) hay)
  | None => buffer_yield b crlf = Ret (None, b)
  end.
Proof.
  intros H Hc. pose proof (yield_run b crlf hay H Hc) as Hy.
  destruct (memmem hay crlf) as [k|] eqn:Hk; [|done]. destruct Hy as (b' & Hy & Hwf & Hc' & Hbf & Hsize & Hr).
  pose proof (memmem_fits _ _ _ Hk) as Hfit. change (length crlf) with 2%nat in *. change (zlen crlf) with 2 in Hy.
  pose proof (avail_contents b H) as Ha. rewrite Hc, length_fmap in Ha. unfold buffer_avail in Ha.
  revert Hwf Hc'. open_wf. intros Hwf Hc'. unwrap. unfold contents in Hc. cbn [buf rpos wpos] in Hc.
  replace (Z.of_nat k + 2 - 2) with (Z.of_nat k) by lia. unwrap.
  exists b', (splice (rp + Z.of_nat k) (cells [x00]) m). split; [done|].
  split; [rewrite Hbf; apply mem_write_ok; cbn [length fmap list_fmap]; lia|]. split.
  - apply (c_string_run rp (Z.of_nat k)).
    + lia.
    + rewrite length_take. lia.
    + rewrite splice_length; cbn [length fmap list_fmap]; lia.
    + rewrite slice_splice_before by lia. rewrite fmap_take, <- Hc.
      rewrite <- (slice_take rp (wp - rp) (Z.of_nat k)) by lia. by rewrite Nat2Z.id.
    + exact (slice_splice_same (rp + Z.of_nat k) [Some x00] m ltac:(lia) ltac:(cbn [length]; lia)).
  - destruct b' as [p' sz' rp' wp']. cbn [buf size rpos wpos] in *. subst p' sz'.
    destruct Hwf as (m0 & [= <-] & Hl0 & Hp0 & Hs0 & Hz0). cbn [size rpos wpos] in *.
    assert (length (splice (rp + Z.of_nat k) (cells [x00]) m) = length m) as Hlm
      by (apply splice_length; cbn [length fmap list_fmap]; lia).
    split; [eexists; split; [reflexivity|]; cbn [size rpos wpos] in *; lia|].
    rewrite <- Hc'. unfold contents. cbn [buf rpos wpos].
    destruct Hr as [Hr|Hr]; [by rewrite Hr, Z.sub_diag|].
    apply slice_splice_after; cbn [length fmap list_fmap]; lia.
Qed.

(** The program never gets to serve: it exits because of its arguments, or its
    execution has no meaning. *)
Lemma main_never_serves {E} `{!Malloc E, !Errno E, !Events E, !Logger E, !IoOps E, !FdOps E, !EpollOps E,
    !SockOps E, !Threads E, !Loop E, !Sockets E, !Listeners E, !Connectors E, !Clock E, !Stdout E, !Inet,
    !Resolver E, !Files E, !Rlimit E, !TempSeed E, !Signals E} fuel loop argv0 opts r (e e' : E) :
  main fuel loop argv0 opts e = Ret (r, e') → r = EX_USAGE.
Proof.
  assert (∀ {A B} (m : M E A) (f : A → M E B) s x, (∀ y s y', f y s ≠ Ret y') → (m ≫= f) s ≠ Ret x) as Hub.
  { intros A B m f s x Hf. rewrite bind_run. destruct (m s) as [[y s']| |]; [apply Hf|done..]. }
  unfold main, log_setlevel. autorewrite with run. generalize (put_log_level LOG_DEBUG e). intros e0.
  destruct (parse_options opts default_options e0) as [[[o|] e1]| |]; [|by intros [= <- _]|done..].
  rewrite bind_run. match goal with |- match ?m e1 with _ => _ end = _ → _ => destruct (m e1) as [[[q addr] e2]| |] end;
    [|done..].
  destruct (negb (q =? 0)).
  - autorewrite with run. unfold printf. autorewrite with run. by intros [= <- _].
  - intros Hend. exfalso. revert Hend. repeat first [done | apply Hub; intros ? ? ?].
Qed.

(** ** What the program leaves alone *)

(** [view] is a part of the environment that the loop and the threads belong to,
    and [obs] one that the descriptor belongs to.  The stores and both parts are
    apart from the standard output, the clock and the wait; [view], also from the
    stores and from reads and writes. *)
Definition world {E X V} `{!Events E, !Sockets E} (obs : E → X) (view : E → V) (e : E) :=
  (stores e, obs e, view e).

Definition both {E X Y} (f : E → X) (g : E → Y) (e : E) : X * Y := (f e, g e).

Class EchoLaws (E : Type) `{!Malloc E, !Errno E, !Events E, !FdOps E, !EpollOps E, !Sockets E,
    !Clock E, !Stdout E} (fd : Z) {X : Type} (obs : E → X) {V : Type} (view : E → V) := {
  world_stdout t e : world obs view (put_stdout t e) = world obs view e;
  world_clock e : world obs view (snd (clock_now e)) = world obs view e;
  world_wait epfd max t e : world obs view (snd (sys_epoll_wait epfd max t e)) = world obs view e;
  view_stores :: StoresFrame E view;
  view_readv l e : view (snd (sys_readv fd l e)) = view e;
  view_writev l e : view (snd (sys_writev fd l e)) = view e;
}.

(** [held] is what the environment knows of the bytes that the descriptor
    refused last: after a [writev] that took none, all that it was given. *)
Class HeldLaws (E : Type) `{!Malloc E, !Errno E, !Events E, !FdOps E, !Sockets E} (fd : Z)
    {T : Type} (held : E → T) (mark : block → T) := {
  held_stores :: StoresFrame E held;
  held_readv l e : held (snd (sys_readv fd l e)) = held e;
  held_writev iov e n e' : sys_writev fd iov e = (n, e') → n ≤ 0 → held e' = mark (concat iov);
}.

(** An output stream is flushed when it is empty, or its descriptor refused all
    that is in it and nothing after that. *)
Definition flushed {E T} (held : E → T) (mark : block → T) (o : stream_t) (e : E) : Prop :=
  contents (sbuf o) = [] ∨ held e = mark (contents (sbuf o)).

Definition settled {E T} `{!Sockets E} (held : E → T) (mark : block → T) (a : positive) (e : E) : Prop :=
  ∃ s o, sockets e !! a = Some s ∧ ostm s = Some o ∧ flushed held mark o e.

#[export] Instance pair_frame {E} `{!Malloc E, !Errno E, !Events E, !Sockets E} {X Y} (f : E → X) (g : E → Y)
  `{!StoresFrame E f, !StoresFrame E g} : StoresFrame E (both f g).
Proof.
  split; intros; unfold both; f_equal; [apply (sf_malloc (view := f))|apply (sf_malloc (view := g))
    |apply (sf_errno (view := f))|apply (sf_errno (view := g))|apply (sf_events (view := f))
    |apply (sf_events (view := g))|apply (sf_sockets (view := f))|apply (sf_sockets (view := g))].
Qed.

Section echo_lemmas.
Context {E : Type} `{!Malloc E, !Errno E, !IoOps E, !FdOps E, !SockOps E, !EpollOps E,
  !Events E, !EventsLaws E, !Sockets E, !SocketLaws E, !Logger E, !Threads E, !Loop E,
  !Listeners E, !Connectors E, !Clock E, !Stdout E, !Inet}.
Context (fd : Z) (sent : E → block) {T : Type} (held : E → T) (mark : block → T) {V : Type} (view : E → V).
Context `{!FdLaws E fd sent, !SentFrame E sent, !SentStores E sent, !EchoLaws E fd (both sent held) view}.
Context `{!HeldLaws E fd held mark}.

#[export] Instance sent_stores_frame : StoresFrame E sent.
Proof. split; intros; [apply sent_malloc|apply sent_errno|apply sent_put_events|apply sent_put_sockets]. Qed.

Local Abbreviation world := (world (both sent held) view).

Lemma printf_run t (e : E) : ∃ e', printf t e = Ret (tt, e') ∧ world e' = world e.
Proof. eexists. split; [done|]. apply world_stdout. Qed.

Lemma timer_run (e : E) : ∃ now e', timer_now e = Ret (now, e') ∧ world e' = world e.
Proof.
  unfold timer_now. autorewrite with run. pose proof (world_clock e) as Hw.
  destruct (clock_now e) as [[x y] e1]. autorewrite with run. eauto.
Qed.

Lemma print_names_run what s l p (e : E) :
  name_string (sockname s) = Ret l → name_string (peername s) = Ret p →
  ∃ e', print_names what s e = Ret (tt, e') ∧ world e' = world e.
Proof.
  intros Hl Hp. unfold print_names. rewrite Hl, Hp. autorewrite with run. apply printf_run.
Qed.

Lemma upd_sock_world a f s (e : E) :
  sockets e !! a = Some s →
  ∃ e', upd_socket a f e = Ret (tt, e') ∧ world e' = (events e, <[a := f s]> (sockets e), both sent held e, view e).
Proof.
  intros Hs. rewrite (upd_socket_eq _ _ s) by done. eexists. split; [done|].
  unfold Echo.world, stores. by rewrite events_put_sockets, sockets_put, (sf_sockets (view := both sent held)), (sf_sockets (view := view)).
Qed.

(** Printing to a stream that has the room for the text allocates nothing. *)
Lemma stream_print_run o text (e : E) :
  wf_buffer (sbuf o) → 0 < zlen text < buffer_space (sbuf o) → zlen text < 2 ^ 31 →
  ∃ b, stream_printf o (formatted text) e = Ret ((zlen text, set_buf b o), e) ∧
    wf_buffer b ∧ contents b = contents (sbuf o) ++ cells text.
Proof.
  intros Hwf Hn Hs. rewrite space_val in Hn by done. unfold stream_printf, stream_vprintf, formatted.
  destruct (Z.ltb_spec (zlen text) (2 ^ 31)); [|lia].
  destruct (vprintf_here (sbuf o) text e Hwf) as (b & Hrun & Hwfb & Hc); [lia|]. unfold buffer_printf in Hrun.
  autorewrite with run. rewrite Hrun. autorewrite with run. exists b. split; [done|]. split; [done|].
  rewrite Hc. unfold printed. by destruct (Z.ltb_spec (zlen text) (size (sbuf o) - wpos (sbuf o))); [|lia].
Qed.

Lemma held_errnos xs e : held (foldr put_errno e xs) = held e.
Proof. induction xs as [|x xs IH]; [done|]. cbn. by rewrite (sf_errno (view := held)). Qed.

(** A flush in its world. *)
Lemma flush_world fuel o (e : E) :
  io o = fd → wf_buffer (sbuf o) → slock o = 0 →
  zlen (contents (sbuf o)) < 2 ^ 31 → (length (contents (sbuf o)) ≤ fuel)%nat →
  ∃ r o' e', stream_flush stream_funcs_fd fuel o e = Ret ((r, o'), e') ∧
    slock o' = 0 ∧ io o' = fd ∧ wf_buffer (sbuf o') ∧
    sent e' ++ contents (sbuf o') = sent e ++ contents (sbuf o) ∧ flushed held mark o' e' ∧
    stores e' = stores e ∧ view e' = view e.
Proof.
  intros Hio Hwf Hl Hn Hf.
  destruct (flush_run stream_funcs_fd fd sent fuel o e Hio Hwf Hl Hn Hf)
    as (r & o' & e' & k & Hrun & Hl' & Hio' & Hwf' & Hs & Hc & Hcase).
  exists r, o', e'. split; [done|]. split_and!; [done..| | | |].
  - by rewrite Hs, Hc, <- app_assoc, take_drop.
  - destruct Hcase as [[_ ?]|(_ & Hne & Href)]; [by left|right].
    assert (zlen (contents (sbuf o')) < 2 ^ 31) as Hsmall by (rewrite Hc, length_drop; lia).
    destruct (fd_refused fd sent _ _ Hne Hsmall Href) as (iov & e0 & n & e1 & xs & Hd & Hw & Hn0 & ->).
    by rewrite held_errnos, (held_writev (held := held) (mark := mark) iov e0 n e1 Hw Hn0), Hd.
  - apply (flush_view stores stores_errno fd) in Hrun; [done| |done]. intros. unfold stores.
    by rewrite (kf_writev (view := events)), (kf_writev (view := sockets)).
  - apply (flush_view view (sf_errno (view := view)) fd) in Hrun; [done| |done].
    intros. apply view_writev.
Qed.

(** A stream on the descriptor that nobody holds. *)
Definition stream_ok (stm : stream_t) : Prop := io stm = fd ∧ slock stm = 0 ∧ wf_buffer (sbuf stm).

(** The output stream takes the text, and the fuel is enough to send it. *)
Definition room (fuel : nat) (o : stream_t) (text : list byte) : Prop :=
  text = [] ∨ zlen text < buffer_space (sbuf o) ∧ zlen (contents (sbuf o)) + zlen text < 2 ^ 31 ∧
    (length (contents (sbuf o)) + length text ≤ fuel)%nat.

(** The record, from the moment it was taken from the input stream. *)
Lemma echo_record_run fuel a s i o m (e : E) pos k line :
  sockets e !! a = Some s → istm s = Some i → ostm s = Some o → stream_ok o →
  mem_write (buf (sbuf i)) (pos + u32 (k + 2 - 2)) (cells [x00]) = Ret (Live m) →
  c_string m pos = Ret line → room fuel o (line ++ crlf) →
  let i' := set_buf (mk_buffer (Live m) (size (sbuf i)) (rpos (sbuf i)) (wpos (sbuf i))) i in
  ∃ o' e', echo_record fuel a pos (k + 2) e = Ret (tt, e') ∧ events e' = events e ∧
    sockets e' = <[a := set_ostm (Some o') (set_istm (Some i') s)]> (sockets e) ∧ view e' = view e ∧
    stream_ok o' ∧ flushed held mark o' e' ∧
    sent e' ++ contents (sbuf o') = sent e ++ contents (sbuf o) ++ cells (line ++ crlf).
Proof.
  intros Hs Hi Ho (Hio & Hlo & Hwfo) Hm Hline Hroom i'.
  destruct Hroom as [Hnil|(Hsp & Hlen & Hfuel)]; [by destruct line|].
  assert (0 < zlen (line ++ crlf)) as Hpos by (rewrite length_app; cbn; lia).
  unfold echo_record. autorewrite with run. rewrite (get_socket_run _ s) by done. autorewrite with run.
  rewrite Hi. unfold the_stream at 1. autorewrite with run. rewrite Hm. autorewrite with run. fold i'.
  destruct (upd_sock_world a (set_istm (Some i')) s e Hs) as (e1 & -> & W1). injection W1 as W1e W1s W1t W1h W1l.
  autorewrite with run. destruct (timer_run e1) as (now & e2 & -> & W2). injection W2 as W2e W2s W2t W2h W2l.
  autorewrite with run. unfold the_buf at 1. cbn [sbuf set_buf buf i']. autorewrite with run. rewrite Hline.
  autorewrite with run.
  destruct (printf_run (dec now ++ str_of " " ++ line ++ [x0a]) e2) as (e3 & -> & W3).
  injection W3 as W3e W3s W3t W3h W3l. autorewrite with run.
  set (s1 := set_istm (Some i') s) in *.
  assert (sockets e3 !! a = Some s1) as Hs3 by by rewrite W3s, W2s, W1s, lookup_insert_eq.
  rewrite (get_socket_run _ s1) by done. autorewrite with run.
  change (ostm s1) with (ostm s). rewrite Ho. unfold the_stream at 1. autorewrite with run.
  destruct (stream_print_run o (line ++ crlf) e3 Hwfo) as (b & -> & Hwfb & Hcb); [lia|lia|].
  autorewrite with run.
  destruct (upd_sock_world a (set_ostm (Some (set_buf b o))) s1 e3 Hs3) as (e4 & -> & W4).
  injection W4 as W4e W4s W4t W4h W4l. autorewrite with run.
  destruct (flush_world fuel (set_buf b o) e4) as (r & o' & e5 & -> & Hlo' & Hio' & Hwfo' & Hsent & Hflush & Hst & Hlp);
    [done|done|done| | |].
  { cbn [sbuf set_buf]. rewrite Hcb, length_app, length_fmap. lia. }
  { cbn [sbuf set_buf]. rewrite Hcb, length_app, length_fmap. lia. }
  injection Hst as W5e W5s. autorewrite with run.
  destruct (upd_sock_world a (set_ostm (Some o')) (set_ostm (Some (set_buf b o)) s1) e5) as (e6 & -> & W6);
    [by rewrite W5s, W4s, lookup_insert_eq|]. injection W6 as W6e W6s W6t W6h W6l.
  exists o', e6. split; [done|]. split; [congruence|]. split.
  { rewrite W6s, W5s, W4s, W3s, W2s, W1s, !insert_insert_eq. done. }
  split; [congruence|]. split; [done|]. split; [by destruct Hflush as [?|Hflush]; [left|right; rewrite W6h]|].
  rewrite W6t, Hsent. cbn [sbuf set_buf]. by rewrite Hcb, W4t, W3t, W2t, W1t.
Qed.

(** The whole callback, when there is no error. *)
Lemma ecprocessor_run fuel a s ev i o hay why ud l p (e : E) :
  sockets e !! a = Some s → events e !! a = Some ev → istm s = Some i → ostm s = Some o →
  stream_ok i → stream_ok o → contents (sbuf i) = cells hay →
  name_string (sockname s) = Ret l → name_string (peername s) = Ret p →
  Z.land why (Z.lor EVMASK_ERROR EVMASK_TIME) = 0 → room fuel o (snd (reply hay)) → flushed held mark o e →
  ∃ i' o' e', ecprocessor fuel a why ud e = Ret (tt, e') ∧ events e' = events e ∧
    sockets e' = <[a := set_ostm (Some o') (set_istm (Some i') s)]> (sockets e) ∧ view e' = view e ∧
    stream_ok i' ∧ stream_ok o' ∧ contents (sbuf i') = cells (fst (reply hay)) ∧ flushed held mark o' e' ∧
    sent e' ++ contents (sbuf o') = sent e ++ contents (sbuf o) ++ cells (snd (reply hay)).
Proof.
  intros Hs Hev Hi Ho (Hii & Hli & Hwfi) Hok Hc Hl Hp Hwhy Hroom Hflush.
  unfold ecprocessor. autorewrite with run. rewrite (get_event_run _ ev) by done. autorewrite with run.
  destruct (printf_run (str_of "ecprocessor, fd:" ++ dec (ev_fd ev) ++ str_of ", why:" ++ dec why ++ [x0a]) e)
    as (e1 & -> & W1). injection W1 as W1e W1s W1t W1h W1l. rewrite Hwhy. cbn [Z.eqb negb].
  autorewrite with run. rewrite (get_socket_run _ s) by by rewrite W1s. autorewrite with run.
  destruct (print_names_run (str_of "ecprocessor") s l p e1 Hl Hp) as (e2 & -> & W2).
  injection W2 as W2e W2s W2t W2h W2l. autorewrite with run. rewrite Hi. unfold the_stream at 1. autorewrite with run.
  match goal with |- context [printf ?t e2] => destruct (printf_run t e2) as (e3 & -> & W3) end.
  injection W3 as W3e W3s W3t W3h W3l. autorewrite with run. unfold stream_yield.
  assert (sockets e3 !! a = Some s) as Hs3 by congruence.
  pose proof (record_run (sbuf i) hay Hwfi Hc) as Hrec. unfold reply in *.
  destruct (memmem hay crlf) as [k|].
  - destruct Hrec as (b & m & -> & Hm & Hline & Hwfb & Hcb). cbn [mbind outcome_bind]. autorewrite with run.
    destruct (upd_sock_world a (set_istm (Some (set_buf b i))) s e3 Hs3) as (e4 & -> & W4).
    injection W4 as W4e W4s W4t W4h W4l. autorewrite with run.
    destruct (Z.ltb_spec 0 (Z.of_nat k + 2)); [|lia]. cbn [snd] in Hroom.
    destruct (echo_record_run fuel a (set_istm (Some (set_buf b i)) s) (set_buf b i) o m e4 (rpos (sbuf i)) (Z.of_nat k)
      (cstr (take k hay))) as (o' & e' & -> & He' & Hs' & Hlp & Ho' & Hflush' & Hsent); [|done..|].
    { by rewrite W4s, lookup_insert_eq. }
    eexists _, o', e'. split; [done|]. split; [congruence|]. split.
    { rewrite Hs', W4s, W3s, W2s, W1s, insert_insert_eq. done. }
    split; [congruence|]. split; [done|]. split; [done|]. split; [done|]. split; [done|].
    rewrite Hsent. cbn [snd]. congruence.
  - rewrite Hrec. cbn [mbind outcome_bind]. autorewrite with run.
    destruct (upd_sock_world a (set_istm (Some (set_buf (sbuf i) i))) s e3 Hs3) as (e4 & -> & W4).
    injection W4 as W4e W4s W4t W4h W4l. autorewrite with run.
    destruct (printf_run (str_of "not find record" ++ [x0a]) e4) as (e5 & -> & W5).
    injection W5 as W5e W5s W5t W5h W5l.
    exists (set_buf (sbuf i) i), o, e5. split; [done|]. split; [congruence|]. split.
    { rewrite W5s, W4s, W3s, W2s, W1s. f_equal. destruct s. cbn in *. by rewrite Ho. }
    split; [congruence|]. split; [done|]. split; [done|]. split; [done|].
    split; [by destruct Hflush as [?|Hflush]; [left|right; congruence]|]. rewrite app_nil_r. congruence.
Qed.

(** ** A round of the loop *)

(** The socket at [a] is one that the program serves, and this is its state:
    what it received and did not use yet, and all that it printed.  It is on,
    in the loop. *)
Definition serving (a : positive) (st : list byte * list byte) (e : E) : Prop :=
  ∃ s ev i o l p, sockets e !! a = Some s ∧ events e !! a = Some ev ∧
    ev_cb ev = Some _sock_dispatch ∧ s_cb s = Some ecprocessor_id ∧ istm s = Some i ∧ ostm s = Some o ∧
    stream_ok i ∧ stream_ok o ∧ name_string (sockname s) = Ret l ∧ name_string (peername s) = Ret p ∧
    contents (sbuf i) = cells (fst st) ∧ sent e ++ contents (sbuf o) = cells (snd st) ∧
    s_loop s = true ∧ s_enabled s = 1.

(** Both streams of the socket have room for the next bytes. *)
Definition fits (fuel : nat) (a : positive) (st : list byte * list byte) (d : list byte) (e : E) : Prop :=
  ∃ s i o, sockets e !! a = Some s ∧ istm s = Some i ∧ ostm s = Some o ∧
    zlen d ≤ buffer_space (sbuf i) ∧ room fuel o (snd (reply (fst st ++ d))).

(** The loop polls with [p], and no other thread has put an event in its
    queue. *)
Definition polls (p : eventpoll_t) (e : E) : Prop :=
  el_poll (get_loop e) = Some p ∧ pandings (get_loop e) = None ∧ pandings_tail (get_loop e) = None ∧
  panding_lock (get_loop e) = 0.

(** The poll reports that [a] can be read, and then the descriptor delivers
    [d].  What the kernel does depends on its own state only ([kernel]). *)
Definition delivers {K} (kernel : E → K) (p : eventpoll_t) (a : positive) (d : list byte) (e : E) : Prop :=
  ∃ e1, sys_epoll_wait (pollfd p) MAX_POLL_EVENT (-1) e = (1, [(EPOLLIN, a)], e1) ∧
    ∀ lens e2, kernel e2 = kernel e1 → zlen d ≤ total lens → ∃ e3, sys_readv fd lens e2 = (zlen d, d, e3).

(** The dispatch of a readable event, from the loop to the end of the
    callback. *)
Lemma dispatch_run {K} (kernel : E → K) `{!StoresFrame E kernel} fuel p a st d ev ud (e : E) :
  serving a st e → events e !! a = Some ev → ev_mask ev = EVMASK_READ → fits fuel a st d e → 0 < zlen d < 2 ^ 31 →
  (∀ lens e2, kernel e2 = kernel e → zlen d ≤ total lens → ∃ e3, sys_readv fd lens e2 = (zlen d, d, e3)) →
  settled held mark a e →
  ∃ e', _dispatch (echo_call fuel) p a ud e = Ret (tt, e') ∧ serving a (echo_step st d) e' ∧ settled held mark a e' ∧
    view e' = view e ∧
    (∀ b, b ≠ a → events e' !! b = events e !! b ∧ sockets e' !! b = sockets e !! b).
Proof.
  intros (s & ev0 & i & o & l & q & Hs & Hev0 & Hcb & Hscb & Hi & Ho & Hiok & Hook & Hl & Hq & Hc & Hsent & Hon) Hev Hmask
    (s0 & i0 & o0 & Hs0 & Hi0 & Ho0 & Hfit & Hroom) Hd Hread (s1 & o1 & Hs1 & Ho1 & Hflush).
  assert (s1 = s) as -> by congruence. assert (o1 = o) as -> by congruence.
  assert (ev0 = ev) as -> by congruence. assert (s0 = s) as -> by congruence.
  assert (i0 = i) as -> by congruence. assert (o0 = o) as -> by congruence.
  unfold _dispatch. autorewrite with run. rewrite (get_event_run _ ev) by done. autorewrite with run.
  rewrite Hcb. cbn [run_cb echo_call].
  set (e0 := put_sockets (<[a := set_istm (Some (stream_set_mask i 0)) s]> (sockets e)) e).
  set (lens := [buffer_space (sbuf i); STM_READALL_LEN]).
  assert (zlen d ≤ total lens) as Hlens by (cbn; unfold STM_READALL_LEN; lia).
  destruct (Hread lens e0) as (e1 & He1); [apply (sf_sockets (view := kernel))|done|].
  destruct Hiok as (Hii & Hli & Hwfi).
  destruct (receives_run fd sent (both (both sent held) view) (sock_call fuel) fuel a s i ecprocessor_id ev
      (zlen d) d e e1) as (i' & e2 & -> & He2 & Hs2 & Hli' & Hii' & Hwfi' & Hc' & _ & Hv2);
    [done|done|done|done|done|done|done|done|exact He1| |done|lia|].
  { pose proof (readv_law lens e0 (zlen d) d e1 ltac:(lia) He1) as [H1 _].
    pose proof (view_readv lens e0) as H2. pose proof (held_readv (held := held) lens e0) as H3. unfold both.
    rewrite He1 in H2, H3. cbn [snd] in H2, H3. by rewrite H1, H2, H3. }
  injection Hv2 as Hsent2 Hheld2 Hloop2. destruct (Z.ltb_spec 0 (zlen d)) as [_|]; [|lia]. cbn [orb] in *.
  unfold sock_call. cbn [Z.eqb ecprocessor_id Pos.eqb].
  destruct (ecprocessor_run fuel a (set_istm (Some i') s) (ev_set_mask EVMASK_READ ev) i' o (fst st ++ d)
      EVMASK_READ (ev_ud ev) l q e2) as (i2 & o2 & e3 & -> & He3 & Hs3 & Hlp3 & Hi2 & Ho2 & Hc2 & Hflush3 & Hsent3);
    [by rewrite Hs2, lookup_insert_eq|by rewrite He2, lookup_insert_eq|done|done|done|done| |done|done|done|done| |].
  { by rewrite Hc', Hc, fmap_app. }
  { destruct Hflush as [?|Hflush]; [by left|right; congruence]. }
  exists e3. split; [done|]. split; [|split; [|split; [congruence|]]].
  2:{ eexists _, o2. rewrite Hs3, lookup_insert_eq. split; [done|]. split; done. }
  - eexists _, _, i2, o2, l, q. rewrite Hs3, He3, lookup_insert_eq, He2, lookup_insert_eq. split; [done|].
    split; [done|]. split; [done|]. split; [done|]. split; [done|]. split; [done|]. split; [done|]. split; [done|].
    split; [done|]. split; [done|]. unfold echo_step. destruct (reply (fst st ++ d)) as [rest out].
    cbn [fst snd] in *. split; [done|]. split; [|done]. by rewrite Hsent3, Hsent2, app_assoc, Hsent, fmap_app.
  - intros b Hb. rewrite He3, Hs3, He2, Hs2, !lookup_insert_ne by done. done.
Qed.

(** A socket is served as long as nobody touches it. *)
Lemma serving_keeps a st (e e' : E) :
  serving a st e → events e' !! a = events e !! a → sockets e' !! a = sockets e !! a → sent e' = sent e →
  serving a st e'.
Proof.
  intros (s & ev & i & o & l & q & Hserv) He Hs Ht. exists s, ev, i, o, l, q. by rewrite He, Hs, Ht.
Qed.

Lemma settled_keeps a (e e' : E) :
  settled held mark a e → sockets e' !! a = sockets e !! a → held e' = held e → settled held mark a e'.
Proof. intros (s & o & Hs & Ho & Hf) He Hh. exists s, o. rewrite He. split; [done|]. split; [done|].
  destruct Hf as [?|Hf]; [by left|right; by rewrite Hh]. Qed.

(** One report of the poll, that [a] can be read. *)
Lemma entry_run {K} (kernel : E → K) `{!StoresFrame E kernel} fuel p a st d (e : E) :
  serving a st e → settled held mark a e → fits fuel a st d e → 0 < zlen d < 2 ^ 31 →
  (∀ lens e2, kernel e2 = kernel e → zlen d ≤ total lens → ∃ e3, sys_readv fd lens e2 = (zlen d, d, e3)) →
  ∃ e', poll_loop (_dispatch (echo_call fuel)) p [(EPOLLIN, a)] e = Ret (tt, e') ∧
    serving a (echo_step st d) e' ∧ settled held mark a e' ∧ view e' = view e ∧
    (∀ b, b ≠ a → events e' !! b = events e !! b ∧ sockets e' !! b = sockets e !! b).
Proof.
  intros Hserv Hset Hfits Hd Hread. pose proof Hserv as (s & ev & i & o & l & q & Hs & Hev & Hcb & Hrest).
  cbn [poll_loop]. autorewrite with run. rewrite (upd_event_run _ _ ev) by done. autorewrite with run.
  rewrite (upd_event_run _ _ (ev_set_last_mask (i32 DEFAULT_POLL_MASK) ev)) by (by apply upd_get).
  autorewrite with run events. rewrite insert_insert_eq. change (mask_of EPOLLIN) with EVMASK_READ.
  set (ev1 := ev_set_mask EVMASK_READ _). set (e2 := put_events _ e).
  assert (events e2 = <[a := ev1]> (events e)) as He2 by apply events_put.
  assert (world e2 = (<[a := ev1]> (events e), sockets e, both sent held e, view e)) as W2.
  { unfold Echo.world, stores. rewrite He2. unfold e2.
    by rewrite sockets_put_events, (sf_events (view := both sent held)), (sf_events (view := view)). }
  injection W2 as _ W2s W2t W2h W2l.
  destruct (dispatch_run kernel fuel p a st d ev1 (poll_ud p) e2) as (e3 & -> & Hserv3 & Hset3 & Hv3 & Hother);
    [|by rewrite He2, lookup_insert_eq|done| |done| |by apply (settled_keeps a e); rewrite ?W2s|].
  { exists s, ev1, i, o, l, q. rewrite W2s, He2, lookup_insert_eq, W2t. split; [done|]. split; [done|]. done. }
  { destruct Hfits as (s0 & i0 & o0 & Hs0 & Hf). exists s0, i0, o0. by rewrite W2s. }
  { intros lens x Hx. apply Hread. rewrite Hx. apply (sf_events (view := kernel)). }
  autorewrite with run. exists e3. split; [done|]. split; [done|]. split; [done|]. split; [congruence|]. intros b Hb.
  destruct (Hother b Hb) as [-> ->]. by rewrite He2, W2s, lookup_insert_ne.
Qed.

Context `{!LoopLaws E} (view_loop : ∀ e e', view e' = view e → get_loop e' = get_loop e).

(** A round around the reports of the poll, when the queue stays empty. *)
Lemma loop_round_run fuel p reports (e e1 e2 : E) :
  polls p e → sys_epoll_wait (pollfd p) MAX_POLL_EVENT (-1) e = (zlen reports, reports, e1) →
  reports ≠ [] → poll_loop (_dispatch (echo_call fuel)) p reports e1 = Ret (tt, e2) → polls p e2 →
  (0 < fuel)%nat → loop_round (echo_call fuel) fuel e = Ret (tt, e2).
Proof.
  intros (Hp & _) Hwait Hne Hrun (_ & Hh & Ht & Hlock) Hfuel.
  unfold loop_round, the_poll, the_loop. autorewrite with run. rewrite Hp. autorewrite with run.
  unfold eventpoll_poll. autorewrite with run. rewrite Hwait, Nat2Z.id, firstn_all. autorewrite with run. rewrite Hrun.
  autorewrite with run. destruct (Z.eqb_spec (zlen reports) 0); [by destruct reports|].
  destruct (Z.ltb_spec (zlen reports) 0); [lia|]. autorewrite with run. by apply panding_idle.
Qed.

Lemma round_run {K} (kernel : E → K) `{!StoresFrame E kernel} fuel p a st d (e : E) :
  serving a st e → settled held mark a e → polls p e → delivers kernel p a d e → fits fuel a st d e → 0 < zlen d < 2 ^ 31 →
  (0 < fuel)%nat →
  ∃ e', loop_round (echo_call fuel) fuel e = Ret (tt, e') ∧ serving a (echo_step st d) e' ∧ settled held mark a e' ∧
    view e' = view e ∧
    (∀ b, b ≠ a → events e' !! b = events e !! b ∧ sockets e' !! b = sockets e !! b).
Proof.
  intros Hserv Hset Hp (e1 & Hwait & Hread) Hfits Hd Hfuel.
  pose proof (world_wait (obs := both sent held) (view := view) (pollfd p) MAX_POLL_EVENT (-1) e) as Hw.
  rewrite Hwait in Hw. cbn [snd] in Hw. injection Hw as We Ws Wt Wh Wl.
  destruct (entry_run kernel fuel p a st d e1) as (e2 & Hrun & Hserv2 & Hset2 & Hv2 & Hother);
    [by apply (serving_keeps a st e); rewrite ?We, ?Ws|by apply (settled_keeps a e); rewrite ?Ws| |done|done|].
  { destruct Hfits as (s0 & i0 & o0 & Hs0 & Hf). exists s0, i0, o0. by rewrite Ws. }
  assert (view e2 = view e) as Hv by congruence. exists e2. split.
  { apply (loop_round_run fuel p [(EPOLLIN, a)] e e1 e2); [done..| |done]. unfold polls. by rewrite (view_loop _ _ Hv). }
  split; [done|]. split; [done|]. split; [done|]. intros b Hb. destruct (Hother b Hb) as [-> ->]. by rewrite We, Ws.
Qed.
End echo_lemmas.

(** ** The end of a connection *)

(** What the end of a connection needs to know of the loop, the threads and
    the registrations with epoll. *)
Definition ground {E} `{!Threads E, !Loop E} (interest : E → gmap Z (Z * positive)) (e : E) := (core e, interest e).

Class CloseLaws (E : Type) `{!Malloc E, !Errno E, !Events E, !FdOps E, !SockOps E, !EpollOps E, !Threads E, !Loop E,
    !Sockets E, !Stdout E} (interest : E → gmap Z (Z * positive)) := {
  ground_stores :: StoresFrame E (ground interest);
  ground_stdout t e : ground interest (put_stdout t e) = ground interest e;
  ground_wait epfd max t e : ground interest (snd (sys_epoll_wait epfd max t e)) = ground interest e;
  ground_readv fd l e : ground interest (snd (sys_readv fd l e)) = ground interest e;
  sockets_ctl epfd op fd evt e : sockets (snd (sys_epoll_ctl epfd op fd evt e)) = sockets e;
  ground_ctl epfd op fd evt e : core (snd (sys_epoll_ctl epfd op fd evt e)) = core e;
  stores_shutdown fd how e : stores (snd (sys_shutdown fd how e)) = stores e;
  ground_shutdown fd how e : ground interest (snd (sys_shutdown fd how e)) = ground interest e;
  sockets_put_loop l e : sockets (put_loop l e) = sockets e;
  interest_put_loop l e : interest (put_loop l e) = interest e;
}.

Section close_lemmas.
Context {E : Type} `{!Malloc E, !Errno E, !IoOps E, !FdOps E, !SockOps E, !EpollOps E,
  !Events E, !EventsLaws E, !Sockets E, !SocketLaws E, !Logger E, !Threads E, !Loop E, !LoopLaws E,
  !Listeners E, !Connectors E, !Clock E, !Stdout E, !Inet}.
Context (fd : Z) (sent : E → block) `{!EchoLaws E fd sent (core (E := E))}.
Context (poll : eventpoll_t) (interest : E → gmap Z (Z * positive)).
Context `{!EpollLaws E (pollfd poll) interest, !EventpollFrame E interest, !CloseLaws E interest}.

Lemma stream_free_run stm (e : E) : wf_buffer (sbuf stm) → ∃ x, stream_free stm e = Ret (x, e).
Proof.
  intros (m & Hm & _). unfold stream_free, buffer_free, alloc, default_alloc. rewrite Hm. autorewrite with run.
  cbn [Z.eqb]. autorewrite with run. eauto.
Qed.

Lemma printf_ground t (e : E) :
  ∃ e', printf t e = Ret (tt, e') ∧ world sent core e' = world sent core e ∧ ground interest e' = ground interest e.
Proof. eexists. split; [done|]. split; [apply world_stdout|apply ground_stdout]. Qed.

(** Turning a socket off, in the thread of its loop. *)
Lemma socket_disable_run a s ev (e : E) :
  sockets e !! a = Some s → events e !! a = Some ev → s_loop s = true → s_enabled s = 1 → ev_last_mask ev ≠ 0 →
  owned poll e →
  ∃ r e', socket_enable a 0 e = Ret (r, e') ∧ events e' = <[a := ev_set_mask EVMASK_NONE ev]> (events e) ∧
    sockets e' = <[a := set_s_enabled 0 s]> (sockets e) ∧ core e' = core e ∧
    (interest e' = delete (ev_fd ev) (interest e) ∨ interest e' = interest e).
Proof.
  intros Hs Hev Hloop Hen Hlast Hown. unfold socket_enable. autorewrite with run.
  rewrite (get_socket_run _ s) by done. autorewrite with run. rewrite Hen. cbn [Z.eqb negb]. autorewrite with run.
  rewrite (upd_socket_eq _ _ s) by done. autorewrite with run.
  rewrite (upd_event_run _ _ ev) by by rewrite events_put_sockets. autorewrite with run. rewrite Hloop. cbn [negb].
  set (e1 := put_events _ _).
  assert (stores e1 = (<[a := ev_set_mask EVMASK_NONE ev]> (events e), <[a := set_s_enabled 0 s]> (sockets e))) as H1.
  { unfold stores, e1. by rewrite events_put, sockets_put_events, sockets_put, events_put_sockets. }
  assert (ground interest e1 = ground interest e) as G1.
  { unfold e1. rewrite (sf_events (view := ground interest)). apply (sf_sockets (view := ground interest)). }
  clearbody e1. injection H1 as H1e H1s. injection G1 as Gl Gt Gs Gi.
  assert (core e1 = core e) as Hcore by (unfold core; by rewrite Gl, Gt, Gs).
  rewrite (eventloop_apply_owned poll) by by eapply owned_core.
  destruct (apply_off poll interest a (ev_set_mask EVMASK_NONE ev) e1) as (r & e2 & Hrun & He2 & Hcase);
    [by rewrite H1e, lookup_insert_eq|done|done|]. rewrite Hrun.
  exists r, e2. split; [done|]. split; [congruence|].
  split; [rewrite <- H1s; eapply (apply_view sockets); [| |exact Hrun]; intros; [apply sockets_put_events|apply sockets_ctl]|].
  split.
  { rewrite <- Hcore. eapply (apply_view core); [| |exact Hrun]; intros; [|apply ground_ctl].
    pose proof (sf_events (view := ground interest) m e0) as Hg. injection Hg as ? ? ? _. unfold core. congruence. }
  rewrite Gi in Hcase. destruct Hcase as [[_ ?]|(_ & ? & _)]; auto.
Qed.

(** The callback after an error: the descriptor leaves the poll (or epoll
    fails), the event and the socket are freed, and the loop is told to end. *)
Lemma ecprocessor_close fuel a s ev i o why ud (e : E) :
  sockets e !! a = Some s → events e !! a = Some ev → istm s = Some i → ostm s = Some o →
  wf_buffer (sbuf i) → wf_buffer (sbuf o) → s_loop s = true → s_enabled s = 1 → ev_last_mask ev ≠ 0 →
  owned poll e → Z.land why (Z.lor EVMASK_ERROR EVMASK_TIME) ≠ 0 →
  ∃ e', ecprocessor fuel a why ud e = Ret (tt, e') ∧
    events e' = delete a (events e) ∧ sockets e' = delete a (sockets e) ∧
    get_loop e' = set_running 0 (get_loop e) ∧
    (interest e' = delete (ev_fd ev) (interest e) ∨ interest e' = interest e).
Proof.
  intros Hs Hev Hi Ho Hwi Hwo Hloop Hen Hlast Hown Hwhy.
  unfold ecprocessor. autorewrite with run. rewrite (get_event_run _ ev) by done. autorewrite with run.
  match goal with |- context [printf ?t e] => destruct (printf_ground t e) as (e1 & -> & W1 & G1) end.
  destruct (Z.eqb_spec (Z.land why (Z.lor EVMASK_ERROR EVMASK_TIME)) 0) as [|_]; [done|]. cbn [negb].
  autorewrite with run.
  match goal with |- context [printf ?t e1] => destruct (printf_ground t e1) as (e2 & -> & W2 & G2) end.
  rewrite W1 in W2. rewrite G1 in G2. injection W2 as W2e W2s _ W2l. injection G2 as Gl Gt Gs Gi. autorewrite with run.
  rewrite (get_socket_run _ s) by by rewrite W2s. autorewrite with run.
  destruct (socket_disable_run a s ev e2) as (r & e3 & -> & H3e & H3s & H3c & H3i);
    [by rewrite W2s|by rewrite W2e|done..| |].
  { eapply owned_core; [|exact Hown]. unfold core. by rewrite Gl, Gt, Gs. }
  autorewrite with run. unfold socket_shutdown. autorewrite with run.
  rewrite (get_event_run _ (ev_set_mask EVMASK_NONE ev)) by by rewrite H3e, lookup_insert_eq. autorewrite with run.
  pose proof (stores_shutdown (ev_fd (ev_set_mask EVMASK_NONE ev)) SOCK_SHUT_RDWR e3) as W4.
  pose proof (ground_shutdown (interest := interest) (ev_fd (ev_set_mask EVMASK_NONE ev)) SOCK_SHUT_RDWR e3) as G4.
  destruct (sys_shutdown _ _ e3) as [q e4]. cbn [snd] in *. injection W4 as W4e W4s. injection G4 as G4l G4t G4s G4i.
  autorewrite with run. unfold socket_free. autorewrite with run.
  rewrite (get_socket_run _ (set_s_enabled 0 s)) by by rewrite W4s, H3s, lookup_insert_eq. autorewrite with run.
  cbn [istm ostm set_s_enabled]. rewrite Hi, Ho. unfold the_stream. autorewrite with run.
  destruct (stream_free_run i e4 Hwi) as (x & ->). autorewrite with run.
  destruct (stream_free_run o e4 Hwo) as (y & ->). autorewrite with run.
  unfold free_socket, event_free, drop_socket. autorewrite with run.
  rewrite W4e, H3e, lookup_insert_eq. autorewrite with run.
  rewrite sockets_put_events, W4s, H3s, lookup_insert_eq. autorewrite with run. rewrite Hloop.
  unfold eventloop_exit, upd_loop. autorewrite with run. eexists. split; [done|].
  rewrite loop_events, sockets_put_loop, loop_put, interest_put_loop. stores_simpl.
  set (e5 := put_sockets _ _).
  assert (ground interest e5 = ground interest e4) as G5.
  { unfold e5. rewrite (sf_sockets (view := ground interest)). apply (sf_events (view := ground interest)). }
  injection G5 as G5l _ _ G5i. injection H3c as H3l _ _.
  rewrite G5l, G5i, G4l, G4i, H3l, <- Gi, <- Gl, !delete_insert_eq, W2e, W2s. done.
Qed.

Context `{!FdLaws E fd sent, !SentFrame E sent, !SentStores E sent}.

(** The round in which the descriptor delivers the end of the input. *)
Lemma close_round {K} (kernel : E → K) `{!StoresFrame E kernel} fuel a st (e : E) :
  serving fd sent a st e → polls poll e → owned poll e → delivers fd kernel poll a [] e → (0 < fuel)%nat →
  ∃ e', loop_round (echo_call fuel) fuel e = Ret (tt, e') ∧
    events e' = delete a (events e) ∧ sockets e' = delete a (sockets e) ∧ running (get_loop e') = 0 ∧
    ∃ fd', interest e' = delete fd' (interest e) ∨ interest e' = interest e.
Proof.
  intros (s & ev & i & o & l & q & Hs & Hev & Hcb & Hscb & Hi & Ho & (Hii & Hli & Hwi) & (_ & _ & Hwo) & _ & _ & _ & _ & Hsl & Hen)
    (Hp & Hh & Ht & Hlock) Hown (e1 & Hwait & Hread) Hfuel.
  pose proof (world_wait (obs := sent) (view := core) (pollfd poll) MAX_POLL_EVENT (-1) e) as Hw. rewrite Hwait in Hw. cbn [snd] in Hw.
  injection Hw as We Ws Wt Wl.
  pose proof (ground_wait (interest := interest) (pollfd poll) MAX_POLL_EVENT (-1) e) as Hg. rewrite Hwait in Hg.
  cbn [snd] in Hg.
  unfold loop_round, the_poll, the_loop. autorewrite with run. rewrite Hp. autorewrite with run.
  unfold eventpoll_poll. autorewrite with run. rewrite Hwait. change (Z.to_nat 1) with 1%nat. cbn [take poll_loop].
  autorewrite with run. rewrite (upd_event_run _ _ ev) by by rewrite We. autorewrite with run.
  rewrite (upd_event_run _ _ (ev_set_last_mask (i32 DEFAULT_POLL_MASK) ev)) by (apply upd_get; by rewrite We).
  autorewrite with run events. rewrite insert_insert_eq, We. change (mask_of EPOLLIN) with EVMASK_READ.
  set (ev1 := ev_set_mask EVMASK_READ _). set (e2 := put_events _ e1).
  assert (events e2 = <[a := ev1]> (events e)) as He2 by apply events_put.
  assert (sockets e2 = sockets e) as Hs2 by (unfold e2; by rewrite sockets_put_events).
  assert (ground interest e2 = ground interest e) as Hg2 by (rewrite <- Hg; apply (sf_events (view := ground interest))).
  assert (kernel e2 = kernel e1) as Hk2 by apply (sf_events (view := kernel)). clearbody e2.
  unfold _dispatch. autorewrite with run. rewrite (get_event_run _ ev1) by by rewrite He2, lookup_insert_eq.
  autorewrite with run. change (ev_cb ev1) with (ev_cb ev). rewrite Hcb. cbn [run_cb echo_call].
  set (e3 := put_sockets (<[a := set_istm (Some (stream_set_mask i 0)) s]> (sockets e2)) e2).
  set (lens := [buffer_space (sbuf i); STM_READALL_LEN]).
  assert (0 ≤ buffer_space (sbuf i)) as Hsp by (unfold buffer_space; pose proof (u32_range (size (sbuf i) - wpos (sbuf i))); unfold is_u32 in *; lia).
  destruct (Hread lens e3) as (e4 & He4); [by rewrite <- Hk2; apply (sf_sockets (view := kernel))|cbn; unfold STM_READALL_LEN; lia|].
  destruct (receives_run fd sent (ground interest) (sock_call fuel) fuel a s i ecprocessor_id ev1 0 [] e2 e4)
    as (i' & e5 & -> & He5 & Hs5 & _ & _ & Hwi' & _ & _ & Hg5);
    [by rewrite Hs2|done|done|by rewrite He2, lookup_insert_eq|done|done|done|done|exact He4| |cbn; lia|cbn; lia|].
  { pose proof (ground_readv (interest := interest) fd lens e3) as Hgr. by rewrite He4 in Hgr. }
  cbn [Z.ltb Z.eqb Z.compare orb andb] in *. unfold sock_call. cbn [Z.eqb ecprocessor_id Pos.eqb].
  rewrite Hg2 in Hg5. injection Hg5 as Gl Gt Gs Gi.
  destruct (ecprocessor_close fuel a (set_istm (Some i') s) (ev_set_mask (Z.lor EVMASK_READ EVMASK_ERROR) ev1) i' o
      (Z.lor EVMASK_READ EVMASK_ERROR) (ev_ud ev1) e5) as (e6 & -> & He6 & Hs6 & Hl6 & Hi6);
    [by rewrite Hs5, lookup_insert_eq|by rewrite He5, lookup_insert_eq|done..| |done|].
  { eapply owned_core; [|exact Hown]. unfold core. by rewrite Gl, Gt, Gs. }
  autorewrite with run. cbn [Z.eqb Z.ltb Z.compare]. autorewrite with run.
  rewrite panding_idle by (done || by rewrite Hl6, Gl).
  exists e6. split; [done|]. rewrite He6, He5, Hs6, Hs5, He2, Hs2, Hl6, !delete_insert_eq. split; [done|]. split; [done|].
  split; [done|]. rewrite <- Gi. eauto.
Qed.
End close_lemmas.

(** ** Sessions *)

Section session.
Context {E : Type} `{!Malloc E, !Errno E, !IoOps E, !FdOps E, !SockOps E, !EpollOps E,
  !Events E, !Sockets E, !Logger E, !Threads E, !Loop E,
  !Listeners E, !Connectors E, !Clock E, !Stdout E, !Inet}.
Context {K : Type} (fd : Z) (kernel : E → K) (fuel : nat) (p : eventpoll_t)
  (a : positive).

(** The next bytes arrive in every round of the loop, and [fin] holds after the
    last. *)
Fixpoint arrives (fin : E → Prop) (st : list byte * list byte) (ds : list (list byte)) (e : E) : Prop :=
  match ds with
  | [] => fin e
  | d :: ds =>
      delivers fd kernel p a d e ∧ fits fuel a st d e ∧ 0 < zlen d < 2 ^ 31 ∧
      ∀ e1, loop_round (echo_call fuel) fuel e = Ret (tt, e1) → arrives fin (echo_step st d) ds e1
  end.
End session.

(** Nothing is lost or added: the bytes received are those sent back and those
    that wait, if there is no null among them. *)
Lemma reply_concat hay : x00 ∉ hay → snd (reply hay) ++ fst (reply hay) = hay.
Proof.
  intros H. unfold reply. destruct (memmem hay crlf) as [k|] eqn:Hk; [|done]. cbn [fst snd].
  apply memmem_Some in Hk as [Hk _]. change (length crlf) with 2%nat in Hk.
  rewrite cstr_id by (intros Hin; apply H; rewrite <- (take_drop k hay), elem_of_app; by left).
  assert (crlf ++ drop (k + 2) hay = drop k hay) as Hd by (rewrite <- Hk, <- drop_drop; apply take_drop).
  by rewrite <- app_assoc, Hd, take_drop.
Qed.

Lemma session_conserves st ds :
  x00 ∉ fst st → Forall (λ d, x00 ∉ d) ds →
  snd (foldl echo_step st ds) ++ fst (foldl echo_step st ds) = snd st ++ fst st ++ concat ds.
Proof.
  revert st. induction ds as [|d ds IH]; intros st Hst Hds; cbn [foldl concat]; [by rewrite app_nil_r|].
  apply Forall_cons in Hds as [Hd Hds].
  assert (x00 ∉ fst st ++ d) as Hn by (rewrite not_elem_of_app; done).
  pose proof (reply_concat _ Hn) as Hr. unfold echo_step in *. destruct (reply (fst st ++ d)) as [rest out] eqn:Hrep.
  cbn [fst snd] in Hr. rewrite IH; cbn [fst snd]; [|rewrite <- Hr, not_elem_of_app in Hn; tauto|done].
  rewrite <- !app_assoc. f_equal. by rewrite !app_assoc, Hr.
Qed.

(** * Theorems *)

Section theorems.
Context {E : Type} `{!Malloc E, !Errno E, !IoOps E, !FdOps E, !SockOps E, !EpollOps E,
  !Events E, !EventsLaws E, !Sockets E, !SocketLaws E, !Logger E, !Threads E, !Loop E, !LoopLaws E,
  !Listeners E, !Connectors E, !Clock E, !Stdout E, !Inet}.
Context (fd : Z) (sent : E → block) `{!FdLaws E fd sent, !SentFrame E sent, !SentStores E sent}.
Context `{!EchoLaws E fd sent (core (E := E))}.
Context {K : Type} (kernel : E → K) `{!StoresFrame E kernel}.
Context (fuel : nat) (p : eventpoll_t) (a : positive).

(** What is not observed needs no law. *)
#[local] Instance unobserved_echo : EchoLaws E fd (both sent (λ _, tt)) (core (E := E)).
Proof.
  assert (∀ e e', world sent core e' = world sent core e →
    world (both sent (λ _, tt)) core e' = world (both sent (λ _, tt)) core e) as Hw.
  { intros e e'. unfold world, both, stores, core. by intros [= -> -> -> -> -> ->]. }
  split; [intros; apply Hw, world_stdout|intros; apply Hw, world_clock|intros; apply Hw, world_wait| |intros|intros].
  - exact (view_stores (obs := sent)).
  - apply (view_readv (obs := sent)).
  - apply (view_writev (obs := sent)).
Qed.

#[local] Instance unobserved_held : HeldLaws E fd (λ _, tt) (λ _, tt).
Proof. by split. Qed.

Lemma unobserved_settled st e : serving fd sent a st e → settled (λ _, tt) (λ _, tt) a e.
Proof.
  intros (s & ev & i & o & l & q & Hs & _ & _ & _ & _ & Ho & _). exists s, o. split; [done|]. split; [done|]. by right.
Qed.

Lemma core_loop (e e' : E) : core e' = core e → get_loop e' = get_loop e.
Proof. by intros [= -> _ _]. Qed.

Lemma session_run fin st ds (e : E) :
  serving fd sent a st e → polls p e → running (get_loop e) ≠ 0 → (0 < fuel)%nat →
  arrives fd kernel fuel p a fin st ds e →
  ∃ e1, rounds (loop_round (echo_call fuel) fuel) (length ds) e e1 ∧
    serving fd sent a (foldl echo_step st ds) e1 ∧ core e1 = core e ∧ fin e1.
Proof.
  intros Hs Hp Hrun Hf. revert st e Hs Hp Hrun. induction ds as [|d ds IH]; intros st e Hs Hp Hrun Ha.
  { exists e. split; [constructor|]. done. }
  destruct Ha as (Hdel & Hfits & Hd & Hnext).
  destruct (round_run fd sent (λ _, tt) (λ _, tt) core core_loop kernel fuel p a st d e)
    as (e1 & Hround & Hs1 & _ & Hc1 & _); [done|by eapply unobserved_settled|done..|]. pose proof (core_loop _ _ Hc1) as Hl1.
  destruct (IH (echo_step st d) e1) as (e2 & Hrounds & Hs2 & Hc2 & Hfin);
    [done|by unfold polls; rewrite Hl1|by rewrite Hl1|by apply Hnext|].
  exists e2. split; [by econstructor|]. split; [done|]. split; [congruence|done].
Qed.

(** A round of the loop in which the poll reports a served socket readable,
    and its descriptor delivers [d], refines one step of the specification: the
    bytes join those that wait, and the first record among them (and no other)
    is printed to the output stream, so that what was sent and what the stream
    still holds are the specification's output.  The round returns, and changes
    neither the loop nor another event or socket. *)
Theorem echo_round_refines st d (e : E) :
  serving fd sent a st e → polls p e → delivers fd kernel p a d e → fits fuel a st d e → 0 < zlen d < 2 ^ 31 →
  (0 < fuel)%nat →
  ∃ e', loop_round (echo_call fuel) fuel e = Ret (tt, e') ∧ serving fd sent a (echo_step st d) e' ∧
    get_loop e' = get_loop e ∧
    (∀ b, b ≠ a → events e' !! b = events e !! b ∧ sockets e' !! b = sockets e !! b).
Proof.
  intros. destruct (round_run fd sent (λ _, tt) (λ _, tt) core core_loop kernel fuel p a st d e)
    as (e' & ? & ? & _ & Hc & ?); [done|by eapply unobserved_settled|done..|]. exists e'. split_and!; [done|done|by apply core_loop|done].
Qed.

(** Over any number of such rounds no byte is lost, added or reordered: what
    was sent, what waits in the output stream and what waits in the input stream
    are together the bytes received (if no record has a null in it). *)
Theorem echo_session_conserves ds (e : E) :
  serving fd sent a ([], []) e → polls p e → running (get_loop e) ≠ 0 → (0 < fuel)%nat →
  arrives fd kernel fuel p a (λ _, True) ([], []) ds e → Forall (λ d, x00 ∉ d) ds →
  ∃ e1 s i o, rounds (loop_round (echo_call fuel) fuel) (length ds) e e1 ∧
    sockets e1 !! a = Some s ∧ istm s = Some i ∧ ostm s = Some o ∧
    sent e1 ++ contents (sbuf o) ++ contents (sbuf i) = cells (concat ds).
Proof.
  intros Hs Hp Hrun Hf Ha Hds.
  destruct (session_run (λ _, True) ([], []) ds e Hs Hp Hrun Hf Ha) as (e1 & Hr & Hs1 & _ & _).
  destruct Hs1 as (s & ev & i & o & l & q & Hso & _ & _ & _ & Hi & Ho & _ & _ & _ & _ & Hc & Hsent & _).
  exists e1, s, i, o. split_and!; [done..|].
  pose proof (session_conserves ([], []) ds) as Hcons. cbn [fst snd app] in Hcons.
  rewrite app_assoc, Hsent, Hc, <- fmap_app, Hcons; [done|by apply not_elem_of_nil|done].
Qed.

(** C20: the loop serves the socket to the end: when after any number of such
    rounds the descriptor delivers the end of the input, the next round frees
    the event and the socket and clears [running], and [eventloop_loop]
    returns.  (So the first client that leaves ends the server.) *)
Theorem echo_serves_to_the_end interest `{!EpollLaws E (pollfd p) interest, !EventpollFrame E interest,
    !CloseLaws E interest} st ds (e : E) :
  serving fd sent a st e → polls p e → owned p e → running (get_loop e) ≠ 0 → (0 < fuel)%nat →
  arrives fd kernel fuel p a (delivers fd kernel p a []) st ds e →
  ∃ e1 e2, rounds (loop_round (echo_call fuel) fuel) (length ds) e e1 ∧
    serving fd sent a (foldl echo_step st ds) e1 ∧
    eventloop_loop (echo_call fuel) (length ds + 2) fuel e = Ret (tt, e2) ∧
    events e2 = delete a (events e1) ∧ sockets e2 = delete a (sockets e1) ∧
    ∃ fd', interest e2 = delete fd' (interest e1) ∨ interest e2 = interest e1.
Proof.
  intros Hs Hp Hown Hrun Hf Ha.
  destruct (session_run _ st ds e Hs Hp Hrun Hf Ha) as (e1 & Hr & Hs1 & Hc1 & Hfin).
  pose proof (core_loop _ _ Hc1) as Hl1.
  destruct (close_round fd sent p interest kernel fuel a (foldl echo_step st ds) e1)
    as (e2 & Hround & He2 & Hs2 & Hrun2 & Hi2); [done|by unfold polls; rewrite Hl1|by eapply owned_core|done|done|].
  exists e1, e2. split_and!; [done|done| |done|done|done].
  apply eventloop_loop_exits. exists (length ds + 1)%nat. split; [lia|]. split; [|done].
  assert (running (get_loop e1) ≠ 0) as Hrun1 by by rewrite Hl1.
  clear -Hr Hround Hrun1. induction Hr as [s|n s s1 s2 H1 H2 Hr IH]; cbn.
  - eapply rounds_S; [done|exact Hround|constructor].
  - eapply rounds_S; [done|exact H2|by apply IH].
Qed.
End theorems.

(** * A concrete environment *)

(** The stores of listeners and connectors, and the standard output. *)
Record desk := mk_desk {
  d_listeners : gmap positive listener_t; d_connectors : gmap positive connector_t; d_stdout : list byte }.

Definition with_more {X} (x : X) (e : env X) : env X := mk_env (e_host e) (e_loop e) (e_threads e) (e_socks e) x.

#[export] Instance desk_listeners : Listeners (env desk) := {
  listeners e := d_listeners (e_more e);
  put_listeners m e := with_more (mk_desk m (d_connectors (e_more e)) (d_stdout (e_more e))) e;
}.
#[export] Instance desk_connectors : Connectors (env desk) := {
  connectors e := d_connectors (e_more e);
  put_connectors m e := with_more (mk_desk (d_listeners (e_more e)) m (d_stdout (e_more e))) e;
}.
#[export] Instance desk_stdout : Stdout (env desk) := {
  get_stdout e := d_stdout (e_more e);
  put_stdout t e := with_more (mk_desk (d_listeners (e_more e)) (d_connectors (e_more e)) t) e;
}.
#[export] Instance desk_clock : Clock (env desk) := λ e, ((1700000000, 250000), e).

#[export] Instance desk_loop_laws : LoopLaws (env desk).
Proof.
  split; [done|done|by intros []|done|done|done|]. intros l epfd op fd evt e. cbn. unfold on_host. cbn.
  by destruct (ctl_effect _ _ _ _).
Qed.

#[export] Instance desk_echo_laws fd : EchoLaws (env desk) fd (λ e, output fd (e_host e)) (core (E := env desk)).
Proof.
  split; try done.
  - intros epfd max t e. cbn. unfold on_host. cbn. destruct (h_ready (e_host e)) as [|l r]; [done|].
    by destruct (_ && _).
  - intros l e. exact (on_host_view (core (E := env desk)) (sys_readv (E := host) fd l) e (λ _ _, eq_refl)).
  - intros l e. exact (on_host_view (core (E := env desk)) (sys_writev (E := host) fd l) e (λ _ _, eq_refl)).
Qed.

#[export] Instance desk_close_laws : CloseLaws (env desk) (λ e, h_interest (e_host e)).
Proof.
  split; try done.
  - intros epfd max t e. cbn. unfold on_host. cbn. destruct (h_ready (e_host e)) as [|l r]; [done|].
    by destruct (_ && _).
  - intros fd l e. cbn. unfold on_host, attempt. cbn. destruct (h_script (e_host e)) as [|x q]; [done|].
    by destruct (x =? 0).
  - intros p op fd evt e. exact (on_host_view (sockets (E := env desk)) (sys_epoll_ctl (E := host) p op fd evt) e (λ _ _, eq_refl)).
  - intros p op fd evt e. exact (on_host_view (core (E := env desk)) (sys_epoll_ctl (E := host) p op fd evt) e (λ _ _, eq_refl)).
  - intros fd how e. cbn. unfold on_host, on_fd, attempt. cbn. destruct (decide _); [|done].
    destruct (h_script (e_host e)) as [|x q]; [done|]. by destruct (x =? 0).
  - intros fd how e. cbn. unfold on_host, on_fd, attempt. cbn. destruct (decide _); [|done].
    destruct (h_script (e_host e)) as [|x q]; [done|]. by destruct (x =? 0).
Qed.

(** What the host delivers: the bytes that arrived, when no call is scripted
    to fail. *)
Definition incoming (fd : Z) (e : env desk) := (input fd (e_host e), h_script (e_host e)).

#[export] Instance incoming_frame fd : StoresFrame (env desk) (incoming fd).
Proof. by split. Qed.

Lemma incoming_delivers fd p a d (e e1 : env desk) :
  sys_epoll_wait (pollfd p) MAX_POLL_EVENT (-1) e = (1, [(EPOLLIN, a)], e1) → incoming fd e1 = (d, []) →
  delivers fd (incoming fd) p a d e.
Proof.
  intros Hw Hin. exists e1. split; [done|]. intros lens e2 He2 Hn. rewrite Hin in He2. injection He2 as Hd Hs.
  eexists.
  cbn -[input]. unfold on_host, attempt. rewrite Hs. unfold receive. rewrite Hd, take_ge by lia. done.
Qed.

(** A socket at 5 on descriptor 7, served in the thread of the loop, to which a
    line and half of the next arrive, and then the end. *)
Definition room_buffer : buffer_t := mk_buffer (Live (replicate 64 (Some x00))) 64 0 0.
Definition hello_line : list byte := str_of "hello" ++ crlf ++ str_of "wor".
Definition echo_env : env desk :=
  mk_env (with_input (with_ready (with_open (with_interest (with_events host0 {[5%positive := sample_event EVMASK_READ]})
      {[7 := (u32 (newmask_of EVMASK_READ), 5%positive)]}) {[7]}) [[(EPOLLIN, 5%positive)]; [(EPOLLIN, 5%positive)]]) {[7 := hello_line]})
    loop_idle (7, mk_threads {[1%positive := mk_thread 7 []]} {[7 := 1%positive]} {[7 := 1%positive]} true)
    {[5%positive := mk_socket true (Some (sample_stream room_buffer)) (Some (sample_stream room_buffer)) 60000
        (Some ecprocessor_id) 1 zeroed zeroed]} (mk_desk ∅ ∅ []).

Lemma room_buffer_wf : wf_buffer room_buffer.
Proof. eexists. split; [reflexivity|]. cbn. lia. Qed.

Lemma echo_env_serving : serving 7 (λ e : env desk, output 7 (e_host e)) 5 ([], []) echo_env.
Proof.
  pose proof room_buffer_wf. eexists _, _, (sample_stream room_buffer), (sample_stream room_buffer), _, _.
  unfold stream_ok. split_and!; try reflexivity; try done; by vm_compute.
Qed.

Lemma echo_env_delivers : delivers 7 (incoming 7) poll_sample 5 hello_line echo_env.
Proof. eapply incoming_delivers; [vm_compute; reflexivity|reflexivity]. Qed.

Lemma echo_env_fits : fits 30 5 ([], []) hello_line echo_env.
Proof.
  eexists _, (sample_stream room_buffer), (sample_stream room_buffer). split_and!; [reflexivity..|by vm_compute|].
  right. split_and!; [by vm_compute|by vm_compute|vm_compute; lia].
Qed.

Lemma echo_env_polls : polls poll_sample echo_env.
Proof. by split_and!. Qed.

(** * Witnesses *)

Lemma echo_round_refines_witness :
  ∃ e', loop_round (echo_call 30) 30 echo_env = Ret (tt, e') ∧
    serving 7 (λ e : env desk, output 7 (e_host e)) 5 (str_of "wor", str_of "hello" ++ crlf) e'.
Proof.
  destruct (echo_round_refines 7 (λ e : env desk, output 7 (e_host e)) (incoming 7) 30 poll_sample 5 ([], [])
    hello_line echo_env echo_env_serving echo_env_polls echo_env_delivers echo_env_fits)
    as (e' & Hrun & Hs & _); [by vm_compute|lia|]. exists e'. split; [done|]. exact Hs.
Defined.

Lemma echo_session_conserves_witness :
  ∃ e1 s i o, rounds (loop_round (echo_call 30) 30) (length [hello_line]) echo_env e1 ∧
    sockets e1 !! 5%positive = Some s ∧ istm s = Some i ∧ ostm s = Some o ∧
    output 7 (e_host e1) ++ contents (sbuf o) ++ contents (sbuf i) = cells (concat [hello_line]).
Proof.
  destruct (echo_session_conserves 7 (λ e : env desk, output 7 (e_host e)) (incoming 7) 30 poll_sample 5
    [hello_line] echo_env echo_env_serving echo_env_polls) as (e1 & s & i & o & Hr); [done|lia| | |by exists e1, s, i, o].
  - split; [exact echo_env_delivers|]. split; [exact echo_env_fits|]. split; [by vm_compute|done].
  - constructor; [|constructor]. apply (bool_decide_unpack _). by vm_compute.
Defined.

Lemma echo_serves_to_the_end_witness :
  ∃ e1 e2, rounds (loop_round (echo_call 30) 30) (length [hello_line]) echo_env e1 ∧
    eventloop_loop (echo_call 30) (length [hello_line] + 2) 30 echo_env = Ret (tt, e2) ∧
    sockets e2 = delete 5%positive (sockets e1) ∧
    ∃ fd', h_interest (e_host e2) = delete fd' (h_interest (e_host e1)) ∨ h_interest (e_host e2) = h_interest (e_host e1).
Proof.
  destruct (echo_serves_to_the_end 7 (λ e : env desk, output 7 (e_host e)) (incoming 7) 30 poll_sample 5
    (λ e : env desk, h_interest (e_host e)) ([], []) [hello_line] echo_env echo_env_serving echo_env_polls)
    as (e1 & e2 & H1 & _ & H2 & _ & H3 & H4); [by split; [|by exists 1%positive]|done|lia| |exact (ex_intro _ e1 (ex_intro _ e2 (conj H1 (conj H2 (conj H3 H4)))))].
  split; [exact echo_env_delivers|]. split; [exact echo_env_fits|]. split; [by vm_compute|].
  intros e1 H1. vm_compute in H1. injection H1 as <-.
  eapply incoming_delivers; [vm_compute; reflexivity|reflexivity].
Defined.

(** Two lines that arrive together: the second is not answered. *)
Example echo_one_per_report :
  echo_step ([], []) (str_of "a" ++ crlf ++ str_of "b" ++ crlf) = (str_of "b" ++ crlf, str_of "a" ++ crlf).
Proof. by vm_compute. Qed.

(** The whole run of the sample: the first line comes back, the half line does
    not, and the loop ends. *)
Example echo_run :
  match eventloop_loop (echo_call 30) 3 30 echo_env with
  | Ret (_, e) => output 7 (e_host e) = cells (str_of "hello" ++ crlf) ∧ running (get_loop e) = 0
  | _ => False
  end.
Proof. by vm_compute. Qed.
