(* ===== verification/Server.v ===== *)
(** * The echo program with several clients

    The loop of the program as a server: a poll reports connections on the
    descriptor of its listener, and lines on those of its clients, in any
    number and order.  Its specification is a relation on the clients, each with
    what it sent and what was answered, that knows of no loop, poll or stream. *)
From stdpp Require Import strings.
From S2P Require Import Prelude Alloc Sys Cstring Lock Log Thread Event Host Buffer Scan Stream.
From S2P Require Import Eventpoll Eventloop Sockaddr Socket Listener Connector Util Signals Echo.

(** * Specification *)

(** The clients by the address of their socket: the descriptor, and the bytes
    that wait and that were answered. *)
Abbreviation clients := (gmap positive (Z * (list byte * list byte))).

(** What the poll reports: a connection, which gets a descriptor and has a name,
    or bytes of a client. *)
Inductive report :=
  | Connect (fd : Z) (name : list byte)
  | Data (a : positive) (d : list byte).

(** A connection adds a client, or is refused for want of memory, if memory can
    be [scarce]; bytes concern the client that sent them. *)
Inductive server_step (scarce : Prop) : clients → report → clients → Prop :=
  | step_connect C a fd name : C !! a = None → server_step scarce C (Connect fd name) (<[a := (fd, ([], []))]> C)
  | step_refuse C fd name : scarce → server_step scarce C (Connect fd name) C
  | step_data C a fd st d :
      C !! a = Some (fd, st) → server_step scarce C (Data a d) (<[a := (fd, echo_step st d)]> C).

Inductive server_steps (scarce : Prop) : clients → list report → clients → Prop :=
  | steps_nil C : server_steps scarce C [] C
  | steps_cons C r C1 rs C2 :
      server_step scarce C r C1 → server_steps scarce C1 rs C2 → server_steps scarce C (r :: rs) C2.

(** The allocator may refuse a request. *)
Definition can_refuse (E : Type) `{!Malloc E} : Prop := ∃ n (e : E), fst (malloc_ok n e) = false.

(** The bytes that [a] sent. *)
Definition from (a : positive) (rs : list report) : list byte :=
  concat (omap (λ r, match r with Data b d => if decide (b = a) then Some d else None | _ => None end) rs).

Section server.
Context {E : Type} `{!Malloc E, !Errno E, !IoOps E, !FdOps E, !SockOps E, !EpollOps E,
  !Events E, !Sockets E, !Logger E, !Threads E, !Loop E, !Listeners E, !Connectors E, !Clock E, !Stdout E, !Inet}.
Context (sent : Z → E → block) (refusal : Z → E → option block) (p : eventpoll_t) (lstn : positive) (lfd : Z).

(** The listener takes connections on [lfd] for the program. *)
Definition listening_on (e : E) : Prop :=
  ∃ l ev ln, listeners e !! lstn = Some l ∧ events e !! lstn = Some ev ∧ Listener.acceptor l = Some acceptor_id ∧
    l_flags l = Z.lor SOCK_CLOEXEC SOCK_NONBLOCK ∧ l_loop l = true ∧ name_string (l_addr l) = Ret ln ∧
    ev_cb ev = Some _accept_dispatch ∧ ev_fd ev = lfd.

(** The state that the program keeps for its clients, each on a descriptor of
    its own; the program serves nobody else.  What a client's output stream still
    holds was refused by its descriptor. *)
Definition server (C : clients) (e : E) : Prop :=
  polls p e ∧ owned p e ∧ sockets_ok e ∧ listening_on e ∧
  (∀ a fd st, C !! a = Some (fd, st) → serving fd (sent fd) a st e ∧ settled (refusal fd) Some a e) ∧
  (∀ a b fd st st', C !! a = Some (fd, st) → C !! b = Some (fd, st') → a = b) ∧
  (∀ a s, sockets e !! a = Some s → s_cb s = Some ecprocessor_id → is_Some (C !! a)).

Context {K : Type} (kernel : E → K) (fuel : nat).

Definition entry (r : report) : Z * positive :=
  (EPOLLIN, match r with Connect _ _ => lstn | Data a _ => a end).

Definition handle (r : report) : M E unit := poll_loop (_dispatch (echo_call fuel)) p [entry r].

(** How the kernel answers when the program handles a report: a connection has
    a descriptor that no client has and on which nothing was sent, and a name
    that can be printed; a client's bytes are there to read, and fit. *)
Definition answers (C : clients) (r : report) (e : E) : Prop :=
  match r with
  | Connect fd name =>
      fd ≠ -1 ∧ 2 ≤ zlen name ≤ sizeof_union ∧ (∃ t, name_string (peer_name name) = Ret t) ∧
      (∀ a fd' st, C !! a = Some (fd', st) → fd' ≠ fd) ∧
      ∀ e2, kernel e2 = kernel e →
        ∃ e3, sys_accept4 lfd sizeof_union (Z.lor SOCK_CLOEXEC SOCK_NONBLOCK) e2 = (fd, name, e3) ∧ sent fd e3 = []
  | Data a d =>
      ∃ fd st, C !! a = Some (fd, st) ∧ fits fuel a st d e ∧ 0 < zlen d < 2 ^ 31 ∧
        ∀ lens e2, kernel e2 = kernel e → zlen d ≤ total lens → ∃ e3, sys_readv fd lens e2 = (zlen d, d, e3)
  end.

(** All reports of a poll, in the states that handling them leads to. *)
Fixpoint all_answers (C : clients) (rs : list report) (e : E) : Prop :=
  match rs with
  | [] => True
  | r :: rs => answers C r e ∧
      ∀ C1 e1, handle r e = Ret (tt, e1) → server_step (can_refuse E) C r C1 → server C1 e1 → all_answers C1 rs e1
  end.

(** The poll reports [rs]. *)
Definition reported (C : clients) (rs : list report) (e : E) : Prop :=
  rs ≠ [] ∧ ∃ e1, sys_epoll_wait (pollfd p) MAX_POLL_EVENT (-1) e = (zlen rs, entry <$> rs, e1) ∧
    all_answers C rs e1.

(** All polls of a run. *)
Fixpoint all_reported (C : clients) (rss : list (list report)) (e : E) : Prop :=
  match rss with
  | [] => True
  | rs :: rss => reported C rs e ∧
      ∀ C1 e1, loop_round (echo_call fuel) fuel e = Ret (tt, e1) → server_steps (can_refuse E) C rs C1 → server C1 e1 →
        all_reported C1 rss e1
  end.
End server.

(** The loop, the threads, the listeners, and what was sent and refused on one
    descriptor: what the work for one client must leave alone. *)
Definition rest {E} `{!Threads E, !Loop E, !Listeners E} (sent : Z → E → block) (refusal : Z → E → option block)
    (fd : Z) (e : E) :=
  (core e, listeners e, both (sent fd) (refusal fd) e).

(** Descriptors are apart from each other: what is done on one is not seen on
    another.  [refusal] is what a descriptor refused last. *)
Class ServerLaws (E : Type) `{!Malloc E, !Errno E, !FdOps E, !SockOps E, !EpollOps E, !Events E, !Sockets E,
    !Threads E, !Loop E, !Listeners E, !Clock E, !Stdout E} (sent : Z → E → block) (refusal : Z → E → option block)
    (interest : E → gmap Z (Z * positive)) := {
  rest_echo fd fd' : fd ≠ fd' → EchoLaws E fd (both (sent fd) (refusal fd)) (rest sent refusal fd');
  rest_held fd :: HeldLaws E fd (refusal fd) Some;
  rest_accept4 fd lfd n x name e e' fd' :
    sys_accept4 lfd n x e = (fd, name, e') → fd' ≠ fd →
    rest sent refusal fd' e' = rest sent refusal fd' e ∧ interest e' = interest e;
  rest_close fd fd' e : rest sent refusal fd' (snd (sys_close fd e)) = rest sent refusal fd' e;
  rest_ctl epfd op fd evt fd' e :
    rest sent refusal fd' (snd (sys_epoll_ctl epfd op fd evt e)) = rest sent refusal fd' e;
}.

(** * Lemmas *)

(** ** The specification *)

Lemma from_cons a r rs :
  from a (r :: rs) = match r with Data b d => if decide (b = a) then d else [] | _ => [] end ++ from a rs.
Proof. unfold from. cbn. destruct r as [|b d]; [done|]. by destruct (decide (b = a)). Qed.

Lemma from_app a rs rs' : from a (rs ++ rs') = from a rs ++ from a rs'.
Proof. unfold from. by rewrite omap_app, concat_app. Qed.

Lemma echo_step_conserves st d :
  x00 ∉ fst st ++ d →
  snd (echo_step st d) ++ fst (echo_step st d) = snd st ++ fst st ++ d ∧ x00 ∉ fst (echo_step st d).
Proof.
  intros Hn. pose proof (reply_concat _ Hn) as Hr. unfold echo_step.
  destruct (reply (fst st ++ d)) as [w o]. cbn [fst snd] in *. split; [by rewrite <- app_assoc, Hr|].
  rewrite <- Hr, not_elem_of_app in Hn. tauto.
Qed.

Definition no_null (r : report) : Prop := match r with Data _ d => x00 ∉ d | _ => True end.

(** What is answered and what waits are what the client sent since it
    connected. *)
Lemma steps_conserve scarce C rs C' a fd st :
  server_steps scarce C rs C' → Forall no_null rs →
  (∀ a fd st, C !! a = Some (fd, st) → x00 ∉ fst st) → C' !! a = Some (fd, st) →
  snd st ++ fst st = match C !! a with Some (_, st0) => snd st0 ++ fst st0 | None => [] end ++ from a rs.
Proof.
  intros Hsteps Hnull. revert a fd st. induction Hsteps as [C|C r C1 rs C2 Hstep Hsteps IH]; intros a fd st HC Ha.
  { by rewrite Ha, app_nil_r. }
  apply Forall_cons in Hnull as [Hr Hnull]. rewrite from_cons.
  inversion Hstep as [? b fd1 name Hb|? fd1 name _|? b fd1 st1 d Hb]; subst.
  - assert (∀ a fd st, <[b := (fd1, ([], []))]> C !! a = Some (fd, st) → x00 ∉ fst st) as HC1.
    { intros c fd2 st2 [[<- [= <- <-]]|[_ Hc]]%lookup_insert_Some; [by apply not_elem_of_nil|by eapply HC]. }
    rewrite (IH Hnull a fd st HC1 Ha). destruct (decide (b = a)) as [<-|Hne].
    + by rewrite lookup_insert_eq, Hb.
    + by rewrite lookup_insert_ne.
  - by rewrite (IH Hnull a fd st HC Ha).
  - assert (x00 ∉ fst st1 ++ d) as Hn by (rewrite not_elem_of_app; split; [by eapply HC|done]).
    destruct (echo_step_conserves st1 d Hn) as [Hcons Hnext].
    assert (∀ a fd st, <[b := (fd1, echo_step st1 d)]> C !! a = Some (fd, st) → x00 ∉ fst st) as HC1.
    { intros c fd2 st2 [[<- [= <- <-]]|[_ Hc]]%lookup_insert_Some; [done|by eapply HC]. }
    rewrite (IH Hnull a fd st HC1 Ha). destruct (decide (b = a)) as [<-|Hne].
    + by rewrite lookup_insert_eq, Hb, Hcons, <- !app_assoc.
    + by rewrite lookup_insert_ne.
Qed.

Lemma steps_app scarce C rs C1 rs' C2 :
  server_steps scarce C rs C1 → server_steps scarce C1 rs' C2 → server_steps scarce C (rs ++ rs') C2.
Proof. induction 1; [done|]. intros. econstructor; [done|]. auto. Qed.

(** ** The loop *)

Section server_lemmas.
Context {E : Type} `{!Malloc E, !Errno E, !IoOps E, !FdOps E, !SockOps E, !EpollOps E,
  !Events E, !EventsLaws E, !Sockets E, !SocketLaws E, !Logger E, !Threads E, !Loop E, !LoopLaws E,
  !Listeners E, !Connectors E, !Clock E, !Stdout E, !Inet}.
Context (sent : Z → E → block) (refusal : Z → E → option block).
Context `{!∀ fd, FdLaws E fd (sent fd), !∀ fd, SentFrame E (sent fd), !∀ fd, SentStores E (sent fd)}.
Context (p : eventpoll_t) (interest : E → gmap Z (Z * positive)).
Context `{!EpollLaws E (pollfd p) interest, !EventpollFrame E interest, !CloseLaws E interest, !ServerLaws E sent refusal interest}.
Context (lstn : positive) (lfd : Z).

Lemma other_fd (fd : Z) : fd + 1 ≠ fd.
Proof. lia. Qed.

#[local] Instance rest_frame fd : StoresFrame E (rest sent refusal fd) := view_stores (EchoLaws := rest_echo _ fd (other_fd fd)).
#[local] Instance interest_frame : StoresFrame E interest.
Proof.
  split; intros.
  - by pose proof (sf_malloc (view := ground interest) n e) as [= _ _ _ ?].
  - by pose proof (sf_errno (view := ground interest) x e) as [= _ _ _ ?].
  - by pose proof (sf_events (view := ground interest) m e) as [= _ _ _ ?].
  - by pose proof (sf_sockets (view := ground interest) m e) as [= _ _ _ ?].
Qed.

(** Everything but the stores. *)
Definition apart (e e' : E) : Prop := (∀ fd, rest sent refusal fd e' = rest sent refusal fd e) ∧ interest e' = interest e.

Lemma apart_trans e1 e2 e3 : apart e1 e2 → apart e2 e3 → apart e1 e3.
Proof. intros [Ha Hb] [Hc Hd]. split; [intros fd; by rewrite Hc, Ha|by rewrite Hd, Hb]. Qed.

Lemma apart_events m e : apart e (put_events m e).
Proof. split; intros; [apply (sf_events (view := rest sent refusal fd))|apply (sf_events (view := interest))]. Qed.

Lemma apart_sockets m e : apart e (put_sockets m e).
Proof. split; intros; [apply (sf_sockets (view := rest sent refusal fd))|apply (sf_sockets (view := interest))]. Qed.

Lemma rest_core fd (e e' : E) : rest sent refusal fd e' = rest sent refusal fd e → core e' = core e.
Proof. intros Hr. exact (f_equal (λ x, fst (fst x)) Hr). Qed.

Lemma apart_core e e' : apart e e' → core e' = core e.
Proof. intros [Hr _]. by apply (rest_core 0). Qed.

Lemma apart_listeners e e' : apart e e' → listeners e' = listeners e.
Proof. intros [Hr _]. exact (f_equal (λ x, snd (fst x)) (Hr 0)). Qed.

Lemma printf_apart t (e : E) : ∃ e', printf t e = Ret (tt, e') ∧ stores e' = stores e ∧ apart e e'.
Proof.
  eexists. split; [done|].
  assert (∀ fd, world (both (sent (fd + 1)) (refusal (fd + 1))) (rest sent refusal fd) (put_stdout (get_stdout e ++ t) e) =
    world (both (sent (fd + 1)) (refusal (fd + 1))) (rest sent refusal fd) e) as Hw by (intros fd; apply (rest_echo _ fd (other_fd fd))).
  split; [exact (f_equal (λ x, fst (fst x)) (Hw 0))|]. split; [intros fd; exact (f_equal snd (Hw fd))|].
  exact (f_equal snd (ground_stdout (interest := interest) _ e)).
Qed.

Lemma upd_socket_apart a f s (e : E) :
  sockets e !! a = Some s →
  ∃ e', upd_socket a f e = Ret (tt, e') ∧ stores e' = (events e, <[a := f s]> (sockets e)) ∧ apart e e'.
Proof.
  intros Hs. rewrite (upd_socket_eq _ _ s) by done. eexists. split; [done|]. split; [|apply apart_sockets].
  unfold stores. by rewrite events_put_sockets, sockets_put.
Qed.

(** Turning a new socket on, in the thread of the loop. *)
Lemma enable_new_run a s ev (e : E) :
  sockets e !! a = Some s → events e !! a = Some ev → s_loop s = true → s_enabled s = 0 → ev_last_mask ev = 0 →
  owned p e →
  ∃ r m e', socket_enable a 1 e = Ret (r, e') ∧
    events e' = <[a := ev_set_last_mask m (ev_set_mask EVMASK_READ ev)]> (events e) ∧
    sockets e' = <[a := set_s_enabled 1 s]> (sockets e) ∧ (∀ fd, rest sent refusal fd e' = rest sent refusal fd e) ∧
    (interest e' = <[ev_fd ev := (u32 (newmask_of EVMASK_READ), a)]> (interest e) ∨
     r = -1 ∧ interest e' = interest e ∧ ∃ op e1,
       sys_epoll_ctl (pollfd p) op (ev_fd ev) (Some (u32 (newmask_of EVMASK_READ), a)) e1 = (-1, e')).
Proof.
  intros Hs Hev Hloop Hen Hlast Hown. unfold socket_enable. autorewrite with run.
  rewrite (get_socket_run _ s) by done. autorewrite with run. rewrite Hen. cbn [Z.eqb negb]. autorewrite with run.
  destruct (upd_socket_apart a (set_s_enabled 1) s e Hs) as (e1 & -> & Hst & Hap). injection Hst as H1e H1s.
  autorewrite with run. rewrite (upd_event_run _ _ ev) by by rewrite H1e. autorewrite with run. rewrite Hloop. cbn [negb].
  set (ev1 := ev_set_mask EVMASK_READ ev). rewrite H1e.
  set (e2 := put_events _ e1). assert (apart e e2) as Hap2 by (eapply apart_trans; [exact Hap|apply apart_events]).
  assert (events e2 = <[a := ev1]> (events e)) as H2e by apply events_put.
  assert (sockets e2 = <[a := set_s_enabled 1 s]> (sockets e)) as H2s
    by (unfold e2; by rewrite sockets_put_events).
  clearbody e2. rewrite (eventloop_apply_owned p) by (eapply owned_core; [by apply apart_core|done]).
  destruct (apply_on p interest a ev1 e2) as (r & e3 & Hrun & H3e & Hcase);
    [by rewrite H2e, lookup_insert_eq|done|cbn; rewrite Hlast; by vm_compute|].
  exists r, (newmask_of (ev_mask ev1)), e3. split; [done|]. split; [by rewrite H3e, H2e, insert_insert_eq|]. split.
  { rewrite <- H2s. eapply (apply_view sockets); [| |exact Hrun]; intros; [apply sockets_put_events|apply sockets_ctl]. }
  split.
  { intros fd. rewrite <- (proj1 Hap2 fd). eapply (apply_view (rest sent refusal fd)); [| |exact Hrun]; intros.
    - apply (sf_events (view := rest sent refusal fd)).
    - apply rest_ctl. }
  rewrite (proj2 Hap2) in Hcase. destruct Hcase as [(_ & Hi & _)|(-> & Hi & _)]; [by left|right].
  split; [done|]. split; [done|].
  eapply (apply_answer p a ev1); [|done|cbn; rewrite Hlast; by vm_compute|exact Hrun]. by rewrite H2e, lookup_insert_eq.
Qed.

(** epoll has just refused to register [fd] for reading under [a]; all that
    was done after that is to print why. *)
Definition unregistered (fd : Z) (a : positive) (e' : E) : Prop :=
  ∃ op e1 e2 t, sys_epoll_ctl (pollfd p) op fd (Some (u32 (newmask_of EVMASK_READ), a)) e1 = (-1, e2) ∧
    e' = put_stdout t e2.

(** The callback of the listener gives the socket its own, and turns it on. *)
Lemma acceptor_run a s ev l (e : E) :
  sockets e !! a = Some s → events e !! a = Some ev → s_enabled s = 0 → ev_last_mask ev = 0 →
  listeners e !! lstn = Some l → l_loop l = true → owned p e →
  ∃ m e', acceptor lstn a e = Ret (tt, e') ∧
    events e' = <[a := ev_set_last_mask m (ev_set_mask EVMASK_READ ev)]> (events e) ∧
    sockets e' = <[a := mk_socket true (istm s) (ostm s) (timeout s) (Some ecprocessor_id) 1 (sockname s) (peername s)]>
                   (sockets e) ∧
    (∀ fd, rest sent refusal fd e' = rest sent refusal fd e) ∧
    (interest e' = <[ev_fd ev := (u32 (newmask_of EVMASK_READ), a)]> (interest e) ∨
     interest e' = interest e ∧ unregistered (ev_fd ev) a e').
Proof.
  intros Hs Hev Hen Hlast Hl Hloop Hown. unfold acceptor. autorewrite with run.
  match goal with |- context [upd_socket a ?f e] => set (f1 := f) end.
  destruct (upd_socket_apart a f1 s e Hs) as (e1 & -> & Hst1 & Hap1). injection Hst1 as H1e H1s. autorewrite with run.
  match goal with |- context [printf ?t e1] => destruct (printf_apart t e1) as (e2 & -> & Hst2 & Hap2) end.
  injection Hst2 as H2e H2s. autorewrite with run. pose proof (apart_trans _ _ _ Hap1 Hap2) as Hap.
  unfold listener_loop, get_listener. autorewrite with run. rewrite (apart_listeners _ _ Hap), Hl. autorewrite with run.
  rewrite Hloop. match goal with |- context [upd_socket a ?f e2] => set (f2 := f) end.
  destruct (upd_socket_apart a f2 (f1 s) e2) as (e3 & -> & Hst3 & Hap3); [by rewrite H2s, H1s, lookup_insert_eq|].
  injection Hst3 as H3e H3s. autorewrite with run. pose proof (apart_trans _ _ _ Hap Hap3) as Hap'.
  destruct (enable_new_run a (f2 (f1 s)) ev e3) as (r & m & e4 & -> & H4e & H4s & Hr & Hi);
    [by rewrite H3s, lookup_insert_eq|by rewrite H3e, H2e, H1e|done|done|done
    |eapply owned_core; [by apply apart_core|done]|].
  rewrite H3s, H2s, H1s, !insert_insert_eq in H4s. rewrite H3e, H2e, H1e in H4e. rewrite (proj2 Hap') in Hi.
  assert (∀ fd, rest sent refusal fd e4 = rest sent refusal fd e) as Hr4 by (intros fd; by rewrite Hr, (proj1 Hap')).
  autorewrite with run. destruct (Z.eqb_spec r 0) as [->|Hr0]; cbn [negb].
  - autorewrite with run. exists m, e4. split; [done|]. split; [done|]. split; [done|]. split; [done|].
    destruct Hi as [Hi|[? _]]; [by left|done].
  - unfold errno. autorewrite with run.
    match goal with |- context [printf ?t e4] => destruct (printf_apart t e4) as (e5 & Hpr & Hst5 & Hr5 & Hi5) end.
    rewrite Hpr. injection Hpr as He5.
    injection Hst5 as H5e H5s. exists m, e5. split; [done|]. split; [congruence|]. split; [by rewrite H5s, H4s|].
    split; [intros fd; by rewrite Hr5|]. rewrite Hi5.
    destruct Hi as [Hi|(_ & Hi & op & e0 & Hctl)]; [by left|right]. split; [done|]. by eexists op, e0, e4, _.
Qed.

Context {K : Type} (kernel : E → K) `{!StoresFrame E kernel}.

(** What was sent and refused on a descriptor. *)
Abbreviation link fd := (both (sent fd) (refusal fd)).

(** Once the connection was accepted and before it has a socket: only the masks
    of the listener's event changed, and what the new descriptor stands for. *)
Definition midway (fd : Z) (e e2 : E) : Prop :=
  (∃ ev, events e2 = <[lstn := ev]> (events e) ∧ ev_cb ev = Some _accept_dispatch ∧ ev_fd ev = lfd) ∧
  sockets e2 = sockets e ∧ core e2 = core e ∧ listeners e2 = listeners e ∧ interest e2 = interest e ∧
  sent fd e2 = [] ∧ ∀ fd', fd' ≠ fd → link fd' e2 = link fd' e.

(** The connection was accepted, but the allocator refused the memory for its
    socket; the last thing done is that its descriptor is closed. *)
Definition turned_away (fd : Z) (name : list byte) (e' : E) : Prop :=
  ∃ e1 e2 e3 addr, sys_accept4 lfd sizeof_union (Z.lor SOCK_CLOEXEC SOCK_NONBLOCK) e1 = (fd, name, e2) ∧
    socket_new_from_fd fd (Some addr) (Some (peer_name name)) e2 = Ret (None, e3) ∧
    can_refuse E ∧ e' = snd (sys_close fd e3).

(** In the end the connection is served by a new socket, registered if epoll
    takes it, or it is refused; everybody else goes on as before. *)
Definition accepted (fd : Z) (name : list byte) (e e' : E) : Prop :=
  sockets_ok e' ∧ listening_on lstn lfd e' ∧ core e' = core e ∧ (∀ fd', fd' ≠ fd → link fd' e' = link fd' e) ∧
  (∀ b, b ≠ lstn → is_Some (events e !! b) → events e' !! b = events e !! b ∧ sockets e' !! b = sockets e !! b) ∧
  ((∃ a s, events e !! a = None ∧ serving fd (sent fd) a ([], []) e' ∧ settled (refusal fd) Some a e' ∧
      sockets e' = <[a := s]> (sockets e) ∧
      (interest e' = <[fd := (u32 (newmask_of EVMASK_READ), a)]> (interest e) ∨
       interest e' = interest e ∧ unregistered fd a e')) ∨
   sockets e' = sockets e ∧ turned_away fd name e').

Lemma rest_link fd (e e' : E) : rest sent refusal fd e' = rest sent refusal fd e → link fd e' = link fd e.
Proof. apply (f_equal snd). Qed.

Lemma link_sent fd (e e' : E) : link fd e' = link fd e → sent fd e' = sent fd e.
Proof. apply (f_equal fst). Qed.

Lemma link_refusal fd (e e' : E) : link fd e' = link fd e → refusal fd e' = refusal fd e.
Proof. apply (f_equal snd). Qed.

(** A client that nobody touches. *)
Lemma client_keeps fd a st (e e' : E) :
  serving fd (sent fd) a st e ∧ settled (refusal fd) Some a e → events e' !! a = events e !! a →
  sockets e' !! a = sockets e !! a → link fd e' = link fd e →
  serving fd (sent fd) a st e' ∧ settled (refusal fd) Some a e'.
Proof.
  intros [Hs Hset] He Hso Hl. split; [eapply serving_keeps|eapply settled_keeps]; try done; [by apply link_sent|by apply link_refusal].
Qed.

Lemma rest_listeners fd (e e' : E) : rest sent refusal fd e' = rest sent refusal fd e → listeners e' = listeners e.
Proof. apply (f_equal (λ x, snd (fst x))). Qed.

Lemma entry_accepts fuel l ev fd name (e : E) :
  listeners e !! lstn = Some l → events e !! lstn = Some ev → Listener.acceptor l = Some acceptor_id →
  l_flags l = Z.lor SOCK_CLOEXEC SOCK_NONBLOCK → ev_cb ev = Some _accept_dispatch → ev_fd ev = lfd →
  fd ≠ -1 → 2 ≤ zlen name ≤ sizeof_union →
  (∀ e2, kernel e2 = kernel e →
    ∃ e3, sys_accept4 lfd sizeof_union (Z.lor SOCK_CLOEXEC SOCK_NONBLOCK) e2 = (fd, name, e3) ∧ sent fd e3 = []) →
  ∃ e1 e2, sys_accept4 lfd sizeof_union (Z.lor SOCK_CLOEXEC SOCK_NONBLOCK) e1 = (fd, name, e2) ∧ midway fd e e2 ∧
   handle p lstn fuel (Connect fd name) e =
    match socket_new_from_fd fd (Some (l_addr l)) (Some (peer_name name)) e2 with
    | Ret (Some sock, e3) => acceptor lstn sock e3
    | Ret (None, e3) => Ret (tt, snd (sys_close fd e3))
    | UB => UB
    | Hang => Hang
    end.
Proof.
  intros Hl Hev Hacc Hflags Hcb Hlfd Hfd Hname Haccept.
  unfold handle, entry. cbn [poll_loop]. autorewrite with run. rewrite (upd_event_run _ _ ev) by done. autorewrite with run.
  rewrite (upd_event_run _ _ (ev_set_last_mask (i32 DEFAULT_POLL_MASK) ev)) by (by apply upd_get).
  autorewrite with run events. rewrite insert_insert_eq.
  set (ev1 := ev_set_mask _ _). set (e1 := put_events _ e).
  assert (apart e e1) as Hap1 by apply apart_events.
  assert (events e1 = <[lstn := ev1]> (events e)) as H1e by apply events_put.
  assert (sockets e1 = sockets e) as H1s by apply sockets_put_events.
  assert (kernel e1 = kernel e) as H1k by apply (sf_events (view := kernel)). clearbody e1.
  unfold _dispatch. autorewrite with run. rewrite (get_event_run _ ev1) by by rewrite H1e, lookup_insert_eq.
  autorewrite with run. change (ev_cb ev1) with (ev_cb ev). rewrite Hcb. cbn [run_cb echo_call].
  destruct (Haccept e1 H1k) as (e2 & Hacc4 & Hsent2). exists e1, e2. split; [done|]. split.
  - pose proof (kf_accept4 (view := events) lfd sizeof_union (Z.lor SOCK_CLOEXEC SOCK_NONBLOCK) e1) as Hk1.
    pose proof (kf_accept4 (view := sockets) lfd sizeof_union (Z.lor SOCK_CLOEXEC SOCK_NONBLOCK) e1) as Hk2.
    rewrite Hacc4 in Hk1, Hk2. cbn [snd] in Hk1, Hk2.
    assert (∀ fd', fd' ≠ fd → rest sent refusal fd' e2 = rest sent refusal fd' e ∧ interest e2 = interest e) as Hr.
    { intros fd' Hne. rewrite <- (proj1 Hap1 fd'), <- (proj2 Hap1). by eapply rest_accept4. }
    destruct (Hr (fd + 1) (other_fd fd)) as [Hr1 Hi1]. split; [exists ev1; by rewrite Hk1|].
    split_and!; [by rewrite Hk2|by eapply rest_core|by eapply rest_listeners|done|done|].
    intros fd' Hne. by apply rest_link, Hr.
  - rewrite (accept_eq accept_call lstn l acceptor_id ev1 fd name e1 e2);
      [|by rewrite (apart_listeners _ _ Hap1)|done|done|by rewrite H1e, lookup_insert_eq
      |by change (ev_fd ev1) with (ev_fd ev); rewrite Hlfd|done|done].
    destruct (socket_new_from_fd _ _ _ e2) as [[[sock|] e3]| |]; autorewrite with run; [|done..].
    unfold accept_call. cbn [Z.eqb acceptor_id Pos.eqb]. by destruct (acceptor lstn sock e3) as [[[] e4]| |].
Qed.

Lemma socket_new_apart fd sn pn r (e e' : E) : socket_new_from_fd fd sn pn e = Ret (r, e') → apart e e'.
Proof.
  intros Hnew. split; [intros fd'|]; (eapply socket_new_view; [..|exact Hnew]); intros.
  all: first [apply (sf_malloc (view := rest sent refusal fd'))|apply (sf_errno (view := rest sent refusal fd'))
    |apply (sf_sockets (view := rest sent refusal fd'))|apply (sf_events (view := rest sent refusal fd'))
    |apply (sf_malloc (view := interest))|apply (sf_errno (view := interest))
    |apply (sf_sockets (view := interest))|apply (sf_events (view := interest))].
Qed.

(** A listener whose event keeps its callback and its descriptor. *)
Lemma listening_keeps ev (e e' : E) :
  listening_on lstn lfd e → listeners e' = listeners e → events e' !! lstn = Some ev →
  ev_cb ev = Some _accept_dispatch → ev_fd ev = lfd → listening_on lstn lfd e'.
Proof.
  intros (l & ev0 & ln & Hl & _ & Hacc & Hflags & Hloop & Hln & _) Hle Hev Hcb Hfd. exists l, ev, ln. by rewrite Hle.
Qed.

Lemma served_accepted fd l name t a i o (e e2 e3 : E) :
  midway fd e e2 → apart e2 e3 → sockets_ok e → owned p e → listening_on lstn lfd e → listeners e !! lstn = Some l →
  name_string (peer_name name) = Ret t → events e2 !! a = None →
  events e3 = <[a := mk_event fd EVMASK_NONE (Some _sock_dispatch) 0 0 None]> (events e2) →
  sockets e3 = <[a := mk_socket false (Some i) (Some o) 60000 None 0 (l_addr l) (peer_name name)]> (sockets e2) →
  fresh_stream fd i → fresh_stream fd o →
  ∃ e', acceptor lstn a e3 = Ret (tt, e') ∧ accepted fd name e e'.
Proof.
  intros ((ev & H2e & Hcb & Hlfd) & H2s & H2c & H2l & H2i & H2n & H2t) Hap Hok Hown Hlis Hl Ht Hfresh H3e H3s
    (Hii & Hli & _ & Hwi & Hci & _) (Hoo & Hlo & _ & Hwo & Hco & _).
  pose proof Hlis as (l0 & ev0 & ln & Hl0 & _ & _ & _ & Hloop & Hln & _). assert (l0 = l) as -> by congruence.
  pose proof (apart_core _ _ Hap) as H3c. pose proof (apart_listeners _ _ Hap) as H3l.
  rewrite H2e in Hfresh. apply lookup_insert_None in Hfresh as [Hfresh Hne].
  edestruct (acceptor_run a) as (m & e4 & -> & H4e & H4s & H4r & H4i);
    [by rewrite H3s, lookup_insert_eq|by rewrite H3e, lookup_insert_eq|done|done|by rewrite H3l, H2l|done
    |eapply owned_core; [|done]; congruence|].
  rewrite H3e, insert_insert_eq, H2e in H4e. rewrite H3s, insert_insert_eq, H2s in H4s.
  rewrite (proj2 Hap), H2i in H4i. exists e4. split; [done|]. split_and!.
  - intros b. rewrite H4s, H4e, !lookup_insert_is_Some'. intros [Hb|Hb]; [by left|]. right. right. by apply Hok.
  - apply (listening_keeps ev e); [done| |by rewrite H4e, lookup_insert_ne, lookup_insert_eq|done|done].
    rewrite (rest_listeners 0 e3 e4 (H4r 0)). congruence.
  - rewrite (rest_core 0 e3 e4 (H4r 0)). congruence.
  - intros fd' Hfd'. rewrite (rest_link fd' e3 e4), (rest_link fd' e2 e3); [by apply H2t|apply Hap|done].
  - intros b Hb Hsome. assert (b ≠ a) by (intros ->; rewrite Hfresh in Hsome; by destruct Hsome).
    by rewrite H4e, H4s, !lookup_insert_ne.
  - left. eexists a, _. split; [done|]. split; [|split; [|split; [exact H4s|done]]].
    2:{ eexists _, o. rewrite H4s, lookup_insert_eq. split; [done|]. split; [done|]. by left. }
    eexists _, _, i, o, ln, t. rewrite H4s, H4e, !lookup_insert_eq. unfold stream_ok. split_and!; try done.
    cbn [snd]. rewrite Hco, app_nil_r.
    rewrite (link_sent fd e3 e4), (link_sent fd e2 e3); [done|apply rest_link, Hap|by apply rest_link].
Qed.

Lemma refused_accepted fd name addr (e e1 e2 e3 : E) :
  sys_accept4 lfd sizeof_union (Z.lor SOCK_CLOEXEC SOCK_NONBLOCK) e1 = (fd, name, e2) →
  socket_new_from_fd fd (Some addr) (Some (peer_name name)) e2 = Ret (None, e3) → midway fd e e2 → apart e2 e3 → sockets_ok e → listening_on lstn lfd e →
  events e3 = events e2 → sockets e3 = sockets e2 → accepted fd name e (snd (sys_close fd e3)).
Proof.
  intros Hacc Hnew ((ev & H2e & Hcb & Hlfd) & H2s & H2c & H2l & H2i & H2n & H2t) Hap Hok Hlis H3e H3s.
  assert (events (snd (sys_close fd e3)) = events e3 ∧ sockets (snd (sys_close fd e3)) = sockets e3) as [H4e H4s]
    by (split; [apply (kf_close (view := events))|apply (kf_close (view := sockets))]).
  pose proof (λ fd', rest_close fd fd' e3) as H4r.
  assert (turned_away fd name (snd (sys_close fd e3))) as Haway.
  { exists e1, e2, e3, addr. split; [done|]. split; [done|]. split; [|done]. by eapply socket_new_none. }
  set (e4 := snd (sys_close fd e3)) in *. clearbody e4.
  rewrite H3e, H2e in H4e. rewrite H3s, H2s in H4s. unfold accepted. split_and!.
  - intros b. rewrite H4s, H4e, lookup_insert_is_Some'. right. by apply Hok.
  - apply (listening_keeps ev e); [done| |by rewrite H4e, lookup_insert_eq|done|done].
    rewrite (rest_listeners 0 e3 e4 (H4r 0)), (apart_listeners _ _ Hap). done.
  - rewrite (rest_core 0 e3 e4 (H4r 0)), (apart_core _ _ Hap). done.
  - intros fd' Hfd'. rewrite (rest_link fd' e3 e4), (rest_link fd' e2 e3); [by apply H2t|apply Hap|done].
  - intros b Hb _. by rewrite H4e, H4s, lookup_insert_ne.
  - right. split; [exact H4s|done].
Qed.

(** A report of the listener. *)
Lemma connect_run fuel fd name t (e : E) :
  sockets_ok e → owned p e → listening_on lstn lfd e →
  fd ≠ -1 → 2 ≤ zlen name ≤ sizeof_union → name_string (peer_name name) = Ret t →
  (∀ e2, kernel e2 = kernel e →
    ∃ e3, sys_accept4 lfd sizeof_union (Z.lor SOCK_CLOEXEC SOCK_NONBLOCK) e2 = (fd, name, e3) ∧ sent fd e3 = []) →
  ∃ e', handle p lstn fuel (Connect fd name) e = Ret (tt, e') ∧ accepted fd name e e'.
Proof.
  intros Hok Hown Hlis Hfd Hname Ht Haccept. pose proof Hlis as (l & ev & _ & Hl & Hev & Hacc & Hflags & _ & _ & Hcb & Hlfd).
  destruct (entry_accepts fuel l ev fd name e) as (e1 & e2 & Hacc4 & Hmid & ->); [done..|].
  pose proof Hmid as ((ev1 & H2e & _) & H2s & _).
  destruct (socket_new_run fd (Some (l_addr l)) (Some (peer_name name)) e2) as (r & e3 & Hnew & Hr);
    [by rewrite H2e, H2s; intros b Hb; apply Hok in Hb; rewrite lookup_insert_is_Some'; right|].
  pose proof (socket_new_apart _ _ _ _ _ _ Hnew) as Hap. rewrite Hnew. destruct r as [a|].
  - destruct Hr as (i & o & Hfresh & H3e & H3s & Hi & Ho). by eapply served_accepted.
  - destruct Hr as [H3e H3s]. eexists. split; [done|]. by eapply refused_accepted.
Qed.

(** A report of a client. *)
Lemma data_run fuel a fd st d (e : E) :
  serving fd (sent fd) a st e → settled (refusal fd) Some a e → fits fuel a st d e → 0 < zlen d < 2 ^ 31 →
  (∀ lens e2, kernel e2 = kernel e → zlen d ≤ total lens → ∃ e3, sys_readv fd lens e2 = (zlen d, d, e3)) →
  ∃ e', handle p lstn fuel (Data a d) e = Ret (tt, e') ∧
    (serving fd (sent fd) a (echo_step st d) e' ∧ settled (refusal fd) Some a e') ∧
    (∀ fd', fd' ≠ fd → rest sent refusal fd' e' = rest sent refusal fd' e) ∧
    (∀ b, b ≠ a → events e' !! b = events e !! b ∧ sockets e' !! b = sockets e !! b).
Proof.
  intros Hs Hset Hfits Hd Hread. unfold handle, entry.
  assert (∀ fd', fd' ≠ fd → ∃ e', poll_loop (_dispatch (echo_call fuel)) p [(EPOLLIN, a)] e = Ret (tt, e') ∧
    (serving fd (sent fd) a (echo_step st d) e' ∧ settled (refusal fd) Some a e') ∧ rest sent refusal fd' e' = rest sent refusal fd' e ∧
    (∀ b, b ≠ a → events e' !! b = events e !! b ∧ sockets e' !! b = sockets e !! b)) as Hrun.
  { intros fd' Hne. pose proof (rest_echo fd fd' (not_eq_sym Hne)).
    destruct (entry_run fd (sent fd) (refusal fd) Some (rest sent refusal fd') kernel fuel p a st d e)
      as (e' & ? & ? & ? & ? & ?); [done..|]. by exists e'. }
  destruct (Hrun (fd + 1) (other_fd fd)) as (e' & Hr & Hs' & _ & Hother). exists e'. split; [done|]. split; [done|].
  split; [|done]. intros fd' Hne. destruct (Hrun fd' Hne) as (e'' & Hr' & _ & Hrest & _).
  rewrite Hr in Hr'. injection Hr' as <-. exact Hrest.
Qed.

(** The listener is not a client. *)
Lemma lstn_no_client fd sent_fd st (e : E) : listening_on lstn lfd e → ¬ serving fd sent_fd lstn st e.
Proof.
  intros (? & ev' & ? & _ & Hev' & _ & _ & _ & _ & Hcb' & _) (? & ev & _ & _ & _ & _ & _ & Hev & Hcb & _). congruence.
Qed.

(** A connection adds a client at an address that nothing used, or nobody. *)
Lemma connect_keeps fuel C fd name (e : E) :
  server sent refusal p lstn lfd C e → answers sent lfd kernel fuel C (Connect fd name) e →
  ∃ e', handle p lstn fuel (Connect fd name) e = Ret (tt, e') ∧ core e' = core e ∧
    ((∃ a, events e !! a = None ∧ C !! a = None ∧ server sent refusal p lstn lfd (<[a := (fd, ([], []))]> C) e' ∧
        (interest e' = <[fd := (u32 (newmask_of EVMASK_READ), a)]> (interest e) ∨
         interest e' = interest e ∧ unregistered fd a e')) ∨
     server sent refusal p lstn lfd C e' ∧ sockets e' = sockets e ∧ turned_away fd name e').
Proof.
  intros (Hp & Hown & Hok & Hlis & Hserv & Hinj & Hall) (Hfd & Hname & (t & Ht) & Hnew & Haccept).
  destruct (connect_run fuel fd name t e) as (e' & Hrun & Hok' & Hlis' & Hc & Hsent & Hother & Hcase); [done..|].
  assert (∀ b fd' st, C !! b = Some (fd', st) →
    serving fd' (sent fd') b st e' ∧ settled (refusal fd') Some b e') as Hserv'.
  { intros b fd' st Hb. pose proof (Hserv b fd' st Hb) as Hs.
    pose proof Hs as [(s & ev & _ & _ & _ & _ & Hso & Hev & _) _].
    destruct (Hother b) as [He' Hs']; [|by rewrite Hev|].
    { intros ->. by apply (lstn_no_client fd' (sent fd') st e Hlis), Hs. }
    eapply client_keeps; [exact Hs|done|done|]. by apply Hsent, (Hnew b fd' st). }
  assert (polls p e') as Hp' by (unfold polls; by rewrite (core_loop _ _ Hc)).
  assert (owned p e') as Hown' by by eapply owned_core.
  exists e'. split; [done|]. split; [done|]. destruct Hcase as [(a & s & Hfresh & Hs & Hset & Hso & Hi)|[Hso Haway]].
  2:{ right. split; [|done]. split_and!; try done. by rewrite Hso. }
  left.
  exists a. split; [done|]. split; [|split; [split_and!; [done..| | |]|done]].
  - destruct (C !! a) as [[fd' st]|] eqn:Hc'; [|done]. destruct (Hserv _ _ _ Hc') as [(? & ev & _ & _ & _ & _ & _ & Hev & _) _].
    congruence.
  - intros b fd' st [[<- [= <- <-]]|[_ Hb]]%lookup_insert_Some; [done|by apply Hserv'].
  - intros b c fd' st st' [[<- [= <- <-]]|[_ Hb]]%lookup_insert_Some [[<- Hx]|[_ Hc']]%lookup_insert_Some.
    + done.
    + by destruct (Hnew c fd st').
    + injection Hx as -> _. by destruct (Hnew b fd' st).
    + by eapply Hinj.
  - intros b u. rewrite Hso. intros [[<- _]|[Hne Hb]]%lookup_insert_Some Hcb.
    + rewrite lookup_insert_eq. eauto.
    + rewrite lookup_insert_ne by done. by eapply Hall.
Qed.

(** Bytes of a client concern that client. *)
Lemma data_keeps fuel C a d (e : E) :
  server sent refusal p lstn lfd C e → answers sent lfd kernel fuel C (Data a d) e →
  ∃ fd st e', C !! a = Some (fd, st) ∧ handle p lstn fuel (Data a d) e = Ret (tt, e') ∧ core e' = core e ∧
    server sent refusal p lstn lfd (<[a := (fd, echo_step st d)]> C) e'.
Proof.
  intros (Hp & Hown & Hok & Hlis & Hserv & Hinj & Hall) (fd & st & Ha & Hfits & Hd & Hread).
  destruct (Hserv _ _ _ Ha) as [Hs Hset].
  destruct (data_run fuel a fd st d e Hs Hset Hfits Hd Hread) as (e' & Hrun & Hs' & Hrest & Hother).
  pose proof (Hrest (fd + 1) (other_fd fd)) as Hr. pose proof (rest_core _ _ _ Hr) as Hc.
  assert (a ≠ lstn) as Hne by (intros ->; by eapply lstn_no_client).
  exists fd, st, e'. split; [done|]. split; [done|]. split; [done|]. split_and!.
  - unfold polls. by rewrite (core_loop _ _ Hc).
  - by eapply owned_core.
  - intros b Hb. destruct (decide (b = a)) as [->|Hba].
    + destruct Hs' as [(? & ev & _ & _ & _ & _ & _ & -> & _) _]. eauto.
    + destruct (Hother b Hba) as [He Hso]. rewrite He. apply Hok. by rewrite <- Hso.
  - pose proof Hlis as (l & ev & ln & Hl & Hev & _ & _ & _ & _ & Hcb & Hlfd).
    apply (listening_keeps ev e); [done|by eapply rest_listeners| |done|done].
    by rewrite (proj1 (Hother lstn (not_eq_sym Hne))).
  - intros b fd' st' [[<- [= <- <-]]|[Hab Hb]]%lookup_insert_Some; [done|].
    destruct (Hother b (not_eq_sym Hab)) as [He Hso]. eapply client_keeps; [by apply Hserv|done|done|].
    apply rest_link, Hrest. intros ->. by eapply Hab, Hinj.
  - intros b c fd' st1 st2 [[<- [= <- <-]]|[Hab Hb]]%lookup_insert_Some [[<- Hx]|[Hac Hc']]%lookup_insert_Some.
    + done.
    + by eapply Hinj.
    + injection Hx as -> _. by eapply Hinj.
    + by eapply Hinj.
  - intros b u Hb Hcb. destruct (decide (a = b)) as [<-|Hba]; [rewrite lookup_insert_eq; eauto|].
    rewrite lookup_insert_ne by done. rewrite (proj2 (Hother b (not_eq_sym Hba))) in Hb. by eapply Hall.
Qed.

(** One report keeps the state of the server. *)
Lemma handle_run fuel C r (e : E) :
  server sent refusal p lstn lfd C e → answers sent lfd kernel fuel C r e →
  ∃ C' e', handle p lstn fuel r e = Ret (tt, e') ∧ server_step (can_refuse E) C r C' ∧ server sent refusal p lstn lfd C' e' ∧
    core e' = core e.
Proof.
  intros Hs Hans. destruct r as [fd name|a d].
  - destruct (connect_keeps fuel C fd name e Hs Hans) as (e' & Hrun & Hc & [(a & _ & Ha & Hs' & _)|(Hs' & _ & Haway)]).
    + exists (<[a := (fd, ([], []))]> C), e'. split; [done|]. split; [by constructor|]. done.
    + exists C, e'. split; [done|]. split; [|done].
      destruct Haway as (? & ? & ? & ? & _ & _ & Hscarce & _). by constructor.
  - destruct (data_keeps fuel C a d e Hs Hans) as (fd & st & e' & Ha & Hrun & Hc & Hs').
    exists (<[a := (fd, echo_step st d)]> C), e'. split; [done|]. split; [by constructor|]. done.
Qed.

Lemma poll_loop_cons disp x l (e e1 : E) :
  poll_loop disp p [x] e = Ret (tt, e1) → poll_loop disp p (x :: l) e = poll_loop disp p l e1.
Proof.
  destruct x as [mask a]. cbn [poll_loop]. autorewrite with run.
  destruct (upd_event a _ e) as [[[] e2]| |]; [|done..]. autorewrite with run.
  destruct (upd_event a _ e2) as [[[] e3]| |]; [|done..]. autorewrite with run.
  destruct (disp p a (poll_ud p) e3) as [[[] e4]| |]; [|done..]. autorewrite with run. by intros [= ->].
Qed.

Lemma handle_all fuel C rs (e : E) :
  server sent refusal p lstn lfd C e → all_answers sent refusal p lstn lfd kernel fuel C rs e →
  ∃ C' e', poll_loop (_dispatch (echo_call fuel)) p (entry lstn <$> rs) e = Ret (tt, e') ∧
    server_steps (can_refuse E) C rs C' ∧ server sent refusal p lstn lfd C' e' ∧ core e' = core e.
Proof.
  revert C e. induction rs as [|r rs IH]; intros C e Hs Ha.
  { exists C, e. split; [done|]. split; [constructor|]. done. }
  destruct Ha as [Hans Hnext]. destruct (handle_run fuel C r e Hs Hans) as (C1 & e1 & Hrun & Hstep & Hs1 & Hc1).
  destruct (IH C1 e1 Hs1 (Hnext _ _ Hrun Hstep Hs1)) as (C2 & e2 & Hruns & Hsteps & Hs2 & Hc2).
  exists C2, e2. split; [|split; [by econstructor|split; [done|congruence]]].
  cbn [fmap list_fmap].
  by rewrite (poll_loop_cons _ (entry lstn r) (entry lstn <$> rs) e e1 Hrun).
Qed.

(** Waiting changes nothing but the kernel. *)
Lemma wait_keeps n l (e e1 : E) :
  sys_epoll_wait (pollfd p) MAX_POLL_EVENT (-1) e = (n, l, e1) → stores e1 = stores e ∧ apart e e1.
Proof.
  intros Hwait.
  assert (∀ fd, world (both (sent (fd + 1)) (refusal (fd + 1))) (rest sent refusal fd) e1 = world (both (sent (fd + 1)) (refusal (fd + 1))) (rest sent refusal fd) e) as Hw.
  { intros fd. pose proof (rest_echo _ fd (other_fd fd)) as Hecho.
    pose proof (world_wait (obs := both (sent (fd + 1)) (refusal (fd + 1))) (view := rest sent refusal fd) (pollfd p) MAX_POLL_EVENT (-1) e) as Hw.
    by rewrite Hwait in Hw. }
  split; [exact (f_equal (λ x, fst (fst x)) (Hw 0))|]. split; [intros fd; exact (f_equal snd (Hw fd))|].
  pose proof (ground_wait (interest := interest) (pollfd p) MAX_POLL_EVENT (-1) e) as Hg. rewrite Hwait in Hg.
  exact (f_equal snd Hg).
Qed.

Lemma server_keeps C (e e' : E) :
  server sent refusal p lstn lfd C e → stores e' = stores e → apart e e' → server sent refusal p lstn lfd C e'.
Proof.
  intros (Hp & Hown & Hok & Hlis & Hserv & Hinj & Hall) [= He Hs] Hap. pose proof (apart_core _ _ Hap) as Hc. split_and!.
  - unfold polls. by rewrite (core_loop _ _ Hc).
  - by eapply owned_core.
  - intros a. rewrite He, Hs. apply Hok.
  - pose proof Hlis as (l & ev & ln & _ & Hev & _ & _ & _ & _ & Hcb & Hlfd).
    apply (listening_keeps ev e); [done|by apply apart_listeners|by rewrite He|done|done].
  - intros a fd st Ha. eapply client_keeps; [by apply Hserv|by rewrite He|by rewrite Hs|]. by apply rest_link, Hap.
  - done.
  - by rewrite Hs.
Qed.

Lemma server_round fuel C rs (e : E) :
  server sent refusal p lstn lfd C e → reported sent refusal p lstn lfd kernel fuel C rs e → (0 < fuel)%nat →
  ∃ C' e', loop_round (echo_call fuel) fuel e = Ret (tt, e') ∧ server_steps (can_refuse E) C rs C' ∧
    server sent refusal p lstn lfd C' e' ∧ core e' = core e.
Proof.
  intros Hs (Hne & e1 & Hwait & Hans) Hf. destruct (wait_keeps _ _ _ _ Hwait) as [Hst Hap].
  destruct (handle_all fuel C rs e1) as (C' & e2 & Hrun & Hsteps & Hs2 & Hc2); [by eapply server_keeps|done|].
  exists C', e2. split.
  - rewrite <- (length_fmap (entry lstn) rs) in Hwait.
    refine (loop_round_run fuel p _ e e1 e2 (proj1 Hs) Hwait _ Hrun (proj1 Hs2) Hf). by destruct rs.
  - split; [done|]. split; [done|]. rewrite Hc2. by apply apart_core.
Qed.

Lemma server_rounds fuel C rss (e : E) :
  server sent refusal p lstn lfd C e → running (get_loop e) ≠ 0 → (0 < fuel)%nat →
  all_reported sent refusal p lstn lfd kernel fuel C rss e →
  ∃ C' e', rounds (loop_round (echo_call fuel) fuel) (length rss) e e' ∧ server_steps (can_refuse E) C (concat rss) C' ∧
    server sent refusal p lstn lfd C' e' ∧ core e' = core e.
Proof.
  intros Hs Hrun Hf. revert C e Hs Hrun. induction rss as [|rs rss IH]; intros C e Hs Hrun Ha.
  { exists C, e. split; [constructor|]. split; [constructor|]. done. }
  destruct Ha as [Hrep Hnext]. destruct (server_round fuel C rs e Hs Hrep Hf) as (C1 & e1 & Hround & Hsteps & Hs1 & Hc1).
  destruct (IH C1 e1 Hs1) as (C2 & e2 & Hrounds & Hsteps2 & Hs2 & Hc2);
    [by rewrite (core_loop _ _ Hc1)|by apply Hnext|].
  exists C2, e2. split; [by econstructor|]. split; [by eapply steps_app|]. split; [done|congruence].
Qed.

(** * Theorems *)

(** C1: a round of the loop refines the specification of a server of many
    clients, as long as what a client sends fits in both its buffers: when the
    poll reports any number of connections and of bytes of clients, the round
    returns, every report is one step of the specification, in order (a
    connection is refused only where the allocator can refuse), and in the end
    each client's socket has the streams that the specification says, on its
    own descriptor.  What was answered was sent, but for what the descriptor
    refused when it was tried last: the output stream of every client is empty
    or was refused as a whole.  What is done for one client is not seen by
    another. *)
Theorem server_round_refines fuel C rs (e : E) :
  server sent refusal p lstn lfd C e → reported sent refusal p lstn lfd kernel fuel C rs e → (0 < fuel)%nat →
  ∃ C' e', loop_round (echo_call fuel) fuel e = Ret (tt, e') ∧ server_steps (can_refuse E) C rs C' ∧
    server sent refusal p lstn lfd C' e' ∧ core e' = core e.
Proof. apply server_round. Qed.

(** C11: over any number of rounds of the loop, from the start with no client, no
    byte of a client is lost, added, reordered or sent to another, if no client
    sends a null byte and all that comes in fits in the buffers: what was sent on
    a client's descriptor, what waits in its output stream and what waits in its
    input stream are together the bytes that it sent.  Nothing waits in the
    output stream but what the descriptor refused. *)
Theorem server_conserves fuel rss (e : E) :
  server sent refusal p lstn lfd ∅ e → running (get_loop e) ≠ 0 → (0 < fuel)%nat →
  all_reported sent refusal p lstn lfd kernel fuel ∅ rss e → Forall no_null (concat rss) →
  ∃ C e', rounds (loop_round (echo_call fuel) fuel) (length rss) e e' ∧ server_steps (can_refuse E) ∅ (concat rss) C ∧
    ∀ a fd st, C !! a = Some (fd, st) → ∃ s i o,
      sockets e' !! a = Some s ∧ istm s = Some i ∧ ostm s = Some o ∧
      sent fd e' ++ contents (sbuf o) ++ contents (sbuf i) = cells (from a (concat rss)) ∧
      flushed (refusal fd) Some o e'.
Proof.
  intros Hs Hrun Hf Hrep Hnull. destruct (server_rounds fuel ∅ rss e Hs Hrun Hf Hrep) as (C & e' & Hr & Hsteps & Hs' & _).
  exists C, e'. split; [done|]. split; [done|]. intros a fd st Ha. destruct Hs' as (_ & _ & _ & _ & Hserv & _).
  destruct (Hserv a fd st Ha) as [(s & ev & i & o & l & q & Hso & _ & _ & _ & Hi & Ho & _ & _ & _ & _ & Hc & Hsent & _)
    (s' & o' & Hso' & Ho' & Hflush)].
  assert (s' = s) as -> by congruence. assert (o' = o) as -> by congruence.
  exists s, i, o. split; [done|]. split; [done|]. split; [done|]. split; [|done].
  assert (∀ a fd st, (∅ : clients) !! a = Some (fd, st) → x00 ∉ fst st) as Hempty by (intros ???; by rewrite lookup_empty).
  pose proof (steps_conserve _ ∅ (concat rss) C a fd st Hsteps Hnull Hempty Ha) as Hcons.
  rewrite lookup_empty in Hcons. cbn [app] in Hcons. by rewrite app_assoc, Hsent, Hc, <- fmap_app, Hcons.
Qed.

(** C12: when a connection comes in, the round accepts it, and in the end a new
    socket at an address that nothing used serves it from the start, registered
    with epoll for reading under its own address, unless epoll just refused that;
    or the allocator refused the memory for it, the sockets are as before, and
    its descriptor is closed.  All other clients are served as before. *)
Theorem connection_is_served fuel C fd name (e : E) :
  server sent refusal p lstn lfd C e → reported sent refusal p lstn lfd kernel fuel C [Connect fd name] e →
  (0 < fuel)%nat →
  ∃ e', loop_round (echo_call fuel) fuel e = Ret (tt, e') ∧
    ((∃ a, events e !! a = None ∧ server sent refusal p lstn lfd (<[a := (fd, ([], []))]> C) e' ∧
        (interest e' = <[fd := (u32 (newmask_of EVMASK_READ), a)]> (interest e) ∨
         interest e' = interest e ∧ unregistered fd a e')) ∨
     server sent refusal p lstn lfd C e' ∧ sockets e' = sockets e ∧ turned_away fd name e').
Proof.
  intros Hs (_ & e1 & Hwait & Hans & _) Hf. destruct (wait_keeps _ _ _ _ Hwait) as [Hst Hap].
  destruct (connect_keeps fuel C fd name e1) as (e' & Hrun & Hc & Hcase); [by eapply server_keeps|done|].
  rewrite (proj2 Hap) in Hcase. injection Hst as He Hso. rewrite He, Hso in Hcase. exists e'. split.
  - refine (loop_round_run fuel p [entry lstn (Connect fd name)] e e1 e' (proj1 Hs) Hwait _ Hrun _ Hf); [done|].
    destruct Hcase as [(a & _ & _ & Hs' & _)|[Hs' _]]; exact (proj1 Hs').
  - destruct Hcase as [(a & ? & _ & ? & ?)|?]; [left|by right]. by exists a.
Qed.
End server_lemmas.

(** * The concrete environment *)

Definition desk_sent (fd : Z) (e : env desk) : block := output fd (e_host e).
Definition desk_refusal (fd : Z) (e : env desk) : option block := h_refused (e_host e) !! fd.
Definition desk_interest (e : env desk) : gmap Z (Z * positive) := h_interest (e_host e).

(** A write is seen on its own descriptor only. *)
Lemma desk_writev_rest fd fd' l (e : env desk) :
  fd ≠ fd' → rest desk_sent desk_refusal fd' (snd (sys_writev fd l e)) = rest desk_sent desk_refusal fd' e.
Proof.
  intros Hne. cbn. unfold on_host, note_refused, attempt, rest, both, desk_sent, desk_refusal, output, send.
  destruct (h_script (e_host e)) as [|x q]; [|destruct (x =? 0)]; cbn; rewrite ?lookup_insert_ne by done; try done.
  all: destruct (_ <=? 0); by rewrite ?lookup_insert_ne, ?lookup_delete_ne by done.
Qed.

#[export] Instance desk_held fd : HeldLaws (env desk) fd (desk_refusal fd) Some.
Proof.
  split.
  - by split.
  - intros l e. cbn. unfold on_host, attempt. cbn. destruct (h_script (e_host e)) as [|x q]; [done|].
    by destruct (x =? 0).
  - intros iov e n e'. cbn. unfold on_host. destruct (note_refused _ _ _ _) as [r h] eqn:Hn. intros [= <- <-] Hr.
    revert Hn. unfold note_refused. destruct (attempt _ _ _) as [r' h']. intros [= -> <-].
    unfold desk_refusal. cbn. destruct (Z.leb_spec r 0); [by rewrite lookup_insert_eq|lia].
Qed.

#[export] Instance desk_server_laws : ServerLaws (env desk) desk_sent desk_refusal desk_interest.
Proof.
  split.
  - intros fd fd' Hne. split; try done.
    + intros epfd max t e. cbn. unfold on_host. cbn. destruct (h_ready (e_host e)) as [|l r]; [done|].
      by destruct (_ && _).
    + intros l e. cbn. unfold on_host, attempt. cbn. destruct (h_script (e_host e)) as [|x q]; [done|].
      by destruct (x =? 0).
    + intros l e. by apply desk_writev_rest.
  - apply desk_held.
  - intros fd lfd n x name e e' fd'. cbn. unfold on_host, on_fd, attempt. cbn. destruct (decide _); [|by intros [= <- <- <-]].
    destruct (h_script (e_host e)) as [|y q]; [by intros [= <- <- <-]|]. destruct (y =? 0); by intros [= <- <- <-].
  - intros fd fd' e. cbn. unfold on_host. cbn. by destruct (decide _).
  - intros epfd op fd evt fd' e. cbn. unfold on_host. cbn. by destruct (ctl_effect _ _ _ _).
Qed.

(** A listener at 5 on descriptor 7, in the thread of the loop.  The first poll
    reports a connection; the second, a line from it and a connection more, with
    the start of a line in the third. *)
Definition server_host : host :=
  with_input (with_ready (with_open (with_interest (with_events host0 {[5%positive := lstn_event]})
      {[7 := (u32 (newmask_of EVMASK_READ), 5%positive)]}) {[7]})
    [[(EPOLLIN, 5%positive)]; [(EPOLLIN, 6%positive); (EPOLLIN, 5%positive)]; [(EPOLLIN, 7%positive)]])
    (<[8 := hello_line]> {[9 := str_of "wor"]}).

Definition echo_listener : listener_t :=
  mk_listener true zeroed 1 1 128 (Z.lor SOCK_CLOEXEC SOCK_NONBLOCK) (Some acceptor_id) (str_of "echo").

Definition server_env : env desk :=
  mk_env server_host loop_idle
    (7, mk_threads {[1%positive := mk_thread 7 []]} {[7 := 1%positive]} {[7 := 1%positive]} true)
    ∅ (mk_desk {[5%positive := echo_listener]} ∅ []).

(** What the answers of the desk's kernel depend on. *)
Definition desk_kernel (e : env desk) :=
  (h_script (e_host e), h_open (e_host e), h_input (e_host e), h_output (e_host e)).

#[export] Instance desk_kernel_frame : StoresFrame (env desk) desk_kernel.
Proof. by split. Qed.

Lemma desk_accepts fuel C fd (e : env desk) :
  h_script (e_host e) = [] → 7 ∈ h_open (e_host e) → new_fd (h_open (e_host e)) = fd → output fd (e_host e) = [] →
  fd ≠ -1 → (∀ a fd' st, C !! a = Some (fd', st) → fd' ≠ fd) →
  answers desk_sent 7 desk_kernel fuel C (Connect fd host_name) e.
Proof.
  intros Hs H7 Hnew Hout Hfd HC. split; [done|]. split; [by vm_compute|].
  split; [eexists; vm_compute; reflexivity|]. split; [done|]. intros e2 [= Hs2 Ho2 _ Hout2].
  eexists. cbn. unfold on_host, on_fd, attempt. rewrite Hs2, Ho2, Hs, decide_True by (split; [lia|done]).
  unfold open_fd. rewrite ?Ho2, Hnew. split; [reflexivity|]. unfold desk_sent, output. cbn. by rewrite Hout2.
Qed.

Lemma desk_reads fuel (C : clients) a fd st d (e : env desk) :
  C !! a = Some (fd, st) → fits fuel a st d e → 0 < zlen d < 2 ^ 31 → h_script (e_host e) = [] →
  input fd (e_host e) = d → answers desk_sent 7 desk_kernel fuel C (Data a d) e.
Proof.
  intros Ha Hfits Hd Hs Hin. exists fd, st. split; [done|]. split; [done|]. split; [done|].
  intros lens e2 [= Hs2 _ Hin2 _] Hn. eexists. cbn -[input]. unfold on_host, attempt. rewrite Hs2, Hs.
  unfold receive, input in *. rewrite Hin2, Hin, take_ge by lia. done.
Qed.

(** The client that a connection adds is the socket that is now served. *)
Lemma step_connect_at {E} `{!Malloc E, !Errno E, !IoOps E, !FdOps E, !SockOps E, !EpollOps E, !Events E, !Sockets E,
    !Logger E, !Threads E, !Loop E, !Listeners E, !Connectors E, !Clock E, !Stdout E, !Inet}
    sent refusal p lstn lfd C fd name C1 a s (e : E) :
  server_step (can_refuse E) C (Connect fd name) C1 → server sent refusal p lstn lfd C1 e → C !! a = None →
  sockets e !! a = Some s → s_cb s = Some ecprocessor_id → C1 = <[a := (fd, ([], []))]> C.
Proof.
  intros Hstep (_ & _ & _ & _ & _ & _ & Hall) Ha Hs Hcb. destruct (Hall a s Hs Hcb) as [x Hx].
  inversion Hstep as [? b ? ? Hb| |]; subst; [|congruence].
  apply lookup_insert_Some in Hx as [[-> _]|[_ Hx]]; [done|congruence].
Qed.

Lemma step_data_at scarce (C C1 : clients) a fd st d :
  server_step scarce C (Data a d) C1 → C !! a = Some (fd, st) → C1 = <[a := (fd, echo_step st d)]> C.
Proof. inversion 1; subst. by intros ?; simplify_eq. Qed.

Lemma server_env_serves : server desk_sent desk_refusal poll_sample 5 7 ∅ server_env.
Proof.
  split; [by split_and!|]. split; [by split; [|by exists 1%positive]|]. split; [by intros a [s Hs]|].
  split; [|split; [by intros ???|split; [by intros ?????|done]]].
  exists echo_listener, lstn_event. eexists. by split_and!.
Qed.

Lemma server_env_reports : reported desk_sent desk_refusal poll_sample 5 7 desk_kernel 30 ∅ [Connect 8 host_name] server_env.
Proof.
  split; [done|]. eexists. split; [vm_compute; reflexivity|]. split; [|done].
  apply desk_accepts; try done; by vm_compute.
Qed.

(** * Witnesses *)

Lemma server_round_refines_witness :
  ∃ C' e', loop_round (echo_call 30) 30 server_env = Ret (tt, e') ∧
    server_steps (can_refuse (env desk)) ∅ [Connect 8 host_name] C' ∧ server desk_sent desk_refusal poll_sample 5 7 C' e' ∧ core e' = core server_env.
Proof.
  apply (server_round_refines desk_sent desk_refusal poll_sample desk_interest 5 7 desk_kernel 30 ∅
    [Connect 8 host_name] server_env server_env_serves server_env_reports). lia.
Defined.

Lemma connection_is_served_witness :
  ∃ e', loop_round (echo_call 30) 30 server_env = Ret (tt, e') ∧
    ((∃ a, events server_env !! a = None ∧ server desk_sent desk_refusal poll_sample 5 7 (<[a := (8, ([], []))]> ∅) e' ∧
        (desk_interest e' = <[8 := (u32 (newmask_of EVMASK_READ), a)]> (desk_interest server_env) ∨
         desk_interest e' = desk_interest server_env ∧ unregistered poll_sample 8 a e')) ∨
     server desk_sent desk_refusal poll_sample 5 7 ∅ e' ∧ sockets e' = sockets server_env ∧ turned_away 7 8 host_name e').
Proof.
  apply (connection_is_served desk_sent desk_refusal poll_sample desk_interest 5 7 desk_kernel 30 ∅ 8 host_name
    server_env server_env_serves server_env_reports). lia.
Defined.

(** Three polls: a connection; its line, with one connection more; and the start
    of a line from there. *)
Definition polls_sample : list (list report) :=
  [[Connect 8 host_name]; [Data 6 hello_line; Connect 9 host_name]; [Data 7 (str_of "wor")]].

(** Go on with the state that was computed. *)
Ltac next_state C :=
  let e := fresh "e" in let H := fresh "H" in
  intros C e H; vm_compute in H; injection H as <-.

Ltac desk_fits :=
  eexists _, _, _; split_and!; [vm_compute; reflexivity..|by vm_compute|];
  first [left; by vm_compute|right; split_and!; [by vm_compute|by vm_compute|vm_compute; lia]].

Lemma polls_sample_reported :
  all_reported desk_sent desk_refusal poll_sample 5 7 desk_kernel 30 ∅ polls_sample server_env.
Proof.
  split; [apply server_env_reports|]. next_state C1. intros Hsteps Hserv.
  inversion Hsteps as [|? ? C2 ? ? Hstep Hnil]; subst. inversion Hnil; subst. clear Hsteps Hnil.
  rewrite (step_connect_at _ _ _ _ _ _ _ _ _ 6 _ _ Hstep Hserv) by (vm_compute; reflexivity). clear.
  split.
  - split; [done|]. eexists. split; [vm_compute; reflexivity|]. split.
    { eapply desk_reads; [reflexivity|desk_fits|by vm_compute|reflexivity|vm_compute; reflexivity]. }
    next_state C2. intros Hstep Hserv. rewrite (step_data_at _ _ _ _ _ _ _ Hstep eq_refl). clear.
    split; [|done]. apply desk_accepts; try done; [by vm_compute..|].
    intros a fd st. rewrite !lookup_insert_Some, lookup_empty.
    by intros [(_ & [= <- _])|(_ & [(_ & [= <- _])|(_ & [=])])].
  - next_state C2. intros Hsteps Hserv. inversion Hsteps as [|? ? C3 ? ? Hstep1 Hrest]; subst.
    inversion Hrest as [|? ? C4 ? ? Hstep2 Hnil]; subst. inversion Hnil; subst. clear Hsteps Hrest Hnil.
    rewrite (step_data_at _ _ _ _ _ _ _ Hstep1 eq_refl) in Hstep2.
    rewrite (step_connect_at _ _ _ _ _ _ _ _ _ 7 _ _ Hstep2 Hserv) by (vm_compute; reflexivity). clear.
    split; [|done]. split; [done|]. eexists. split; [vm_compute; reflexivity|]. split; [|done].
    eapply desk_reads; [reflexivity|desk_fits|by vm_compute|reflexivity|vm_compute; reflexivity].
Qed.

Lemma server_conserves_witness :
  ∃ C e', rounds (loop_round (echo_call 30) 30) (length polls_sample) server_env e' ∧
    server_steps (can_refuse (env desk)) ∅ (concat polls_sample) C ∧
    ∀ a fd st, C !! a = Some (fd, st) → ∃ s i o,
      sockets e' !! a = Some s ∧ istm s = Some i ∧ ostm s = Some o ∧
      desk_sent fd e' ++ contents (sbuf o) ++ contents (sbuf i) = cells (from a (concat polls_sample)) ∧
      flushed (desk_refusal fd) Some o e'.
Proof.
  apply (server_conserves desk_sent desk_refusal poll_sample desk_interest 5 7 desk_kernel 30 polls_sample server_env
    server_env_serves); [done|lia|exact polls_sample_reported|].
  repeat constructor; apply (bool_decide_unpack _); by vm_compute.
Defined.

(** The whole run of the sample: both clients are served, each on its own
    descriptor. *)
Example server_run :
  match (loop_round (echo_call 30) 30;; loop_round (echo_call 30) 30;;
         loop_round (echo_call 30) 30) server_env with
  | Ret (_, e) => dom (sockets e) = {[6; 7]}%positive ∧ desk_sent 8 e = cells (str_of "hello" ++ crlf) ∧ desk_sent 9 e = []
  | _ => False
  end.
Proof. by vm_compute. Qed.
