(* ===== verification/Api.v ===== *)
(** * The tables of functions

    A program reaches the library through one table of functions per component
    ([buffer.printf], [stream.flush], ...), which its header declares and its
    source fills in by position.  Each table is a record here, filled by
    position too.  A client of byte buffers is proved correct against what
    every table of that type should promise, and the table of the library
    keeps the promise. *)
From S2P Require Import Prelude Alloc Sys Cstring Lock Log Thread Event Host Buffer Stream.
From S2P Require Import Eventpoll Eventloop Sockaddr Net Socket Listener Connector Util Usage Signals.

Module BufferTable.
Record buffer_ {E : Type} := mk {
  new : Z → M E (option buffer_t);
  free : buffer_t → M E buffer_t;
  read : buffer_t → bool → Z → outcome (Z * block * buffer_t);
  write : buffer_t → option block → Z → M E (Z * buffer_t);
  avail : buffer_t → Z;
  rpos : buffer_t → Z;
  space : buffer_t → Z;
  wpos : buffer_t → Z;
  yield : buffer_t → list byte → outcome (option (Z * Z) * buffer_t);
  len : buffer_t → Z;
  extend : buffer_t → Z → M E (Z * buffer_t);
  vprintf : buffer_t → option (list byte) → M E (Z * buffer_t);
  printf : buffer_t → option (list byte) → M E (Z * buffer_t);
}.
Arguments buffer_ : clear implicits.

Definition buffer {E} `{!Malloc E} : buffer_ E :=
  mk E buffer_new buffer_free buffer_read buffer_write buffer_avail buffer_rpos buffer_space buffer_wpos
    buffer_yield buffer_len buffer_extend buffer_vprintf buffer_printf.
End BufferTable.

Module StreamTable.
Record stream_ {E : Type} := mk {
  new : Z → Z → Z → M E (option stream_t);
  free : stream_t → M E stream_t;
  close : nat → stream_t → M E (Z * stream_t);
  open_fd : Z → Z → Z → M E (option stream_t);
  open_file : list byte → Z → Z → M E (option stream_t);
  lock : stream_t → outcome stream_t;
  unlock : stream_t → stream_t;
  err : stream_t → Z;
  read : nat → stream_t → bptr → Z → bool → M E (Z * option Z * bptr * stream_t);
  write : nat → stream_t → option block → Z → M E (Z * option Z * stream_t);
  fill : stream_t → M E (Z * option Z * stream_t);
  flush : nat → stream_t → M E (Z * stream_t);
  seek : nat → stream_t → Z → Z → M E (Z * option Z * stream_t);
  yield : stream_t → list byte → outcome (option (Z * Z) * stream_t);
  set_mask : stream_t → Z → stream_t;
  get_mask : stream_t → Z;
  buffer : stream_t → buffer_t;
  vprintf : stream_t → option (list byte) → M E (Z * stream_t);
  printf : stream_t → option (list byte) → M E (Z * stream_t);
}.
Arguments stream_ : clear implicits.

(** [funcs]: those of the streams it is used for; [O_LARGEFILE] depends on the
    system. *)
Definition stream {E} `{!Malloc E, !Errno E, !FdOps E} (funcs : stream_funcs E) (O_LARGEFILE : Z) : stream_ E :=
  mk E stream_new stream_free (stream_close funcs) stream_fd_open (stream_file_open O_LARGEFILE)
    stream_lock stream_unlock stream_errno (stream_read funcs) (stream_write funcs) (stream_fill funcs)
    (stream_flush funcs) (stream_seek funcs) stream_yield stream_set_mask stream_get_mask stream_buffer
    stream_vprintf stream_printf.
End StreamTable.

Module LockTable.
Record lock_ := mk { lock : nat → Z → outcome Z; unlock : Z → Z }.

Definition lock_table : lock_ := mk mtx_lock mtx_unlock.
End LockTable.

Module EventTable.
Record event_ {E : Type} := mk {
  new : M E (option positive);
  free : positive → M E unit;
  init : positive → Z → Z → option event_pt → Z → M E unit;
}.
Arguments event_ : clear implicits.

Definition event {E} `{!Malloc E, !Events E} : event_ E := mk E event_new event_free event_init.
End EventTable.

Module EventpollTable.
Record eventpoll_ {E : Type} := mk {
  new : Z → M E (option eventpoll_t);
  free : eventpoll_t → M E unit;
  apply : eventpoll_t → positive → M E Z;
  wakeup : eventpoll_t → M E unit;
  poll : (eventpoll_t → positive → Z → M E unit) → eventpoll_t → M E Z;
}.
Arguments eventpoll_ : clear implicits.

Definition eventpoll {E} `{!Malloc E, !Errno E, !Events E, !Logger E, !IoOps E, !FdOps E, !EpollOps E} : eventpoll_ E :=
  mk E eventpoll_new eventpoll_free eventpoll_apply eventpoll_wakeup eventpoll_poll.
End EventpollTable.

Module EventloopTable.
Record eventloop_ {E : Type} := mk {
  new : Z → M E bool;
  free : M E unit;
  init : Z → M E unit;
  uninit : M E unit;
  apply : positive → M E Z;
  loop : (event_pt → positive → M E unit) → nat → nat → M E unit;
  exit : M E unit;
}.
Arguments eventloop_ : clear implicits.

Definition eventloop {E} `{!Malloc E, !Errno E, !Events E, !Logger E, !IoOps E, !FdOps E, !EpollOps E, !Threads E, !Loop E} :
    eventloop_ E :=
  mk E eventloop_new eventloop_free eventloop_init eventloop_uninit eventloop_apply eventloop_loop eventloop_exit.
End EventloopTable.

Module SocketTable.
Record socket_ {E : Type} := mk {
  new : Z → option sockaddr_t → option sockaddr_t → M E (option positive);
  free : positive → M E unit;
  enable : positive → Z → M E Z;
  shutdown : positive → Z → M E Z;
  nonblock : Z → Z → M E unit;
  for_addr : sockaddr_t → Z → Z → M E Z;
}.
Arguments socket_ : clear implicits.

Definition socket {E} `{!Malloc E, !Errno E, !Events E, !Logger E, !IoOps E, !FdOps E, !EpollOps E, !SockOps E,
    !Threads E, !Loop E, !Sockets E} : socket_ E :=
  mk E socket_new_from_fd socket_free socket_enable socket_shutdown socket_nonblock socket_for_addr.
End SocketTable.

Module ListenerTable.
Record listener_ {E : Type} := mk {
  new : list byte → option Z → M E positive;
  free : positive → M E unit;
  bind : positive → sockaddr_t → M E Z;
  fd : positive → M E Z;
  loop : positive → M E bool;
  set_backlog : positive → Z → M E unit;
  enable : positive → Z → M E Z;
}.
Arguments listener_ : clear implicits.

Definition listener {E} `{!Malloc E, !Errno E, !Events E, !Logger E, !IoOps E, !FdOps E, !EpollOps E, !SockOps E,
    !Threads E, !Loop E, !Sockets E, !Listeners E} : listener_ E :=
  mk E listener_new listener_free listener_bind listener_fd listener_loop listener_set_backlog listener_enable.
End ListenerTable.

Module ConnectorTable.
Record connector_ {E : Type} := mk {
  new : list byte → option Z → M E (option positive);
  free : positive → M E unit;
  bind : positive → sockaddr_t → M E unit;
  connect : (Z → positive → Z → sock_arg → M E unit) → positive → M E unit;
  loop : positive → M E bool;
}.
Arguments connector_ : clear implicits.

Definition connector {E} `{!Malloc E, !Errno E, !Events E, !Logger E, !IoOps E, !FdOps E, !EpollOps E, !SockOps E,
    !Threads E, !Loop E, !Sockets E, !Connectors E} : connector_ E :=
  mk E connector_new connector_free connector_bind connector_connect connector_loop.
End ConnectorTable.

Module SockaddrTable.
Record sockaddr_ {E : Type} := mk {
  len : sockaddr_t → Z;
  v4 : option (list byte) → Z → Z * sockaddr_t;
  v6 : option (list byte) → Z → M E (Z * sockaddr_t);
  ux : sockaddr_t → option (list byte) → Z → outcome (Z * sockaddr_t);
  from_addrinfo : addrinfo → outcome (Z * sockaddr_t);
  from_hostent : Z → list byte → outcome (Z * sockaddr_t);
  set_port : sockaddr_t → Z → sockaddr_t;
  sockname : Z → M E (Z * sockaddr_t);
  peername : Z → M E (Z * sockaddr_t);
  string : sockaddr_t → block → Z → outcome block;
}.
Arguments sockaddr_ : clear implicits.

Definition sockaddr {E} `{!Errno E, !SockOps E, !Resolver E, !Inet} : sockaddr_ E :=
  mk E sockaddr_len sockaddr_set_v4 sockaddr_set_v6 sockaddr_set_unix sockaddr_set_from_addrinfo
    sockaddr_set_from_hostent sockaddr_set_port sockaddr_sockname sockaddr_peername sockaddr_string.
End SockaddrTable.

Module LoggerTable.
Record logger_ {E : Type} := mk {
  set_level : Z → M E Z;
  get_level : M E Z;
  loglvl : Z → list byte → M E unit;
  logv : Z → list byte → M E unit;
  stacktrace : Z → list (list byte) → M E unit;
  debug : list byte → M E unit;
  warn : list byte → M E unit;
  err : list byte → M E unit;
}.
Arguments logger_ : clear implicits.

Definition logger {E} `{!Logger E} : logger_ E :=
  mk E log_setlevel log_getlevel Log.loglvl Log.logv log_stacktrace log_debug log_warn log_err.
End LoggerTable.

Module TimerTable.
Record timer_ {E : Type} := mk { now : M E Z }.
Arguments timer_ : clear implicits.

Definition timer {E} `{!Clock E} : timer_ E := mk E timer_now.
End TimerTable.

Module NetTable.
(** Every function but [readn], [writen], [peer] and [local] can be given a
    place for the text of the error, or none. *)
Record net_ {E : Type} := mk {
  tcp_connect : bool → list byte → Z → Z → M E Z;
  unix_connect : bool → list byte → Z → M E Z;
  readn : nat → Z → Z → M E (Z * list byte);
  writen : nat → Z → block → Z → M E Z;
  resolve : bool → list byte → Z → M E (Z * option (list byte));
  tcp_server : bool → Z → option (list byte) → Z → M E Z;
  unix_server : bool → list byte → Z → M E Z;
  tcp_accept : nat → bool → Z → option Z → bool → M E (Z * option (list byte) * option Z);
  unix_accept : nat → bool → Z → M E Z;
  nonblock : bool → Z → M E Z;
  tcp_nodelay : bool → Z → Z → M E Z;
  tcp_keepalive : bool → Z → Z → M E Z;
  peer : Z → option Z → bool → M E (Z * option (list byte) * option Z);
  local : Z → option Z → bool → M E (Z * option (list byte) * option Z);
}.
Arguments net_ : clear implicits.

Definition net {E} `{!Errno E, !Logger E, !IoOps E, !FdOps E, !SockOps E, !Resolver E, !ErrBuf E, !Inet} : net_ E :=
  mk E Net.tcp_connect Net.unix_connect Net.readn Net.writen Net.resolve Net.tcp_server Net.unix_server
    Net.tcp_accept Net.unix_accept tcp_nonblock Net.tcp_nodelay Net.tcp_keepalive Net.peer Net.local.
End NetTable.

Module UtilTable.
Record util_ {E : Type} := mk {
  pid_check : list byte → M E Z;
  pid_write : list byte → M E Z;
  pid_remove : list byte → M E unit;
  fd_limit : nat → Z → M E Z;
  tempfd : list byte → Z → Z → M E (Z * list byte);
  handle_term : option Z → Z → M E unit;
  handle_crash : Z → M E unit;
  cpu_used : cpu_statics → M E (Z * cpu_statics);
  mem_used : M E Z;
}.
Arguments util_ : clear implicits.

Definition util {E} `{!Errno E, !FdOps E, !Files E, !Rlimit E, !TempSeed E, !Signals E, !ProcFs E}
    (scan_in_place : list byte → outcome (list byte)) : util_ E :=
  mk E Util.pid_check Util.pid_write Util.pid_remove Util.fd_limit Util.tempfd Signals.handle_term Signals.handle_crash
    (Usage.cpu_used scan_in_place) Usage.mem_used.
End UtilTable.

(** * Byte queues

    What a table of functions for byte buffers should promise: a buffer stands
    for a list of bytes, which text is put behind and bytes and records are
    taken from in front. *)
Import BufferTable.

Class ByteQueue {E : Type} (B : buffer_ E) (rep : buffer_t → list byte → Prop) := {
  q_new sz e : ∃ o e', new B sz e = Ret (o, e') ∧ match o with Some b => rep b [] | None => True end;
  q_avail b l : rep b l → avail B b = zlen l;
  q_put b l text e : rep b l → 0 < zlen text < space B b →
    ∃ b', printf B b (Some text) e = Ret ((zlen text, b'), e) ∧ rep b' (l ++ text);
  q_get b l n : rep b l → is_u32 n →
    ∃ b', read B b true n = Ret (Z.min n (zlen l), cells (take (Z.to_nat n) l), b') ∧ rep b' (drop (Z.to_nat n) l);
  q_line b l delim : rep b l →
    match memmem l delim with
    | Some k => ∃ pos b', yield B b delim = Ret (Some (pos, zlen delim + Z.of_nat k), b') ∧
        mem_read (buf b') pos (zlen delim + Z.of_nat k) = Ret (cells (take (k + length delim) l)) ∧
        rep b' (drop (k + length delim) l)
    | None => yield B b delim = Ret (None, b)
    end;
  q_extend b l n e : rep b l → 0 < n → zlen l + n < 2 ^ 32 →
    ∃ r b' e', extend B b n e = Ret ((r, b'), e') ∧ rep b' l ∧ (r = 0 → n ≤ space B b');
}.

(** ** A client *)

(** Its operations, and what it gets back: the bytes, or nothing. *)
Inductive q_op := Put (text : list byte) | Get (n : Z) | Line (delim : list byte) | Grow (n : Z).

Section client.
Context {E : Type} (B : buffer_ E).

Definition run_q (op : q_op) (b : buffer_t) : M E (block * buffer_t) :=
  match op with
  | Put text => '(_, b) ← printf B b (Some text); mret ([], b)
  | Get n => '(_, d, b) ← lift (read B b true n); mret (d, b)
  | Line delim =>
      '(r, b) ← lift (yield B b delim);
      match r with
      | Some (pos, n) => d ← lift (mem_read (buf b) pos n); mret (d, b)
      | None => mret ([], b)
      end
  | Grow n => '(_, b) ← extend B b n; mret ([], b)
  end.

Fixpoint run_qs (ops : list q_op) (b : buffer_t) : M E (list block * buffer_t) :=
  match ops with
  | [] => mret ([], b)
  | op :: ops => '(d, b) ← run_q op b; '(ds, b) ← run_qs ops b; mret (d :: ds, b)
  end.

(** Text is shorter than the free space, and numbers are of their type. *)
Definition q_ready (op : q_op) (b : buffer_t) : Prop :=
  match op with
  | Put text => 0 < zlen text < space B b
  | Get n => is_u32 n
  | Line _ => True
  | Grow n => 0 < n ∧ avail B b + n < 2 ^ 32
  end.

Fixpoint qs_ready (ops : list q_op) (b : buffer_t) (e : E) : Prop :=
  match ops with
  | [] => True
  | op :: ops => q_ready op b ∧ ∀ d b1 e1, run_q op b e = Ret ((d, b1), e1) → qs_ready ops b1 e1
  end.
End client.

(** The same on lists. *)
Definition list_q (op : q_op) (l : list byte) : list byte * list byte :=
  match op with
  | Put text => ([], l ++ text)
  | Get n => (take (Z.to_nat n) l, drop (Z.to_nat n) l)
  | Line delim =>
      match memmem l delim with
      | Some k => (take (k + length delim) l, drop (k + length delim) l)
      | None => ([], l)
      end
  | Grow _ => ([], l)
  end.

Fixpoint list_qs (ops : list q_op) (l : list byte) : list (list byte) * list byte :=
  match ops with
  | [] => ([], l)
  | op :: ops => let '(d, l) := list_q op l in let '(ds, l) := list_qs ops l in (d :: ds, l)
  end.

Section client_proof.
Context {E : Type} (B : buffer_ E) (rep : buffer_t → list byte → Prop) `{!ByteQueue B rep}.

(** Proved from the promise alone. *)
Lemma client_step op b l (e : E) :
  rep b l → q_ready B op b →
  ∃ b' e', run_q B op b e = Ret ((cells (fst (list_q op l)), b'), e') ∧ rep b' (snd (list_q op l)).
Proof.
  intros Hb Hop. destruct op as [text|n|delim|n]; cbn [run_q list_q q_ready fst snd] in *.
  - destruct (q_put b l text e Hb Hop) as (b' & Hrun & Hb'). autorewrite with run. rewrite Hrun.
    autorewrite with run. eauto.
  - destruct (q_get b l n Hb Hop) as (b' & -> & Hb'). autorewrite with run. eauto.
  - pose proof (q_line b l delim Hb) as Hl. destruct (memmem l delim) as [k|].
    + destruct Hl as (pos & b' & -> & Hm & Hb'). autorewrite with run. rewrite Hm. autorewrite with run. eauto.
    + rewrite Hl. autorewrite with run. eauto.
  - destruct Hop as [Hn Hlen]. rewrite (q_avail b l Hb) in Hlen.
    destruct (q_extend b l n e Hb Hn Hlen) as (r & b' & e' & Hrun & Hb' & _). autorewrite with run. rewrite Hrun.
    autorewrite with run. eauto.
Qed.

Lemma client_runs ops b l (e : E) :
  rep b l → qs_ready B ops b e →
  ∃ b' e', run_qs B ops b e = Ret ((fmap (λ d : list byte, cells d) (fst (list_qs ops l)), b'), e') ∧
    rep b' (snd (list_qs ops l)).
Proof.
  revert b l e. induction ops as [|op ops IH]; intros b l e Hb Hr; [by exists b, e|].
  destruct Hr as [Hop Hnext]. destruct (client_step op b l e Hb Hop) as (b1 & e1 & Hrun & Hb1).
  cbn [run_qs list_qs]. autorewrite with run. rewrite Hrun. autorewrite with run.
  destruct (list_q op l) as [d l1]. cbn [fst snd] in *.
  destruct (IH b1 l1 e1 Hb1 (Hnext _ _ _ Hrun)) as (b2 & e2 & -> & Hb2). autorewrite with run.
  destruct (list_qs ops l1) as [ds l2]. exists b2, e2. done.
Qed.
End client_proof.

(** ** The table of the library keeps the promise *)

Definition buffer_rep (b : buffer_t) (l : list byte) : Prop := wf_buffer b ∧ contents b = cells l.

Section buffer_queue.
Context {E : Type} `{!Malloc E}.

#[export] Instance buffer_queue : ByteQueue (buffer (E := E)) buffer_rep.
Proof.
  split; cbn [new avail printf read yield extend space buffer].
  - intros sz e. unfold buffer_new, alloc, default_alloc. autorewrite with run.
    destruct (malloc_ok 24 e) as [[] e1]; cbn [negb]; autorewrite with run; [|by exists None, e1].
    destruct (malloc_ok _ e1) as [[] e2]; autorewrite with run; [|by exists None, e2].
    eexists (Some _), e2. split; [done|]. split; [|done]. eexists. split; [done|].
    cbn [buf size Buffer.rpos Buffer.wpos]. change (Z.shiftl 1 BUF_SIZE_P) with 8192.
    rewrite length_replicate. destruct (sz =? 0); lia.
  - intros b l [H Hc]. by rewrite avail_contents, Hc, length_fmap.
  - intros b l text e [H Hc] Hn. rewrite space_val in Hn by done.
    destruct (vprintf_here b text e H) as (b' & Hrun & Hwf & Hc'); [lia|].
    exists b'. split; [done|]. split; [done|]. rewrite Hc', Hc, fmap_app. unfold printed.
    by destruct (Z.ltb_spec (zlen text) (size b - Buffer.wpos b)); [|lia].
  - intros b l n [H Hc] Hn. assert (0 ≤ n) by (unfold is_u32 in Hn; lia).
    destruct (read_run b true n (Z.min n (zlen l)) H Hn) as (b' & Hrun & Hwf & Hc' & _);
      [by rewrite Hc, length_fmap|]. exists b'.
    assert (take (Z.to_nat (Z.min n (zlen l))) l = take (Z.to_nat n) l ∧
      drop (Z.to_nat (Z.min n (zlen l))) l = drop (Z.to_nat n) l) as [Ht Hd].
    { destruct (Z.le_gt_cases n (zlen l)); [by rewrite Z.min_l by lia|]. rewrite Z.min_r by lia.
      rewrite Nat2Z.id, firstn_all, drop_all, take_ge, drop_ge by lia. done. }
    rewrite Hrun, Hc, <- fmap_take, Ht. split; [done|]. split; [done|].
    by rewrite Hc', Hc, <- fmap_drop, Hd.
  - intros b l delim [H Hc]. pose proof (yield_run b delim l H Hc) as Hy.
    destruct (memmem l delim) as [k|] eqn:Hk; [|done]. destruct Hy as (b' & Hy & Hwf & Hc' & Hb & _).
    exists (Buffer.rpos b), b'. rewrite Z.add_comm. split; [done|]. split; [|by split].
    rewrite Hb, <- Nat2Z.inj_add. apply unread_memory; [done..|by apply memmem_fits].
  - intros b l n e [H Hc] Hn Hlen. destruct (buffer_extend_keeps b n e) as (b' & e' & Hrun & Hwf & Hc' & _ & Hsp & _);
      [done|lia|rewrite Hc, length_fmap; lia|].
    exists (extend_result b n e), b', e'. split; [done|]. split; [split; congruence|done].
Qed.
End buffer_queue.

(** * Theorems *)

(** C19: byte buffers are queues of bytes, as seen through the table of the
    library, as long as every text printed is shorter than the free space (one
    that fills it loses its last byte, see [buffer_printf]): over any sequence
    of such prints, of reads, searches for records and extensions, the bytes and records handed out are those that the same
    operations on a list of bytes give, whatever the allocator answers; what is
    left is the buffer's list.  (Proved for every table that keeps the promise
    [ByteQueue].) *)
Theorem buffer_is_queue {E} `{!Malloc E} ops b l (e : E) :
  buffer_rep b l → qs_ready buffer ops b e →
  ∃ b' e', run_qs buffer ops b e = Ret ((fmap (λ d : list byte, cells d) (fst (list_qs ops l)), b'), e') ∧
    buffer_rep b' (snd (list_qs ops l)).
Proof. intros Hb Hr. exact (client_runs buffer buffer_rep ops b l e Hb Hr). Qed.

(** * Witnesses *)

Definition q_sample : list q_op := [Put de; Line [x63; x64]; Grow 3; Get 5; Line [x64]].

Lemma buffer_is_queue_witness :
  ∃ b' e', run_qs buffer q_sample (small 2 abc) tt =
      Ret ((fmap (λ d : list byte, cells d) (fst (list_qs q_sample abc)), b'), e') ∧
    buffer_rep b' (snd (list_qs q_sample abc)).
Proof.
  apply (buffer_is_queue (E := unit) q_sample (small 2 abc) abc tt); [split; [wf_small|done]|].
  split; [by vm_compute|]. intros d1 b1 e1 H1. vm_compute in H1. injection H1 as <- <- <-.
  split; [done|]. intros d2 b2 e2 H2. vm_compute in H2. injection H2 as <- <- <-.
  split; [by vm_compute|]. intros d3 b3 e3 H3. vm_compute in H3. injection H3 as <- <- <-.
  split; [by vm_compute|]. intros d4 b4 e4 H4. vm_compute in H4. injection H4 as <- <- <-.
  split; [done|]. done.
Defined.
